(* ===== verification/_CoqProject ===== *)
-Q . S2P
Prelude.v
Float64.v
FloatDiv.v
Params.v
Transform.v
File.v
FileTheorems.v
Driver.v
Sample.v
Alloc.v
Ops.v
Write.v
WriteTheorems.v
Event.v
Loading.v
Histogram.v
Counts.v
Handler.v
Monitor.v
Mask.v
PixelROI.v
Names.v
Axis.v
Channel.v
Tasks.v
System.v
TaskTheorems.v
Init.v
Invariant.v
Acquisition.v
Requests.v
Start.v
Ioc.v
Steady.v
Setup.v
Recording.v
