(* ===== verification/Prelude.v ===== *)
(** * ADnED: a verification library

    ADnED is an areaDetector driver for neutron event data.  A PVAccess server sends
    structures with lists of pixel IDs and times of flight; the driver turns them into
    histograms, one of the pixels and one of the times of flight for each detector, in
    one shared buffer, which it copies at intervals into arrays for plug-ins.  The
    sources are under src/ADnEDApp/src; the names below are theirs.

    ** The program

    - Clients (EPICS records) configure and control the driver through the asyn
      parameter library: [writeInt32], [writeFloat64] and [writeOctet] of class ADnED.
    - [eventTask] waits for the start and stop events that those handlers signal; at a
      start it lays out the buffer ([allocArray]), connects the channels
      ([setupChannelMonitor]) and starts their monitors.
    - A PVAccess thread calls [nEDMonitorRequester::monitorEvent], which passes every
      structure to [eventHandler].
    - [frameTask] waits for its own start and stop events and publishes the buffer.
    - Transformations of the time of flight (ADnEDTransform) and pixel maps are loaded
      from text files (ADnEDFile).
    - Two plug-ins (NDPluginMask, ADnEDPixelROI) and an aSub record (ADnEDAxis.c) work
      on the published arrays.

    ** The files

    - Prelude: machine integers with their conversions, outcomes with exceptions and
      undefined behaviour as values, the state monad [M] with its loops, weakest
      preconditions ([wp], [wp_ok], [wp_step]), stability under a relation ([stable],
      [stable_split]), safety under an invariant ([safe], [safe_split]), sums of
      regions, bounded tables ([rd], [wr], [upd]).
    - Float64, FloatDiv: double floats, their conversions to and from integers, and the
      exactness of the division used for the time-of-flight bins.
    - Params: the parameters of ADnED.h and ADnED.cpp and the interface to the asyn
      parameter library ([ParamLib], its laws [ParamLibLaws], and [DriverLib] for the
      driver's port), with association lists as an instance.
    - Transform: ADnEDTransformBase.cpp and ADnEDTransform.cpp; the class [Transformer]
      is what the driver uses of them.
    - File, FileTheorems: ADnEDFile.cpp.
    - Driver: the members of class ADnED, its constructor, [clearParams],
      [resetTOFArray], [checkPixelMap] and [matchTrans*].  Sample: concrete instances.
    - Alloc: [allocArray].  Ops: theorems about the shared operations.
    - Write, WriteTheorems: the three write handlers.  Loading: from a file that a
      client names to the times of flight of the events.
    - Event: [eventHandler].  Histogram, Counts, Handler: the event loops against a
      reference histogram, what the counters count, and the handler as a whole.
      Monitor: [monitorEvent] of nEDChannel.cpp, a queue of structures.
    - Mask: ADnEDPluginMask.cpp.  PixelROI: ADnEDPixelROI.cpp.  Axis: ADnEDAxis.c.
    - Names: the parameter names of the three headers and the calls of [createParam].
    - Channel: [setupChannelMonitor] and the requesters of nEDChannel.cpp.
    - Tasks: [eventTask] and [frameTask], from one wait to the next.  System: the step
      relation of the whole driver, with the clients' requests of all three kinds and
      the PVAccess thread, and its executable form.  TaskTheorems: what the steps keep.
    - Init: the initial writes of the constructor.  Invariant, Acquisition, Requests:
      theorems about every run of the whole driver from its constructor.  Start: the
      start of an acquisition.
    - Ioc: the constructor as a whole, with its early returns and exceptions, the shell
      commands of the driver and of the plug-ins, and ADnEDMain.cpp.
    - Steady: what the clients, the frame task and other structures leave in place while
      an acquisition runs.  Setup: from the layout that [allocArray] publishes to the
      tables of the handler.  Recording: a whole acquisition.

    Each operation of the sources is a function of the same name; where an operation
    is long its parts have names of their own.  A member of class ADnED is a field of
    the record [driver] with the name of the member; the per-detector tables that
    [eventHandler] fills together are one table of records [detvals].

    ** What is proved

    - Layout (C1, C2): the regions [allocArray] publishes partition a zeroed buffer;
      what a reversed pixel range leaves behind.
    - Histograms (C3 to C6): the event loops refine a reference that lists, for each
      event and detector, the words it counts in; without filters the counters count
      exactly the events; the floating-point bins are integer quotients; the last bin
      of a plot row spills over.
    - The handler (C7 to C9): the mutex is balanced on every path; sequence numbers and
      malformed structures.  Handler.v also has what an accepted structure and a
      backward time stamp do, which the theorem about a queue uses.
    - Names (C10): every parameter is created with a name of its own and with the type by
      which each function of the code accesses it, and the comparison that singles out
      the parameters of the base classes is exact.
    - The monitor loop (C11): a queue of structures adds exactly the cells of all its
      events, by an invariant of what the handler keeps for the next structure.
    - A whole acquisition (C25): from the start on, in whatever order the frame task, the
      structures and the clients that leave the setup alone come, the buffer holds the
      reference histogram of the events so far, counted against the layout of the start.
    - Shared operations (C12 to C14), transformations (C15, C17) and files
      (C18 to C20): functional behaviour, bounds, termination and round trips; with the
      inputs that are fatal, a failing [calloc] (C15), a pixel ID beyond the arrays (C17)
      and a line that starts with NUL (C18).
    - The shell command (C16): when the constructor succeeds, when the command answers
      an error, and when it answers success for a driver that cannot be used.
    - The whole driver from its constructor (C21, C23, C28): it refines an automaton of
      the start and stop commands, and no acquisition begins without a start of its own;
      an invariant of tables, buffer, maps, transformations and configuration holds in
      every reachable state; and in every such state the clients' requests are answered
      without undefined behaviour when the memory they ask for can be had.
    - Write handlers (C22, C24, C26, C27): a transformation file is applied to the
      events, setup frozen during acquisition, the loading of pixel maps.
      WriteTheorems.v also has what the start command does.
    - Plug-ins and the axis record (C29 to C33): drawing refines painting, the masks are
      brought inside the array, the image of the region, the scale.
    - Channels (C34, C35): when connecting ends with a monitor that listens, when it
      throws, and the null channel it uses; a failed change of name leaves a stale
      monitor.
    - Tasks (C36 to C39): the acquisition protocol and the mutex in every reachable
      state of the system, what is published, and that a start succeeds.
    - Constructor (C40): it establishes the invariants the others assume.

    ** How the code is represented

    - Integers are of type [Z]; a value of a 32-bit or 64-bit type is reduced where the
      C++ conversion or operation reduces it ([u32], [i32], [u64]), and an overflow of a
      signed operation is undefined behaviour ([int_result]).  Doubles are Rocq's
      primitive floats.
    - An access outside a table, a null pointer, a division by zero, a signed overflow,
      a conversion of a double out of the range of [int] and the use of an
      uninitialised pointer are values [UB].  The time of flight of an event is converted
      to [epicsUInt32] for every detector that takes the event, as on line 1188 of
      ADnED.cpp, so a transformed one that is no such integer is [UB] there
      ([all_convert] excludes it).
    - Loops are structural recursions over the list of indices they go through.  Two
      loops take fuel: the file reader ([read_loop]) the length of the stream plus one,
      which is proved sufficient (C19), and the check of a pixel map ([check_entries])
      its recorded size, which is the number of turns when that size does not change.
    - The mutex is a counter of the number of times the running thread holds it.  The
      end of a task's wait and the code after it, up to its next wait, are two steps,
      between which the other threads run.  The code after a wait begins with [lock]
      and is one step, which begins when no other thread holds the mutex; the poll of
      the acquisition loop that ends without the event takes no mutex and needs none.
      Two stretches of code without the mutex are taken together with the step they
      belong to: the end of [eventTask]'s loop after a failed start, and the part of
      [eventHandler] between its two locks, which reads parameters into the tables of
      the detectors.
    - Not in this repository and therefore parameters: the asyn parameter library, time
      stamps of pvData, [pow], [strtod], the file system, [calloc], the array pool,
      [NDArray::getInfo], [NDArrayPool::convert], the PVAccess network, what the operating
      system answers to the constructor ([host]), the numbers of the acquisition states,
      the base-class [writeOctet].  Each is instantiated for the examples.  The answers of
      [calloc] are part of the label of a step ([memory]): they differ from one call of an
      operation to its next, and from step to step, in any way.  What the PVAccess network
      answers ([network]) differs from call to call: a channel or a monitor can be
      created, be a null pointer, or be refused by an exception.  The [errno] of the
      calling thread is an argument of a request and arbitrary.
    - Clients write any value to any parameter at any address of the port; the label of
      their step is the request with the status they get back.  They do not write
      ADStatus, whose records are read-only.

    ** Not modelled

    - Two structures handled at the same time: the PVAccess callbacks are one thread
      here.
    - The tasks before the end of the constructor, which creates them before it
      allocates the requesters and the transformations: the runs of System begin after
      the constructor.
    - The values [starting] assumes of a start (C25, C39) include that no channel keeps
      the monitor of an earlier one, which C35 shows can happen.
    - The text of messages and printouts (what they read of the driver is modelled:
      [printPixelMap], [printParams]), the debug dump of events, [report] and the calls
      that register the commands with the shell: they keep no state of the driver.
    - What [createParam] does in asyn: the lists of calls are modelled, with the numbers
      of the parameters as an argument.
    - The flag [m_debug] of ADnEDTransform, which no constructor initialises and which
      the calculations read to decide whether to print.
    - Exceptions of [getChannelName] and [isConnected] of a PVAccess channel.
    - Record databases, screens and start-up scripts, which are not C++ code. *)

From stdpp Require Import base numbers list option strings.

(** ** Machine integers

    [epicsUInt32], [epicsInt32] and [size_t] values are integers of [Z]
    together with the conversion that C++ applies when a wider or differently
    signed result is stored. *)

Declare Scope mach_scope.
Delimit Scope mach_scope with mach.

Definition u32 (z : Z) : Z := (z `mod` 2 ^ 32)%Z.

Definition u64 (z : Z) : Z := (z `mod` 2 ^ 64)%Z.

Definition i32 (z : Z) : Z :=
  let m := u32 z in if decide (m < 2 ^ 31)%Z then m else (m - 2 ^ 32)%Z.

Definition is_u32 (z : Z) : Prop := (0 <= z < 2 ^ 32)%Z.

Definition is_i32 (z : Z) : Prop := (- 2 ^ 31 <= z < 2 ^ 31)%Z.

Definition is_u64 (z : Z) : Prop := (0 <= z < 2 ^ 64)%Z.

#[export] Instance is_u32_dec z : Decision (is_u32 z).
Proof. unfold is_u32. apply _. Defined.

#[export] Instance is_i32_dec z : Decision (is_i32 z).
Proof. unfold is_i32. apply _. Defined.

#[export] Instance is_u64_dec z : Decision (is_u64 z).
Proof. unfold is_u64. apply _. Defined.

(** ** Outcomes

    A step of the program ends normally, leaves by a C++ exception, or runs
    into behaviour the language leaves undefined.  Undefined behaviour is a
    value, so that a theorem can rule it out. *)

Inductive fault : Type :=
  | OutOfBounds
  | NullDeref
  | DivByZero
  | SignedOverflow
  | BadConversion
  | Uninitialised.

Inductive outcome (A : Type) : Type :=
  | Ok (a : A)
  | Throw (what : string)
  | UB (f : fault).
Arguments Ok {A} a.
Arguments Throw {A} what.
Arguments UB {A} f.

#[export] Instance fault_eq_dec : EqDecision fault.
Proof. solve_decision. Defined.

#[export] Instance outcome_eq_dec `{EqDecision A} : EqDecision (outcome A).
Proof. solve_decision. Defined.

#[export] Instance outcome_ret : MRet outcome := λ A a, Ok a.

#[export] Instance outcome_bind : MBind outcome := λ A B k m,
  match m with
  | Ok a => k a
  | Throw e => Throw e
  | UB f => UB f
  end.

(** A checked value: [Some] is the value, [None] the fault [f]. *)
Definition require {A} (f : fault) (o : option A) : outcome A :=
  match o with Some a => Ok a | None => UB f end.

(** ** The state monad of the C++ code: a state, exceptions, undefined
    behaviour. *)

Definition M (S A : Type) : Type := S → outcome A * S.

#[export] Instance M_ret S : MRet (M S) := λ A a s, (Ok a, s).

#[export] Instance M_bind S : MBind (M S) := λ A B k m s,
  match m s with
  | (Ok a, s') => k a s'
  | (Throw e, s') => (Throw e, s')
  | (UB f, s') => (UB f, s')
  end.

Definition throw {S A} (e : string) : M S A := λ s, (Throw e, s).

Definition undefined {S A} (f : fault) : M S A := λ s, (UB f, s).

Definition gets {S A} (f : S → A) : M S A := λ s, (Ok (f s), s).

Definition modify {S} (f : S → S) : M S () := λ s, (Ok (), f s).

(** [catch m h]: a [try] block with a handler for every exception. *)
Definition catch {S A} (m : M S A) (h : string → M S A) : M S A := λ s,
  match m s with
  | (Throw e, s') => h e s'
  | r => r
  end.

(** A call that reads nothing of the state and does not change it. *)
Definition lift {S A} (o : outcome A) : M S A := λ s, (o, s).

Definition checked {S A} (f : fault) (o : option A) : M S A := lift (require f o).

(** Signed [int] arithmetic: a result outside the type is undefined. *)
Definition int_result {S} (z : Z) : M S Z :=
  if decide (is_i32 z) then mret z else undefined SignedOverflow.

(** [for (x : l) body]. *)
Fixpoint for_ {S A} (l : list A) (body : A → M S ()) : M S () :=
  match l with
  | [] => mret ()
  | x :: l' => body x ;; for_ l' body
  end.

(** A loop whose body may [return] from the enclosing function: the body
    yields [true] to go on, and the loop yields [false] when it was left. *)
Fixpoint for_return {S A} (l : list A) (body : A → M S bool) : M S bool :=
  match l with
  | [] => mret true
  | x :: l' => b ← body x; if (b : bool) then for_return l' body else mret false
  end.

(** A loop that threads a local variable. *)
Fixpoint for_acc {S A B} (l : list A) (b : B) (body : A → B → M S B) : M S B :=
  match l with
  | [] => mret b
  | x :: l' => b' ← body x b; for_acc l' b' body
  end.

(** Both: the body yields [None] to [return]. *)
Fixpoint for_acc_return {S A B} (l : list A) (b : B)
    (body : A → B → M S (option B)) : M S (option B) :=
  match l with
  | [] => mret (Some b)
  | x :: l' =>
      r ← body x b;
      match r with
      | Some b' => for_acc_return l' b' body
      | None => mret None
      end
  end.

(** ** Weakest preconditions

    [wp m Q E s]: from [s], [m] has no undefined behaviour, ends normally
    only in states satisfying [Q] and throws only in states satisfying
    [E].  [m] always ends: a program of type [M] is a total function. *)

Definition wp {S A} (m : M S A) (Q : A → S → Prop) (E : string → S → Prop)
    (s : S) : Prop :=
  match m s with
  | (Ok a, s') => Q a s'
  | (Throw e, s') => E e s'
  | (UB _, _) => False
  end.

(** No exception is allowed. *)
Definition wp_ok {S A} (m : M S A) (Q : A → S → Prop) : S → Prop :=
  wp m Q (λ _ _, False).

Section wp_rules.
Context {S : Type}.
Implicit Types (s : S).

Lemma wp_ret {A} (a : A) (Q : A → S → Prop) E s : Q a s → wp (mret a) Q E s.
Proof. done. Qed.

Lemma wp_bind {A B} (m : M S A) (k : A → M S B) Q E s :
  wp m (λ a, wp (k a) Q E) E s ↔ wp (m ≫= k) Q E s.
Proof. unfold wp, mbind, M_bind. destruct (m s) as [[] s']; done. Qed.

Lemma wp_bind_2 {A B} (m : M S A) (k : A → M S B) Q E s :
  wp m (λ a, wp (k a) Q E) E s → wp (m ≫= k) Q E s.
Proof. apply wp_bind. Qed.

Lemma wp_mono {A} (m : M S A) (Q Q' : A → S → Prop) (E E' : string → S → Prop) s :
  wp m Q E s → (∀ a s', Q a s' → Q' a s') → (∀ e s', E e s' → E' e s') →
  wp m Q' E' s.
Proof. unfold wp. destruct (m s) as [[] ?]; naive_solver. Qed.

Lemma wp_gets {A} (f : S → A) (Q : A → S → Prop) E s :
  Q (f s) s → wp (gets f) Q E s.
Proof. done. Qed.

Lemma wp_modify f (Q : () → S → Prop) E s : Q () (f s) → wp (modify f) Q E s.
Proof. done. Qed.

Lemma wp_throw {A} e (Q : A → S → Prop) (E : string → S → Prop) s :
  E e s → wp (throw e) Q E s.
Proof. done. Qed.

Lemma wp_catch {A} (m : M S A) h Q E s :
  wp m Q (λ e, wp (h e) Q E) s → wp (catch m h) Q E s.
Proof. unfold wp, catch. destruct (m s) as [[] ?]; done. Qed.

Lemma wp_checked {A} f (a : A) Q E s : Q a s → wp (checked f (Some a)) Q E s.
Proof. done. Qed.

Lemma wp_int_result z (Q : Z → S → Prop) E s :
  is_i32 z → Q z s → wp (int_result z) Q E s.
Proof. intros ??. unfold int_result. by rewrite decide_True. Qed.

(** The converse: from [s], [m] runs into the undefined behaviour [f]. *)
Definition faults {A} (m : M S A) (f : fault) (s : S) : Prop := ∃ s', m s = (UB f, s').

Lemma faults_bind {A B} (m : M S A) (k : A → M S B) f s :
  faults m f s → faults (m ≫= k) f s.
Proof. intros [s' Hm]. exists s'. unfold mbind, M_bind. by rewrite Hm. Qed.

Lemma wp_faults {A B} (m : M S A) (k : A → M S B) Q f s :
  wp_ok m Q s → (∀ a s', Q a s' → faults (k a) f s') → faults (m ≫= k) f s.
Proof.
  unfold wp_ok, wp, faults, mbind, M_bind. destruct (m s) as [[] s']; naive_solver.
Qed.

Lemma wp_run {A} (m : M S A) Q E s a s' : m s = (Ok a, s') → wp m Q E s → Q a s'.
Proof. unfold wp. by intros ->. Qed.

(** The loop rule: [I done s] holds after the iterations over [done]. *)
Lemma wp_for {A} (l : list A) body (I : list A → S → Prop) E s :
  I [] s →
  (∀ l1 x l2 s', l = l1 ++ x :: l2 → I l1 s' →
    wp (body x) (λ _, I (l1 ++ [x])) E s') →
  wp (for_ l body) (λ _, I l) E s.
Proof.
  intros HI Hstep.
  enough (∀ l2 l1 s', l = l1 ++ l2 → I l1 s' → wp (for_ l2 body) (λ _, I l) E s')
    as H by (by apply (H l [])).
  induction l2 as [|x l2 IH]; intros l1 s' Hl HI1; cbn.
  { rewrite app_nil_r in Hl. by subst. }
  apply wp_bind_2. eapply wp_mono; [by eapply Hstep| |done].
  intros [] s'' HI2. apply (IH (l1 ++ [x])); [|done]. by rewrite <-app_assoc.
Qed.

Lemma wp_for_acc {A B} (l : list A) (b : B) body (I : list A → B → S → Prop) E s :
  I [] b s →
  (∀ l1 x l2 b' s', l = l1 ++ x :: l2 → I l1 b' s' →
    wp (body x b') (λ b'', I (l1 ++ [x]) b'') E s') →
  wp (for_acc l b body) (λ b', I l b') E s.
Proof.
  intros HI Hstep.
  enough (∀ l2 l1 b' s', l = l1 ++ l2 → I l1 b' s' →
    wp (for_acc l2 b' body) (λ b'', I l b'') E s') as H by (by apply (H l [])).
  induction l2 as [|x l2 IH]; intros l1 b' s' Hl HI1; cbn.
  { rewrite app_nil_r in Hl. by subst. }
  apply wp_bind_2. eapply wp_mono; [by eapply Hstep| |done].
  intros b'' s'' HI2. apply (IH (l1 ++ [x])); [|done]. by rewrite <-app_assoc.
Qed.

(** Counting loops: [I i] holds before the turn with index [i]. *)
Section range.
Local Open Scope Z_scope.

Lemma wp_for_range a n body (I : Z → S → Prop) E s :
  0 <= n → I a s →
  (∀ i s', a <= i < a + n → I i s' → wp (body i) (λ _, I (i + 1)) E s') →
  wp (for_ (seqZ a n) body) (λ _, I (a + n)) E s.
Proof.
  intros Hn. revert a s. pattern n. apply natlike_ind; [..|done]; clear n Hn.
  { intros a s HI _. by rewrite Z.add_0_r. }
  intros n Hn IH a s HI Hstep. rewrite seqZ_cons, Z.pred_succ by lia. cbn [for_].
  apply wp_bind_2. eapply wp_mono; [apply (Hstep a); [lia|done]| |done].
  intros [] s' HI'. replace (a + Z.succ n) with (Z.succ a + n) by lia.
  apply IH; [by rewrite <-Z.add_1_r|]. intros. apply Hstep; [lia|done].
Qed.

Lemma wp_for_acc_range {B} a n (b : B) body (I : Z → B → S → Prop) E s :
  0 <= n → I a b s →
  (∀ i b' s', a <= i < a + n → I i b' s' → wp (body i b') (I (i + 1)) E s') →
  wp (for_acc (seqZ a n) b body) (I (a + n)) E s.
Proof.
  intros Hn. revert a b s. pattern n. apply natlike_ind; [..|done]; clear n Hn.
  { intros a b s HI _. by rewrite Z.add_0_r. }
  intros n Hn IH a b s HI Hstep. rewrite seqZ_cons, Z.pred_succ by lia. cbn [for_acc].
  apply wp_bind_2. eapply wp_mono; [apply (Hstep a); [lia|done]| |done].
  intros b' s' HI'. replace (a + Z.succ n) with (Z.succ a + n) by lia.
  apply IH; [by rewrite <-Z.add_1_r|]. intros. apply Hstep; [lia|done].
Qed.

(** The loop runs to its end when no turn leaves it. *)
Lemma wp_for_return_range a n body (I : Z → S → Prop) E s :
  0 <= n → I a s →
  (∀ i s', a <= i < a + n → I i s' →
    wp (body i) (λ b s'', b = true ∧ I (i + 1) s'') E s') →
  wp (for_return (seqZ a n) body) (λ b s', b = true ∧ I (a + n) s') E s.
Proof.
  intros Hn. revert a s. pattern n. apply natlike_ind; [..|done]; clear n Hn.
  { intros a s HI _. cbn. by rewrite Z.add_0_r. }
  intros n Hn IH a s HI Hstep. rewrite seqZ_cons, Z.pred_succ by lia. cbn [for_return].
  apply wp_bind_2. eapply wp_mono; [apply (Hstep a); [lia|done]| |done].
  intros b s' [-> HI']. replace (a + Z.succ n) with (Z.succ a + n) by lia.
  apply IH; [by rewrite <-Z.add_1_r|]. intros. apply Hstep; [lia|done].
Qed.

Lemma wp_for_acc_return_range {B} a n (b : B) body (I : Z → B → S → Prop) E s :
  0 <= n → I a b s →
  (∀ i b' s', a <= i < a + n → I i b' s' →
    wp (body i b') (λ r s'', ∃ b'', r = Some b'' ∧ I (i + 1) b'' s'') E s') →
  wp (for_acc_return (seqZ a n) b body)
    (λ r s', ∃ b', r = Some b' ∧ I (a + n) b' s') E s.
Proof.
  intros Hn. revert a b s. pattern n. apply natlike_ind; [..|done]; clear n Hn.
  { intros a b s HI _. exists b. by rewrite Z.add_0_r. }
  intros n Hn IH a b s HI Hstep. rewrite seqZ_cons, Z.pred_succ by lia.
  cbn [for_acc_return].
  apply wp_bind_2. eapply wp_mono; [apply (Hstep a); [lia|done]| |done].
  intros r s' (b'' & -> & HI'). replace (a + Z.succ n) with (Z.succ a + n) by lia.
  apply IH; [by rewrite <-Z.add_1_r|]. intros. apply Hstep; [lia|done].
Qed.
(** The turns keep [I]; a turn that leaves the loop establishes [R]. *)
Lemma wp_for_acc_return_exit {B} a n (b : B) body (I : Z → B → S → Prop)
    (R : S → Prop) E s :
  0 <= n → I a b s →
  (∀ i b' s', a <= i < a + n → I i b' s' →
    wp (body i b') (λ r s'', match r with Some b'' => I (i + 1) b'' s'' | None => R s'' end)
      E s') →
  wp (for_acc_return (seqZ a n) b body)
    (λ r s', match r with Some b' => I (a + n) b' s' | None => R s' end) E s.
Proof.
  intros Hn. revert a b s. pattern n. apply natlike_ind; [..|done]; clear n Hn.
  { intros a b s HI _. cbn. by rewrite Z.add_0_r. }
  intros n Hn IH a b s HI Hstep. rewrite seqZ_cons, Z.pred_succ by lia.
  cbn [for_acc_return].
  apply wp_bind_2. eapply wp_mono; [apply (Hstep a); [lia|done]| |done].
  intros [b''|] s' HI'; [|done]. replace (a + Z.succ n) with (Z.succ a + n) by lia.
  apply IH; [by rewrite <-Z.add_1_r|]. intros. apply Hstep; [lia|done].
Qed.
End range.
End wp_rules.

(** A run of a sequence that returns, step by step. *)
Lemma bind_Ok {S A B} (m : M S A) (k : A → M S B) s b s' :
  (m ≫= k) s = (Ok b, s') → ∃ a s1, m s = (Ok a, s1) ∧ k a s1 = (Ok b, s').
Proof. unfold mbind, M_bind. destruct (m s) as [[a|e|u] s1]; [|done..]. eauto. Qed.

Lemma ret_Ok {S A} (a b : A) (s s' : S) : mret (M := M S) a s = (Ok b, s') → b = a ∧ s' = s.
Proof. by intros [= <- <-]. Qed.

(** ** Stability

    [stable R m]: a run of [m] that returns leads to a state related to the first by
    [R], typically "these members are unchanged". *)

Definition stable {S A} (R : S → S → Prop) (m : M S A) : Prop :=
  ∀ s a s', m s = (Ok a, s') → R s s'.

Lemma stable_run {S A} (R : S → S → Prop) (m : M S A) s a s' :
  m s = (Ok a, s') → stable R m → R s s'.
Proof. intros E Hm. by eapply Hm. Qed.

Lemma wp_stable {S A} (R : S → S → Prop) (m : M S A) Q E s :
  stable R m → wp m Q E s → wp m (λ a s', Q a s' ∧ R s s') E s.
Proof.
  intros Hm. unfold wp. destruct (m s) as [[a|e|u] s'] eqn:Em; [|done..].
  intros HQ. split; [done|]. by eapply Hm.
Qed.

Section stable_rules.
Context {S : Type} (R : S → S → Prop) `{!PreOrder R}.

Lemma stable_pure {A} (m : M S A) : (∀ s, R s (m s).2) → stable R m.
Proof. intros Hm s a s' E. specialize (Hm s). by rewrite E in Hm. Qed.

Lemma stable_bind {A B} (m : M S A) (f : A → M S B) :
  stable R m → (∀ a, stable R (f a)) → stable R (m ≫= f).
Proof.
  intros Hm Hf s b s'. unfold mbind, M_bind.
  destruct (m s) as [[a|e|u] s1] eqn:E; [|done..]. intros E'.
  transitivity s1; [by eapply Hm|by eapply Hf].
Qed.

Lemma stable_ret {A} (a : A) : stable R (mret a).
Proof. by apply stable_pure. Qed.

Lemma stable_modify g : (∀ s, R s (g s)) → stable R (modify g).
Proof. intros Hg s a s' [= _ <-]. apply Hg. Qed.

Lemma stable_lift {A} (o : outcome A) : stable R (lift o).
Proof. by apply stable_pure. Qed.

Lemma stable_throw {A} e : stable R (throw e : M S A).
Proof. by intros s a s' ?. Qed.

Lemma stable_undefined {A} f : stable R (undefined f : M S A).
Proof. by intros s a s' ?. Qed.

Lemma stable_int_result z : stable R (int_result z).
Proof. unfold int_result. case_decide; [by apply stable_ret|by intros ???]. Qed.

Lemma stable_for {A} (l : list A) body : (∀ x, stable R (body x)) → stable R (for_ l body).
Proof.
  intros Hb. induction l as [|x l IH]; cbn; [by apply stable_ret|]. by apply stable_bind.
Qed.

Lemma stable_for_return {A} (l : list A) body :
  (∀ x, stable R (body x)) → stable R (for_return l body).
Proof.
  intros Hb. induction l as [|x l IH]; cbn; [by apply stable_ret|].
  apply stable_bind; [done|]. intros [|]; [done|by apply stable_ret].
Qed.

Lemma stable_for_acc {A B} (l : list A) (b : B) body :
  (∀ x b, stable R (body x b)) → stable R (for_acc l b body).
Proof.
  intros Hb. revert b. induction l as [|x l IH]; intros b; cbn; [by apply stable_ret|].
  by apply stable_bind.
Qed.

Lemma stable_for_acc_return {A B} (l : list A) (b : B) body :
  (∀ x b, stable R (body x b)) → stable R (for_acc_return l b body).
Proof.
  intros Hb. revert b. induction l as [|x l IH]; intros b; cbn; [by apply stable_ret|].
  apply stable_bind; [done|]. intros [b'|]; [done|by apply stable_ret].
Qed.
End stable_rules.

(** [stable_split leaf] takes a program apart and gives its primitive steps to
    [leaf]. *)
Ltac stable_split leaf :=
  repeat (intros; lazymatch goal with
  | |- stable _ (_ ≫= _) => apply stable_bind; [exact _|..]
  | |- stable _ (mret _) => apply stable_ret; exact _
  | |- stable _ (lift _) => apply stable_lift; exact _
  | |- stable _ (throw _) => apply stable_throw
  | |- stable _ (undefined _) => apply stable_undefined
  | |- stable _ (checked _ _) => apply stable_lift; exact _
  | |- stable _ (int_result _) => apply stable_int_result; exact _
  | |- stable _ (gets _) => apply stable_pure; intros; reflexivity
  | |- stable _ (if ?b then _ else _) => destruct b
  | |- stable _ (let '(_, _) := ?x in _) => destruct x
  | |- stable _ (match ?x with _ => _ end) => destruct x
  | |- stable _ (for_ _ _) => apply stable_for; [exact _|]
  | |- stable _ (for_return _ _) => apply stable_for_return; [exact _|]
  | |- stable _ (for_acc _ _ _) => apply stable_for_acc; [exact _|]
  | |- stable _ (for_acc_return _ _ _) => apply stable_for_acc_return; [exact _|]
  | |- stable _ _ => leaf
  end).

(** ** Safety under an invariant

    [safe I m]: from a state of [I], [m] has no undefined behaviour, throws nothing and
    ends in a state of [I]. *)

Definition safe {S A} (I : S → Prop) (m : M S A) : Prop :=
  ∀ s, I s → wp_ok m (λ _ s', I s') s.

Section safe_rules.
Context {S : Type} (I : S → Prop).

Lemma safe_bind {A B} (m : M S A) (f : A → M S B) :
  safe I m → (∀ a, safe I (f a)) → safe I (m ≫= f).
Proof.
  intros Hm Hf s Hs. apply wp_bind_2. eapply wp_mono; [by apply Hm| |done].
  intros a s' Hs'. by apply Hf.
Qed.

Lemma safe_ret {A} (a : A) : safe I (mret a).
Proof. by intros s Hs. Qed.

Lemma safe_gets {A} (f : S → A) : safe I (gets f).
Proof. by intros s Hs. Qed.

Lemma safe_for {A} (l : list A) body : (∀ x, safe I (body x)) → safe I (for_ l body).
Proof.
  intros Hb. induction l as [|x l IH]; cbn; [by apply safe_ret|]. by apply safe_bind.
Qed.

Lemma safe_for_acc {A B} (l : list A) (b : B) body :
  (∀ x b, safe I (body x b)) → safe I (for_acc l b body).
Proof.
  intros Hb. revert b. induction l as [|x l IH]; intros b; cbn; [by apply safe_ret|].
  by apply safe_bind.
Qed.

(** A run that always returns is safe when the relation it is stable under keeps the
    invariant. *)
Lemma safe_stable {A} (m : M S A) :
  (∀ s, I s → wp_ok m (λ _ _, True) s) → stable (λ s s', I s → I s') m → safe I m.
Proof.
  intros Hm Hst s Hs. eapply wp_mono; [apply wp_stable; [exact Hst|by apply Hm]| |done].
  intros a s' [_ H]. by apply H.
Qed.

Lemma safe_run {A} (m : M S A) s : safe I m → I s → ∃ a s', m s = (Ok a, s') ∧ I s'.
Proof.
  intros Hm Hs. specialize (Hm s Hs). unfold wp_ok, wp in Hm.
  destruct (m s) as [[a|e|u] s']; [|done..]. eauto.
Qed.
End safe_rules.

(** [safe_split leaf] takes a program apart and gives its primitive steps to [leaf]. *)
Ltac safe_split leaf :=
  repeat (intros; lazymatch goal with
  | |- safe _ (_ ≫= _) => apply safe_bind
  | |- safe _ (mret _) => apply safe_ret
  | |- safe _ (gets _) => apply safe_gets
  | |- safe _ (if ?b then _ else _) => destruct b
  | |- safe _ (let '(_, _) := ?x in _) => destruct x
  | |- safe _ (match ?x with _ => _ end) => destruct x
  | |- safe _ (for_ _ _) => apply safe_for
  | |- safe _ (for_acc _ _ _) => apply safe_for_acc
  | |- safe _ _ => leaf
  end).

(** ** Lemmas on machine integers *)

Section mach_lemmas.
Local Open Scope Z_scope.
Implicit Types (z : Z).

Lemma u32_range z : is_u32 (u32 z).
Proof. unfold is_u32, u32. apply Z.mod_pos_bound. lia. Qed.

Lemma u32_id z : is_u32 z → u32 z = z.
Proof. intros. unfold u32. by apply Z.mod_small. Qed.

Lemma u32_idem z : u32 (u32 z) = u32 z.
Proof. apply u32_id, u32_range. Qed.

Lemma u64_id z : is_u64 z → u64 z = z.
Proof. intros. unfold u64. by apply Z.mod_small. Qed.

Lemma u64_range z : is_u64 (u64 z).
Proof. unfold is_u64, u64. apply Z.mod_pos_bound. lia. Qed.

Lemma i32_range z : is_i32 (i32 z).
Proof.
  unfold is_i32, i32. pose proof (u32_range z) as H. unfold is_u32 in H.
  case_decide; lia.
Qed.

Lemma i32_id z : is_i32 z → i32 z = z.
Proof.
  unfold is_i32, i32, u32. intros Hz.
  destruct (decide (0 <= z)).
  - rewrite Z.mod_small by lia. case_decide; lia.
  - rewrite <-(Z.mod_add z 1) by lia. rewrite Z.mod_small by lia. case_decide; lia.
Qed.

Lemma u32_i32 z : u32 (i32 z) = u32 z.
Proof.
  unfold i32. pose proof (u32_range z) as H. case_decide; [apply u32_idem|].
  unfold u32 at 1. replace (u32 z - 2 ^ 32) with (u32 z + (-1) * 2 ^ 32) by lia.
  rewrite Z.mod_add by lia. apply u32_idem.
Qed.

Lemma i32_u32 z : i32 (u32 z) = i32 z.
Proof. unfold i32. by rewrite u32_idem. Qed.

Lemma u32_add_l x y : u32 (u32 x + y) = u32 (x + y).
Proof. unfold u32. by rewrite Zplus_mod_idemp_l. Qed.

Lemma u32_add_r x y : u32 (x + u32 y) = u32 (x + y).
Proof. unfold u32. by rewrite Zplus_mod_idemp_r. Qed.

Lemma u32_sub_l x y : u32 (u32 x - y) = u32 (x - y).
Proof. unfold u32. by rewrite Zminus_mod_idemp_l. Qed.

Lemma u32_sub_r x y : u32 (x - u32 y) = u32 (x - y).
Proof. unfold u32. by rewrite Zminus_mod_idemp_r. Qed.

Lemma u32_eq x y : u32 x = u32 y → u32 (x - y) = 0.
Proof. intros E. by rewrite <-u32_sub_l, E, u32_sub_l, Z.sub_diag. Qed.
End mach_lemmas.

Create HintDb mach.
Create Rewrite HintDb mach.
#[export] Hint Resolve u32_range i32_range u64_range : mach.
#[export] Hint Rewrite u32_idem u32_i32 i32_u32 u32_add_l u32_add_r u32_sub_l u32_sub_r : mach.

(** [mach_lia] proves linear goals whose machine integers are in range. *)
Ltac mach_lia := unfold is_u32, is_i32, is_u64 in *; lia.

(** [wp_step] runs the head of a [wp] goal by the rule of its constructor. *)
Ltac wp_step :=
  lazymatch goal with
  | |- wp (_ ≫= _) _ _ _ => apply wp_bind_2
  | |- wp (mret _) _ _ _ => apply wp_ret
  | |- wp (gets _) _ _ _ => apply wp_gets
  | |- wp (modify _) _ _ _ => apply wp_modify
  | |- wp (throw _) _ _ _ => apply wp_throw
  | |- wp (catch _ _) _ _ _ => apply wp_catch
  | |- wp (checked _ (Some _)) _ _ _ => apply wp_checked
  | |- wp (int_result _) _ _ _ => apply wp_int_result; [try mach_lia|]
  end.

Ltac wp_steps := repeat (wp_step; cbn beta).

(** ** Sums over a range of integers *)

Section sums.
Local Open Scope Z_scope.

(** [f 1 + ... + f n] *)
Definition sum_to (f : Z → Z) (n : Z) : Z := foldr Z.add 0 (f <$> seqZ 1 n).

Lemma foldr_add_app (l k : list Z) :
  foldr Z.add 0 (l ++ k) = foldr Z.add 0 l + foldr Z.add 0 k.
Proof. induction l as [|x l IH]; cbn; [done|]. rewrite IH. lia. Qed.

Lemma sum_to_0 f : sum_to f 0 = 0.
Proof. done. Qed.

Lemma sum_to_succ f n : 0 <= n → sum_to f (n + 1) = sum_to f n + f (n + 1).
Proof.
  intros Hn. unfold sum_to. rewrite seqZ_app by lia. rewrite fmap_app, foldr_add_app.
  replace (seqZ (1 + n) 1) with [1 + n] by (by rewrite seqZ_cons by lia).
  cbn. rewrite Z.add_0_r. do 2 f_equal. lia.
Qed.

Lemma sum_to_pred f n : 1 <= n → sum_to f n = sum_to f (n - 1) + f n.
Proof. intros Hn. rewrite <-(Z.sub_add 1 n) at 1 3. apply sum_to_succ. lia. Qed.

Lemma sum_to_mono f n m :
  (∀ k, 1 <= k <= m → 0 <= f k) → 0 <= n <= m → sum_to f n <= sum_to f m.
Proof.
  intros Hf [H0 Hnm]. replace m with (n + (m - n)) in * by lia.
  assert (0 <= m - n) as Hd by lia. revert Hf. clear Hnm.
  pattern (m - n). apply natlike_ind; [..|done]; clear Hd.
  { intros _. by rewrite Z.add_0_r. }
  intros k Hk IH Hf. rewrite <-Z.add_1_r, Z.add_assoc, sum_to_succ by lia.
  assert (sum_to f n <= sum_to f (n + k)) by (apply IH; intros; apply Hf; lia).
  pose proof (Hf (n + k + 1)). lia.
Qed.

Lemma sum_to_ext f g n : (∀ k, 1 <= k <= n → f k = g k) → sum_to f n = sum_to g n.
Proof.
  intros Hfg. unfold sum_to. f_equal. apply list_fmap_ext. intros i x Hx.
  apply lookup_seqZ in Hx. apply Hfg. lia.
Qed.
End sums.

(** ** Arrays

    A C array is a list and an index of [Z]; an access out of range is
    undefined behaviour, so reads and writes return an [option]. *)

Section arrays.
Context {A : Type}.
Local Open Scope Z_scope.
Implicit Types (l : list A) (i : Z).

Definition in_bounds l i : Prop := 0 <= i < Z.of_nat (length l).

#[global] Instance in_bounds_dec l i : Decision (in_bounds l i).
Proof. unfold in_bounds. apply _. Defined.

Definition rd l i : option A := if decide (0 <= i) then l !! Z.to_nat i else None.

Definition wr l i (x : A) : option (list A) :=
  if decide (in_bounds l i) then Some (<[Z.to_nat i := x]> l) else None.

(** Writes that the code performs only at valid indices of a fixed array. *)
Definition upd l i (x : A) : list A := <[Z.to_nat i := x]> l.

Lemma rd_Some l i : in_bounds l i ↔ is_Some (rd l i).
Proof.
  unfold rd, in_bounds. case_decide as Hi.
  - rewrite lookup_lt_is_Some. lia.
  - split; [lia|]. by intros [? ?].
Qed.

Lemma rd_in_bounds l i x : rd l i = Some x → in_bounds l i.
Proof. intros H. apply rd_Some. eauto. Qed.

Lemma wr_Some l i x : in_bounds l i → wr l i x = Some (upd l i x).
Proof. intros. unfold wr. by rewrite decide_True. Qed.

Lemma wr_None l i x : ¬ in_bounds l i → wr l i x = None.
Proof. intros. unfold wr. by rewrite decide_False. Qed.

Lemma length_upd l i x : length (upd l i x) = length l.
Proof. apply length_insert. Qed.

Lemma in_bounds_upd l i j x : in_bounds (upd l i x) j ↔ in_bounds l j.
Proof. unfold in_bounds. by rewrite length_upd. Qed.

Lemma rd_upd_eq l i x : in_bounds l i → rd (upd l i x) i = Some x.
Proof.
  unfold in_bounds, rd, upd. intros ?. rewrite decide_True by lia.
  apply list_lookup_insert_eq. lia.
Qed.

Lemma rd_upd_ne l i j x : 0 <= i → i ≠ j → rd (upd l i x) j = rd l j.
Proof.
  unfold rd, upd. intros ??. case_decide; [|done].
  apply list_lookup_insert_ne. lia.
Qed.

Lemma rd_None l i : ¬ in_bounds l i → rd l i = None.
Proof. rewrite rd_Some. by destruct (rd l i) eqn:E; [intros []; eauto|]. Qed.
End arrays.

#[export] Hint Rewrite @length_upd : mach.
