(* ===== verification/Float64.v ===== *)
(** * IEEE binary64 values

    [epicsFloat64] is the kernel's primitive binary64 type.  This file adds
    what the code uses beside the arithmetic operators: conversions from
    integers, [floor], the conversions back to integer types (undefined when
    the value does not fit), and the lemmas that relate comparisons and
    [floor] to integers.  Every finite binary64 number is an integer multiple
    of 2^-1074; [scaled] is that integer, and all order reasoning is done on
    it. *)

From stdpp Require Import base numbers list option.
From Stdlib Require Import PrimFloat SpecFloat FloatOps FloatAxioms.
From Stdlib Require Uint63.
From S2P Require Import Prelude.

Local Open Scope Z_scope.

Abbreviation f64 := float (only parsing).

(** The operators, under names that do not clash with those of [Z]. *)
Definition f_add (x y : f64) : f64 := PrimFloat.add x y.
Definition f_sub (x y : f64) : f64 := PrimFloat.sub x y.
Definition f_mul (x y : f64) : f64 := PrimFloat.mul x y.
Definition f_div (x y : f64) : f64 := PrimFloat.div x y.
Definition f_sqrt (x : f64) : f64 := PrimFloat.sqrt x.

(** [x <= y] and [x < y] of C++: false when an operand is a NaN. *)
Definition f_le (x y : f64) : bool := PrimFloat.leb x y.
Definition f_lt (x y : f64) : bool := PrimFloat.ltb x y.

(** Conversion of an integer below 2^63 in absolute value. *)
Definition f_of_Z (z : Z) : f64 :=
  if decide (0 <= z) then PrimFloat.of_uint63 (Uint63.of_Z z)
  else PrimFloat.opp (PrimFloat.of_uint63 (Uint63.of_Z (- z))).

(** The number as a multiple of 2^-1074; [None] for infinities and NaN. *)
Definition sf_scaled (x : spec_float) : option Z :=
  match x with
  | S754_zero _ => Some 0
  | S754_finite s m e => Some ((if s then Z.neg m else Z.pos m) * 2 ^ (e + 1074))
  | _ => None
  end.

Definition scaled (x : f64) : option Z := sf_scaled (Prim2SF x).

(** [floor(x)] as an integer; [None] when [x] is not finite. *)
Definition f_floor (x : f64) : option Z := (λ v, v / 2 ^ 1074) <$> scaled x.

(** [static_cast<epicsUInt32>(floor(x))] and [int(floor(x))]: [None] when the
    conversion is undefined. *)
Definition floor_u32 (x : f64) : option Z :=
  v ← f_floor x; if decide (is_u32 v) then Some v else None.

Definition floor_i32 (x : f64) : option Z :=
  v ← f_floor x; if decide (is_i32 v) then Some v else None.

#[global] Arguments f_add : simpl never.
#[global] Arguments f_sub : simpl never.
#[global] Arguments f_mul : simpl never.
#[global] Arguments f_div : simpl never.
#[global] Arguments f_sqrt : simpl never.
#[global] Arguments f_le : simpl never.
#[global] Arguments f_lt : simpl never.
#[global] Arguments f_of_Z : simpl never.

(** ** Comparison of canonical mantissas *)

Lemma digits2_pos_bounds p :
  2 ^ (Z.pos (digits2_pos p) - 1) <= Z.pos p < 2 ^ Z.pos (digits2_pos p).
Proof.
  induction p as [p IH|p IH|]; cbn [digits2_pos]; [..|done].
  all: rewrite Pos2Z.inj_succ; replace (Z.succ _ - 1) with (Z.pos (digits2_pos p)) by lia.
  all: rewrite Z.pow_succ_r by lia.
  all: replace (2 ^ Z.pos (digits2_pos p)) with (2 * 2 ^ (Z.pos (digits2_pos p) - 1)) in *
    by (rewrite <-Z.pow_succ_r by lia; f_equal; lia).
  all: lia.
Qed.

Definition canonical (m : positive) (e : Z) : Prop :=
  e = Z.max (Z.pos (digits2_pos m) + e - 53) (-1074).

Lemma bounded_canonical m e : bounded prec emax m e = true → canonical m e.
Proof.
  unfold bounded, canonical_mantissa, fexp, canonical. intros H.
  apply andb_prop in H as [H _]. apply Z.eqb_eq in H. symmetry. exact H.
Qed.

Lemma canonical_lt m1 e1 m2 e2 :
  canonical m1 e1 → canonical m2 e2 → e1 < e2 →
  Z.pos m1 * 2 ^ (e1 + 1074) < Z.pos m2 * 2 ^ (e2 + 1074).
Proof.
  unfold canonical. intros H1 H2 He.
  pose proof (digits2_pos_bounds m1) as B1.
  pose proof (digits2_pos_bounds m2) as B2.
  assert (Z.pos (digits2_pos m2) = 53) as E2 by lia.
  assert (Z.pos (digits2_pos m1) <= 53) as E1 by lia.
  assert (Z.pos m1 < 2 ^ 53).
  { eapply Z.lt_le_trans; [apply B1|]. apply Z.pow_le_mono_r; lia. }
  rewrite E2 in B2. replace (53 - 1) with 52 in B2 by lia.
  replace (2 ^ (e2 + 1074)) with (2 ^ (e2 - e1 - 1) * (2 * 2 ^ (e1 + 1074))).
  2:{ rewrite <-Z.pow_succ_r, <-Z.pow_add_r by lia. f_equal. lia. }
  assert (0 < 2 ^ (e2 - e1 - 1)) by (apply Z.pow_pos_nonneg; lia).
  assert (0 < 2 ^ (e1 + 1074)) by (apply Z.pow_pos_nonneg; lia).
  assert (Z.pos m1 < Z.pos m2 * 2 ^ (e2 - e1 - 1) * 2) by nia.
  nia.
Qed.

Lemma mantissa_compare m1 e1 m2 e2 :
  canonical m1 e1 → canonical m2 e2 →
  (Z.pos m1 * 2 ^ (e1 + 1074) ?= Z.pos m2 * 2 ^ (e2 + 1074))
  = match e1 ?= e2 with Eq => Pos.compare m1 m2 | c => c end.
Proof.
  intros H1 H2. destruct (Z.compare_spec e1 e2) as [->|He|He].
  - rewrite <-Zmult_compare_compat_r; [done|].
    apply Z.lt_gt, Z.pow_pos_nonneg; [lia|]. unfold canonical in H2. lia.
  - apply Z.compare_lt_iff. by apply canonical_lt.
  - apply Z.compare_gt_iff. by apply canonical_lt.
Qed.

Lemma sf_compare_scaled x y a b :
  valid_binary x = true → valid_binary y = true →
  sf_scaled x = Some a → sf_scaled y = Some b →
  SFcompare x y = Some (a ?= b).
Proof.
  intros Hx Hy Ha Hb.
  destruct x as [sx|sx| |sx mx ex], y as [sy|sy| |sy my ey];
    cbn in Ha, Hb; simplify_eq; cbn [SFcompare].
  - done.
  - apply bounded_canonical in Hy. unfold canonical in Hy.
    assert (0 < 2 ^ (ey + 1074)) by (apply Z.pow_pos_nonneg; lia).
    f_equal. symmetry. destruct sy; [apply Z.compare_gt_iff|apply Z.compare_lt_iff]; nia.
  - apply bounded_canonical in Hx. unfold canonical in Hx.
    assert (0 < 2 ^ (ex + 1074)) by (apply Z.pow_pos_nonneg; lia).
    f_equal. symmetry. destruct sx; [apply Z.compare_lt_iff|apply Z.compare_gt_iff]; nia.
  - apply bounded_canonical in Hx, Hy.
    pose proof (mantissa_compare mx ex my ey Hx Hy) as Hc.
    unfold canonical in Hx, Hy.
    assert (0 < 2 ^ (ex + 1074)) by (apply Z.pow_pos_nonneg; lia).
    assert (0 < 2 ^ (ey + 1074)) by (apply Z.pow_pos_nonneg; lia).
    f_equal. destruct sx, sy.
    + rewrite <-!Pos2Z.opp_pos, !Z.mul_opp_l, Z.compare_opp.
      rewrite (Z.compare_antisym (Z.pos mx * _) (Z.pos my * _)), Hc.
      by destruct (ex ?= ey).
    + symmetry. apply Z.compare_lt_iff. nia.
    + symmetry. apply Z.compare_gt_iff. nia.
    + rewrite Hc. done.
Qed.

Lemma f_compare_scaled x y a b :
  scaled x = Some a → scaled y = Some b →
  f_le x y = (a <=? b) ∧ f_lt x y = (a <? b).
Proof.
  intros Ha Hb. unfold f_le, f_lt. rewrite leb_spec, ltb_spec.
  unfold SFleb, SFltb. rewrite (sf_compare_scaled _ _ a b); eauto using Prim2SF_valid.
Qed.

(** A value between two finite values is finite. *)
Lemma f_le_scaled_between x y z a c :
  scaled x = Some a → scaled z = Some c → f_le x y = true → f_le y z = true →
  ∃ b, scaled y = Some b ∧ a <= b <= c.
Proof.
  intros Ha Hc Hxy Hyz.
  destruct (scaled y) as [b|] eqn:Hb.
  - exists b. split; [done|].
    destruct (f_compare_scaled x y a b Ha Hb) as [E1 _].
    destruct (f_compare_scaled y z b c Hb Hc) as [E2 _].
    rewrite E1 in Hxy. rewrite E2 in Hyz. lia.
  - unfold f_le in *. rewrite leb_spec in Hxy, Hyz. unfold scaled, SFleb in *.
    destruct (Prim2SF y) as [|[]| |], (Prim2SF x) as [|[]| |], (Prim2SF z) as [|[]| |];
      cbn in *; try discriminate; by repeat case_match.
Qed.

(** ** Conversion from integers *)

Lemma iter_xO p n : Z.pos (Pos.iter xO p n) = Z.pos p * 2 ^ Z.pos n.
Proof.
  induction n as [|n IH] using Pos.peano_ind; [cbn; lia|].
  rewrite Pos.iter_succ, Pos2Z.inj_succ, Z.pow_succ_r by lia. lia.
Qed.

Lemma digits2_pos_unique p d :
  0 < d → 2 ^ (d - 1) <= Z.pos p < 2 ^ d → Z.pos (digits2_pos p) = d.
Proof.
  intros Hd Hp. pose proof (digits2_pos_bounds p) as Hb.
  destruct (Z.lt_trichotomy (Z.pos (digits2_pos p)) d) as [Hl|[He|Hg]]; [|done|].
  - assert (2 ^ Z.pos (digits2_pos p) <= 2 ^ (d - 1)) by (apply Z.pow_le_mono_r; lia). lia.
  - assert (2 ^ d <= 2 ^ (Z.pos (digits2_pos p) - 1)) by (apply Z.pow_le_mono_r; lia). lia.
Qed.

Lemma binary_round_aux_exact s m e :
  Z.pos (digits2_pos m) = 53 → -1074 <= e <= 971 →
  binary_round_aux prec emax s (Z.pos m) e loc_Exact = S754_finite s m e.
Proof.
  intros Hd He. unfold binary_round_aux, shr_fexp.
  assert (fexp prec emax (Zdigits2 (Z.pos m) + e) - e = 0) as E.
  { unfold fexp, Zdigits2. rewrite Hd. change prec with 53.
    change (SpecFloat.emin 53 emax) with (-1074). lia. }
  rewrite E. cbn [shr shr_record_of_loc shr_m loc_of_shr_record round_nearest_even].
  rewrite E. cbn [shr shr_record_of_loc shr_m].
  replace (e <=? emax - prec) with true; [done|].
  symmetry. apply Z.leb_le. change (emax - prec) with 971. lia.
Qed.

Lemma binary_normalize_scaled p :
  Z.pos p < 2 ^ 53 →
  sf_scaled (binary_normalize prec emax (Z.pos p) 0 false) = Some (Z.pos p * 2 ^ 1074).
Proof.
  intros Hp. cbn [binary_normalize]. unfold binary_round.
  pose proof (digits2_pos_bounds p) as Hb.
  assert (Z.pos (digits2_pos p) <= 53) as Hd.
  { destruct (Z.le_gt_cases (Z.pos (digits2_pos p)) 53) as [|Hg]; [done|].
    assert (2 ^ 53 <= 2 ^ (Z.pos (digits2_pos p) - 1)) by (apply Z.pow_le_mono_r; lia). lia. }
  replace (fexp prec emax (Z.pos (digits2_pos p) + 0)) with (Z.pos (digits2_pos p) - 53).
  2:{ unfold fexp. change prec with 53. change (SpecFloat.emin 53 emax) with (-1074). lia. }
  unfold shl_align. rewrite Z.sub_0_r.
  destruct (Z.pos (digits2_pos p) - 53) as [|k|k] eqn:Ek; [..|lia|].
  - rewrite binary_round_aux_exact by lia. done.
  - assert (Z.pos (Pos.iter xO p k) = Z.pos p * 2 ^ Z.pos k) as Hv by apply iter_xO.
    assert (Z.pos (digits2_pos (Pos.iter xO p k)) = 53) as H53.
    { apply digits2_pos_unique; [lia|]. rewrite Hv.
      replace (53 - 1) with (Z.pos (digits2_pos p) - 1 + Z.pos k) by lia.
      replace (2 ^ 53) with (2 ^ Z.pos (digits2_pos p) * 2 ^ Z.pos k)
        by (rewrite <-Z.pow_add_r by lia; f_equal; lia).
      rewrite Z.pow_add_r by lia.
      assert (0 < 2 ^ Z.pos k) by (apply Z.pow_pos_nonneg; lia). nia. }
    rewrite binary_round_aux_exact by lia. cbn [sf_scaled]. f_equal.
    rewrite Hv, <-Z.mul_assoc, <-Z.pow_add_r by lia. do 2 f_equal. lia.
Qed.

(** Integers below 2^53 convert exactly. *)
Lemma scaled_of_Z z : - 2 ^ 53 < z < 2 ^ 53 → scaled (f_of_Z z) = Some (z * 2 ^ 1074).
Proof.
  intros Hz. unfold scaled, f_of_Z.
  assert (∀ n, 0 <= n < 2 ^ 53 → Uint63.to_Z (Uint63.of_Z n) = n) as Hto.
  { intros n Hn. rewrite Uint63.of_Z_spec. apply Z.mod_small.
    change Uint63.wB with (2 ^ 63). lia. }
  case_decide as Hpos.
  - rewrite of_uint63_spec, Hto by lia.
    destruct z as [|p|p]; [done|apply binary_normalize_scaled; lia|lia].
  - rewrite opp_spec, of_uint63_spec, Hto by lia.
    destruct z as [|p|p]; [lia|lia|]. change (- Z.neg p) with (Z.pos p).
    pose proof (binary_normalize_scaled p ltac:(lia)) as E.
    destruct (binary_normalize prec emax (Z.pos p) 0 false) as [s|s| |s m e];
      cbn [sf_scaled SFopp] in *; try discriminate; injection E as E; f_equal.
    rewrite <-(Pos2Z.opp_pos p), Z.mul_opp_l, <-E.
    destruct s; cbn [negb]; rewrite <-(Pos2Z.opp_pos m), Z.mul_opp_l; lia.
Qed.

(** Facts used by the components. *)

Lemma f_floor_of_Z z : - 2 ^ 53 < z < 2 ^ 53 → f_floor (f_of_Z z) = Some z.
Proof.
  intros Hz. unfold f_floor. rewrite scaled_of_Z by done. cbn. f_equal.
  apply Z.div_mul. lia.
Qed.

Lemma floor_u32_of_Z z : is_u32 z → floor_u32 (f_of_Z z) = Some z.
Proof.
  intros Hz. unfold floor_u32. rewrite f_floor_of_Z by mach_lia. cbn.
  by rewrite decide_True.
Qed.

Lemma f_le_of_Z a b :
  - 2 ^ 53 < a < 2 ^ 53 → - 2 ^ 53 < b < 2 ^ 53 → f_le (f_of_Z a) (f_of_Z b) = (a <=? b).
Proof.
  intros Ha Hb.
  destruct (f_compare_scaled _ _ _ _ (scaled_of_Z a Ha) (scaled_of_Z b Hb)) as [-> _].
  apply eq_true_iff_eq. rewrite !Z.leb_le. lia.
Qed.

Lemma f_lt_of_Z a b :
  - 2 ^ 53 < a < 2 ^ 53 → - 2 ^ 53 < b < 2 ^ 53 → f_lt (f_of_Z a) (f_of_Z b) = (a <? b).
Proof.
  intros Ha Hb.
  destruct (f_compare_scaled _ _ _ _ (scaled_of_Z a Ha) (scaled_of_Z b Hb)) as [_ ->].
  apply eq_true_iff_eq. rewrite !Z.ltb_lt. lia.
Qed.

(** A value between two integers has its floor between them. *)
Lemma f_floor_between a x b :
  - 2 ^ 53 < a < 2 ^ 53 → - 2 ^ 53 < b < 2 ^ 53 →
  f_le (f_of_Z a) x = true → f_le x (f_of_Z b) = true →
  ∃ n, f_floor x = Some n ∧ a <= n <= b.
Proof.
  intros Ha Hb Hax Hxb.
  destruct (f_le_scaled_between _ _ _ _ _ (scaled_of_Z a Ha) (scaled_of_Z b Hb) Hax Hxb)
    as (v & Hv & Hab).
  exists (v / 2 ^ 1074). unfold f_floor. rewrite Hv. split; [done|].
  split; [apply Z.div_le_lower_bound; lia|].
  rewrite <-(Z.div_mul b (2 ^ 1074)) by lia. apply Z.div_le_mono; lia.
Qed.

Lemma floor_u32_between x b :
  is_u32 b → f_le (f_of_Z 0) x = true → f_le x (f_of_Z b) = true →
  ∃ n, floor_u32 x = Some n ∧ 0 <= n <= b.
Proof.
  intros Hb H0 Hx.
  destruct (f_floor_between 0 x b) as (n & Hn & ?); [mach_lia|mach_lia|done|done|].
  exists n. unfold floor_u32. rewrite Hn. cbn. rewrite decide_True by mach_lia. done.
Qed.
