(* ===== verification/FloatDiv.v ===== *)
(** * Division of binary64 numbers

    The quotient of two non-negative numbers is the correctly rounded one:
    it never crosses a representable number.  From that the quotient by a
    number of at least 1 is finite, and the floor of the quotient of two
    32-bit integers is the integer quotient. *)

From stdpp Require Import base numbers option.
From Stdlib Require Import PrimFloat SpecFloat FloatOps FloatAxioms.
From S2P Require Import Prelude Float64.

Local Open Scope Z_scope.

(** Powers of two down to 2^-4096, as integers. *)
Definition pw (e : Z) : Z := 2 ^ (e + 4096).

Lemma pw_pos e : 0 < pw e ∨ e < -4096.
Proof. unfold pw. destruct (decide (e < -4096)); [by right|left; apply Z.pow_pos_nonneg; lia]. Qed.

Lemma pw_add e k : -4096 <= e → 0 <= k → pw (e + k) = pw e * 2 ^ k.
Proof. intros. unfold pw. rewrite <-Z.pow_add_r by lia. f_equal. lia. Qed.

(** ** Truncation keeps the number between two neighbours *)

Section located.
Context (num den : Z) (Hden : 0 < den).

(** [num / den] is between [m] and [m + 1] at the exponent [e], and equal to
    [m] exactly when the round and sticky bits are clear. *)
Record located (mrs : shr_record) (e : Z) : Prop := {
  loc_nonneg : 0 <= shr_m mrs;
  loc_lo : shr_m mrs * pw e * den <= num;
  loc_hi : num < (shr_m mrs + 1) * pw e * den;
  loc_exact : shr_r mrs || shr_s mrs = false ↔ num = shr_m mrs * pw e * den
}.

Lemma shr_1_located mrs e :
  -4096 <= e → located mrs e →
  located (shr_1 mrs) (e + 1) ∧ shr_m (shr_1 mrs) = shr_m mrs / 2.
Proof.
  intros He [H0 Hlo Hhi Hex]. destruct mrs as [m r s]; cbn [shr_m shr_r shr_s] in *.
  pose proof (pw_add e 1 He ltac:(lia)) as Hpw. change (2 ^ 1) with 2 in Hpw.
  assert (0 < pw e * den) as HP by (destruct (pw_pos e); nia).
  assert (∀ x, x * pw (e + 1) * den = 2 * (x * (pw e * den))) as Hnext by (intros; rewrite Hpw; lia).
  rewrite <-!Z.mul_assoc in Hlo, Hhi, Hex. set (P := pw e * den) in *. clearbody P.
  destruct m as [|[p|p|]|p]; [..|lia]; cbn [shr_1].
  - split; [|done]. split; cbn [shr_m shr_r shr_s orb]; rewrite ?Hnext, ?Hex; lia.
  - rewrite Pos2Z.inj_xI in Hlo, Hhi.
    split; [|cbn [shr_m]; apply (Z.div_unique_pos _ _ _ 1); lia].
    split; cbn [shr_m shr_r shr_s orb]; rewrite ?Hnext; [lia|lia..|]. split; [done|lia].
  - rewrite Pos2Z.inj_xO in Hlo, Hhi, Hex.
    split; [|cbn [shr_m]; apply (Z.div_unique_pos _ _ _ 0); lia].
    split; cbn [shr_m shr_r shr_s orb]; rewrite ?Hnext; [lia|lia..|]. rewrite Hex. lia.
  - split; [|done]. split; cbn [shr_m shr_r shr_s orb]; rewrite ?Hnext; [lia|lia..|].
    split; [done|lia].
Qed.

Lemma iter_shr_located p : ∀ mrs e,
  -4096 <= e → located mrs e →
  located (iter_pos shr_1 p mrs) (e + Z.pos p) ∧
  shr_m (iter_pos shr_1 p mrs) = shr_m mrs / 2 ^ Z.pos p.
Proof.
  induction p as [p IH|p IH|]; intros mrs e He Hl; cbn [iter_pos].
  - destruct (shr_1_located mrs e He Hl) as [H1 E1].
    destruct (IH _ (e + 1) ltac:(lia) H1) as [H2 E2].
    destruct (IH _ (e + 1 + Z.pos p) ltac:(lia) H2) as [H3 E3].
    replace (e + Z.pos p~1) with (e + 1 + Z.pos p + Z.pos p) by lia.
    split; [done|]. rewrite E3, E2, E1, !Z.div_div by lia. f_equal.
    change 2 with (2 ^ 1) at 1. rewrite <-!Z.pow_add_r by lia. f_equal. lia.
  - destruct (IH _ _ He Hl) as [H2 E2]. destruct (IH _ (e + Z.pos p) ltac:(lia) H2) as [H3 E3].
    replace (e + Z.pos p~0) with (e + Z.pos p + Z.pos p) by lia.
    split; [done|]. rewrite E3, E2, !Z.div_div by lia. f_equal.
    rewrite <-Z.pow_add_r by lia. f_equal. lia.
  - by apply shr_1_located.
Qed.

Lemma shr_located mrs e n :
  -4096 <= e → 0 <= n → located mrs e →
  ∃ mrs', shr mrs e n = (mrs', e + n) ∧ located mrs' (e + n) ∧
    shr_m mrs' = shr_m mrs / 2 ^ n.
Proof.
  intros He Hn Hl. destruct n as [|p|p]; [..|lia].
  - exists mrs. cbn [shr]. rewrite Z.add_0_r. split_and!; [done..|]. by rewrite Z.div_1_r.
  - exists (iter_pos shr_1 p mrs). split; [done|]. by apply iter_shr_located.
Qed.
End located.

(** ** Rounding *)

Lemma fexp_eq e : fexp prec emax e = Z.max (e - 53) (-1074).
Proof. unfold fexp. change prec with 53. by change (SpecFloat.emin 53 emax) with (-1074). Qed.

Lemma Zdigits2_bounds m : 0 <= m → 0 <= Zdigits2 m ∧ m < 2 ^ Zdigits2 m ∧
  (0 < m → 2 ^ (Zdigits2 m - 1) <= m).
Proof.
  intros Hm. destruct m as [|p|p]; [done| |lia]. cbn [Zdigits2].
  pose proof (digits2_pos_bounds p). lia.
Qed.

Lemma Zdigits2_le m k : 0 <= k → 0 <= m < 2 ^ k → Zdigits2 m <= k.
Proof.
  intros Hk [H0 Hm]. destruct (Zdigits2_bounds m H0) as (Hd & _ & Hlo).
  destruct (decide (m = 0)) as [->|Hne]; [done|].
  destruct (Z.le_gt_cases (Zdigits2 m) k) as [|Hgt]; [done|].
  assert (2 ^ k <= 2 ^ (Zdigits2 m - 1)) by (apply Z.pow_le_mono_r; lia). lia.
Qed.

(** A canonical mantissa at its exponent: 53 digits, or the least exponent. *)
Definition precise (m e : Z) : Prop := 0 <= m < 2 ^ 53 ∧ (e = -1074 ∨ 2 ^ 52 <= m).

(** The shift of [shr_fexp] leaves a precise mantissa. *)
Lemma shift_precise m e :
  0 <= m → e <= fexp prec emax (Zdigits2 m + e) →
  let E := fexp prec emax (Zdigits2 m + e) in
  precise (m / 2 ^ (E - e)) E.
Proof.
  intros Hm He E. subst E. rewrite fexp_eq in *.
  destruct (Zdigits2_bounds m Hm) as (Hd & Hhi & Hlo).
  set (E := Z.max _ _) in *.
  assert (0 < 2 ^ (E - e)) by (apply Z.pow_pos_nonneg; lia).
  split; [split|].
  - apply Z.div_pos; lia.
  - apply Z.div_lt_upper_bound; [lia|]. rewrite <-Z.pow_add_r by lia.
    eapply Z.lt_le_trans; [exact Hhi|]. apply Z.pow_le_mono_r; lia.
  - destruct (decide (E = -1074)) as [|Hne]; [by left|right].
    assert (0 < m) by (destruct (decide (m = 0)) as [->|]; [cbn in *; lia|lia]).
    apply Z.div_le_lower_bound; [lia|]. rewrite <-Z.pow_add_r by lia.
    etrans; [|apply Hlo; lia]. apply Z.pow_le_mono_r; lia.
Qed.

(** The second normalisation changes the representation only. *)
Lemma renormalise sx m e :
  0 <= m <= 2 ^ 53 → -1074 <= e → m * 2 ^ (e + 1074) < 2 ^ (1024 + 1074) →
  (e = -1074 ∨ 2 ^ 52 <= m) →
  sf_scaled (let '(mrs, e'') := shr_fexp prec emax m e loc_Exact in
    match shr_m mrs with
    | 0 => S754_zero sx
    | Zpos p => if e'' <=? emax - prec then S754_finite sx p e'' else S754_infinity sx
    | _ => S754_nan
    end)
  = Some ((if sx then Z.opp else id) (m * 2 ^ (e + 1074))).
Proof.
  intros [H0 Hm] He Hfin Hp.
  assert (0 < 2 ^ (e + 1074)) by (apply Z.pow_pos_nonneg; lia).
  assert (∀ k x, 0 <= x → 0 <= k → x + k < 1024 ∨ ¬ 2 ^ k * 2 ^ (x + 1074) < 2 ^ (1024 + 1074))
    as Hexp.
  { intros k x Hx Hk. rewrite <-Z.pow_add_r by lia. destruct (decide (x + k < 1024)); [by left|].
    right. apply Z.le_ngt, Z.pow_le_mono_r; lia. }
  unfold shr_fexp. rewrite fexp_eq. change (emax - prec) with 971.
  destruct (decide (m = 2 ^ 53)) as [->|Hne].
  - assert (e <= 970) by (destruct (decide (0 <= e)); [destruct (Hexp 53 e); lia|lia]).
    change (Zdigits2 (2 ^ 53)) with 54. replace (Z.max _ _ - e) with 1 by lia.
    cbn [shr iter_pos]. replace (e + 1 <=? 971) with true by (symmetry; apply Z.leb_le; lia).
    change (shr_m _) with (2 ^ 52). change (2 ^ 52) with 4503599627370496.
    cbn [sf_scaled]. f_equal. replace (e + 1 + 1074) with (1 + (e + 1074)) by lia.
    rewrite Z.pow_add_r by lia. destruct sx; unfold id; lia.
  - assert (Zdigits2 m <= 53) as Hd by (apply Zdigits2_le; lia).
    assert (shr (shr_record_of_loc m loc_Exact) e (Z.max (Zdigits2 m + e - 53) (-1074) - e)
      = (Build_shr_record m false false, e)) as ->.
    { destruct (Z.max _ _ - e) eqn:E; [done|lia|done]. }
    cbn [shr_m]. destruct m as [|p|p]; [by destruct sx| |lia].
    assert (e <= 971).
    { destruct Hp as [->|Hp]; [lia|]. destruct (decide (0 <= e)); [|lia].
      destruct (Hexp 52 e ltac:(lia) ltac:(lia)) as [|Hn]; [lia|]. destruct Hn. nia. }
    replace (e <=? 971) with true by (symmetry; apply Z.leb_le; lia).
    cbn [sf_scaled]. f_equal. destruct sx; [|done]. by rewrite <-Pos2Z.opp_pos, Z.mul_opp_l.
Qed.

(** ** Rounding does not cross representable numbers *)

Definition representable (b : Z) : Prop :=
  ∃ m e, 0 <= m < 2 ^ 53 ∧ -1074 <= e <= 971 ∧ b = m * 2 ^ (e + 1074).

(** A number that is not a multiple of the unit of a precise mantissa is below
    it. *)
Lemma representable_cases b m e :
  representable b → -1074 <= e → (e = -1074 ∨ 2 ^ 52 <= m) →
  (∃ k, b = k * 2 ^ (e + 1074)) ∨ b < m * 2 ^ (e + 1074).
Proof.
  intros (mb & eb & Hmb & Heb & ->) He Hp.
  destruct (decide (e <= eb)) as [Hle|Hgt].
  - left. exists (mb * 2 ^ (eb - e)). rewrite <-Z.mul_assoc, <-Z.pow_add_r by lia. do 2 f_equal. lia.
  - right. destruct Hp as [->|Hp]; [lia|].
    assert (2 ^ 53 * 2 ^ (eb + 1074) <= 2 ^ 52 * 2 ^ (e + 1074)).
    { rewrite <-!Z.pow_add_r by lia. apply Z.pow_le_mono_r; lia. }
    assert (0 < 2 ^ (eb + 1074)) by (apply Z.pow_pos_nonneg; lia).
    assert (0 < 2 ^ (e + 1074)) by (apply Z.pow_pos_nonneg; lia). nia.
Qed.

Section round.
Context (num den : Z) (Hden : 0 < den).

(** [num / den] counts units of 2^-4096, [2 ^ 3022] of which make 2^-1074. *)
Definition above (b : Z) : Prop := b * 2 ^ 3022 * den <= num.
Definition below (b : Z) : Prop := num <= b * 2 ^ 3022 * den.

Lemma pw_scaled e : -1074 <= e → pw e = 2 ^ (e + 1074) * 2 ^ 3022.
Proof. intros. unfold pw. rewrite <-Z.pow_add_r by lia. f_equal. lia. Qed.

Lemma located_bounds mrs e lo hi :
  located num den mrs e → -1074 <= e → (e = -1074 ∨ 2 ^ 52 <= shr_m mrs) →
  representable lo → representable hi → above lo → below hi →
  let m := round_nearest_even (shr_m mrs) (loc_of_shr_record mrs) in
  (m = shr_m mrs ∨ m = shr_m mrs + 1) ∧
  lo <= m * 2 ^ (e + 1074) <= hi.
Proof.
  intros [H0 Hl Hh Hex] He Hp Hlo Hhi Hab Hbe. unfold above, below in *.
  rewrite pw_scaled in Hl, Hh, Hex by done.
  pose proof (representable_cases lo (shr_m mrs) e Hlo He Hp) as Clo.
  pose proof (representable_cases hi (shr_m mrs) e Hhi He Hp) as Chi.
  set (u := 2 ^ (e + 1074)) in *.
  assert (0 < u) by (apply Z.pow_pos_nonneg; lia).
  assert (0 < 2 ^ 3022) as H3022 by (apply Z.pow_pos_nonneg; lia).
  set (w := 2 ^ 3022) in *. clearbody w.
  clearbody u. assert (∀ k k', k * u < k' * u → (k + 1) * u <= k' * u) as Hnext.
  { intros k k' Hk. apply Z.mul_lt_mono_pos_r in Hk; [|done].
    apply Z.mul_le_mono_nonneg_r; lia. }
  assert (∀ x y, x * w * den <= y * w * den → x <= y) as Hdiv.
  { intros x y Hxy. apply (Z.mul_le_mono_pos_r _ _ (w * den)); [nia|]. lia. }
  assert (∀ x y, x * w * den < y * w * den → x < y) as Hdivlt.
  { intros x y Hxy. apply (Z.mul_lt_mono_pos_r (w * den)); [nia|]. lia. }
  assert (lo <= shr_m mrs * u) as Hlow.
  { assert (lo < (shr_m mrs + 1) * u) by (apply Hdivlt; lia).
    destruct Clo as [[k ->]|]; [|lia]. apply Hnext in H1. lia. }
  assert (shr_m mrs * u <= hi) as Hhigh0 by (apply Hdiv; lia).
  assert (num = shr_m mrs * u * w * den ∨ (shr_m mrs + 1) * u <= hi) as Hhigh.
  { destruct (decide (num = shr_m mrs * u * w * den)) as [|Hne]; [by left|right].
    assert (shr_m mrs * u < hi) by (apply Hdivlt; lia).
    destruct Chi as [[k ->]|]; [by apply Hnext|lia]. }
  destruct mrs as [m r s]; cbn [shr_m shr_r shr_s] in *. cbn [loc_of_shr_record].
  assert (r || s = true → (m + 1) * u <= hi) as Hup.
  { intros Hrs. destruct Hhigh as [Heq|]; [|done]. rewrite Z.mul_assoc, <-Heq in Hex.
    destruct Hex as [_ Hex]. by rewrite Hex in Hrs. }
  destruct r, s; cbn [round_nearest_even orb] in *; try (destruct (Z.even m)); split; lia.
Qed.
End round.

Lemma representable_lt b : representable b → b < 2 ^ (1024 + 1074).
Proof.
  intros (m & e & Hm & He & ->).
  assert (0 < 2 ^ (e + 1074)) by (apply Z.pow_pos_nonneg; lia).
  apply (Z.lt_le_trans _ (2 ^ 53 * 2 ^ (e + 1074))); [nia|].
  rewrite <-Z.pow_add_r by lia. apply Z.pow_le_mono_r; lia.
Qed.

Lemma round_aux_between num den sx mx ex lx lo hi :
  0 < den → -4096 <= ex → ex <= fexp prec emax (Zdigits2 mx + ex) →
  located num den (shr_record_of_loc mx lx) ex →
  representable lo → representable hi → above num den lo → below num den hi →
  ∃ c, sf_scaled (binary_round_aux prec emax sx mx ex lx)
       = Some ((if sx then Z.opp else id) c) ∧ lo <= c <= hi.
Proof.
  intros Hden Hex Hfexp Hloc Hlo Hhi Hab Hbe.
  assert (shr_m (shr_record_of_loc mx lx) = mx) as Hm by (by destruct lx as [|[]]).
  pose proof (loc_nonneg _ _ _ _ Hloc) as H0. rewrite Hm in H0.
  pose proof (shift_precise mx ex H0 Hfexp) as Hprec.
  cbv zeta in Hprec. set (E := fexp prec emax (Zdigits2 mx + ex)) in *.
  assert (-1074 <= E) as HE by (unfold E; rewrite fexp_eq; lia).
  destruct (shr_located num den Hden _ ex (E - ex) Hex ltac:(lia) Hloc)
    as (mrs & Hshr & Hl & Hms).
  rewrite Hm in Hms. replace (ex + (E - ex)) with E in * by lia.
  rewrite <-Hms in Hprec. destruct Hprec as [Hrange Hp].
  destruct (located_bounds num den Hden mrs E lo hi Hl HE Hp Hlo Hhi Hab Hbe) as [Hr Hb].
  unfold binary_round_aux, shr_fexp at 1. fold E. rewrite Hshr.
  eexists. split; [|exact Hb]. apply renormalise; [lia|lia| |lia].
  eapply Z.le_lt_trans; [apply Hb|]. by apply representable_lt.
Qed.

(** ** Division *)

Lemma div_core_located mx ex my ey q e l :
  -1074 <= ex <= 971 → -1074 <= ey <= 971 →
  SFdiv_core_binary prec emax (Z.pos mx) ex (Z.pos my) ey = (q, e, l) →
  let a := Z.pos mx * 2 ^ (ex + 1074) in
  let b := Z.pos my * 2 ^ (ey + 1074) in
  -4096 <= e ∧ e <= fexp prec emax (Zdigits2 q + e) ∧
  located (a * 2 ^ 4096) b (shr_record_of_loc q l) e.
Proof.
  intros Hex Hey Hdiv a b. unfold SFdiv_core_binary in Hdiv. rewrite fexp_eq in Hdiv.
  set (d1 := Zdigits2 (Z.pos mx)) in *. set (d2 := Zdigits2 (Z.pos my)) in *.
  set (e' := Z.min _ _) in *. set (s := ex - ey - e') in *.
  assert (0 <= s) as Hs by lia.
  assert ((match s with 0 => Z.pos mx | Z.pos _ => Z.shiftl (Z.pos mx) s | Z.neg _ => 0 end)
          = Z.pos mx * 2 ^ s) as Hshift.
  { destruct s; [by rewrite Z.mul_1_r|by apply Z.shiftl_mul_pow2|lia]. }
  rewrite Hshift in Hdiv.
  pose proof (Z_div_mod (Z.pos mx * 2 ^ s) (Z.pos my) ltac:(lia)) as Hqr.
  destruct (Z.div_eucl _ _) as [q' r]. destruct Hqr as [Hq Hr]. injection Hdiv as -> <- <-.
  destruct (Zdigits2_bounds (Z.pos mx) ltac:(lia)) as (_ & _ & Hm1).
  destruct (Zdigits2_bounds (Z.pos my) ltac:(lia)) as (Hd2 & Hm2 & _). fold d1 d2 in Hm1, Hm2, Hd2.
  assert (1 <= d1) by (unfold d1; cbn; lia).
  assert (0 <= q) by nia.
  assert (-4096 <= e') by lia. split; [done|]. split.
  - rewrite fexp_eq. assert (d1 + s - d2 <= Zdigits2 q); [|lia].
    destruct (Zdigits2_bounds q ltac:(lia)) as (Hdq & Hq2 & _).
    destruct (decide (d1 + s - d2 <= 0)) as [|Hpos]; [lia|].
    enough (2 ^ (d1 - 1 + s - d2) < 2 ^ Zdigits2 q) as Hlt.
    { apply Z.pow_lt_mono_r_iff in Hlt; lia. }
    apply (Z.mul_lt_mono_pos_r (2 ^ d2)); [lia|]. rewrite <-Z.pow_add_r by lia.
    replace (d1 - 1 + s - d2 + d2) with (d1 - 1 + s) by lia. rewrite Z.pow_add_r by lia.
    assert (0 < 2 ^ s) by (apply Z.pow_pos_nonneg; lia).
    assert (2 ^ (d1 - 1) <= Z.pos mx) by (apply Hm1; lia). nia.
  - assert (a * 2 ^ 4096 = Z.pos mx * 2 ^ s * (2 ^ (ey + 1074) * pw e')) as ->.
    { unfold a, pw. rewrite <-!Z.mul_assoc, <-!Z.pow_add_r by lia. do 2 f_equal. lia. }
    assert (0 < 2 ^ (ey + 1074) * pw e') as HG.
    { destruct (pw_pos e'); [|lia]. apply Z.mul_pos_pos; [apply Z.pow_pos_nonneg|]; lia. }
    assert (∀ x, x * pw e' * b = x * Z.pos my * (2 ^ (ey + 1074) * pw e')) as Hx
      by (intros; unfold b; lia).
    rewrite Hq. set (G := 2 ^ (ey + 1074) * pw e') in *. clearbody G.
    assert (shr_m (shr_record_of_loc q (new_location (Z.pos my) r)) = q) as Hsm
      by (by destruct (new_location _ _) as [|[]]).
    assert (shr_r (shr_record_of_loc q (new_location (Z.pos my) r))
      || shr_s (shr_record_of_loc q (new_location (Z.pos my) r)) = false ↔ r = 0) as Hsr.
    { unfold new_location, new_location_even, new_location_odd.
      destruct (Z.even _), (Z.eqb_spec r 0) as [Hr0|Hr0]; try destruct (_ ?= _);
        cbn; split; done || congruence. }
    split; rewrite ?Hsm, ?Hx, ?Hsr; [done|nia|nia|]. split; [intros ->; lia|nia].
Qed.

(** The quotient of non-negative numbers stays between the representable
    numbers around the exact quotient [a / b]. *)
Lemma f_div_between x y a b lo hi :
  scaled x = Some a → scaled y = Some b → 0 <= a → 0 < b →
  representable lo → representable hi → lo * b <= a * 2 ^ 1074 <= hi * b →
  ∃ c, scaled (f_div x y) = Some c ∧ lo <= c <= hi.
Proof.
  intros Hx Hy Ha Hb Hlo Hhi Hq. unfold f_div, scaled in *. rewrite div_spec.
  pose proof (Prim2SF_valid x) as Vx. pose proof (Prim2SF_valid y) as Vy.
  assert (∀ m e, bounded prec emax m e = true → -1074 <= e <= 971 ∧ 0 < 2 ^ (e + 1074)) as HB.
  { intros m e HB. assert (-1074 <= e <= 971) as He.
    { split; [apply bounded_canonical in HB; unfold canonical in HB; lia|].
      unfold bounded in HB. apply andb_prop in HB as [_ HB]. apply Z.leb_le in HB. done. }
    split; [done|]. apply Z.pow_pos_nonneg; lia. }
  destruct (Prim2SF y) as [sy|sy| |sy my ey]; cbn in Hy; simplify_eq; [lia|].
  destruct (HB _ _ Vy) as [Hey Hpy]. destruct sy; [nia|].
  destruct (Prim2SF x) as [sx|sx| |sx mx ex]; cbn in Hx; simplify_eq.
  { exists 0. cbn [SF64div SFdiv sf_scaled]. split; [done|]. nia. }
  destruct (HB _ _ Vx) as [Hex Hpx]. destruct sx; [nia|]. unfold SF64div, SFdiv.
  destruct (SFdiv_core_binary prec emax (Z.pos mx) ex (Z.pos my) ey) as [[q e] l] eqn:E.
  destruct (div_core_located _ _ _ _ _ _ _ Hex Hey E) as (He & Hf & Hl).
  cbv zeta in Hl. 
  set (A := Z.pos mx * 2 ^ (ex + 1074)) in *. set (B := Z.pos my * 2 ^ (ey + 1074)) in *.
  replace (2 ^ 4096) with (2 ^ 1074 * 2 ^ 3022) in Hl by (by rewrite <-Z.pow_add_r by lia).
  assert (0 < 2 ^ 3022) as H3022 by (apply Z.pow_pos_nonneg; lia).
  apply (round_aux_between (A * (2 ^ 1074 * 2 ^ 3022)) B false); try done;
    unfold above, below; set (w := 2 ^ 3022) in *; clearbody w A B;
    rewrite !Z.mul_assoc, <-(Z.mul_assoc _ w B), (Z.mul_comm w B), Z.mul_assoc;
    apply Z.mul_le_mono_nonneg_r; lia.
Qed.

(** ** Quotients of integers *)

Lemma representable_0 : representable 0.
Proof. exists 0, 0. lia. Qed.

Lemma representable_of_Z z : 0 <= z < 2 ^ 53 → representable (z * 2 ^ 1074).
Proof. intros Hz. exists z, 0. lia. Qed.

(** The number below an integer: with [2^k <= n], the unit 2^(k-53) fits. *)
Lemma representable_pred n k :
  0 <= k <= 52 → 2 ^ k <= n <= 2 ^ (k + 1) →
  representable (n * 2 ^ 1074 - 2 ^ (1074 + (k - 52))).
Proof.
  intros Hk Hn. exists (n * 2 ^ (52 - k) - 1), (k - 52).
  assert (0 < 2 ^ (52 - k)) by (apply Z.pow_pos_nonneg; lia).
  split; [split|split; [lia|]].
  - nia.
  - assert (2 ^ (k + 1) * 2 ^ (52 - k) = 2 ^ 53) as E
      by (rewrite <-Z.pow_add_r by lia; f_equal; lia). nia.
  - rewrite Z.mul_sub_distr_r, <-Z.mul_assoc, <-Z.pow_add_r by lia.
    replace (k - 52 + 1074) with (1074 + (k - 52)) by lia. rewrite Z.mul_1_l. do 3 f_equal. lia.
Qed.

(** Dividing by a number of at least 1 gives a number from 0 to the
    dividend's bound. *)
Lemma f_div_floor x y b n :
  scaled y = Some b → 2 ^ 1074 <= b →
  0 <= n < 2 ^ 53 → f_le (f_of_Z 0) x = true → f_le x (f_of_Z n) = true →
  ∃ q, f_floor (f_div x y) = Some q ∧ 0 <= q <= n.
Proof.
  intros Hy Hb Hn H0 Hx.
  destruct (f_le_scaled_between _ _ _ _ _ (scaled_of_Z 0 ltac:(lia)) (scaled_of_Z n ltac:(lia)) H0 Hx)
    as (a & Ha & Hab). rewrite Z.mul_0_l in Hab.
  assert (0 < 2 ^ 1074) as Hp by (apply Z.pow_pos_nonneg; lia).
  destruct (f_div_between x y a b 0 (n * 2 ^ 1074)) as (c & Hc & Hcb);
    [done..|lia|lia|apply representable_0|by apply representable_of_Z| |].
  { set (p := 2 ^ 1074) in *. clearbody p. nia. }
  exists (c / 2 ^ 1074). unfold f_floor. rewrite Hc. split; [done|].
  split; [apply Z.div_pos; lia|]. rewrite <-(Z.div_mul n (2 ^ 1074)) by lia.
  apply Z.div_le_mono; lia.
Qed.

(** The floor of the rounded quotient of two 32-bit integers is their
    quotient. *)
Lemma f_floor_div_of_Z t w :
  is_u32 t → is_u32 w → 0 < w → f_floor (f_div (f_of_Z t) (f_of_Z w)) = Some (t / w).
Proof.
  intros Ht Hw Hpos. unfold is_u32 in *. set (n := t / w).
  pose proof (Z.div_mod t w ltac:(lia)) as Hdm. pose proof (Z.mod_pos_bound t w Hpos) as Hm.
  fold n in Hdm. assert (0 <= n < 2 ^ 32) as Hn by nia.
  set (k := Z.log2 (n + 1)).
  assert (2 ^ k <= n + 1 < 2 ^ (k + 1)) as Hk.
  { rewrite Z.add_1_r. apply Z.log2_spec. lia. }
  assert (0 <= k <= 32) as Hk0.
  { split; [apply Z.log2_nonneg|]. apply (Z.pow_le_mono_r_iff 2); lia. }
  assert (0 < 2 ^ 1022) as Hp by (apply Z.pow_pos_nonneg; lia).
  assert (2 ^ 1074 = 2 ^ 52 * 2 ^ 1022) as E1 by (by rewrite <-Z.pow_add_r by lia).
  assert (2 ^ (1074 + (k - 52)) = 2 ^ k * 2 ^ 1022) as E2
    by (rewrite <-Z.pow_add_r by lia; f_equal; lia).
  destruct (f_div_between (f_of_Z t) (f_of_Z w) (t * 2 ^ 1074) (w * 2 ^ 1074)
    (n * 2 ^ 1074) ((n + 1) * 2 ^ 1074 - 2 ^ (1074 + (k - 52)))) as (c & Hc & Hcb).
  - apply scaled_of_Z. lia.
  - apply scaled_of_Z. lia.
  - lia.
  - lia.
  - apply representable_of_Z. lia.
  - apply representable_pred; lia.
  - rewrite E2, E1. set (p := 2 ^ 1022) in *. clearbody p.
    assert (2 ^ k * w <= 2 ^ 33) by nia.
    replace (t * (2 ^ 52 * p) * (2 ^ 52 * p)) with (t * 2 ^ 52 * (p * (2 ^ 52 * p))) by lia.
    replace (n * (2 ^ 52 * p) * (w * (2 ^ 52 * p)))
      with (n * w * 2 ^ 52 * (p * (2 ^ 52 * p))) by lia.
    replace (((n + 1) * (2 ^ 52 * p) - 2 ^ k * p) * (w * (2 ^ 52 * p)))
      with (((n + 1) * w * 2 ^ 52 - 2 ^ k * w) * (p * (2 ^ 52 * p))) by lia.
    split; apply Z.mul_le_mono_nonneg_r; nia.
  - unfold f_floor. rewrite Hc. cbn [fmap option_fmap option_map]. f_equal.
    assert (0 < 2 ^ (1074 + (k - 52))) by (apply Z.pow_pos_nonneg; lia).
    symmetry. apply (Z.div_unique_pos _ _ _ (c - n * 2 ^ 1074)); lia.
Qed.
