(* ===== verification/Params.v ===== *)
(** * Constants and the parameter library

    The constants of ADnEDGlobals.h and of the driver class, the asyn
    parameters the driver creates (ADnED.cpp, the constructor), and the
    interface of the asyn parameter library.  asyn is not part of this
    repository: the library is a type with the operations the driver calls
    ([ParamLib]) and the documented laws of those operations
    ([ParamLibLaws]); every definition and theorem is parametric in it.  The
    last section gives a concrete library built from association lists, which
    satisfies the laws. *)

From stdpp Require Import base numbers list option strings.
From S2P Require Import Prelude Float64.

Local Open Scope Z_scope.

(** ** Constants *)

Definition ADNED_MAX_STRING_SIZE : Z := 256.
Definition ADNED_MAX_DETS : Z := 4.
Definition ADNED_MAX_CHANNELS : Z := 4.
Definition ADNED_MAX_TRANSFORM_PARAMS : Z := 6.

Definition ADNED_TRANSFORM_TYPE1 : Z := 1.
Definition ADNED_TRANSFORM_TYPE2 : Z := 2.
Definition ADNED_TRANSFORM_TYPE3 : Z := 3.
Definition ADNED_TRANSFORM_ERROR : Z := -9999.
Definition ADNED_TRANSFORM_OK : Z := 0.

Definition s_ADNED_ALLOC_STATUS_OK : Z := 0.
Definition s_ADNED_ALLOC_STATUS_REQ : Z := 1.
Definition s_ADNED_ALLOC_STATUS_FAIL : Z := 2.
Definition s_ADNED_2D_PLOT_XY : Z := 0.
Definition s_ADNED_2D_PLOT_XTOF : Z := 1.
Definition s_ADNED_2D_PLOT_YTOF : Z := 2.
Definition s_ADNED_2D_PLOT_PIXELIDTOF : Z := 3.

(** ** Parameters

    [OtherParam] stands for the parameters of the base classes that the
    driver does not name. *)

Inductive param : Type :=
  | ADnEDFirstParam
  | ADnEDResetParam
  | ADnEDStartParam
  | ADnEDStopParam
  | ADnEDPauseParam
  | ADnEDEventDebugParam
  | ADnEDSeqCounterParam
  | ADnEDPulseCounterParam
  | ADnEDEventRateParam
  | ADnEDSeqIDParam
  | ADnEDSeqIDMissingParam
  | ADnEDSeqIDNumMissingParam
  | ADnEDBadTimeStampParam
  | ADnEDPChargeParam
  | ADnEDPChargeIntParam
  | ADnEDEventUpdatePeriodParam
  | ADnEDFrameUpdatePeriodParam
  | ADnEDNumChannelsParam
  | ADnEDPVNameParam
  | ADnEDNumDetParam
  | ADnEDDetPixelNumStartParam
  | ADnEDDetPixelNumEndParam
  | ADnEDDetPixelNumSizeParam
  | ADnEDDetTOFNumBinsParam
  | ADnEDDet2DTypeParam
  | ADnEDDetNDArrayStartParam
  | ADnEDDetNDArrayEndParam
  | ADnEDDetNDArraySizeParam
  | ADnEDDetNDArrayTOFStartParam
  | ADnEDDetNDArrayTOFEndParam
  | ADnEDDetEventRateParam
  | ADnEDDetEventTotalParam
  | ADnEDDetTOFROIStartParam
  | ADnEDDetTOFROISizeParam
  | ADnEDDetTOFROIEnableParam
  | ADnEDDetTOFArrayResetParam
  | ADnEDDetTOFTransFile0Param
  | ADnEDDetTOFTransFile1Param
  | ADnEDDetTOFTransFile2Param
  | ADnEDDetTOFTransFile3Param
  | ADnEDDetTOFTransFile4Param
  | ADnEDDetTOFTransFile5Param
  | ADnEDDetTOFTransInt0Param
  | ADnEDDetTOFTransInt1Param
  | ADnEDDetTOFTransInt2Param
  | ADnEDDetTOFTransInt3Param
  | ADnEDDetTOFTransInt4Param
  | ADnEDDetTOFTransInt5Param
  | ADnEDDetTOFTransFloat0Param
  | ADnEDDetTOFTransFloat1Param
  | ADnEDDetTOFTransFloat2Param
  | ADnEDDetTOFTransFloat3Param
  | ADnEDDetTOFTransFloat4Param
  | ADnEDDetTOFTransFloat5Param
  | ADnEDDetTOFTransPrintParam
  | ADnEDDetTOFTransDebugParam
  | ADnEDDetTOFTransTypeParam
  | ADnEDDetTOFTransOffsetParam
  | ADnEDDetTOFTransScaleParam
  | ADnEDDetPixelMapFileParam
  | ADnEDDetPixelMapPrintParam
  | ADnEDDetPixelMapEnableParam
  | ADnEDDetPixelROIStartXParam
  | ADnEDDetPixelROISizeXParam
  | ADnEDDetPixelROIStartYParam
  | ADnEDDetPixelROISizeYParam
  | ADnEDDetPixelSizeXParam
  | ADnEDDetPixelROIEnableParam
  | ADnEDTOFMaxParam
  | ADnEDAllocSpaceParam
  | ADnEDAllocSpaceStatusParam
  | ADnEDLastParam
  | ADStatus
  | ADStatusMessage
  | ADAcquire
  | ADManufacturer
  | ADModel
  | NDArrayCounter
  | NDArrayCallbacks
  | OtherParam (reason : Z).

(** The type each parameter is created with; not known for the parameters
    that the base classes create. *)

Inductive param_type : Type :=
  | asynParamInt32
  | asynParamFloat64
  | asynParamOctet.

#[export] Instance param_type_eq_dec : EqDecision param_type.
Proof. solve_decision. Defined.

Definition adned_param_type (p : param) : option param_type :=
  match p with
  | ADnEDPChargeParam | ADnEDPChargeIntParam | ADnEDEventUpdatePeriodParam
  | ADnEDFrameUpdatePeriodParam | ADnEDDetEventTotalParam | ADnEDDetTOFTransFloat0Param
  | ADnEDDetTOFTransFloat1Param | ADnEDDetTOFTransFloat2Param
  | ADnEDDetTOFTransFloat3Param | ADnEDDetTOFTransFloat4Param
  | ADnEDDetTOFTransFloat5Param | ADnEDDetTOFTransOffsetParam
  | ADnEDDetTOFTransScaleParam => Some asynParamFloat64
  | ADnEDPVNameParam | ADnEDDetTOFTransFile0Param | ADnEDDetTOFTransFile1Param
  | ADnEDDetTOFTransFile2Param | ADnEDDetTOFTransFile3Param
  | ADnEDDetTOFTransFile4Param | ADnEDDetTOFTransFile5Param | ADnEDDetPixelMapFileParam
  | ADStatusMessage | ADManufacturer | ADModel => Some asynParamOctet
  | OtherParam _ => None
  | _ => Some asynParamInt32
  end.

(** An injection into the integers, for decidable equality. *)

Definition param_code (p : param) : Z + Z :=
  match p with
  | ADnEDFirstParam => inl 0
  | ADnEDResetParam => inl 1
  | ADnEDStartParam => inl 2
  | ADnEDStopParam => inl 3
  | ADnEDPauseParam => inl 4
  | ADnEDEventDebugParam => inl 5
  | ADnEDSeqCounterParam => inl 6
  | ADnEDPulseCounterParam => inl 7
  | ADnEDEventRateParam => inl 8
  | ADnEDSeqIDParam => inl 9
  | ADnEDSeqIDMissingParam => inl 10
  | ADnEDSeqIDNumMissingParam => inl 11
  | ADnEDBadTimeStampParam => inl 12
  | ADnEDPChargeParam => inl 13
  | ADnEDPChargeIntParam => inl 14
  | ADnEDEventUpdatePeriodParam => inl 15
  | ADnEDFrameUpdatePeriodParam => inl 16
  | ADnEDNumChannelsParam => inl 17
  | ADnEDPVNameParam => inl 18
  | ADnEDNumDetParam => inl 19
  | ADnEDDetPixelNumStartParam => inl 20
  | ADnEDDetPixelNumEndParam => inl 21
  | ADnEDDetPixelNumSizeParam => inl 22
  | ADnEDDetTOFNumBinsParam => inl 23
  | ADnEDDet2DTypeParam => inl 24
  | ADnEDDetNDArrayStartParam => inl 25
  | ADnEDDetNDArrayEndParam => inl 26
  | ADnEDDetNDArraySizeParam => inl 27
  | ADnEDDetNDArrayTOFStartParam => inl 28
  | ADnEDDetNDArrayTOFEndParam => inl 29
  | ADnEDDetEventRateParam => inl 30
  | ADnEDDetEventTotalParam => inl 31
  | ADnEDDetTOFROIStartParam => inl 32
  | ADnEDDetTOFROISizeParam => inl 33
  | ADnEDDetTOFROIEnableParam => inl 34
  | ADnEDDetTOFArrayResetParam => inl 35
  | ADnEDDetTOFTransFile0Param => inl 36
  | ADnEDDetTOFTransFile1Param => inl 37
  | ADnEDDetTOFTransFile2Param => inl 38
  | ADnEDDetTOFTransFile3Param => inl 39
  | ADnEDDetTOFTransFile4Param => inl 40
  | ADnEDDetTOFTransFile5Param => inl 41
  | ADnEDDetTOFTransInt0Param => inl 42
  | ADnEDDetTOFTransInt1Param => inl 43
  | ADnEDDetTOFTransInt2Param => inl 44
  | ADnEDDetTOFTransInt3Param => inl 45
  | ADnEDDetTOFTransInt4Param => inl 46
  | ADnEDDetTOFTransInt5Param => inl 47
  | ADnEDDetTOFTransFloat0Param => inl 48
  | ADnEDDetTOFTransFloat1Param => inl 49
  | ADnEDDetTOFTransFloat2Param => inl 50
  | ADnEDDetTOFTransFloat3Param => inl 51
  | ADnEDDetTOFTransFloat4Param => inl 52
  | ADnEDDetTOFTransFloat5Param => inl 53
  | ADnEDDetTOFTransPrintParam => inl 54
  | ADnEDDetTOFTransDebugParam => inl 55
  | ADnEDDetTOFTransTypeParam => inl 56
  | ADnEDDetTOFTransOffsetParam => inl 57
  | ADnEDDetTOFTransScaleParam => inl 58
  | ADnEDDetPixelMapFileParam => inl 59
  | ADnEDDetPixelMapPrintParam => inl 60
  | ADnEDDetPixelMapEnableParam => inl 61
  | ADnEDDetPixelROIStartXParam => inl 62
  | ADnEDDetPixelROISizeXParam => inl 63
  | ADnEDDetPixelROIStartYParam => inl 64
  | ADnEDDetPixelROISizeYParam => inl 65
  | ADnEDDetPixelSizeXParam => inl 66
  | ADnEDDetPixelROIEnableParam => inl 67
  | ADnEDTOFMaxParam => inl 68
  | ADnEDAllocSpaceParam => inl 69
  | ADnEDAllocSpaceStatusParam => inl 70
  | ADnEDLastParam => inl 71
  | ADStatus => inl 72
  | ADStatusMessage => inl 73
  | ADAcquire => inl 74
  | ADManufacturer => inl 75
  | ADModel => inl 76
  | NDArrayCounter => inl 77
  | NDArrayCallbacks => inl 78
  | OtherParam r => inr r
  end.

Definition param_list : list param :=
  [ADnEDFirstParam; ADnEDResetParam; ADnEDStartParam; ADnEDStopParam; ADnEDPauseParam;
   ADnEDEventDebugParam; ADnEDSeqCounterParam; ADnEDPulseCounterParam;
   ADnEDEventRateParam; ADnEDSeqIDParam; ADnEDSeqIDMissingParam;
   ADnEDSeqIDNumMissingParam; ADnEDBadTimeStampParam; ADnEDPChargeParam;
   ADnEDPChargeIntParam; ADnEDEventUpdatePeriodParam; ADnEDFrameUpdatePeriodParam;
   ADnEDNumChannelsParam; ADnEDPVNameParam; ADnEDNumDetParam;
   ADnEDDetPixelNumStartParam; ADnEDDetPixelNumEndParam; ADnEDDetPixelNumSizeParam;
   ADnEDDetTOFNumBinsParam; ADnEDDet2DTypeParam; ADnEDDetNDArrayStartParam;
   ADnEDDetNDArrayEndParam; ADnEDDetNDArraySizeParam; ADnEDDetNDArrayTOFStartParam;
   ADnEDDetNDArrayTOFEndParam; ADnEDDetEventRateParam; ADnEDDetEventTotalParam;
   ADnEDDetTOFROIStartParam; ADnEDDetTOFROISizeParam; ADnEDDetTOFROIEnableParam;
   ADnEDDetTOFArrayResetParam; ADnEDDetTOFTransFile0Param; ADnEDDetTOFTransFile1Param;
   ADnEDDetTOFTransFile2Param; ADnEDDetTOFTransFile3Param; ADnEDDetTOFTransFile4Param;
   ADnEDDetTOFTransFile5Param; ADnEDDetTOFTransInt0Param; ADnEDDetTOFTransInt1Param;
   ADnEDDetTOFTransInt2Param; ADnEDDetTOFTransInt3Param; ADnEDDetTOFTransInt4Param;
   ADnEDDetTOFTransInt5Param; ADnEDDetTOFTransFloat0Param; ADnEDDetTOFTransFloat1Param;
   ADnEDDetTOFTransFloat2Param; ADnEDDetTOFTransFloat3Param;
   ADnEDDetTOFTransFloat4Param; ADnEDDetTOFTransFloat5Param;
   ADnEDDetTOFTransPrintParam; ADnEDDetTOFTransDebugParam; ADnEDDetTOFTransTypeParam;
   ADnEDDetTOFTransOffsetParam; ADnEDDetTOFTransScaleParam; ADnEDDetPixelMapFileParam;
   ADnEDDetPixelMapPrintParam; ADnEDDetPixelMapEnableParam;
   ADnEDDetPixelROIStartXParam; ADnEDDetPixelROISizeXParam;
   ADnEDDetPixelROIStartYParam; ADnEDDetPixelROISizeYParam; ADnEDDetPixelSizeXParam;
   ADnEDDetPixelROIEnableParam; ADnEDTOFMaxParam; ADnEDAllocSpaceParam;
   ADnEDAllocSpaceStatusParam; ADnEDLastParam; ADStatus; ADStatusMessage; ADAcquire;
   ADManufacturer; ADModel; NDArrayCounter; NDArrayCallbacks].

Definition param_decode (c : Z + Z) : option param :=
  match c with
  | inl i => rd param_list i
  | inr r => Some (OtherParam r)
  end.

Lemma param_decode_code p : param_decode (param_code p) = Some p.
Proof. by destruct p. Qed.

#[export] Instance param_eq_dec : EqDecision param.
Proof.
  intros p q. destruct (decide (param_code p = param_code q)) as [E|E].
  - left. apply (inj Some). by rewrite <-!param_decode_code, E.
  - right. congruence.
Defined.

(** ** The asyn parameter library *)

Inductive asynStatus : Type :=
  | asynSuccess
  | asynError
  | asynOther (code : Z).

#[export] Instance asynStatus_eq_dec : EqDecision asynStatus.
Proof. solve_decision. Defined.

(** The names of a driver's parameters and their types. *)
Class ParamNames (P : Type) := param_type_of : P → option param_type.

(** The operations.  [get*Param l addr p old] is the content of the caller's
    variable after the call, [old] its content before: on an error the library
    decides what the variable holds, and no caller in this repository looks at
    the status of a read.  A write returns its status. *)
Class ParamLib (P L : Type) := {
  max_addr : Z;
  getIntegerParam : L → Z → P → Z → Z;
  setIntegerParam : L → Z → P → Z → asynStatus * L;
  getDoubleParam : L → Z → P → f64 → f64;
  setDoubleParam : L → Z → P → f64 → asynStatus * L;
  getStringParam : L → Z → P → string → string;
  setStringParam : L → Z → P → string → asynStatus * L;
  callParamCallbacks : L → Z → asynStatus
}.

Definition valid_addr {P L} `{ParamLib P L} (a : Z) : Prop :=
  0 <= a < max_addr (P := P) (L := L).

(** [l'] is [l] but for the parameter [p] of the address [a]. *)
Definition agree_except {P L} `{ParamLib P L} (l l' : L) (a : Z) (p : P) : Prop :=
  ∀ a' p', (a', p') ≠ (a, p) →
    (∀ old, getIntegerParam l' a' p' old = getIntegerParam l a' p' old) ∧
    (∀ old, getDoubleParam l' a' p' old = getDoubleParam l a' p' old) ∧
    (∀ old, getStringParam l' a' p' old = getStringParam l a' p' old).

(** The documented behaviour the driver relies on: a write to an existing
    address of a parameter of the right type succeeds, a later read yields the
    value written, and nothing else changes; a write to a parameter of another
    type is refused and changes nothing. *)
Class ParamLibLaws (P L : Type) {PN : ParamNames P} {PL : ParamLib P L} : Prop := {
  setIntegerParam_success (l : L) a (p : P) v :
    valid_addr (P := P) (L := L) a → param_type_of p = Some asynParamInt32 →
    fst (setIntegerParam l a p v) = asynSuccess;
  setIntegerParam_get (l : L) a (p : P) v old :
    fst (setIntegerParam l a p v) = asynSuccess →
    getIntegerParam (snd (setIntegerParam l a p v)) a p old = v;
  setIntegerParam_frame (l : L) a (p : P) v :
    agree_except l (snd (setIntegerParam l a p v)) a p;
  setIntegerParam_wrong (l : L) a (p : P) v ty :
    param_type_of p = Some ty → ty ≠ asynParamInt32 → snd (setIntegerParam l a p v) = l;
  setDoubleParam_success (l : L) a (p : P) v :
    valid_addr (P := P) (L := L) a → param_type_of p = Some asynParamFloat64 →
    fst (setDoubleParam l a p v) = asynSuccess;
  setDoubleParam_get (l : L) a (p : P) v old :
    fst (setDoubleParam l a p v) = asynSuccess →
    getDoubleParam (snd (setDoubleParam l a p v)) a p old = v;
  setDoubleParam_frame (l : L) a (p : P) v :
    agree_except l (snd (setDoubleParam l a p v)) a p;
  setDoubleParam_wrong (l : L) a (p : P) v ty :
    param_type_of p = Some ty → ty ≠ asynParamFloat64 → snd (setDoubleParam l a p v) = l;
  setStringParam_success (l : L) a (p : P) v :
    valid_addr (P := P) (L := L) a → param_type_of p = Some asynParamOctet →
    fst (setStringParam l a p v) = asynSuccess;
  setStringParam_get (l : L) a (p : P) v old :
    fst (setStringParam l a p v) = asynSuccess →
    getStringParam (snd (setStringParam l a p v)) a p old = v;
  setStringParam_frame (l : L) a (p : P) v :
    agree_except l (snd (setStringParam l a p v)) a p;
  setStringParam_wrong (l : L) a (p : P) v ty :
    param_type_of p = Some ty → ty ≠ asynParamOctet → snd (setStringParam l a p v) = l;
  callParamCallbacks_success (l : L) a :
    valid_addr (P := P) (L := L) a → callParamCallbacks (P := P) l a = asynSuccess
}.

Section param_lemmas.
Context {P L : Type} `{ParamLibLaws P L} `{EqDecision P}.
Implicit Types (l : L) (p : P).

Lemma get_set_int l a p v a' p' old :
  valid_addr (P := P) (L := L) a → param_type_of p = Some asynParamInt32 →
  getIntegerParam (snd (setIntegerParam l a p v)) a' p' old
  = if decide ((a', p') = (a, p)) then v else getIntegerParam l a' p' old.
Proof.
  intros Ha Hp. case_decide as E.
  - injection E as -> ->. by apply setIntegerParam_get, setIntegerParam_success.
  - by apply setIntegerParam_frame.
Qed.

Lemma get_set_int_ne l a p v a' p' old :
  (a', p') ≠ (a, p) →
  getIntegerParam (snd (setIntegerParam l a p v)) a' p' old = getIntegerParam l a' p' old.
Proof. intros E. by apply setIntegerParam_frame. Qed.

Lemma get_double_set_int l a p v a' p' old :
  (a', p') ≠ (a, p) →
  getDoubleParam (snd (setIntegerParam l a p v)) a' p' old = getDoubleParam l a' p' old.
Proof. intros E. by apply (setIntegerParam_frame l a p v a' p' E). Qed.

Lemma get_int_set_double l a p v a' p' old :
  (a', p') ≠ (a, p) →
  getIntegerParam (snd (setDoubleParam l a p v)) a' p' old = getIntegerParam l a' p' old.
Proof. intros E. by apply (setDoubleParam_frame l a p v a' p' E). Qed.

Lemma get_int_set_string l a p v a' p' old :
  (a', p') ≠ (a, p) →
  getIntegerParam (snd (setStringParam l a p v)) a' p' old = getIntegerParam l a' p' old.
Proof. intros E. by apply (setStringParam_frame l a p v a' p' E). Qed.

(** An integer parameter is out of reach of the writes of other types. *)
Lemma get_int_set_double_typed l a p v a' p' old :
  param_type_of p' = Some asynParamInt32 →
  getIntegerParam (snd (setDoubleParam l a p v)) a' p' old = getIntegerParam l a' p' old.
Proof.
  intros Hp. destruct (decide (p' = p)) as [->|]; [|by apply get_int_set_double; congruence].
  by erewrite setDoubleParam_wrong.
Qed.

Lemma get_int_set_string_typed l a p v a' p' old :
  param_type_of p' = Some asynParamInt32 →
  getIntegerParam (snd (setStringParam l a p v)) a' p' old = getIntegerParam l a' p' old.
Proof.
  intros Hp. destruct (decide (p' = p)) as [->|]; [|by apply get_int_set_string; congruence].
  by erewrite setStringParam_wrong.
Qed.

(** And a double parameter likewise. *)
Lemma get_double_set_int_typed l a p v a' p' old :
  param_type_of p' = Some asynParamFloat64 →
  getDoubleParam (snd (setIntegerParam l a p v)) a' p' old = getDoubleParam l a' p' old.
Proof.
  intros Hp. destruct (decide (p' = p)) as [->|]; [|by apply get_double_set_int; congruence].
  by erewrite setIntegerParam_wrong.
Qed.

Lemma get_double_set_string_typed l a p v a' p' old :
  param_type_of p' = Some asynParamFloat64 →
  getDoubleParam (snd (setStringParam l a p v)) a' p' old = getDoubleParam l a' p' old.
Proof.
  intros Hp. destruct (decide (p' = p)) as [->|]; [by erewrite setStringParam_wrong|].
  assert ((a', p') ≠ (a, p)) as E by congruence. by apply (setStringParam_frame l a p v a' p' E).
Qed.
End param_lemmas.

(** ** A concrete library *)

(** Association lists by address and parameter, the last write first. *)
Section alist.
Context {P V : Type} `{EqDecision P}.

Fixpoint alist_get (m : list (Z * P * V)) (a : Z) (p : P) : option V :=
  match m with
  | [] => None
  | (a', p', v) :: m => if decide ((a, p) = (a', p')) then Some v else alist_get m a p
  end.

Lemma alist_get_eq m a p v : alist_get ((a, p, v) :: m) a p = Some v.
Proof. cbn. by rewrite decide_True. Qed.

Lemma alist_get_ne m a p v a' p' :
  (a', p') ≠ (a, p) → alist_get ((a, p, v) :: m) a' p' = alist_get m a' p'.
Proof. intros. cbn. by rewrite decide_False. Qed.
End alist.

Record map_lib (P : Type) := MapLib {
  ml_ints : list (Z * P * Z);
  ml_floats : list (Z * P * f64);
  ml_strings : list (Z * P * string)
}.
Arguments MapLib {P}.
Arguments ml_ints {P}.
Arguments ml_floats {P}.
Arguments ml_strings {P}.

Section map_lib.
Context {P : Type} `{EqDecision P} `{PN : ParamNames P} (n : Z).

Definition map_lib_empty : map_lib P := MapLib [] [] [].

(** Writes outside the addresses of the port, or to a parameter of another type,
    fail. *)
Definition writable (a : Z) (p : P) (ty : param_type) : bool :=
  bool_decide (0 <= a < n) &&
  match param_type_of p with Some ty' => bool_decide (ty' = ty) | None => true end.

Definition map_lib_ops : ParamLib P (map_lib P) := {|
  max_addr := n;
  getIntegerParam l a p old := default 0 (alist_get (ml_ints l) a p);
  setIntegerParam l a p v :=
    if writable a p asynParamInt32 then
      (asynSuccess, MapLib ((a, p, v) :: ml_ints l) (ml_floats l) (ml_strings l))
    else (asynError, l);
  getDoubleParam l a p old := default (f_of_Z 0) (alist_get (ml_floats l) a p);
  setDoubleParam l a p v :=
    if writable a p asynParamFloat64 then
      (asynSuccess, MapLib (ml_ints l) ((a, p, v) :: ml_floats l) (ml_strings l))
    else (asynError, l);
  getStringParam l a p old := default EmptyString (alist_get (ml_strings l) a p);
  setStringParam l a p v :=
    if writable a p asynParamOctet then
      (asynSuccess, MapLib (ml_ints l) (ml_floats l) ((a, p, v) :: ml_strings l))
    else (asynError, l);
  callParamCallbacks l a := if decide (0 <= a < n) then asynSuccess else asynError
|}.

Lemma writable_ok a p ty : 0 <= a < n → param_type_of p = Some ty → writable a p ty = true.
Proof. intros. unfold writable. case_match; simplify_eq. by rewrite !bool_decide_eq_true_2. Qed.

Lemma writable_wrong a p ty ty' :
  param_type_of p = Some ty' → ty' ≠ ty → writable a p ty = false.
Proof.
  intros Hp Hty. unfold writable. rewrite Hp, (bool_decide_eq_false_2 _ Hty). apply andb_false_r.
Qed.

Lemma map_lib_laws : ParamLibLaws P (map_lib P) (PL := map_lib_ops).
Proof.
  split; cbn [map_lib_ops getIntegerParam setIntegerParam getDoubleParam setDoubleParam
    getStringParam setStringParam callParamCallbacks]; unfold agree_except, valid_addr;
    cbn [map_lib_ops max_addr getIntegerParam getDoubleParam getStringParam]; intros;
    try (by erewrite writable_ok); try (by erewrite writable_wrong);
    repeat case_match; try (case_decide; done);
    cbn [fst snd ml_ints ml_floats ml_strings] in *; try done;
    rewrite ?alist_get_eq; try done;
    split_and!; intros; rewrite ?alist_get_ne by congruence; done.
Qed.
End map_lib.

(** The driver's own parameters: addresses 0 to [ADNED_MAX_DETS]. *)
#[export] Instance adned_param_names : ParamNames param := adned_param_type.

Definition adned_map_lib : ParamLib param (map_lib param) :=
  map_lib_ops (ADNED_MAX_DETS + 1).

(** ** The library of the driver's port: addresses 0 to [ADNED_MAX_DETS]. *)

Class DriverLib (L : Type) {PL : ParamLib param L} : Prop := {
  dl_laws :: ParamLibLaws param L;
  dl_addr : max_addr (P := param) (L := L) = ADNED_MAX_DETS + 1
}.

(** The parameter [p] of address [a] holds [v]. *)
Definition int_is {L} {PL : ParamLib param L} (l : L) (a : Z) (p : param) (v : Z) : Prop :=
  ∀ old, getIntegerParam l a p old = v.

Section lib.
Context {L : Type} {PL : ParamLib param L} {DL : DriverLib L}.

Lemma driver_valid_addr a : 0 <= a <= ADNED_MAX_DETS → valid_addr (P := param) (L := L) a.
Proof. unfold valid_addr. rewrite dl_addr. lia. Qed.

Lemma driver_get_set_int (l : L) a p v a' p' old :
  0 <= a <= ADNED_MAX_DETS → adned_param_type p = Some asynParamInt32 →
  getIntegerParam (snd (setIntegerParam l a p v)) a' p' old
  = if decide ((a', p') = (a, p)) then v else getIntegerParam l a' p' old.
Proof. intros. apply get_set_int; [by apply driver_valid_addr|done]. Qed.
End lib.

(** [params_simpl] evaluates reads after writes. *)
Ltac params_simpl :=
  repeat (rewrite driver_get_set_int by (done || (unfold ADNED_MAX_DETS; lia)));
  repeat (case_decide; simplify_eq).

#[export] Instance adned_driver_lib : DriverLib (map_lib param) (PL := adned_map_lib).
Proof. split; [apply map_lib_laws|done]. Qed.
