(* ===== verification/Transform.v ===== *)
(** * The time-of-flight transformation objects

    Models ADnEDTransformBase (parameter storage) and ADnEDTransform (the
    calculations): one object per detector.  The class is built as a separate
    library that a site may replace, so the driver is written against the
    interface [Transformer] of the last section.

    The C library's [pow] is a parameter ([pow]): the language does not fix its
    rounding.  The answers of [calloc] are one too ([memory]).

    The calculations read [m_debug], which is not initialised before [setDebug], to
    decide whether they print; the read is left out of [calculate]. *)

From stdpp Require Import base numbers list option.
From Stdlib Require Import PrimFloat.
From S2P Require Import Prelude Float64 Params.

Local Open Scope Z_scope.

(** ** State: the class members

    [p_Array] holds a pointer per index: [None] is NULL.  [m_debug] is not set
    by the constructor: [None] until [setDebug]. *)

Record transform : Type := Transform {
  m_intParam : list Z;
  m_doubleParam : list f64;
  p_Array : list (option (list f64));
  m_ArraySize : list Z;
  m_debug : option bool
}.

Definition ADnEDTransformBase : transform := {|
  m_intParam := replicate (Z.to_nat ADNED_MAX_TRANSFORM_PARAMS) 0;
  m_doubleParam := replicate (Z.to_nat ADNED_MAX_TRANSFORM_PARAMS) (f_of_Z 0);
  p_Array := replicate (Z.to_nat ADNED_MAX_TRANSFORM_PARAMS) None;
  m_ArraySize := replicate (Z.to_nat ADNED_MAX_TRANSFORM_PARAMS) 0;
  m_debug := None
|}.

(** ** Setters: the status and the new object.  [paramIndex] and [size] are
    [epicsUInt32], so the tests [< 0] and [<= 0] read as below. *)

Definition bad_index (paramIndex : Z) : bool :=
  bool_decide (paramIndex < 0) || bool_decide (ADNED_MAX_TRANSFORM_PARAMS <= paramIndex).

Definition setIntParam (paramIndex paramVal : Z) : M transform Z :=
  if bad_index paramIndex then mret ADNED_TRANSFORM_ERROR
  else
    modify (λ t, {| t with m_intParam := upd (m_intParam t) paramIndex paramVal |}) ;;
    mret ADNED_TRANSFORM_OK.

Definition setTransDoubleParam (paramIndex : Z) (paramVal : f64) : M transform Z :=
  if bad_index paramIndex then mret ADNED_TRANSFORM_ERROR
  else
    modify (λ t, {| t with m_doubleParam := upd (m_doubleParam t) paramIndex paramVal |}) ;;
    mret ADNED_TRANSFORM_OK.

(** [calloc] may fail or not at every call: [calloc_ok n size] says whether a call for
    [n] elements of [size] bytes gives a block.  An operation that calls it more than
    once is given an answer for each of its calls, the first of which is number 0. *)
Definition memory : Type := nat → Z → Z → bool.

(** [memcpy] of [n] elements out of [src]: reading past its end is undefined. *)
Definition memcpy_from {A} (src : list A) (n : Z) : option (list A) :=
  if decide (0 <= n <= Z.of_nat (length src)) then Some (take (Z.to_nat n) src) else None.

Definition setDoubleArray (calloc_ok : Z → Z → bool) (paramIndex : Z)
    (pSource : option (list f64)) (size : Z) : M transform Z :=
  if bad_index paramIndex then mret ADNED_TRANSFORM_ERROR
  else if bool_decide (size <= 0) then mret ADNED_TRANSFORM_ERROR
  else match pSource with
  | None => mret ADNED_TRANSFORM_ERROR
  | Some src =>
      (* free the old array *)
      modify (λ t, match rd (p_Array t) paramIndex with
                   | Some (Some _) =>
                       {| t with p_Array := upd (p_Array t) paramIndex None;
                                 m_ArraySize := upd (m_ArraySize t) paramIndex 0 |}
                   | _ => t
                   end) ;;
      modify (λ t, {| t with m_ArraySize := upd (m_ArraySize t) paramIndex size |}) ;;
      _ ← checked NullDeref (if calloc_ok size 8 then Some () else None);
      dst ← checked OutOfBounds (memcpy_from src size);
      modify (λ t, {| t with p_Array := upd (p_Array t) paramIndex (Some dst) |}) ;;
      mret ADNED_TRANSFORM_OK
  end.

Definition setDebug (debug : bool) : M transform () :=
  modify (λ t, {| t with m_debug := Some debug |}).

(** The reads of [printParams]; the text it prints is left out.  The loop over an
    array reads its elements below the recorded size. *)
Definition print_array (t : transform) (i : Z) : outcome () :=
  size ← require OutOfBounds (rd (m_ArraySize t) i);
  p ← require OutOfBounds (rd (p_Array t) i);
  match p with
  | Some a =>
      if decide (0 < size ∧ Z.of_nat (length a) < size) then UB OutOfBounds else mret ()
  | None => mret ()
  end.

Definition printParams : M transform () :=
  let indices := seqZ 0 ADNED_MAX_TRANSFORM_PARAMS in
  for_ indices (λ i, t ← gets (λ t, t); _ ← checked OutOfBounds (rd (m_intParam t) i); mret ()) ;;
  for_ indices (λ i, t ← gets (λ t, t); _ ← checked OutOfBounds (rd (m_doubleParam t) i); mret ()) ;;
  for_ indices (λ i, t ← gets (λ t, t); lift (print_array t i)).

(** ** The calculations *)

#[local] Set Warnings "-inexact-float".

Definition ADNED_TRANSFORM_MN : f64 := 1.674954e-27%float.
Definition ADNED_TRANSFORM_EV_TO_J : f64 := 1.60217635e-19%float.
Definition ADNED_TRANSFORM_TOF_TO_S : f64 := 1e-7%float.
Definition ADNED_TRANSFORM_EV_TO_mEV : f64 := 1e3%float.

Definition transform_error : f64 := f_of_Z ADNED_TRANSFORM_ERROR.

(** [p_Array[k]], an entry of the pointer table. *)
Definition array_ptr (t : transform) (k : Z) : option (list f64) :=
  mjoin (rd (p_Array t) k).

(** [p_Array[k][i]]: undefined for a null pointer and past the end. *)
Definition array_elem (t : transform) (k i : Z) : outcome f64 :=
  a ← require NullDeref (array_ptr t k); require OutOfBounds (rd a i).

Definition calc_dspace_static (t : transform) (pixelID tof : Z) : outcome f64 :=
  match array_ptr t 0 with
  | Some _ =>
      if decide (pixelID < default 0 (rd (m_ArraySize t) 0)) then
        v ← array_elem t 0 pixelID; mret (f_mul (f_of_Z tof) v)
      else mret transform_error
  | None => mret transform_error
  end.

Definition calc_dspace_dynamic (t : transform) (pixelID tof : Z) : outcome f64 :=
  mret transform_error.

Section calculations.
Context (pow : f64 → f64 → f64).

(** The formula of [calc_deltaE], from Ef and L2 of the pixel and L1. *)
Definition deltaE_value (Ef_meV L2 L1 : f64) (tof : Z) : f64 :=
  let Ef := f_mul (f_div Ef_meV ADNED_TRANSFORM_EV_TO_mEV) ADNED_TRANSFORM_EV_TO_J in
  let tof_s := f_mul (f_of_Z tof) ADNED_TRANSFORM_TOF_TO_S in
  let Ei :=
    f_mul (f_mul 0.5%float ADNED_TRANSFORM_MN)
      (pow (f_div L1
              (f_sub tof_s (f_mul L2 (f_sqrt (f_div ADNED_TRANSFORM_MN
                                                (f_mul (f_of_Z 2) Ef))))))
         (f_of_Z 2)) in
  let deltaE := f_sub Ei Ef in
  f_mul (f_div deltaE ADNED_TRANSFORM_EV_TO_J) ADNED_TRANSFORM_EV_TO_mEV.

#[global] Arguments deltaE_value : simpl never.

Definition calc_deltaE (t : transform) (pixelID tof : Z) : outcome f64 :=
  match array_ptr t 0, array_ptr t 1 with
  | None, _ | _, None => mret transform_error
  | Some _, Some _ =>
      ef ← array_elem t 0 pixelID;
      if f_le ef (f_of_Z 0) then mret transform_error
      else
        l2 ← array_elem t 1 pixelID;
        if f_le l2 (f_of_Z 0) then mret transform_error
        else if decide (tof = 0) then mret transform_error
        else mret (deltaE_value ef l2 (default (f_of_Z 0) (rd (m_doubleParam t) 0)) tof)
  end.

Definition calculate (t : transform) (type pixelID tof : Z) : outcome f64 :=
  if decide (type < 0) then mret transform_error
  else if decide (pixelID < 0) then mret transform_error
  else if decide (type = ADNED_TRANSFORM_TYPE1) then calc_dspace_static t pixelID tof
  else if decide (type = ADNED_TRANSFORM_TYPE2) then calc_dspace_dynamic t pixelID tof
  else if decide (type = ADNED_TRANSFORM_TYPE3) then calc_deltaE t pixelID tof
  else mret transform_error.
End calculations.

(** ** Invariant: the six slots of every table, and for each slot the size
    that belongs to its array. *)

Definition slot_wf (p : option (list f64)) (n : Z) : Prop :=
  match p with
  | None => n = 0
  | Some a => n = Z.of_nat (length a) ∧ 0 < n
  end.

Record transform_wf (t : transform) : Prop := {
  wf_ints : length (m_intParam t) = 6%nat;
  wf_doubles : length (m_doubleParam t) = 6%nat;
  wf_arrays : length (p_Array t) = 6%nat;
  wf_slots : Forall2 slot_wf (p_Array t) (m_ArraySize t)
}.

Lemma base_wf : transform_wf ADnEDTransformBase.
Proof. split; [done..|]. repeat constructor. Qed.

Lemma Forall2_upd {A B} (R : A → B → Prop) l k i x y :
  Forall2 R l k → R x y → Forall2 R (upd l i x) (upd k i y).
Proof. intros ??. by apply Forall2_insert. Qed.

Lemma bad_index_false i : bad_index i = false ↔ 0 <= i < 6.
Proof.
  unfold bad_index, ADNED_MAX_TRANSFORM_PARAMS.
  rewrite orb_false_iff, !bool_decide_eq_false. lia.
Qed.

Lemma upd_upd {A} (l : list A) i x y : upd (upd l i x) i y = upd l i y.
Proof. apply list_insert_insert_eq. Qed.

(** The state [setDoubleArray] ends in: freeing the old array leaves no
    trace. *)
Lemma setDoubleArray_run calloc_ok i src size t :
  0 <= i < 6 → 0 < size <= Z.of_nat (length src) → calloc_ok size 8 = true →
  setDoubleArray calloc_ok i (Some src) size t
  = (Ok ADNED_TRANSFORM_OK,
     {| t with p_Array := upd (p_Array t) i (Some (take (Z.to_nat size) src));
               m_ArraySize := upd (m_ArraySize t) i size |}).
Proof.
  intros Hi Hs Hc. unfold setDoubleArray.
  rewrite (proj2 (bad_index_false i) Hi), bool_decide_eq_false_2 by lia.
  unfold mbind, M_bind, modify. cbn. unfold checked, lift, memcpy_from.
  rewrite Hc, decide_True by lia. cbn.
  destruct (rd (p_Array t) i) as [[a|]|]; cbn; by rewrite ?upd_upd.
Qed.

Lemma setDoubleArray_wf calloc_ok i src size t :
  transform_wf t → 0 < size <= Z.of_nat (length src) → calloc_ok size 8 = true →
  wp_ok (setDoubleArray calloc_ok i (Some src) size) (λ _, transform_wf) t.
Proof.
  intros Hwf Hs Hc. destruct (bad_index i) eqn:Hi.
  { unfold setDoubleArray. by rewrite Hi. }
  unfold wp_ok, wp. rewrite setDoubleArray_run; [|by apply bad_index_false|done..].
  destruct Hwf as [H1 H2 H3 H4]. split; cbn; [done..| |].
  - by rewrite length_upd.
  - apply Forall2_upd; [done|]. cbn. rewrite length_take. lia.
Qed.

Lemma slot_size t k a :
  transform_wf t → array_ptr t k = Some a → rd (m_ArraySize t) k = Some (Z.of_nat (length a)).
Proof.
  intros [_ _ _ Hs]. unfold array_ptr, rd. case_decide; [|done]. intros Hk.
  destruct (p_Array t !! Z.to_nat k) as [[b|]|] eqn:Hb; cbn in Hk; simplify_eq.
  destruct (Forall2_lookup_l _ _ _ _ _ Hs Hb) as (n & Hn & [-> _]). by rewrite Hn.
Qed.

(** Printing a consistent object reads inside its tables and changes nothing. *)
Lemma wp_indices (body : Z → M transform ()) t :
  (∀ i, 0 <= i < 6 → wp_ok (body i) (λ _ t', t' = t) t) →
  wp_ok (for_ (seqZ 0 ADNED_MAX_TRANSFORM_PARAMS) body) (λ _ t', t' = t) t.
Proof.
  intros Hbody. apply (wp_for _ body (λ _ t', t' = t)); [done|].
  intros l1 i l2 t' Hl ->. apply Hbody.
  assert (i ∈ seqZ 0 ADNED_MAX_TRANSFORM_PARAMS) as Hi by (rewrite Hl; apply elem_of_app; right; by left).
  apply elem_of_seqZ in Hi. unfold ADNED_MAX_TRANSFORM_PARAMS in Hi. lia.
Qed.

Lemma wp_table {A} (f : transform → list A) t :
  length (f t) = 6%nat →
  wp_ok (for_ (seqZ 0 ADNED_MAX_TRANSFORM_PARAMS) (λ i,
    t ← gets (λ t, t); _ ← checked OutOfBounds (rd (f t) i); mret ())) (λ _ t', t' = t) t.
Proof.
  intros Hlen. apply wp_indices. intros i Hi.
  assert (is_Some (rd (f t) i)) as [v Hv] by (apply rd_Some; unfold in_bounds; lia).
  unfold wp_ok. wp_steps. rewrite Hv. by wp_steps.
Qed.

Lemma wp_printParams t : transform_wf t → wp_ok printParams (λ _ t', t' = t) t.
Proof.
  intros Hwf. pose proof Hwf as [H1 H2 H3 H4]. apply Forall2_length in H4 as H5.
  unfold wp_ok, printParams.
  apply wp_bind_2. eapply wp_mono; [by apply wp_table| |done]. intros [] ? ->.
  apply wp_bind_2. eapply wp_mono; [by apply wp_table| |done]. intros [] ? ->.
  apply wp_indices. intros i Hi. unfold wp_ok. wp_steps. unfold print_array.
  assert (is_Some (rd (m_ArraySize t) i)) as [n Hn] by (apply rd_Some; unfold in_bounds; lia).
  assert (is_Some (rd (p_Array t) i)) as [p Hp] by (apply rd_Some; unfold in_bounds; lia).
  rewrite Hn. cbn. rewrite Hp. cbn. destruct p as [a|]; [|done].
  assert (array_ptr t i = Some a) as Ha by (unfold array_ptr; by rewrite Hp).
  pose proof (slot_size _ _ _ Hwf Ha). rewrite decide_False; [done|]. simplify_eq. lia.
Qed.

Lemma printParams_same : stable eq printParams.
Proof. unfold printParams. stable_split fail. Qed.

(** What the driver does with an object after creating it. *)
Inductive transform_op : Type :=
  | SetInt (i v : Z)
  | SetDouble (i : Z) (v : f64)
  | SetArray (i : Z) (src : list f64)
  | SetDebug (b : bool)
  | PrintParams.

Definition apply_op (calloc_ok : Z → Z → bool) (op : transform_op) : M transform () :=
  match op with
  | SetInt i v => setIntParam i v ;; mret ()
  | SetDouble i v => setTransDoubleParam i v ;; mret ()
  | SetArray i src => setDoubleArray calloc_ok i (Some src) (Z.of_nat (length src)) ;; mret ()
  | SetDebug b => setDebug b
  | PrintParams => printParams
  end.

Lemma apply_op_wf calloc_ok op t :
  (∀ n, calloc_ok n 8 = true) → transform_wf t →
  wp_ok (apply_op calloc_ok op) (λ _, transform_wf) t.
Proof.
  intros Hc Hwf. destruct op as [i v|i v|i src|b|]; cbn; unfold wp_ok.
  - apply wp_bind_2. unfold setIntParam. destruct (bad_index i); wp_steps; [done|].
    destruct Hwf. by split; cbn; rewrite ?length_upd.
  - apply wp_bind_2. unfold setTransDoubleParam. destruct (bad_index i); wp_steps; [done|].
    destruct Hwf. by split; cbn; rewrite ?length_upd.
  - apply wp_bind_2. destruct src as [|x src].
    { unfold setDoubleArray. destruct (bad_index i); wp_steps; done. }
    eapply wp_mono; [apply setDoubleArray_wf|..]; [done| |done| |done]; cbn; [lia|done].
  - unfold setDebug. wp_steps. by destruct Hwf.
  - eapply wp_mono; [by apply wp_printParams| |done]. by intros _ ? ->.
Qed.

Lemma wp_ops calloc_ok ops :
  (∀ n, calloc_ok n 8 = true) →
  wp_ok (for_ ops (apply_op calloc_ok)) (λ _, transform_wf) ADnEDTransformBase.
Proof.
  intros Hc. apply (wp_for ops _ (λ _, transform_wf)); [apply base_wf|].
  intros l1 op l2 t _ Hwf. by apply apply_op_wf.
Qed.

(** The copy goes to the block without a test. *)
Lemma setDoubleArray_no_memory calloc_bad i x src t :
  0 <= i < 6 → calloc_bad (Z.of_nat (length (x :: src))) 8 = false →
  faults (apply_op calloc_bad (SetArray i (x :: src))) NullDeref t.
Proof.
  intros Hi Hc. cbn [apply_op]. apply faults_bind. unfold setDoubleArray.
  rewrite (proj2 (bad_index_false i) Hi), bool_decide_eq_false_2 by (cbn; lia).
  eexists. unfold mbind, M_bind, modify, checked, lift. by rewrite Hc.
Qed.

(** C15. The tables of every transformation object the driver can build are
    consistent: starting from the constructor, any sequence of [setIntParam],
    [setDoubleParam], [setDoubleArray], [setDebug] and [printParams], with any indices,
    in which every [calloc] gives a block, has no undefined behaviour and keeps the six
    slots of every table and, for each array, the length that is recorded for it.  The
    condition is needed: after any such sequence, a [setDoubleArray] whose [calloc]
    fails copies to a null pointer. *)
Theorem transform_ops_wf calloc_ok ops :
  (∀ n, calloc_ok n 8 = true) →
  wp_ok (for_ ops (apply_op calloc_ok)) (λ _, transform_wf) ADnEDTransformBase ∧
  ∀ calloc_bad i x src,
    0 <= i < 6 → calloc_bad (Z.of_nat (length (x :: src))) 8 = false →
    ∃ t, (for_ ops (apply_op calloc_ok) ;; apply_op calloc_bad (SetArray i (x :: src)))
      ADnEDTransformBase = (UB NullDeref, t).
Proof.
  intros Hc. split; [by apply wp_ops|]. intros calloc_bad i x src Hi Hbad.
  eapply wp_faults; [by apply wp_ops|]. intros [] t _. by apply setDoubleArray_no_memory.
Qed.

(** ** The calculations on consistent objects *)

(** [ADNED_TRANSFORM_TYPE1]: the factor of the pixel times the time of flight,
    the error value when there is no factor for the pixel. *)
Lemma calc_dspace_static_spec t pixelID tof :
  transform_wf t → 0 <= pixelID →
  calc_dspace_static t pixelID tof
  = Ok (match a ← array_ptr t 0; rd a pixelID with
        | Some v => f_mul (f_of_Z tof) v
        | None => transform_error
        end).
Proof.
  intros Hwf Hp. unfold calc_dspace_static, array_elem.
  destruct (array_ptr t 0) as [a|] eqn:Ha; [|done]. cbn.
  rewrite (slot_size t 0 a) by done. cbn. case_decide as Hd.
  - destruct (rd a pixelID) eqn:Hr; [done|].
    exfalso. assert (in_bounds a pixelID) as Hb by (unfold in_bounds; lia).
    apply rd_Some in Hb as [? ?]. congruence.
  - rewrite rd_None by (unfold in_bounds; lia). done.
Qed.

Definition unreadable (a : list f64) (i : Z) : Prop := ¬ in_bounds a i.

(** The faults of [calc_deltaE]: it indexes its two arrays without looking at
    their sizes. *)
Lemma calc_deltaE_fault_iff pow t pixelID tof :
  (∃ f, calc_deltaE pow t pixelID tof = UB f) ↔
  ∃ a0 a1, array_ptr t 0 = Some a0 ∧ array_ptr t 1 = Some a1 ∧
    (unreadable a0 pixelID ∨
     ∃ ef, rd a0 pixelID = Some ef ∧ f_le ef (f_of_Z 0) = false ∧ unreadable a1 pixelID).
Proof.
  unfold calc_deltaE, array_elem, unreadable.
  destruct (array_ptr t 0) as [a0|]; [|naive_solver].
  destruct (array_ptr t 1) as [a1|]; [|naive_solver]. cbn.
  setoid_rewrite rd_Some.
  destruct (rd a0 pixelID) as [ef|] eqn:E0; cbn.
  2:{ split; [|eauto]. intros _. exists a0, a1. split_and!; [done..|].
      left. rewrite E0. by intros [? ?]. }
  destruct (f_le ef (f_of_Z 0)) eqn:Ele; cbn.
  { split; [naive_solver|]. intros (b0 & b1 & [= <-] & [= <-] & [H|(ef' & ? & ? & _)]).
    - destruct H. eauto.
    - congruence. }
  destruct (rd a1 pixelID) as [l2|] eqn:E1; cbn.
  - split; [destruct (f_le l2 _); [|case_decide]; by intros [? ?]|].
    intros (b0 & b1 & [= <-] & [= <-] & [H|(ef' & ? & ? & H)]).
    + destruct H. eauto.
    + destruct H. eauto.
  - split; [|eauto]. intros _. exists a0, a1. split_and!; [done..|]. right.
    exists ef. rewrite E1. split_and!; [done..|]. by intros [? ?].
Qed.

(** ** What the driver relies on

    The driver calls [calculate] only.  [tr_covers t n] says that [t] can be
    asked about the pixel IDs below [n]. *)

Class Transformer (T : Type) := {
  tr_calculate : T → Z → Z → Z → outcome f64;
  tr_covers : T → Z → Prop
}.

Class TransformerLaws (T : Type) `{Transformer T} : Prop := {
  tr_calculate_defined (t : T) n type pixelID tof :
    tr_covers t n → 0 <= pixelID < n → ∃ v, tr_calculate t type pixelID tof = Ok v
}.

(** A loaded array covers the pixels it has an entry for. *)
Definition transform_covers (t : transform) (n : Z) : Prop :=
  transform_wf t ∧ ∀ k a, array_ptr t k = Some a → n <= Z.of_nat (length a).

Definition adned_transformer (pow : f64 → f64 → f64) : Transformer transform := {|
  tr_calculate := calculate pow;
  tr_covers := transform_covers
|}.

Lemma calc_deltaE_no_throw pow t pixelID tof e : calc_deltaE pow t pixelID tof ≠ Throw e.
Proof.
  unfold calc_deltaE, array_elem.
  destruct (array_ptr t 0) as [a0|], (array_ptr t 1) as [a1|]; [|done..]. cbn.
  destruct (rd a0 pixelID) as [ef|]; [|done]. cbn. destruct (f_le ef _); [done|].
  destruct (rd a1 pixelID) as [l2|]; [|done]. cbn. destruct (f_le l2 _); [done|].
  by case_decide.
Qed.

Lemma adned_transformer_laws pow : TransformerLaws transform (H := adned_transformer pow).
Proof.
  split. cbn. intros t n type pixelID tof [Hwf Hc] Hp. unfold calculate.
  case_decide; [eauto|]. case_decide; [eauto|].
  case_decide; [rewrite calc_dspace_static_spec by (done || lia); eauto|].
  case_decide; [eauto|]. case_decide; [|eauto].
  destruct (calc_deltaE pow t pixelID tof) as [v|e|f] eqn:E; [eauto|..]; exfalso.
  - by apply calc_deltaE_no_throw in E.
  - assert (∃ f, calc_deltaE pow t pixelID tof = UB f) as Hf by eauto.
    apply calc_deltaE_fault_iff in Hf as (a0 & a1 & Ha0 & Ha1 & Hf).
    pose proof (Hc 0 a0 Ha0) as Hl0. pose proof (Hc 1 a1 Ha1) as Hl1.
    destruct Hf as [Hf|(? & _ & _ & Hf)]; apply Hf; unfold in_bounds; lia.
Qed.

(** ** Loading arrays and calculating *)

(** [setDoubleArray] of a whole array that is not empty. *)
Definition load_array (k : Z) (a : list f64) (t : transform) : transform :=
  {| t with p_Array := upd (p_Array t) k (Some a);
            m_ArraySize := upd (m_ArraySize t) k (Z.of_nat (length a)) |}.

Lemma setDoubleArray_load calloc_ok k a t :
  0 <= k < 6 → a ≠ [] → calloc_ok (Z.of_nat (length a)) 8 = true →
  setDoubleArray calloc_ok k (Some a) (Z.of_nat (length a)) t
  = (Ok ADNED_TRANSFORM_OK, load_array k a t).
Proof.
  intros Hk Ha Hc. assert (0 < length a)%nat by (destruct a; [done|cbn; lia]).
  rewrite setDoubleArray_run by (done || lia). unfold load_array.
  by rewrite Nat2Z.id, take_ge by lia.
Qed.

Lemma load_array_wf k a t :
  0 <= k < 6 → a ≠ [] → transform_wf t → transform_wf (load_array k a t).
Proof.
  intros Hk Ha [H1 H2 H3 H4]. split; cbn; [done..|by rewrite length_upd|].
  apply Forall2_upd; [done|]. cbn. split; [done|]. destruct a; [done|cbn; lia].
Qed.

Lemma load_array_ptr k a t k' :
  0 <= k < 6 → transform_wf t →
  array_ptr (load_array k a t) k' = if decide (k' = k) then Some a else array_ptr t k'.
Proof.
  intros Hk Hwf. unfold array_ptr, load_array. cbn.
  assert (in_bounds (p_Array t) k) by (unfold in_bounds; rewrite (wf_arrays _ Hwf); lia).
  case_decide as E; [subst; by rewrite rd_upd_eq|]. by rewrite rd_upd_ne by lia.
Qed.

(** Round trip of the d-spacing transformation: after [setDoubleArray] has
    loaded the factors, [calculate] of type 1 multiplies the time of flight by the
    factor of the pixel, and gives the error value for a pixel without factor. *)
Lemma calculate_dspace_loaded pow calloc_ok factors t pixelID tof :
  transform_wf t → factors ≠ [] → calloc_ok (Z.of_nat (length factors)) 8 = true →
  0 <= pixelID →
  wp_ok (setDoubleArray calloc_ok 0 (Some factors) (Z.of_nat (length factors)))
    (λ st t', st = ADNED_TRANSFORM_OK ∧
       calculate pow t' ADNED_TRANSFORM_TYPE1 pixelID tof
       = Ok (match rd factors pixelID with
             | Some v => f_mul (f_of_Z tof) v
             | None => transform_error
             end)) t.
Proof.
  intros Hwf Hne Hc Hp. unfold wp_ok, wp. rewrite setDoubleArray_load by done.
  split; [done|]. unfold calculate. rewrite decide_False, decide_False, decide_True by (done || lia).
  rewrite calc_dspace_static_spec by (apply load_array_wf || lia; done || lia).
  by rewrite load_array_ptr, decide_True by done.
Qed.

(** C17. The energy transfer transformation does not compare the pixel ID with
    the length of the loaded arrays: with both arrays of [n] elements loaded,
    [calculate] of type 3 yields a number for exactly the pixel IDs below [n], and
    reads out of bounds for every other. *)
Theorem calculate_deltaE_defined_iff pow efs l2s t pixelID tof :
  transform_wf t → efs ≠ [] → length efs = length l2s → 0 <= pixelID →
  let t' := load_array 1 l2s (load_array 0 efs t) in
  (pixelID < Z.of_nat (length efs) ∧
   ∃ v, calculate pow t' ADNED_TRANSFORM_TYPE3 pixelID tof = Ok v) ∨
  (Z.of_nat (length efs) <= pixelID ∧
   calculate pow t' ADNED_TRANSFORM_TYPE3 pixelID tof = UB OutOfBounds).
Proof.
  intros Hwf Hne Hlen Hp t'. subst t'. unfold calculate. rewrite !decide_False by (done || lia).
  rewrite decide_True by done. unfold calc_deltaE, array_elem.
  rewrite !load_array_ptr by (try apply load_array_wf; done || lia).
  change (decide (0 = 1)) with (Z.eq_dec 0 1). rewrite !decide_True by done. cbn.
  destruct (decide (pixelID < Z.of_nat (length efs))) as [Hlt|Hge].
  - left. split; [done|].
    assert (is_Some (rd efs pixelID)) as [ef ->] by (apply rd_Some; unfold in_bounds; lia).
    assert (is_Some (rd l2s pixelID)) as [l2 ->] by (apply rd_Some; unfold in_bounds; lia).
    cbn. destruct (f_le ef _); [eauto|]. destruct (f_le l2 _); [eauto|]. case_decide; eauto.
  - right. split; [lia|]. by rewrite (rd_None efs) by (unfold in_bounds; lia).
Qed.

(** ** Witnesses *)

Lemma transform_ops_wf_witness :
  wp_ok (for_ [SetArray 0 [f_of_Z 2; f_of_Z 3]; SetInt 7 1; PrintParams] (apply_op (λ _ _, true)))
    (λ _, transform_wf) ADnEDTransformBase ∧
  ∃ t, (for_ [SetInt 7 1] (apply_op (λ _ _, true)) ;; apply_op (λ _ _, false) (SetArray 0 [f_of_Z 2]))
    ADnEDTransformBase = (UB NullDeref, t).
Proof.
  split.
  - by refine (proj1 (transform_ops_wf (λ _ _, true) _ _)).
  - by refine (proj2 (transform_ops_wf (λ _ _, true) [SetInt 7 1] _) (λ _ _, false) 0 _ [] _ _).
Defined.

Lemma calculate_dspace_loaded_witness :
  wp_ok (setDoubleArray (λ _ _, true) 0 (Some [f_of_Z 2; f_of_Z 3]) 2)
    (λ st t', st = ADNED_TRANSFORM_OK ∧
       calculate (λ x _, x) t' ADNED_TRANSFORM_TYPE1 1 5 = Ok (f_mul (f_of_Z 5) (f_of_Z 3)))
    ADnEDTransformBase.
Proof.
  apply (calculate_dspace_loaded (λ x _, x) (λ _ _, true) [f_of_Z 2; f_of_Z 3]
    ADnEDTransformBase 1 5 base_wf); [done|reflexivity|lia].
Defined.

Lemma calculate_deltaE_defined_iff_witness :
  let t' := load_array 1 [f_of_Z 2] (load_array 0 [f_of_Z 3] ADnEDTransformBase) in
  (1 < 1 ∧ ∃ v, calculate (λ x _, x) t' ADNED_TRANSFORM_TYPE3 1 5 = Ok v) ∨
  (1 <= 1 ∧ calculate (λ x _, x) t' ADNED_TRANSFORM_TYPE3 1 5 = UB OutOfBounds).
Proof.
  apply (calculate_deltaE_defined_iff (λ x _, x) [f_of_Z 3] [f_of_Z 2] ADnEDTransformBase 1 5
    base_wf); [done|reflexivity|lia].
Defined.
