(* ===== verification/File.v ===== *)
(** * Mapping files

    Models class ADnEDFile (ADnEDFile.cpp): the constructor, which opens a file
    and reads the number of lines from the first one, and the two readers that
    fill an array of integers or of floating-point numbers.

    - A stream is the list of characters that are left to read; a C string is a
      list of characters without the terminating NUL.
    - The file system is an argument: what opening a name gives.
    - [errno] is the flag [erange], "the last error was ERANGE".  The C library
      sets it and nothing here clears it.
    - [strtod] is a parameter: the standard leaves its rounding to the
      implementation. *)

From stdpp Require Import base numbers list option strings.
From Stdlib Require Import Ascii.
From S2P Require Import Prelude Float64.

Local Open Scope Z_scope.

Definition ADNEDFILE_MAX_STRING : Z := 256.
Definition s_ADNEDFILE_STRTOL_BASE : Z := 10.

#[export] Instance ascii_eq_dec : EqDecision ascii := ascii_dec.

Definition newline : ascii := "010"%char.
Definition nul : ascii := "000"%char.

(** ** The C library *)

(** [fgets(line, n + 1, stream)] for a non-empty stream: at most [n] characters,
    up to and including a newline. *)
Fixpoint take_line (n : nat) (stream : list ascii) : list ascii * list ascii :=
  match n, stream with
  | S n, c :: rest =>
      if decide (c = newline) then ([c], rest)
      else let '(l, r) := take_line n rest in (c :: l, r)
  | _, _ => ([], stream)
  end.

Definition fgets (size : Z) (stream : list ascii) : option (list ascii * list ascii) :=
  match stream with
  | [] => None
  | _ => Some (take_line (Z.to_nat (size - 1)) stream)
  end.

(** The string at the start of a buffer: up to the first NUL. *)
Fixpoint c_string (buf : list ascii) : list ascii :=
  match buf with
  | [] => []
  | c :: buf => if decide (c = nul) then [] else c :: c_string buf
  end.

Definition code (c : ascii) : Z := Z.of_N (N_of_ascii c).

(** [isspace] in the C locale: space and the codes 9 to 13. *)
Definition isspace (c : ascii) : bool :=
  bool_decide (code c = 32 ∨ 9 <= code c <= 13).

Definition digit (c : ascii) : option Z :=
  if decide (48 <= code c <= 57) then Some (code c - 48) else None.

Fixpoint skip_space (l : list ascii) : list ascii :=
  match l with
  | c :: l' => if isspace c then skip_space l' else l
  | [] => []
  end.

(** The value of the leading digits, and whether there was one. *)
Fixpoint read_digits (l : list ascii) (acc : Z) (any : bool) : Z * bool :=
  match l with
  | c :: l' =>
      match digit c with
      | Some d => read_digits l' (acc * s_ADNEDFILE_STRTOL_BASE + d) true
      | None => (acc, any)
      end
  | [] => (acc, any)
  end.

Definition read_sign (l : list ascii) : bool * list ascii :=
  match l with
  | c :: l' =>
      if decide (code c = 45) then (true, l')
      else if decide (code c = 43) then (false, l') else (false, l)
  | [] => (false, [])
  end.

(** A conversion: the value, [end != line], and a range error. *)
Record converted (A : Type) : Type := Converted { cv_val : A; cv_any : bool; cv_erange : bool }.
Arguments Converted {A}.
Arguments cv_val {A}.
Arguments cv_any {A}.
Arguments cv_erange {A}.

(** [strtol(line, &end, 10)] with a 64-bit [long]. *)
Definition strtol (line : list ascii) : converted Z :=
  let '(neg, l) := read_sign (skip_space line) in
  let '(v, any) := read_digits l 0 false in
  let v := if neg then - v else v in
  if decide (any = false) then Converted 0 false false
  else if decide (2 ^ 63 <= v) then Converted (2 ^ 63 - 1) true true
  else if decide (v < - 2 ^ 63) then Converted (- 2 ^ 63) true true
  else Converted v true false.

(** [strpbrk(line, whitespace) != NULL] for "# \n\t". *)
Definition has_whitespace (line : list ascii) : bool :=
  existsb (λ c, bool_decide (code c = 35 ∨ code c = 32 ∨ code c = 10 ∨ code c = 9)) line.

(** ** The object

    [p_FILE] is the rest of the stream, [None] for NULL. *)

Record ADnEDFile : Type := AFile {
  m_Size : Z;
  p_FILE : option (list ascii)
}.

Inductive open_result : Type :=
  | NotReadable
  | NotOpenable
  | Opened (stream : list ascii).

(** The constructor; the state is [errno].  A name of 255 characters or more
    leaves [m_fileName] without its terminator. *)
Definition newADnEDFile (fs : string → open_result) (fileName : string) : M bool ADnEDFile :=
  if decide (String.length fileName = 0%nat) then mret (AFile 0 None)
  else if decide (ADNEDFILE_MAX_STRING - 1 <= Z.of_nat (String.length fileName)) then
    undefined Uninitialised
  else match fs fileName with
  | NotReadable => throw "File could not be read."
  | NotOpenable => throw "File could not be opened."
  | Opened stream =>
      let '(line, rest) := default ([], stream) (fgets (ADNEDFILE_MAX_STRING - 1) stream) in
      let size := strtol (c_string line) in
      modify (λ erange, erange || cv_erange size) ;;
      erange ← gets id;
      if negb erange && cv_any size then mret (AFile (u32 (cv_val size)) (Some rest))
      else throw "Failed to read size"
  end.

Definition getSize (f : ADnEDFile) : Z := m_Size f.

(** ** The readers

    Both are the same loop with another conversion.  The state of the loop is the
    stream, [errno] and the caller's array; [index] is a local variable. *)

Record reading (A : Type) : Type := Reading {
  stream : list ascii;
  erange : bool;
  array : list A
}.
Arguments Reading {A}.
Arguments stream {A}.
Arguments erange {A}.
Arguments array {A}.

(** [line[strlen(line)-1]='\0'] removes the last character; on an empty string
    the index is outside the buffer. *)
Definition chop (line : list ascii) : option (list ascii) :=
  match c_string line with
  | [] => None
  | l => Some (removelast l)
  end.

Section reader.
Context {A : Type} (conv : list ascii → converted A) (what : string) (size : Z).

(** The conversion of one line. *)
Definition read_line (line : list ascii) (index : Z) : M (reading A) () :=
  l ← checked OutOfBounds (chop line);
  if has_whitespace l then throw "Whitespace in file not allowed."
  else
    modify (λ r, {| r with erange := erange r || cv_erange (conv l) |}) ;;
    e ← gets erange;
    if negb e && cv_any (conv l) then
      a ← gets array;
      a' ← checked OutOfBounds (wr a index (cv_val (conv l)));
      modify (λ r, {| r with array := a' |})
    else throw what.

Fixpoint read_loop (fuel : nat) (index : Z) : M (reading A) Z :=
  match fuel with
  | O => mret index
  | S fuel =>
      s ← gets stream;
      match fgets (ADNEDFILE_MAX_STRING - 1) s with
      | None => mret index
      | Some (line, rest) =>
          modify (λ r, {| r with stream := rest |}) ;;
          if decide (size <= index) then mret index
          else read_line line index ;; read_loop fuel (index + 1)
      end
  end.
End reader.

Definition readData {A} (conv : list ascii → converted A) (what : string) (f : ADnEDFile)
    (errno : bool) (pArray : option (list A)) : outcome () * reading A :=
  match p_FILE f, pArray with
  | None, a => (Throw "p_FILE is NULL.", Reading [] errno (default [] a))
  | Some s, None => (Throw "Array pointer is NULL.", Reading s errno [])
  | Some s, Some a =>
      (read_loop conv what (m_Size f) (S (length s)) 0 ;; mret ()) (Reading s errno a)
  end.

Definition int_of_line (l : list ascii) : converted Z :=
  let c := strtol l in Converted (u32 (cv_val c)) (cv_any c) (cv_erange c).

Definition readDataIntoIntArray (f : ADnEDFile) (errno : bool) (pArray : option (list Z)) :=
  readData int_of_line "Could not convert line to int." f errno pArray.

Definition readDataIntoDoubleArray (strtod : list ascii → converted f64) (f : ADnEDFile)
    (errno : bool) (pArray : option (list f64)) :=
  readData strtod "Could not convert line to double." f errno pArray.
