(* ===== verification/FileTheorems.v ===== *)
(** * Theorems about mapping files: termination, safety, the round trip of
    printed files, and the error paths. *)

From stdpp Require Import base numbers list option strings.
From Stdlib Require Import Ascii.
From S2P Require Import Prelude Float64 File.

Local Open Scope Z_scope.

(** ** Lines *)

Lemma take_line_app n l rest :
  newline ∉ l → (length l < n)%nat →
  take_line n (l ++ newline :: rest) = (l ++ [newline], rest).
Proof.
  revert l. induction n as [|n IH]; intros l Hl Hn; [lia|].
  destruct l as [|c l]; cbn [app take_line]; [by rewrite decide_True|].
  apply not_elem_of_cons in Hl as [Hc Hl]. rewrite decide_False by done.
  cbn in Hn. by rewrite IH by (done || lia).
Qed.

Lemma take_line_split n l : (take_line n l).1 ++ (take_line n l).2 = l.
Proof.
  revert l. induction n as [|n IH]; intros [|c l]; cbn; [done..|].
  case_decide; [done|]. specialize (IH l). destruct (take_line n l). cbn in *. by rewrite IH.
Qed.

Lemma take_line_nonempty n c l : (take_line (S n) (c :: l)).1 ≠ [].
Proof. cbn. case_decide; [done|]. by destruct (take_line n l). Qed.

Lemma c_string_id l : nul ∉ l → c_string l = l.
Proof.
  induction l as [|c l IH]; [done|]. intros [Hc Hl]%not_elem_of_cons. cbn.
  rewrite decide_False by done. by rewrite IH.
Qed.

(** What a call of [fgets] gives for a stream that is not at its end. *)
Lemma fgets_some size s :
  2 <= size → s ≠ [] →
  ∃ line rest, fgets size s = Some (line, rest) ∧ s = line ++ rest ∧ line ≠ [].
Proof.
  intros Hsize Hs. destruct s as [|c s]; [done|]. unfold fgets.
  destruct (take_line (Z.to_nat (size - 1)) (c :: s)) as [line rest] eqn:E.
  exists line, rest. split; [done|].
  pose proof (take_line_split (Z.to_nat (size - 1)) (c :: s)) as Hsplit. rewrite E in Hsplit.
  split; [done|].
  replace (Z.to_nat (size - 1)) with (S (Z.to_nat (size - 2))) in E by lia.
  pose proof (take_line_nonempty (Z.to_nat (size - 2)) c s) as Hne. by rewrite E in Hne.
Qed.

(** ** The loop *)

Section loop.
Context {A : Type} (conv : list ascii → converted A) (what : string) (size : Z).
Local Abbreviation loop := (read_loop conv what size).
Implicit Types (r : reading A).

Lemma read_line_stream line index r a r' :
  read_line conv what line index r = (Ok a, r') → stream r' = stream r.
Proof.
  unfold read_line, checked, lift, mbind, M_bind, modify, gets.
  destruct (chop line) as [l|]; [|done]. cbn. destruct (has_whitespace l); [done|]. cbn.
  destruct (negb _ && _); [|done]. cbn. destruct (wr _ _ _); [|done]. cbn. by intros [= _ <-].
Qed.

Lemma read_loop_fuel fuel : ∀ k index r,
  (length (stream r) < fuel)%nat → loop (fuel + k) index r = loop fuel index r.
Proof.
  induction fuel as [|fuel IH]; intros k index r Hf; [lia|]. cbn [read_loop Nat.add].
  unfold mbind, M_bind, gets. cbn. destruct (decide (stream r = [])) as [->|Hne]; [done|].
  destruct (fgets_some (ADNEDFILE_MAX_STRING - 1) (stream r)) as (line & rest & -> & Hs & Hl);
    [done..|]. cbn. case_decide; [done|].
  destruct (read_line conv what line index _) as [[a|e|u] r'] eqn:E; [|done..].
  apply read_line_stream in E. cbn in E. apply IH. rewrite E, Hs, length_app in *.
  destruct line; [done|]. cbn in *. lia.
Qed.

Lemma chop_some line : nul ∉ line → line ≠ [] → chop line = Some (removelast line).
Proof. intros Hn Hl. unfold chop. rewrite c_string_id by done. by destruct line. Qed.

Lemma wp_read_line n line index r :
  nul ∉ line → line ≠ [] → in_bounds (array r) index → length (array r) = n →
  wp (read_line conv what line index)
    (λ _ r', stream r' = stream r ∧ length (array r') = n)
    (λ _ r', length (array r') = n) r.
Proof.
  intros Hn Hl Hi Hlen. unfold read_line. rewrite chop_some by done. wp_steps.
  destruct (has_whitespace _); [by wp_step|]. wp_steps. cbn.
  destruct (negb _ && cv_any _); [|by wp_step]. wp_steps. cbn. rewrite wr_Some by done.
  wp_steps. cbn. by rewrite length_upd.
Qed.

Lemma wp_read_loop n fuel : ∀ index r,
  nul ∉ stream r → 0 <= index → size <= Z.of_nat n → length (array r) = n →
  wp (loop fuel index) (λ _ r', length (array r') = n) (λ _ r', length (array r') = n) r.
Proof.
  induction fuel as [|fuel IH]; intros index r Hn Hi Hs Hlen; cbn [read_loop]; [by wp_step|].
  wp_steps. destruct (decide (stream r = [])) as [->|Hne]; [done|].
  destruct (fgets_some (ADNEDFILE_MAX_STRING - 1) (stream r)) as (line & rest & -> & Hst & Hl);
    [done..|]. rewrite Hst, not_elem_of_app in Hn. wp_steps.
  case_decide; [by wp_step|]. wp_step.
  eapply wp_mono; [apply (wp_read_line n); [by apply Hn|done|unfold in_bounds; cbn; lia|done]| |done].
  intros [] r' [Hst' Hlen']. cbn in Hst'. apply IH; [by rewrite Hst'; apply Hn|lia..].
Qed.

(** A run that returns keeps the length of the array and stores converted values
    only. *)
Definition array_kept (P : A → Prop) r r' : Prop :=
  length (array r') = length (array r) ∧ (Forall P (array r) → Forall P (array r')).

#[local] Instance array_kept_preorder P : PreOrder (array_kept P).
Proof. split; [by intros r|]. intros r1 r2 r3 [A1 A2] [B1 B2]. split; [congruence|auto]. Qed.

Lemma read_line_kept P line index :
  (∀ l, P (cv_val (conv l))) → stable (array_kept P) (read_line conv what line index).
Proof.
  intros HP r u r'. unfold read_line, checked, lift, mbind, M_bind, modify, gets, wr.
  destruct (chop line) as [l|]; [|done]. cbn. destruct (has_whitespace l); [done|]. cbn.
  destruct (negb _ && _); [|done]. cbn. case_decide; [|done]. cbn. intros [= _ <-].
  split; cbn; [apply length_insert|]. intros Hr. by apply Forall_insert.
Qed.

Lemma read_loop_kept P fuel index :
  (∀ l, P (cv_val (conv l))) → stable (array_kept P) (loop fuel index).
Proof.
  intros HP. revert index. induction fuel as [|fuel IH]; intros index; cbn [read_loop];
    stable_split ltac:(idtac; first [apply IH | by apply read_line_kept
      | apply stable_modify; by intros []]).
Qed.
End loop.

Lemma readData_kept {A} (conv : list ascii → converted A) what f errno a u r (P : A → Prop) :
  (∀ l, P (cv_val (conv l))) → readData conv what f errno a = (Ok u, r) →
  ∃ b, a = Some b ∧ length (array r) = length b ∧ (Forall P b → Forall P (array r)).
Proof.
  intros HP. unfold readData. destruct (p_FILE f) as [s|]; [|done]. destruct a as [b|]; [|done].
  intros (n & r1 & E & [_ ->]%ret_Ok)%bind_Ok. exists b. split; [done|].
  by eapply (read_loop_kept conv what) in E.
Qed.

(** A line that starts with NUL. *)
Lemma take_line_nul n rest : ∃ l r, take_line (S n) (nul :: rest) = (nul :: l, r).
Proof. cbn [take_line]. rewrite decide_False by done. destruct (take_line n rest). eauto. Qed.

Lemma read_loop_nul {A} (conv : list ascii → converted A) what size fuel rest errno (a : list A) :
  0 < size →
  (read_loop conv what size (S fuel) 0 (Reading (nul :: rest) errno a)).1 = UB OutOfBounds.
Proof.
  intros Hsize. cbn [read_loop]. unfold mbind, M_bind, gets at 1. cbn [stream].
  unfold fgets. change (Z.to_nat (ADNEDFILE_MAX_STRING - 1 - 1)) with (S 253).
  destruct (take_line_nul 253 rest) as (l & r & ->). unfold modify. cbn [stream erange array].
  rewrite decide_False by lia. reflexivity.
Qed.

(** C18. The readers of ADnEDFile stay inside the caller's array.  For any file
    without NUL characters, any conversion and any state of [errno], reading into
    an array with room for [getSize()] elements either returns or throws
    [std::runtime_error]; it never accesses memory outside the line buffer or the
    array, whatever the number of lines.  The condition is needed: a data line
    that starts with NUL is an empty string, and removing its newline writes in
    front of the line buffer. *)
Theorem readData_safe {A} (conv : list ascii → converted A) what f errno s a :
  p_FILE f = Some s → getSize f <= Z.of_nat (length a) →
  (nul ∉ s →
     match readData conv what f errno (Some a) with
     | (UB _, _) => False
     | (_, r) => length (array r) = length a
     end) ∧
  (head s = Some nul → 0 < getSize f →
     (readData conv what f errno (Some a)).1 = UB OutOfBounds).
Proof.
  intros Hf Hs. unfold readData. rewrite Hf. split.
  - intros Hn. pose proof (wp_read_loop conv what (m_Size f) (length a) (S (length s)) 0
      (Reading s errno a) Hn ltac:(lia) Hs eq_refl) as H.
    unfold wp in H. unfold mbind, M_bind.
    by destruct (read_loop conv what (m_Size f) (S (length s)) 0 _) as [[] ?].
  - intros Hnul Hsize. destruct s as [|c rest]; [done|]. injection Hnul as ->.
    pose proof (read_loop_nul conv what (m_Size f) (length (nul :: rest)) rest errno a Hsize) as H.
    unfold mbind, M_bind. destruct (read_loop _ _ _ _ _ _) as [o r]. cbn in H. by subst o.
Qed.

(** C19. The readers end: the loop of [readData] has used up the stream or left
    before its bound on the number of turns, one more than the number of
    characters, is reached; more turns change nothing. *)
Theorem readData_terminates {A} (conv : list ascii → converted A) what f errno s a k :
  p_FILE f = Some s →
  (read_loop conv what (getSize f) (S (length s) + k) 0 ;; mret ()) (Reading s errno a)
  = readData conv what f errno (Some a).
Proof.
  intros Hf. unfold readData. rewrite Hf. unfold mbind, M_bind.
  rewrite read_loop_fuel by (cbn; lia). done.
Qed.

(** ** Printed files *)

Definition digit_char (d : Z) : ascii := ascii_of_N (Z.to_N (48 + d)).

Fixpoint print_digits (fuel : nat) (n : Z) (acc : list ascii) : list ascii :=
  match fuel with
  | O => acc
  | S fuel =>
      let acc := digit_char (n `mod` 10) :: acc in
      if decide (n < 10) then acc else print_digits fuel (n / 10) acc
  end.

(** The decimal digits of a number below 10^20. *)
Definition print_dec (n : Z) : list ascii := print_digits 20 n [].

#[global] Arguments print_dec : simpl never.
#[local] Arguments int_of_line : simpl never.
#[local] Arguments has_whitespace : simpl never.

Lemma digit_char_cases (P : ascii → Prop) :
  Forall (λ d, P (digit_char d)) [0; 1; 2; 3; 4; 5; 6; 7; 8; 9] →
  ∀ d, 0 <= d < 10 → P (digit_char d).
Proof.
  intros HP d Hd. rewrite Forall_forall in HP. apply HP.
  change [0; 1; 2; 3; 4; 5; 6; 7; 8; 9] with (seqZ 0 10). apply elem_of_seqZ. lia.
Qed.

(** Digits are none of the characters the readers treat specially. *)
Definition plain_char (c : ascii) : Prop :=
  c ≠ newline ∧ c ≠ nul ∧ isspace c = false ∧ code c ≠ 35 ∧ code c ≠ 45 ∧ code c ≠ 43 ∧
  code c ≠ 32 ∧ code c ≠ 10 ∧ code c ≠ 9.

Lemma digit_char_plain d : 0 <= d < 10 → plain_char (digit_char d).
Proof.
  apply digit_char_cases. repeat constructor; try done; by vm_compute.
Qed.

Lemma digit_digit_char d : 0 <= d < 10 → digit (digit_char d) = Some d.
Proof.
  intros Hd. assert (code (digit_char d) = 48 + d) as Hc.
  { revert d Hd. intros d Hd. unfold code, digit_char.
    rewrite N_ascii_embedding by lia. lia. }
  unfold digit. rewrite Hc, decide_True by lia. f_equal. lia.
Qed.

Lemma print_digits_plain fuel : ∀ n acc,
  0 <= n → Forall plain_char acc → Forall plain_char (print_digits fuel n acc).
Proof.
  induction fuel as [|fuel IH]; intros n acc Hn Ha; cbn; [done|].
  assert (Forall plain_char (digit_char (n `mod` 10) :: acc)).
  { constructor; [apply digit_char_plain, Z.mod_pos_bound; lia|done]. }
  case_decide; [done|]. apply IH; [apply Z.div_pos; lia|done].
Qed.

Lemma print_digits_length fuel : ∀ n acc,
  (length (print_digits fuel n acc) <= fuel + length acc)%nat ∧
  (fuel ≠ 0%nat → acc = [] → print_digits fuel n acc ≠ []).
Proof.
  assert (∀ fuel n acc, acc ≠ [] → print_digits fuel n acc ≠ []) as Hne.
  { clear. induction fuel as [|fuel IH]; intros n acc Ha; cbn; [done|].
    case_decide; [done|]. by apply IH. }
  induction fuel as [|fuel IH]; intros n acc; cbn; [split; [lia|done]|].
  case_decide; [split; [cbn; lia|done]|]. split; [|intros _ _; by apply Hne].
  destruct (IH (n / 10) (digit_char (n `mod` 10) :: acc)) as [Hl _]. cbn in Hl. lia.
Qed.

Lemma read_print_digits fuel : ∀ n acc any,
  (0 < fuel)%nat → 0 <= n < 10 ^ Z.of_nat fuel →
  read_digits (print_digits fuel n acc) 0 any = read_digits acc n true.
Proof.
  induction fuel as [|fuel IH]; intros n acc any Hf Hn; [lia|]. cbn [print_digits].
  pose proof (Z.mod_pos_bound n 10 ltac:(lia)) as Hm.
  case_decide as Hlt.
  - cbn [read_digits]. rewrite digit_digit_char by lia. cbn. f_equal.
    rewrite Z.mod_small by lia. done.
  - rewrite Nat2Z.inj_succ, Z.pow_succ_r in Hn by lia.
    assert (0 < fuel)%nat.
    { destruct fuel; [change (10 ^ Z.of_nat 0) with 1 in Hn; lia|lia]. }
    rewrite IH; [|done|split; [apply Z.div_pos; lia|apply Z.div_lt_upper_bound; lia]].
    cbn [read_digits]. rewrite digit_digit_char by done. unfold s_ADNEDFILE_STRTOL_BASE.
    f_equal. pose proof (Z.div_mod n 10 ltac:(lia)). lia.
Qed.

Lemma print_digits_app fuel : ∀ n acc rest,
  print_digits fuel n acc ++ rest = print_digits fuel n (acc ++ rest).
Proof.
  induction fuel as [|fuel IH]; intros n acc rest; cbn; [done|]. case_decide; [done|]. by rewrite IH.
Qed.

(** Digits, then nothing or something that is not a digit. *)
Lemma strtol_digits fuel n rest :
  (0 < fuel)%nat → 0 <= n < 10 ^ Z.of_nat fuel → n < 2 ^ 63 →
  read_digits rest n true = (n, true) →
  strtol (print_digits fuel n [] ++ rest) = Converted n true false.
Proof.
  intros Hf Hn Hn' Hrest. unfold strtol.
  assert (Forall plain_char (print_digits fuel n [])) as Hp by (apply print_digits_plain; [lia|done]).
  destruct (print_digits_length fuel n []) as [_ Hne]. specialize (Hne ltac:(lia) eq_refl).
  assert (skip_space (print_digits fuel n [] ++ rest) = print_digits fuel n [] ++ rest ∧
    read_sign (print_digits fuel n [] ++ rest) = (false, print_digits fuel n [] ++ rest)) as [-> ->].
  { destruct Hp as [|c l (_ & _ & Hs & _ & H45 & H43 & _) _]; [done|].
    cbn. rewrite Hs. by rewrite !decide_False. }
  rewrite print_digits_app, read_print_digits by lia.
  cbn [app]. rewrite Hrest. cbn. rewrite !decide_False by lia. done.
Qed.

Lemma strtol_print n rest :
  0 <= n < 2 ^ 63 → read_digits rest n true = (n, true) →
  strtol (print_dec n ++ rest) = Converted n true false.
Proof. intros. apply strtol_digits; [lia|cbn; lia|lia|done]. Qed.

Lemma plain_not_in l : Forall plain_char l → (newline ∉ l) ∧ (nul ∉ l) ∧ has_whitespace l = false.
Proof.
  induction 1 as [|c l (H1 & H2 & _ & H35 & _ & _ & H32 & H10 & H9) _ (IH1 & IH2 & IH3)].
  { split_and!; [apply not_elem_of_nil..|done]. }
  rewrite !not_elem_of_cons. split_and!; try done. unfold has_whitespace. cbn.
  rewrite bool_decide_eq_false_2 by naive_solver. done.
Qed.

(** ** Files of lines

    A line the reader takes as it is, and files that list the values of a
    conversion, one per line. *)

Definition text_line (l : list ascii) : Prop :=
  (newline ∉ l) ∧ (nul ∉ l) ∧ has_whitespace l = false ∧ (length l < 254)%nat.

Definition end_line (l : list ascii) : list ascii := l ++ [newline].

Definition text_lines (ls : list (list ascii)) : list ascii := concat (end_line <$> ls).

Lemma fgets_text l rest :
  text_line l → fgets (ADNEDFILE_MAX_STRING - 1) (end_line l ++ rest) = Some (end_line l, rest).
Proof.
  intros (Hnl & _ & _ & Hlen). unfold end_line, fgets. rewrite <-app_assoc. cbn [app].
  destruct (l ++ newline :: rest) eqn:E; [by destruct l|].
  rewrite <-E. f_equal. apply take_line_app; [done|].
  by change (Z.to_nat (ADNEDFILE_MAX_STRING - 1 - 1)) with 254%nat.
Qed.

Lemma chop_text l : text_line l → chop (end_line l) = Some l.
Proof.
  intros (_ & Hnul & _). unfold end_line. rewrite chop_some, removelast_last; [done| |by destruct l].
  rewrite not_elem_of_app. split; [done|]. by rewrite list_elem_of_singleton.
Qed.

Lemma text_lines_length ls : (length ls <= length (text_lines ls))%nat.
Proof.
  induction ls as [|l ls IH]; [cbn; lia|].
  change (text_lines (l :: ls)) with (end_line l ++ text_lines ls).
  unfold end_line. rewrite !length_app. cbn [length] in *. lia.
Qed.

Section lines.
Context {A : Type} (conv : list ascii → converted A) (what : string).
Local Abbreviation loop := (read_loop conv what).

Definition line_value (l : list ascii) (v : A) : Prop :=
  text_line l ∧ conv l = Converted v true false.

(** One line is read into its place. *)
Lemma read_line_text l v index rest (a : list A) :
  line_value l v → in_bounds a index →
  read_line conv what (end_line l) index (Reading rest false a)
  = (Ok (), Reading rest false (upd a index v)).
Proof.
  intros [Hl Hcv] Hi. unfold read_line. rewrite chop_text by done.
  destruct Hl as (_ & _ & Hw & _).
  unfold mbind, M_bind, checked, lift, gets, modify. cbn. rewrite Hw, Hcv. cbn.
  by rewrite wr_Some by done.
Qed.

Lemma read_loop_text ls vs : Forall2 line_value ls vs → ∀ dn old (a : list A) tail size fuel,
  length old = length vs → Z.of_nat (length dn + length vs) <= size →
  loop size (length vs + fuel) (Z.of_nat (length dn))
    (Reading (text_lines ls ++ tail) false (dn ++ old ++ a))
  = loop size fuel (Z.of_nat (length dn + length vs)) (Reading tail false (dn ++ vs ++ a)).
Proof.
  induction 1 as [|l v ls vs Hl _ IH]; intros dn old a tail size fuel Hold Hs.
  { apply nil_length_inv in Hold as ->. cbn [length Nat.add app text_lines]. by rewrite Nat.add_0_r. }
  destruct old as [|x old]; [done|]. injection Hold as Hold.
  cbn [length Nat.add] in *. cbn [read_loop]. unfold mbind, M_bind, gets at 1. cbn [stream].
  change (text_lines (l :: ls)) with (end_line l ++ text_lines ls). rewrite <-app_assoc.
  rewrite fgets_text by apply Hl. unfold modify. cbn [stream erange array].
  rewrite decide_False by lia.
  rewrite (read_line_text l v); [|done|unfold in_bounds; rewrite length_app; cbn; lia].
  unfold upd. rewrite Nat2Z.id, insert_app_r_alt, Nat.sub_diag by lia. cbn [app list_insert insert].
  specialize (IH (dn ++ [v]) old a tail size fuel Hold). rewrite length_app, <-!app_assoc in IH.
  cbn [length app] in IH.
  replace (Z.of_nat (length dn) + 1) with (Z.of_nat (length dn + 1)) by lia.
  replace (length dn + S (length vs))%nat with (length dn + 1 + length vs)%nat by lia.
  apply IH. lia.
Qed.

(** Reading a file of lines fills the array. *)
Lemma readData_text ls vs (old : list A) :
  Forall2 line_value ls vs → length old = length vs →
  readData conv what (AFile (Z.of_nat (length vs)) (Some (text_lines ls))) false (Some old)
  = (Ok (), Reading [] false vs).
Proof.
  intros Hls Hold. unfold readData. cbn [p_FILE m_Size]. unfold mbind, M_bind.
  pose proof (text_lines_length ls) as Hf. rewrite (Forall2_length _ _ _ Hls) in Hf.
  replace (S (length (text_lines ls)))
    with (length vs + S (length (text_lines ls) - length vs))%nat by lia.
  pose proof (read_loop_text ls vs Hls [] old [] [] (Z.of_nat (length vs))
    (S (length (text_lines ls) - length vs)) Hold ltac:(cbn; lia)) as Hrun.
  cbn [app length] in Hrun. rewrite !app_nil_r in Hrun. change (Z.of_nat 0) with 0 in Hrun.
  by rewrite Hrun.
Qed.
End lines.

(** The file that lists [vs]: the number of lines, then a line per value. *)
Definition print_line (v : Z) : list ascii := end_line (print_dec v).

Definition print_lines (vs : list Z) : list ascii := text_lines (print_dec <$> vs).

Definition print_file (vs : list Z) : list ascii :=
  print_line (Z.of_nat (length vs)) ++ print_lines vs.

Lemma print_dec_text v : 0 <= v → text_line (print_dec v).
Proof.
  intros Hv. assert (Forall plain_char (print_dec v)) as Hp by (apply print_digits_plain; done).
  destruct (plain_not_in _ Hp) as (Hnl & Hnul & Hw). split_and!; try done.
  destruct (print_digits_length 20 v []) as [Hlen _]. unfold print_dec. cbn [length] in Hlen. lia.
Qed.

Local Abbreviation int_loop := (read_loop int_of_line "Could not convert line to int.").

Lemma print_values vs : Forall is_u32 vs → Forall2 (line_value int_of_line) (print_dec <$> vs) vs.
Proof.
  induction 1 as [|v vs Hv _ IH]; [constructor|]. cbn. constructor; [|done].
  split; [apply print_dec_text; mach_lia|].
  unfold int_of_line. rewrite <-(app_nil_r (print_dec v)), strtol_print by (mach_lia || done).
  cbn. by rewrite u32_id.
Qed.

Lemma print_lines_length vs : (length vs <= length (print_lines vs))%nat.
Proof. pose proof (text_lines_length (print_dec <$> vs)) as H. by rewrite length_fmap in H. Qed.

(** The constructor on a file whose first line prints [n]. *)
Lemma new_print fs name n rest :
  (0 < String.length name < 255)%nat → fs name = Opened (print_line n ++ rest) → is_u32 n →
  newADnEDFile fs name false = (Ok (AFile n (Some rest)), false).
Proof.
  intros Hname Hfs Hn. pose proof (print_dec_text n ltac:(mach_lia)) as Ht.
  unfold newADnEDFile. rewrite decide_False by lia.
  rewrite decide_False by (unfold ADNEDFILE_MAX_STRING; lia). rewrite Hfs. unfold print_line.
  rewrite fgets_text by done. unfold default, from_option, id, end_line.
  rewrite c_string_id, strtol_print; [|mach_lia|done|].
  - unfold mbind, M_bind, modify, gets. cbn. by rewrite u32_id.
  - rewrite not_elem_of_app, list_elem_of_singleton. split; [apply Ht|done].
Qed.

Lemma int_file_read fs name vs :
  (0 < String.length name < 255)%nat → fs name = Opened (print_file vs) →
  Forall is_u32 vs → is_u32 (Z.of_nat (length vs)) →
  ∃ f, newADnEDFile fs name false = (Ok f, false) ∧ getSize f = Z.of_nat (length vs) ∧
    readDataIntoIntArray f false (Some (replicate (length vs) 0))
    = (Ok (), Reading [] false vs).
Proof.
  intros Hname Hfs Hvs Hlen. exists (AFile (Z.of_nat (length vs)) (Some (print_lines vs))).
  split; [by apply new_print|split; [done|]].
  apply readData_text; [by apply print_values|apply length_replicate].
Qed.

(** The same for a file of floating-point numbers, whose lines [strtod] converts to
    [vs]. *)
Definition double_file (ls : list (list ascii)) : list ascii :=
  print_line (Z.of_nat (length ls)) ++ text_lines ls.

Lemma double_file_read fs strtod name ls vs old :
  (0 < String.length name < 255)%nat → fs name = Opened (double_file ls) →
  Forall2 (line_value strtod) ls vs → is_u32 (Z.of_nat (length vs)) → length old = length vs →
  ∃ f, newADnEDFile fs name false = (Ok f, false) ∧ getSize f = Z.of_nat (length vs) ∧
    readDataIntoDoubleArray strtod f false (Some old) = (Ok (), Reading [] false vs).
Proof.
  intros Hname Hfs Hvs Hlen Hold. exists (AFile (Z.of_nat (length vs)) (Some (text_lines ls))).
  pose proof (Forall2_length _ _ _ Hvs) as Hl. unfold double_file in Hfs. rewrite Hl in Hfs.
  split; [by apply new_print|split; [done|]]. exact (readData_text strtod _ ls vs old Hvs Hold).
Qed.

(** C20. Round trip of pixel map files: a file that prints the number of values
    and then one 32-bit value per line is read back value by value; the
    constructor finds the size and the reader fills the caller's array with
    exactly the printed values. *)
Theorem int_file_roundtrip fs name vs :
  (0 < String.length name < 255)%nat → fs name = Opened (print_file vs) →
  Forall is_u32 vs → is_u32 (Z.of_nat (length vs)) →
  ∃ f, newADnEDFile fs name false = (Ok f, false) ∧ getSize f = Z.of_nat (length vs) ∧
    readDataIntoIntArray f false (Some (replicate (length vs) 0))
    = (Ok (), Reading [] false vs).
Proof. apply int_file_read. Qed.

(** The last line, without newline. *)
Lemma fgets_last v :
  0 <= v → fgets (ADNEDFILE_MAX_STRING - 1) (print_dec v) = Some (print_dec v, []).
Proof.
  intros Hv. destruct (print_digits_length 20 v []) as [Hlen Hne].
  fold (print_dec v) in Hlen, Hne. specialize (Hne ltac:(lia) eq_refl). cbn [length] in Hlen.
  assert (Forall plain_char (print_dec v)) as Hp by (apply print_digits_plain; done).
  destruct (plain_not_in _ Hp) as (Hnl & _ & _).
  assert (∀ n l, newline ∉ l → (length l <= n)%nat → take_line n l = (l, [])) as Htl.
  { clear. induction n as [|n IH]; intros [|c l] Hl Hlen; cbn in *; try done; [lia|].
    apply not_elem_of_cons in Hl as [Hc Hl]. rewrite decide_False by done. by rewrite IH by (done || lia). }
  unfold fgets. destruct (print_dec v) as [|c l] eqn:E; [done|]. f_equal. apply Htl; [done|].
  change (Z.to_nat (ADNEDFILE_MAX_STRING - 1 - 1)) with 254%nat. lia.
Qed.

Lemma print_digits_S fuel n acc :
  10 <= n →
  print_digits (S fuel) n acc = print_digits fuel (n / 10) ([digit_char (n `mod` 10)] ++ acc).
Proof. intros Hn. cbn. by rewrite decide_False by lia. Qed.

Lemma chop_last v :
  10 <= v → chop (print_dec v) = Some (print_digits 19 (v / 10) []).
Proof.
  intros Hv. destruct (print_digits_length 20 v []) as [_ Hne].
  fold (print_dec v) in Hne. specialize (Hne ltac:(lia) eq_refl).
  assert (Forall plain_char (print_dec v)) as Hp by (apply print_digits_plain; [lia|done]).
  destruct (plain_not_in _ Hp) as (_ & Hnul & _).
  rewrite chop_some by done. f_equal. unfold print_dec.
  rewrite print_digits_S by done.
  change ([digit_char (v `mod` 10)] ++ []) with ([] ++ [digit_char (v `mod` 10)]).
  by rewrite <-print_digits_app, removelast_last.
Qed.

Lemma last_line_loop vs v fuel :
  is_u32 v → 10 <= v →
  int_loop (Z.of_nat (length vs) + 1) (S (S fuel)) (Z.of_nat (length vs))
    (Reading (print_dec v) false (vs ++ [0]))
  = (Ok (Z.of_nat (length vs) + 1), Reading [] false (vs ++ [v / 10])).
Proof.
  intros Hv H10. assert (0 <= v / 10 < 2 ^ 32) as Hq.
  { split; [apply Z.div_pos; lia|apply Z.div_lt_upper_bound; mach_lia]. }
  assert (Forall plain_char (print_digits 19 (v / 10) [])) as Hp
    by (apply print_digits_plain; [lia|done]).
  destruct (plain_not_in _ Hp) as (_ & _ & Hw).
  assert (int_of_line (print_digits 19 (v / 10) []) = Converted (v / 10) true false) as Hcv.
  { unfold int_of_line. rewrite <-(app_nil_r (print_digits _ _ _)), strtol_digits;
      [cbn; by rewrite u32_id|lia|cbn; lia|lia|done]. }
  cbn [read_loop]. unfold mbind, M_bind, gets at 1. cbn [stream].
  rewrite fgets_last by lia. unfold modify. cbn [stream erange array].
  rewrite decide_False by lia. unfold read_line, mbind, M_bind. rewrite chop_last by done.
  unfold checked, lift. cbn [require]. rewrite Hw. unfold modify, gets. rewrite Hcv.
  cbn [stream erange array cv_erange cv_any cv_val orb negb andb].
  rewrite wr_Some by (unfold in_bounds; rewrite length_app; cbn; lia). cbn.
  unfold upd. by rewrite Nat2Z.id, insert_app_r_alt, Nat.sub_diag by lia.
Qed.

(** A file whose last line has no newline loses the last digit of that line:
    the reader removes the last character of every line, whatever it is, so for a
    value of two digits or more it stores the value divided by 10. *)
Lemma int_file_last_line fs name vs v :
  (0 < String.length name < 255)%nat →
  fs name = Opened (print_line (Z.of_nat (length vs) + 1) ++ print_lines vs ++ print_dec v) →
  Forall is_u32 vs → is_u32 v → 10 <= v → is_u32 (Z.of_nat (length vs) + 1) →
  ∃ f, newADnEDFile fs name false = (Ok f, false) ∧
    readDataIntoIntArray f false (Some (replicate (length vs + 1) 0))
    = (Ok (), Reading [] false (vs ++ [v / 10])).
Proof.
  intros Hname Hfs Hvs Hv H10 Hlen.
  exists (AFile (Z.of_nat (length vs) + 1) (Some (print_lines vs ++ print_dec v))).
  split; [by apply new_print|].
  unfold readDataIntoIntArray, readData. cbn [p_FILE m_Size]. unfold mbind, M_bind.
  pose proof (print_lines_length vs) as Hf. rewrite length_app.
  destruct (print_digits_length 20 v []) as [Hlen20 Hne]. fold (print_dec v) in Hlen20, Hne.
  specialize (Hne ltac:(lia) eq_refl).
  assert (0 < length (print_dec v))%nat by (destruct (print_dec v); [done|cbn; lia]).
  replace (S (length (print_lines vs) + length (print_dec v)))
    with (length vs + S (S (length (print_lines vs) - length vs + length (print_dec v) - 1)))%nat
    by lia.
  pose proof (read_loop_text int_of_line "Could not convert line to int." _ vs (print_values vs Hvs)
    [] (replicate (length vs) 0) [0] (print_dec v) (Z.of_nat (length vs) + 1)
    (S (S (length (print_lines vs) - length vs + length (print_dec v) - 1)))
    (length_replicate _ _) ltac:(cbn; lia)) as Hrun. fold (print_lines vs) in Hrun.
  cbn [app length Nat.add] in Hrun. change (Z.of_nat 0) with 0 in Hrun.
  rewrite replicate_add. cbn [replicate]. rewrite Hrun.
  rewrite last_line_loop by done. done.
Qed.

(** [errno] is never cleared: after a range error anywhere in the process,
    reading a file that has data lines throws at the first of them, whatever it
    holds, and leaves the array as it was. *)
Theorem readData_errno_sticky {A} (conv : list ascii → converted A) what f s a :
  p_FILE f = Some s → s ≠ [] → nul ∉ s → 0 < getSize f →
  ∃ e r, readData conv what f true (Some a) = (Throw e, r) ∧ array r = a.
Proof.
  intros Hf Hne Hnul Hsize. unfold readData. rewrite Hf. cbn [read_loop].
  unfold mbind, M_bind, gets at 1. cbn [stream].
  destruct (fgets_some (ADNEDFILE_MAX_STRING - 1) s) as (line & rest & -> & Hs & Hl); [done..|].
  unfold modify. cbn [stream erange array]. unfold getSize in Hsize. rewrite decide_False by lia.
  rewrite Hs, not_elem_of_app in Hnul. unfold read_line, mbind, M_bind.
  rewrite chop_some by (done || apply Hnul). unfold checked, lift. cbn [require].
  destruct (has_whitespace _); [by do 2 eexists|]. unfold modify, gets.
  cbn [stream erange array orb negb andb]. by do 2 eexists.
Qed.

(** ** Witnesses *)

Definition sample_file : ADnEDFile := AFile 2 (Some (print_lines [7; 12])).

Lemma readData_safe_witness :
  match readData int_of_line "bad" sample_file false (Some [0; 0]) with
  | (UB _, _) => False
  | (_, r) => length (array r) = 2%nat
  end ∧
  (readData int_of_line "bad" (AFile 1 (Some [nul; newline])) false (Some [0])).1 = UB OutOfBounds.
Proof.
  split.
  - refine (proj1 (readData_safe int_of_line "bad" sample_file false (print_lines [7; 12]) [0; 0] _ _) _).
    + reflexivity.
    + vm_compute. discriminate.
    + vm_compute. intros H. repeat (apply elem_of_cons in H as [H|H]; [discriminate|]).
      by apply elem_of_nil in H.
  - refine (proj2 (readData_safe int_of_line "bad" (AFile 1 (Some [nul; newline])) false
      [nul; newline] [0] _ _) _ _).
    + reflexivity.
    + vm_compute. discriminate.
    + reflexivity.
    + reflexivity.
Defined.

Lemma readData_terminates_witness :
  (read_loop int_of_line "bad" 2 (S (length (print_lines [7; 12])) + 3) 0 ;; mret ())
    (Reading (print_lines [7; 12]) false [0; 0])
  = readData int_of_line "bad" sample_file false (Some [0; 0]).
Proof.
  apply (readData_terminates int_of_line "bad" sample_file false (print_lines [7; 12]) [0; 0] 3).
  reflexivity.
Defined.

Lemma int_file_roundtrip_witness :
  ∃ f, newADnEDFile (λ _, Opened (print_file [7; 12; 4294967295])) "map.txt" false
       = (Ok f, false) ∧ getSize f = 3 ∧
    readDataIntoIntArray f false (Some [0; 0; 0])
    = (Ok (), Reading [] false [7; 12; 4294967295]).
Proof.
  apply (int_file_roundtrip (λ _, Opened (print_file [7; 12; 4294967295])) "map.txt"
    [7; 12; 4294967295]); [cbn; lia|reflexivity|by repeat constructor|done].
Defined.

Lemma int_file_last_line_witness :
  ∃ f, newADnEDFile (λ _, Opened (print_line 2 ++ print_lines [7] ++ print_dec 42)) "map.txt" false
       = (Ok f, false) ∧
    readDataIntoIntArray f false (Some [0; 0]) = (Ok (), Reading [] false [7; 4]).
Proof.
  apply (int_file_last_line (λ _, Opened (print_line 2 ++ print_lines [7] ++ print_dec 42))
    "map.txt" [7] 42); [cbn; lia|reflexivity|by repeat constructor|done|lia|done].
Defined.

Lemma readData_errno_sticky_witness :
  ∃ e r, readData int_of_line "bad" sample_file true (Some [0; 0]) = (Throw e, r) ∧
    array r = [0; 0].
Proof.
  apply (readData_errno_sticky int_of_line "bad" sample_file (print_lines [7; 12]) [0; 0]).
  - reflexivity.
  - discriminate.
  - vm_compute. intros H. repeat (apply elem_of_cons in H as [H|H]; [discriminate|]).
    by apply elem_of_nil in H.
  - done.
Defined.
