(* ===== verification/Driver.v ===== *)
(** * The driver object

    The members of class ADnED (ADnED.h), its constructor, and the operations
    that the command handlers and the tasks share: [clearParams],
    [resetTOFArray], [checkPixelMap] and the parameter tests
    [matchTransFile]/[matchTransInt]/[matchTransFloat].

    The state is parametric in the parameter library [L], in the type [TS] of
    the time stamps of pvData (with its comparisons, [TimeStampLib]) and in
    the type [T] of the transformation objects.

    - The 18 arrays [m_detX[ADNED_MAX_DETS+1]] that cache the detector
      parameters are one list [m_det] of records with a field per array.
    - A pointer is an [option]; a block from [calloc] is the list of its
      elements.
    - The driver mutex is a recursive mutex: [lockDepth] is the number of times
      the running thread holds it.
    - An [epicsEvent] is a flag: a signal sets it and a successful wait clears
      it.
    - Printing, tracing and the callbacks that publish parameters change
      nothing of this state and are left out. *)

From stdpp Require Import base numbers list option strings.
From S2P Require Import Prelude Float64 Params Transform.

Local Open Scope Z_scope.

(** ** State *)

(** epics::pvData::TimeStamp *)
Class TimeStampLib (TS : Type) := {
  ts_put : TS → Z → Z → TS;
  getSecondsPastEpoch : TS → Z;
  getNanoseconds : TS → Z;
  getUserTag : TS → Z;
  ts_ne : TS → TS → bool;
  ts_gt : TS → TS → bool
}.

Record detvals : Type := {
  m_detStartValues : Z;
  m_detEndValues : Z;
  m_detSizeValues : Z;
  m_NDArrayStartValues : Z;
  m_NDArrayTOFStartValues : Z;
  m_detTOFROIStartValues : Z;
  m_detTOFROISizeValues : Z;
  m_detTOFROIEnabled : Z;
  m_detPixelMappingEnabled : Z;
  m_detTOFTransType : Z;
  m_detTOFTransOffset : f64;
  m_detTOFTransScale : f64;
  m_detPixelROIStartX : Z;
  m_detPixelROIStartY : Z;
  m_detPixelROISizeX : Z;
  m_detPixelROISizeY : Z;
  m_detPixelSizeX : Z;
  m_detPixelROIEnable : Z
}.

Definition detvals_zero : detvals := {|
  m_detStartValues := 0;
  m_detEndValues := 0;
  m_detSizeValues := 0;
  m_NDArrayStartValues := 0;
  m_NDArrayTOFStartValues := 0;
  m_detTOFROIStartValues := 0;
  m_detTOFROISizeValues := 0;
  m_detTOFROIEnabled := 0;
  m_detPixelMappingEnabled := 0;
  m_detTOFTransType := 0;
  m_detTOFTransOffset := f_of_Z 0;
  m_detTOFTransScale := f_of_Z 0;
  m_detPixelROIStartX := 0;
  m_detPixelROIStartY := 0;
  m_detPixelROISizeX := 0;
  m_detPixelROISizeY := 0;
  m_detPixelSizeX := 0;
  m_detPixelROIEnable := 0
|}.

Record driver (L TS T : Type) : Type := Driver {
  params : L;
  lockDepth : Z;
  m_seqCounter : list Z;
  m_seqID : list Z;
  m_lastSeqID : list Z;
  m_pulseCounter : Z;
  m_pChargeInt : f64;
  m_nowTimeSecs : f64;
  m_lastTimeSecs : f64;
  p_Data : option (list Z);
  p_PixelMap : list (option (list Z));
  m_PixelMapSize : list Z;
  m_dataAlloc : bool;
  m_dataMaxSize : Z;
  m_bufferMaxSize : Z;
  m_tofMax : Z;
  m_TimeStamp : list TS;
  m_TimeStampLast : list TS;
  m_det : list detvals;
  m_eventsSinceLastUpdate : Z;
  m_detEventsSinceLastUpdate : list Z;
  m_detTotalEvents : list f64;
  p_Transform : list (option T);
  m_startEvent : bool;
  m_stopEvent : bool;
  m_startFrame : bool;
  m_stopFrame : bool
}.
Arguments Driver {L TS T}.
Arguments params {L TS T}.
Arguments lockDepth {L TS T}.
Arguments m_seqCounter {L TS T}.
Arguments m_seqID {L TS T}.
Arguments m_lastSeqID {L TS T}.
Arguments m_pulseCounter {L TS T}.
Arguments m_pChargeInt {L TS T}.
Arguments m_nowTimeSecs {L TS T}.
Arguments m_lastTimeSecs {L TS T}.
Arguments p_Data {L TS T}.
Arguments p_PixelMap {L TS T}.
Arguments m_PixelMapSize {L TS T}.
Arguments m_dataAlloc {L TS T}.
Arguments m_dataMaxSize {L TS T}.
Arguments m_bufferMaxSize {L TS T}.
Arguments m_tofMax {L TS T}.
Arguments m_TimeStamp {L TS T}.
Arguments m_TimeStampLast {L TS T}.
Arguments m_det {L TS T}.
Arguments m_eventsSinceLastUpdate {L TS T}.
Arguments m_detEventsSinceLastUpdate {L TS T}.
Arguments m_detTotalEvents {L TS T}.
Arguments p_Transform {L TS T}.
Arguments m_startEvent {L TS T}.
Arguments m_stopEvent {L TS T}.
Arguments m_startFrame {L TS T}.
Arguments m_stopFrame {L TS T}.

(** Updates of one member: [on_f g s] applies [g] to the member [f]. *)

Section updates.
Context {L TS T : Type}.
Local Abbreviation D := (driver L TS T).

Definition on_params (g : L → L) (s : D) : D :=
  let 'Driver x0 x1 x2 x3 x4 x5 x6 x7 x8 x9 x10 x11 x12 x13 x14 x15 x16 x17 x18 x19
      x20 x21 x22 x23 x24 x25 x26 := s in
  Driver (g x0) x1 x2 x3 x4 x5 x6 x7 x8 x9 x10 x11 x12 x13 x14 x15 x16 x17 x18 x19 x20
      x21 x22 x23 x24 x25 x26.

Definition on_lockDepth (g : Z → Z) (s : D) : D :=
  let 'Driver x0 x1 x2 x3 x4 x5 x6 x7 x8 x9 x10 x11 x12 x13 x14 x15 x16 x17 x18 x19
      x20 x21 x22 x23 x24 x25 x26 := s in
  Driver x0 (g x1) x2 x3 x4 x5 x6 x7 x8 x9 x10 x11 x12 x13 x14 x15 x16 x17 x18 x19 x20
      x21 x22 x23 x24 x25 x26.

Definition on_m_seqCounter (g : list Z → list Z) (s : D) : D :=
  let 'Driver x0 x1 x2 x3 x4 x5 x6 x7 x8 x9 x10 x11 x12 x13 x14 x15 x16 x17 x18 x19
      x20 x21 x22 x23 x24 x25 x26 := s in
  Driver x0 x1 (g x2) x3 x4 x5 x6 x7 x8 x9 x10 x11 x12 x13 x14 x15 x16 x17 x18 x19 x20
      x21 x22 x23 x24 x25 x26.

Definition on_m_seqID (g : list Z → list Z) (s : D) : D :=
  let 'Driver x0 x1 x2 x3 x4 x5 x6 x7 x8 x9 x10 x11 x12 x13 x14 x15 x16 x17 x18 x19
      x20 x21 x22 x23 x24 x25 x26 := s in
  Driver x0 x1 x2 (g x3) x4 x5 x6 x7 x8 x9 x10 x11 x12 x13 x14 x15 x16 x17 x18 x19 x20
      x21 x22 x23 x24 x25 x26.

Definition on_m_lastSeqID (g : list Z → list Z) (s : D) : D :=
  let 'Driver x0 x1 x2 x3 x4 x5 x6 x7 x8 x9 x10 x11 x12 x13 x14 x15 x16 x17 x18 x19
      x20 x21 x22 x23 x24 x25 x26 := s in
  Driver x0 x1 x2 x3 (g x4) x5 x6 x7 x8 x9 x10 x11 x12 x13 x14 x15 x16 x17 x18 x19 x20
      x21 x22 x23 x24 x25 x26.

Definition on_m_pulseCounter (g : Z → Z) (s : D) : D :=
  let 'Driver x0 x1 x2 x3 x4 x5 x6 x7 x8 x9 x10 x11 x12 x13 x14 x15 x16 x17 x18 x19
      x20 x21 x22 x23 x24 x25 x26 := s in
  Driver x0 x1 x2 x3 x4 (g x5) x6 x7 x8 x9 x10 x11 x12 x13 x14 x15 x16 x17 x18 x19 x20
      x21 x22 x23 x24 x25 x26.

Definition on_m_pChargeInt (g : f64 → f64) (s : D) : D :=
  let 'Driver x0 x1 x2 x3 x4 x5 x6 x7 x8 x9 x10 x11 x12 x13 x14 x15 x16 x17 x18 x19
      x20 x21 x22 x23 x24 x25 x26 := s in
  Driver x0 x1 x2 x3 x4 x5 (g x6) x7 x8 x9 x10 x11 x12 x13 x14 x15 x16 x17 x18 x19 x20
      x21 x22 x23 x24 x25 x26.

Definition on_m_nowTimeSecs (g : f64 → f64) (s : D) : D :=
  let 'Driver x0 x1 x2 x3 x4 x5 x6 x7 x8 x9 x10 x11 x12 x13 x14 x15 x16 x17 x18 x19
      x20 x21 x22 x23 x24 x25 x26 := s in
  Driver x0 x1 x2 x3 x4 x5 x6 (g x7) x8 x9 x10 x11 x12 x13 x14 x15 x16 x17 x18 x19 x20
      x21 x22 x23 x24 x25 x26.

Definition on_m_lastTimeSecs (g : f64 → f64) (s : D) : D :=
  let 'Driver x0 x1 x2 x3 x4 x5 x6 x7 x8 x9 x10 x11 x12 x13 x14 x15 x16 x17 x18 x19
      x20 x21 x22 x23 x24 x25 x26 := s in
  Driver x0 x1 x2 x3 x4 x5 x6 x7 (g x8) x9 x10 x11 x12 x13 x14 x15 x16 x17 x18 x19 x20
      x21 x22 x23 x24 x25 x26.

Definition on_p_Data (g : option (list Z) → option (list Z)) (s : D) : D :=
  let 'Driver x0 x1 x2 x3 x4 x5 x6 x7 x8 x9 x10 x11 x12 x13 x14 x15 x16 x17 x18 x19
      x20 x21 x22 x23 x24 x25 x26 := s in
  Driver x0 x1 x2 x3 x4 x5 x6 x7 x8 (g x9) x10 x11 x12 x13 x14 x15 x16 x17 x18 x19 x20
      x21 x22 x23 x24 x25 x26.

Definition on_p_PixelMap (g : list (option (list Z)) → list (option (list Z))) (s : D) : D :=
  let 'Driver x0 x1 x2 x3 x4 x5 x6 x7 x8 x9 x10 x11 x12 x13 x14 x15 x16 x17 x18 x19
      x20 x21 x22 x23 x24 x25 x26 := s in
  Driver x0 x1 x2 x3 x4 x5 x6 x7 x8 x9 (g x10) x11 x12 x13 x14 x15 x16 x17 x18 x19 x20
      x21 x22 x23 x24 x25 x26.

Definition on_m_PixelMapSize (g : list Z → list Z) (s : D) : D :=
  let 'Driver x0 x1 x2 x3 x4 x5 x6 x7 x8 x9 x10 x11 x12 x13 x14 x15 x16 x17 x18 x19
      x20 x21 x22 x23 x24 x25 x26 := s in
  Driver x0 x1 x2 x3 x4 x5 x6 x7 x8 x9 x10 (g x11) x12 x13 x14 x15 x16 x17 x18 x19 x20
      x21 x22 x23 x24 x25 x26.

Definition on_m_dataAlloc (g : bool → bool) (s : D) : D :=
  let 'Driver x0 x1 x2 x3 x4 x5 x6 x7 x8 x9 x10 x11 x12 x13 x14 x15 x16 x17 x18 x19
      x20 x21 x22 x23 x24 x25 x26 := s in
  Driver x0 x1 x2 x3 x4 x5 x6 x7 x8 x9 x10 x11 (g x12) x13 x14 x15 x16 x17 x18 x19 x20
      x21 x22 x23 x24 x25 x26.

Definition on_m_dataMaxSize (g : Z → Z) (s : D) : D :=
  let 'Driver x0 x1 x2 x3 x4 x5 x6 x7 x8 x9 x10 x11 x12 x13 x14 x15 x16 x17 x18 x19
      x20 x21 x22 x23 x24 x25 x26 := s in
  Driver x0 x1 x2 x3 x4 x5 x6 x7 x8 x9 x10 x11 x12 (g x13) x14 x15 x16 x17 x18 x19 x20
      x21 x22 x23 x24 x25 x26.

Definition on_m_bufferMaxSize (g : Z → Z) (s : D) : D :=
  let 'Driver x0 x1 x2 x3 x4 x5 x6 x7 x8 x9 x10 x11 x12 x13 x14 x15 x16 x17 x18 x19
      x20 x21 x22 x23 x24 x25 x26 := s in
  Driver x0 x1 x2 x3 x4 x5 x6 x7 x8 x9 x10 x11 x12 x13 (g x14) x15 x16 x17 x18 x19 x20
      x21 x22 x23 x24 x25 x26.

Definition on_m_tofMax (g : Z → Z) (s : D) : D :=
  let 'Driver x0 x1 x2 x3 x4 x5 x6 x7 x8 x9 x10 x11 x12 x13 x14 x15 x16 x17 x18 x19
      x20 x21 x22 x23 x24 x25 x26 := s in
  Driver x0 x1 x2 x3 x4 x5 x6 x7 x8 x9 x10 x11 x12 x13 x14 (g x15) x16 x17 x18 x19 x20
      x21 x22 x23 x24 x25 x26.

Definition on_m_TimeStamp (g : list TS → list TS) (s : D) : D :=
  let 'Driver x0 x1 x2 x3 x4 x5 x6 x7 x8 x9 x10 x11 x12 x13 x14 x15 x16 x17 x18 x19
      x20 x21 x22 x23 x24 x25 x26 := s in
  Driver x0 x1 x2 x3 x4 x5 x6 x7 x8 x9 x10 x11 x12 x13 x14 x15 (g x16) x17 x18 x19 x20
      x21 x22 x23 x24 x25 x26.

Definition on_m_TimeStampLast (g : list TS → list TS) (s : D) : D :=
  let 'Driver x0 x1 x2 x3 x4 x5 x6 x7 x8 x9 x10 x11 x12 x13 x14 x15 x16 x17 x18 x19
      x20 x21 x22 x23 x24 x25 x26 := s in
  Driver x0 x1 x2 x3 x4 x5 x6 x7 x8 x9 x10 x11 x12 x13 x14 x15 x16 (g x17) x18 x19 x20
      x21 x22 x23 x24 x25 x26.

Definition on_m_det (g : list detvals → list detvals) (s : D) : D :=
  let 'Driver x0 x1 x2 x3 x4 x5 x6 x7 x8 x9 x10 x11 x12 x13 x14 x15 x16 x17 x18 x19
      x20 x21 x22 x23 x24 x25 x26 := s in
  Driver x0 x1 x2 x3 x4 x5 x6 x7 x8 x9 x10 x11 x12 x13 x14 x15 x16 x17 (g x18) x19 x20
      x21 x22 x23 x24 x25 x26.

Definition on_m_eventsSinceLastUpdate (g : Z → Z) (s : D) : D :=
  let 'Driver x0 x1 x2 x3 x4 x5 x6 x7 x8 x9 x10 x11 x12 x13 x14 x15 x16 x17 x18 x19
      x20 x21 x22 x23 x24 x25 x26 := s in
  Driver x0 x1 x2 x3 x4 x5 x6 x7 x8 x9 x10 x11 x12 x13 x14 x15 x16 x17 x18 (g x19) x20
      x21 x22 x23 x24 x25 x26.

Definition on_m_detEventsSinceLastUpdate (g : list Z → list Z) (s : D) : D :=
  let 'Driver x0 x1 x2 x3 x4 x5 x6 x7 x8 x9 x10 x11 x12 x13 x14 x15 x16 x17 x18 x19
      x20 x21 x22 x23 x24 x25 x26 := s in
  Driver x0 x1 x2 x3 x4 x5 x6 x7 x8 x9 x10 x11 x12 x13 x14 x15 x16 x17 x18 x19 (g x20)
      x21 x22 x23 x24 x25 x26.

Definition on_m_detTotalEvents (g : list f64 → list f64) (s : D) : D :=
  let 'Driver x0 x1 x2 x3 x4 x5 x6 x7 x8 x9 x10 x11 x12 x13 x14 x15 x16 x17 x18 x19
      x20 x21 x22 x23 x24 x25 x26 := s in
  Driver x0 x1 x2 x3 x4 x5 x6 x7 x8 x9 x10 x11 x12 x13 x14 x15 x16 x17 x18 x19 x20
      (g x21) x22 x23 x24 x25 x26.

Definition on_p_Transform (g : list (option T) → list (option T)) (s : D) : D :=
  let 'Driver x0 x1 x2 x3 x4 x5 x6 x7 x8 x9 x10 x11 x12 x13 x14 x15 x16 x17 x18 x19
      x20 x21 x22 x23 x24 x25 x26 := s in
  Driver x0 x1 x2 x3 x4 x5 x6 x7 x8 x9 x10 x11 x12 x13 x14 x15 x16 x17 x18 x19 x20 x21
      (g x22) x23 x24 x25 x26.

Definition on_m_startEvent (g : bool → bool) (s : D) : D :=
  let 'Driver x0 x1 x2 x3 x4 x5 x6 x7 x8 x9 x10 x11 x12 x13 x14 x15 x16 x17 x18 x19
      x20 x21 x22 x23 x24 x25 x26 := s in
  Driver x0 x1 x2 x3 x4 x5 x6 x7 x8 x9 x10 x11 x12 x13 x14 x15 x16 x17 x18 x19 x20 x21
      x22 (g x23) x24 x25 x26.

Definition on_m_stopEvent (g : bool → bool) (s : D) : D :=
  let 'Driver x0 x1 x2 x3 x4 x5 x6 x7 x8 x9 x10 x11 x12 x13 x14 x15 x16 x17 x18 x19
      x20 x21 x22 x23 x24 x25 x26 := s in
  Driver x0 x1 x2 x3 x4 x5 x6 x7 x8 x9 x10 x11 x12 x13 x14 x15 x16 x17 x18 x19 x20 x21
      x22 x23 (g x24) x25 x26.

Definition on_m_startFrame (g : bool → bool) (s : D) : D :=
  let 'Driver x0 x1 x2 x3 x4 x5 x6 x7 x8 x9 x10 x11 x12 x13 x14 x15 x16 x17 x18 x19
      x20 x21 x22 x23 x24 x25 x26 := s in
  Driver x0 x1 x2 x3 x4 x5 x6 x7 x8 x9 x10 x11 x12 x13 x14 x15 x16 x17 x18 x19 x20 x21
      x22 x23 x24 (g x25) x26.

Definition on_m_stopFrame (g : bool → bool) (s : D) : D :=
  let 'Driver x0 x1 x2 x3 x4 x5 x6 x7 x8 x9 x10 x11 x12 x13 x14 x15 x16 x17 x18 x19
      x20 x21 x22 x23 x24 x25 x26 := s in
  Driver x0 x1 x2 x3 x4 x5 x6 x7 x8 x9 x10 x11 x12 x13 x14 x15 x16 x17 x18 x19 x20 x21
      x22 x23 x24 x25 (g x26).
End updates.

(** The numbers of detectors and channels as list lengths. *)
Definition n_dets1 : nat := Z.to_nat (ADNED_MAX_DETS + 1).
Definition n_channels : nat := Z.to_nat ADNED_MAX_CHANNELS.

(** ** [matchTransFile], [matchTransInt], [matchTransFloat]: the transformation
    index of a parameter. *)

Definition matchTransFile (asynParam : param) : option Z :=
  if decide (asynParam = ADnEDDetTOFTransFile0Param) then Some 0
  else if decide (asynParam = ADnEDDetTOFTransFile1Param) then Some 1
  else if decide (asynParam = ADnEDDetTOFTransFile2Param) then Some 2
  else if decide (asynParam = ADnEDDetTOFTransFile3Param) then Some 3
  else if decide (asynParam = ADnEDDetTOFTransFile4Param) then Some 4
  else if decide (asynParam = ADnEDDetTOFTransFile5Param) then Some 5
  else None.

Definition matchTransInt (asynParam : param) : option Z :=
  if decide (asynParam = ADnEDDetTOFTransInt0Param) then Some 0
  else if decide (asynParam = ADnEDDetTOFTransInt1Param) then Some 1
  else if decide (asynParam = ADnEDDetTOFTransInt2Param) then Some 2
  else if decide (asynParam = ADnEDDetTOFTransInt3Param) then Some 3
  else if decide (asynParam = ADnEDDetTOFTransInt4Param) then Some 4
  else if decide (asynParam = ADnEDDetTOFTransInt5Param) then Some 5
  else None.

Definition matchTransFloat (asynParam : param) : option Z :=
  if decide (asynParam = ADnEDDetTOFTransFloat0Param) then Some 0
  else if decide (asynParam = ADnEDDetTOFTransFloat1Param) then Some 1
  else if decide (asynParam = ADnEDDetTOFTransFloat2Param) then Some 2
  else if decide (asynParam = ADnEDDetTOFTransFloat3Param) then Some 3
  else if decide (asynParam = ADnEDDetTOFTransFloat4Param) then Some 4
  else if decide (asynParam = ADnEDDetTOFTransFloat5Param) then Some 5
  else None.

(** ** Memory *)

(** [memset(p + start, 0, n * sizeof(epicsUInt32))] on a block of words. *)
Definition zero_words (l : list Z) (start n : Z) : option (list Z) :=
  if decide (0 <= start ∧ 0 <= n ∧ start + n <= Z.of_nat (length l)) then
    Some (take (Z.to_nat start) l ++ replicate (Z.to_nat n) 0
          ++ drop (Z.to_nat (start + n)) l)
  else None.

(** [memset(p, 0, n)] with a length in bytes on a block of 4-byte words, the
    low byte first. *)
Definition zero_bytes (l : list Z) (n : Z) : list Z :=
  imap (λ k w,
    let left := n - 4 * Z.of_nat k in
    if decide (4 <= left) then 0
    else if decide (0 < left) then Z.shiftl (Z.shiftr w (8 * left)) (8 * left)
    else w) l.

Section driver.
Context {L TS T : Type} {PL : ParamLib param L} {TL : TimeStampLib TS}.
Local Abbreviation D := (driver L TS T).

(** ** Access to the parameter library and to the mutex *)

Definition getInt (a : Z) (p : param) (old : Z) : M D Z :=
  gets (λ s, getIntegerParam (params s) a p old).

Definition getDouble (a : Z) (p : param) (old : f64) : M D f64 :=
  gets (λ s, getDoubleParam (params s) a p old).

Definition getString (a : Z) (p : param) (old : string) : M D string :=
  gets (λ s, getStringParam (params s) a p old).

Definition setInt (a : Z) (p : param) (v : Z) : M D asynStatus := λ s,
  (Ok (fst (setIntegerParam (params s) a p v)),
   on_params (λ l, snd (setIntegerParam l a p v)) s).

Definition setDouble (a : Z) (p : param) (v : f64) : M D asynStatus := λ s,
  (Ok (fst (setDoubleParam (params s) a p v)),
   on_params (λ l, snd (setDoubleParam l a p v)) s).

Definition setString (a : Z) (p : param) (v : string) : M D asynStatus := λ s,
  (Ok (fst (setStringParam (params s) a p v)),
   on_params (λ l, snd (setStringParam l a p v)) s).

Definition lock : M D () := modify (on_lockDepth (λ n, n + 1)).

Definition unlock : M D () := modify (on_lockDepth (λ n, n - 1)).

(** A list of writes, with the conjunction of their successes
    ([status = (set... == asynSuccess) && status]). *)
Definition set_all (ws : list (M D asynStatus)) : M D bool :=
  for_acc ws true (λ w status, r ← w; mret (bool_decide (r = asynSuccess) && status)).

(** ** The constructor

    [ADnED_members]: the members after the initialisation of the constructor,
    [l] being the library with all parameters created.  The two counters of
    events since the last update are not initialised: [events0] and
    [det_events0] are whatever the memory held.  [ts0] is a default time stamp. *)
Definition ADnED_members (l : L) (ts0 : TS) (events0 : Z) (det_events0 : list Z)
    (newTransform : T) : D := {|
  params := l;
  lockDepth := 0;
  m_seqCounter := replicate n_channels 0;
  m_seqID := replicate n_channels 0;
  m_lastSeqID := replicate n_channels (u32 (-1));
  m_pulseCounter := 0;
  m_pChargeInt := f_of_Z 0;
  m_nowTimeSecs := f_of_Z 0;
  m_lastTimeSecs := f_of_Z 0;
  p_Data := None;
  p_PixelMap := replicate n_dets1 None;
  m_PixelMapSize := replicate n_dets1 0;
  m_dataAlloc := true;
  m_dataMaxSize := 0;
  m_bufferMaxSize := 0;
  m_tofMax := 0;
  m_TimeStamp := replicate n_channels (ts_put ts0 0 0);
  m_TimeStampLast := replicate n_channels (ts_put ts0 0 0);
  m_det := replicate n_dets1 detvals_zero;
  m_eventsSinceLastUpdate := events0;
  m_detEventsSinceLastUpdate := det_events0;
  m_detTotalEvents := replicate n_dets1 (f_of_Z 0);
  p_Transform := None :: replicate (Z.to_nat ADNED_MAX_DETS) (Some newTransform);
  m_startEvent := false;
  m_stopEvent := false;
  m_startFrame := false;
  m_stopFrame := false
|}.

(** The initial values of the parameters; [true] when every write succeeded. *)
Definition ctor_det_params (det : Z) : list (M D asynStatus) :=
  [setInt det ADnEDSeqCounterParam 0;
   setInt det ADnEDSeqIDParam 0;
   setString det ADnEDPVNameParam " ";
   setInt det ADnEDSeqIDMissingParam 0;
   setInt det ADnEDSeqIDNumMissingParam 0;
   setInt det ADnEDBadTimeStampParam 0;
   setInt det ADnEDDetPixelNumStartParam 0;
   setInt det ADnEDDetPixelNumEndParam 0;
   setInt det ADnEDDetPixelNumSizeParam 0;
   setInt det ADnEDDetTOFNumBinsParam 0;
   setInt det ADnEDDet2DTypeParam 0;
   setInt det ADnEDDetNDArrayStartParam 0;
   setInt det ADnEDDetNDArrayEndParam 0;
   setInt det ADnEDDetNDArraySizeParam 0;
   setInt det ADnEDDetNDArrayTOFStartParam 0;
   setInt det ADnEDDetNDArrayTOFEndParam 0;
   setInt det ADnEDDetEventRateParam 0;
   setDouble det ADnEDDetEventTotalParam (f_of_Z 0);
   setInt det ADnEDDetTOFROIStartParam 0;
   setInt det ADnEDDetTOFROISizeParam 0;
   setInt det ADnEDDetTOFROIEnableParam 0;
   setInt det ADnEDDetTOFArrayResetParam 0;
   setString det ADnEDDetTOFTransFile0Param " ";
   setString det ADnEDDetTOFTransFile1Param " ";
   setString det ADnEDDetTOFTransFile2Param " ";
   setString det ADnEDDetTOFTransFile3Param " ";
   setString det ADnEDDetTOFTransFile4Param " ";
   setString det ADnEDDetTOFTransFile5Param " ";
   setInt det ADnEDDetTOFTransInt0Param 0;
   setInt det ADnEDDetTOFTransInt1Param 0;
   setInt det ADnEDDetTOFTransInt2Param 0;
   setInt det ADnEDDetTOFTransInt3Param 0;
   setInt det ADnEDDetTOFTransInt4Param 0;
   setInt det ADnEDDetTOFTransInt5Param 0;
   setDouble det ADnEDDetTOFTransFloat0Param (f_of_Z 0);
   setDouble det ADnEDDetTOFTransFloat1Param (f_of_Z 0);
   setDouble det ADnEDDetTOFTransFloat2Param (f_of_Z 0);
   setDouble det ADnEDDetTOFTransFloat3Param (f_of_Z 0);
   setDouble det ADnEDDetTOFTransFloat4Param (f_of_Z 0);
   setDouble det ADnEDDetTOFTransFloat5Param (f_of_Z 0);
   setInt det ADnEDDetTOFTransDebugParam 0;
   setInt det ADnEDDetTOFTransTypeParam 0;
   setDouble det ADnEDDetTOFTransOffsetParam (f_of_Z 0);
   setDouble det ADnEDDetTOFTransScaleParam (f_of_Z 1);
   setString det ADnEDDetPixelMapFileParam " ";
   setInt det ADnEDDetPixelMapEnableParam 0;
   setInt det ADnEDDetPixelROIStartXParam 0;
   setInt det ADnEDDetPixelROISizeXParam 0;
   setInt det ADnEDDetPixelROIStartYParam 0;
   setInt det ADnEDDetPixelROISizeYParam 0;
   setInt det ADnEDDetPixelSizeXParam 1;
   setInt det ADnEDDetPixelROIEnableParam 0].

Definition ctor_writes : list (M D asynStatus) :=
    ([setInt 0 ADnEDResetParam 0;
      setInt 0 ADnEDStartParam 0;
      setInt 0 ADnEDStopParam 0;
      setInt 0 ADnEDPauseParam 0;
      setInt 0 ADnEDEventDebugParam 0;
      setInt 0 ADnEDPulseCounterParam 0;
      setInt 0 ADnEDEventRateParam 0;
      setDouble 0 ADnEDPChargeParam (f_of_Z 0);
      setDouble 0 ADnEDPChargeIntParam (f_of_Z 0);
      setInt 0 ADnEDNumDetParam 0;
      setInt 0 ADnEDNumChannelsParam 0]
     ++ concat (ctor_det_params <$> seqZ 0 (ADNED_MAX_DETS + 1))
     ++ [setInt 0 ADnEDTOFMaxParam 0;
         setInt 0 ADnEDAllocSpaceParam 0;
         setInt 0 ADnEDAllocSpaceStatusParam s_ADNED_ALLOC_STATUS_OK;
         setString 0 ADManufacturer "SNS";
         setString 0 ADModel "nED areaDetector"]).

Definition ctor_params : M D bool := set_all ctor_writes.

(** ** [clearParams] *)

Definition clear_channel (chan : Z) (status : bool) : M D bool :=
  ok ← set_all
    [setInt chan ADnEDSeqCounterParam 0;
     setInt chan ADnEDSeqIDParam 0;
     setInt chan ADnEDSeqIDMissingParam 0;
     setInt chan ADnEDSeqIDNumMissingParam 0;
     setInt chan ADnEDBadTimeStampParam 0];
  modify (on_m_seqCounter (λ l, upd l chan 0)) ;;
  modify (on_m_seqID (λ l, upd l chan 0)) ;;
  modify (on_m_lastSeqID (λ l, upd l chan (u32 (-1)))) ;;
  modify (on_m_TimeStamp (alter (λ t, ts_put t 0 0) (Z.to_nat chan))) ;;
  modify (on_m_TimeStampLast (alter (λ t, ts_put t 0 0) (Z.to_nat chan))) ;;
  mret (ok && status).

Definition clear_det (det : Z) : M D () :=
  modify (on_m_detTotalEvents (λ l, upd l det (f_of_Z 0))) ;;
  setDouble det ADnEDDetEventTotalParam (f_of_Z 0) ;;
  mret ().

(** [memset(p_Data, 0, m_bufferMaxSize*sizeof(epicsUInt32))] when there is a
    buffer. *)
Definition clear_data : M D () :=
  d ← gets p_Data; n ← gets m_bufferMaxSize;
  match d with
  | None => mret ()
  | Some l =>
      l' ← checked OutOfBounds (zero_words l 0 n);
      modify (on_p_Data (λ _, Some l'))
  end.

Definition clearParams : M D asynStatus :=
  ok0 ← set_all
    [setInt 0 ADnEDPulseCounterParam 0;
     setDouble 0 ADnEDPChargeParam (f_of_Z 0);
     setDouble 0 ADnEDPChargeIntParam (f_of_Z 0)];
  modify (on_m_pChargeInt (λ _, f_of_Z 0)) ;;
  modify (on_m_pulseCounter (λ _, 0)) ;;
  clear_data ;;
  ok ← for_acc (seqZ 0 ADNED_MAX_CHANNELS) ok0 clear_channel;
  for_ (seqZ 0 (ADNED_MAX_DETS + 1)) clear_det ;;
  mret (if (ok : bool) then asynSuccess else asynError).

(** ** [resetTOFArray] *)

Definition resetTOFArray (det : Z) : M D () :=
  tofMax ← gets m_tofMax;
  if decide (tofMax > 0) then
    tofStart ← getInt det ADnEDDetNDArrayTOFStartParam 0;
    d ← gets p_Data;
    match d with
    | Some l =>
        if decide (tofStart > 0) then
          l' ← checked OutOfBounds (zero_words l tofStart (u32 (tofMax + 1)));
          modify (on_p_Data (λ _, Some l'))
        else mret ()
    | None => mret ()
    end
  else mret ().

(** ** [checkPixelMap] *)

(** The loop over the map; the size it runs to is read again in each turn, and
    a bad entry sets it to 0. *)
Fixpoint check_entries (det detSizeValue : Z) (fuel : nat) (index : Z)
    (status : asynStatus) : M D asynStatus :=
  size ← gets (λ s, default 0 (rd (m_PixelMapSize s) det));
  if decide (index < size) then
    match fuel with
    | O => mret status
    | S fuel =>
        m ← gets (λ s, mjoin (rd (p_PixelMap s) det));
        map ← checked NullDeref m;
        v ← checked OutOfBounds (rd map index);
        status' ←
          (if decide (v > u32 detSizeValue) then
             modify (on_p_PixelMap (λ l, upd l det (Some (zero_bytes map size)))) ;;
             modify (on_m_PixelMapSize (λ l, upd l det 0)) ;;
             mret asynError
           else mret status);
        check_entries det detSizeValue fuel (index + 1) status'
    end
  else mret status.

Definition checkPixelMap (det : Z) : M D asynStatus :=
  detSizeValue ← getInt det ADnEDDetPixelNumSizeParam 0;
  size ← gets (λ s, default 0 (rd (m_PixelMapSize s) det));
  map ← gets (λ s, mjoin (rd (p_PixelMap s) det));
  match map with
  | Some _ =>
      if decide (size > 0) then
        check_entries det detSizeValue (Z.to_nat size) 0 asynSuccess
      else mret asynError
  | None => mret asynError
  end.
End driver.
