(* ===== verification/Sample.v ===== *)
(** * Concrete parameters of the model

    A time-stamp type, the parameter library of association lists and driver states
    built from them: the inputs at which the theorems are evaluated. *)

From stdpp Require Import base numbers list option strings.
From S2P Require Import Prelude Float64 Params Transform Driver.

Local Open Scope Z_scope.

(** Seconds, nanoseconds and user tag, ordered by the first two. *)
Record stamp : Type := Stamp { secs : Z; nsecs : Z; tag : Z }.

Definition stamp_key (t : stamp) : Z := secs t * 10 ^ 9 + nsecs t.

#[export] Instance stamp_lib : TimeStampLib stamp := {|
  ts_put t s n := Stamp s n (tag t);
  getSecondsPastEpoch := secs;
  getNanoseconds := nsecs;
  getUserTag := tag;
  ts_ne a b := negb (bool_decide (stamp_key a = stamp_key b));
  ts_gt a b := bool_decide (stamp_key b < stamp_key a)
|}.

#[export] Existing Instance adned_map_lib.

(** A power function: repeated multiplication for the exponent 2. *)
Definition sample_pow (x y : f64) : f64 := f_mul x x.

#[export] Instance sample_transformer : Transformer transform := adned_transformer sample_pow.

#[export] Instance sample_transformer_laws : TransformerLaws transform :=
  adned_transformer_laws sample_pow.

Definition sample_driver : Type := driver (map_lib param) stamp transform.

Definition calloc_always (n size : Z) : bool := true.

Definition memory_always : memory := λ _, calloc_always.

(** The driver after its constructor. *)
Definition sample_new : sample_driver :=
  ADnED_members map_lib_empty (Stamp 0 0 0) 0 (replicate n_dets1 0) ADnEDTransformBase.

Definition set_ints (l : map_lib param) (ws : list (Z * param * Z)) : map_lib param :=
  foldl (λ l '(a, p, v), snd (setIntegerParam l a p v)) l ws.

(** Two detectors: pixel IDs 10 to 13 and 20 to 21, times of flight up to 5. *)
Definition sample_config : map_lib param :=
  set_ints map_lib_empty
    [(0, ADnEDNumDetParam, 2); (0, ADnEDTOFMaxParam, 5);
     (1, ADnEDDetPixelNumStartParam, 10); (1, ADnEDDetPixelNumEndParam, 13);
     (2, ADnEDDetPixelNumStartParam, 20); (2, ADnEDDetPixelNumEndParam, 21);
     (1, ADnEDDetPixelROISizeXParam, 1); (2, ADnEDDetPixelROISizeXParam, 1);
     (1, ADnEDDetPixelSizeXParam, 1); (2, ADnEDDetPixelSizeXParam, 1)].

Definition sample_ready : sample_driver := on_params (λ _, sample_config) sample_new.

(** The sizes of their pixel regions. *)
Definition sample_size (d : Z) : Z := if decide (d = 1) then 4 else 2.

Lemma dets_1_2 (P : Z → Prop) : P 1 → P 2 → ∀ d, 1 <= d <= 2 → P d.
Proof. intros H1 H2 d Hd. by assert (d = 1 ∨ d = 2) as [-> | ->] by lia. Qed.
