(* ===== verification/Alloc.v ===== *)
(** * The data buffer and its layout

    Models [ADnED::allocArray]: it sizes the buffer [p_Data], publishes where
    each detector's pixel counters and time-of-flight counters start, and
    allocates it.  The theorems say that for a consistent configuration the
    published regions partition the allocated buffer. *)

From stdpp Require Import base numbers list option strings.
From S2P Require Import Prelude Float64 Params Transform Driver Sample.

Local Open Scope Z_scope.

Section alloc.
Context {L TS T : Type} {PL : ParamLib param L}.
Context (calloc_ok : Z → Z → bool).
Local Abbreviation D := (driver L TS T).

(** One turn of the first loop: the pixel region of a detector.  [None] is the
    [return asynError] of a bad range; the triple holds the local variables. *)
Definition det_size (det detStart detEnd detSize : Z) : M D Z :=
  if decide (detSize = 0) then
    n ← int_result (detEnd - detStart);
    n ← int_result (n + 1);
    setInt det ADnEDDetPixelNumSizeParam n ;;
    mret n
  else mret detSize.

Definition publish_pix (det detSize : Z) : M D () :=
  m ← gets m_dataMaxSize;
  setInt det ADnEDDetNDArrayStartParam (i32 m) ;;
  setInt det ADnEDDetNDArrayEndParam (i32 (u32 (m + detSize - 1))) ;;
  setInt det ADnEDDetNDArraySizeParam detSize ;;
  modify (on_m_dataMaxSize (λ n, u32 (n + detSize))).

Definition alloc_det (det : Z) (vars : Z * Z * Z) : M D (option (Z * Z * Z)) :=
  let '(detStart0, detEnd0, detSize0) := vars in
  detStart ← getInt det ADnEDDetPixelNumStartParam detStart0;
  detEnd ← getInt det ADnEDDetPixelNumEndParam detEnd0;
  detSize ← getInt det ADnEDDetPixelNumSizeParam detSize0;
  if decide (detStart <= detEnd) then
    detSize ← det_size det detStart detEnd detSize;
    publish_pix det detSize ;;
    mret (Some (detStart, detEnd, detSize))
  else
    setInt 0 ADnEDAllocSpaceStatusParam s_ADNED_ALLOC_STATUS_FAIL ;;
    mret None.

(** One turn of the second loop: the time-of-flight region of a detector; the
    variable is [tofStart]. *)
Definition alloc_tof (tofMax : Z) (det tofStart : Z) : M D Z :=
  let tofEnd := u32 (tofStart + tofMax) in
  setInt det ADnEDDetNDArrayTOFStartParam (i32 tofStart) ;;
  setInt det ADnEDDetNDArrayTOFEndParam (i32 tofEnd) ;;
  mret (u32 (tofEnd + 1)).

(** The allocation itself, the old block having been freed. *)
Definition alloc_buffer (tofWords : Z) : M D asynStatus :=
  modify (on_p_Data (λ _, None)) ;;
  m ← gets m_dataMaxSize;
  status ←
    (if decide (m ≠ 0) then
       let n := u32 (m + tofWords) in
       modify (on_m_bufferMaxSize (λ _, n)) ;;
       modify (on_p_Data (λ _,
         if calloc_ok n 4 then Some (replicate (Z.to_nat n) 0) else None)) ;;
       mret asynSuccess
     else
       setInt 0 ADnEDAllocSpaceStatusParam s_ADNED_ALLOC_STATUS_FAIL ;;
       mret asynError);
  d ← gets p_Data;
  match d with
  | None =>
      setInt 0 ADnEDAllocSpaceStatusParam s_ADNED_ALLOC_STATUS_FAIL ;;
      mret asynError
  | Some _ => mret status
  end.

Definition allocArray : M D asynStatus :=
  dataAlloc ← gets m_dataAlloc;
  if negb dataAlloc then mret asynSuccess
  else
    numDet ← getInt 0 ADnEDNumDetParam 0;
    tofMax ← getInt 0 ADnEDTOFMaxParam 0;
    modify (on_m_tofMax (λ _, u32 tofMax)) ;;
    if decide (numDet = 0) then mret asynError
    else
      modify (on_m_dataMaxSize (λ _, 0)) ;;
      r ← for_acc_return (seqZ 1 numDet) (0, 0, 0) alloc_det;
      match r with
      | None => mret asynError
      | Some _ =>
          n1 ← int_result (tofMax + 1);
          tofWords ← int_result (numDet * n1);
          m ← gets m_dataMaxSize;
          for_acc (seqZ 1 numDet) m (alloc_tof tofMax) ;;
          status ← alloc_buffer tofWords;
          if decide (status = asynSuccess) then
            modify (on_m_dataAlloc (λ _, false)) ;;
            setInt 0 ADnEDAllocSpaceStatusParam s_ADNED_ALLOC_STATUS_OK ;;
            mret status
          else mret status
      end.
End alloc.

(** ** Configurations and layouts *)

(** The pixel counters of a detector: the configured size, or the length of
    its pixel range when the size was left at 0. *)
Definition esize (pstart pend psize : Z → Z) (d : Z) : Z :=
  if decide (psize d = 0) then pend d - pstart d + 1 else psize d.

(** A configuration whose buffer can be addressed with an [int]. *)
Record alloc_pre {L} {PL : ParamLib param L} (l : L) (numDet tofMax : Z)
    (pstart pend psize : Z → Z) : Prop := {
  ap_numDet : int_is l 0 ADnEDNumDetParam numDet;
  ap_tofMax : int_is l 0 ADnEDTOFMaxParam tofMax;
  ap_start d : 1 <= d <= numDet → int_is l d ADnEDDetPixelNumStartParam (pstart d);
  ap_end d : 1 <= d <= numDet → int_is l d ADnEDDetPixelNumEndParam (pend d);
  ap_size d : 1 <= d <= numDet → int_is l d ADnEDDetPixelNumSizeParam (psize d);
  ap_dets : 1 <= numDet <= ADNED_MAX_DETS;
  ap_tof : 0 <= tofMax;
  ap_order d : 1 <= d <= numDet → pstart d <= pend d ∧ 0 <= psize d;
  ap_fits : sum_to (esize pstart pend psize) numDet + numDet * (tofMax + 1) < 2 ^ 31
}.

(** Where a detector's regions start. *)
Definition pix_offset (size : Z → Z) (d : Z) : Z := sum_to size (d - 1).

Definition tof_offset (size : Z → Z) (numDet tofMax d : Z) : Z :=
  sum_to size numDet + (d - 1) * (tofMax + 1).

(** The parameters that publish the pixel region and the time-of-flight region
    of a detector. *)
Record pix_published {L} {PL : ParamLib param L} (l : L) (size : Z → Z) (d : Z) : Prop := {
  pp_size : int_is l d ADnEDDetPixelNumSizeParam (size d);
  pp_start : int_is l d ADnEDDetNDArrayStartParam (pix_offset size d);
  pp_end : int_is l d ADnEDDetNDArrayEndParam (pix_offset size d + size d - 1);
  pp_asize : int_is l d ADnEDDetNDArraySizeParam (size d)
}.

Record tof_published {L} {PL : ParamLib param L} (l : L) (size : Z → Z)
    (numDet tofMax d : Z) : Prop := {
  tp_start : int_is l d ADnEDDetNDArrayTOFStartParam (tof_offset size numDet tofMax d);
  tp_end : int_is l d ADnEDDetNDArrayTOFEndParam (tof_offset size numDet tofMax d + tofMax)
}.

(** The driver state after a successful allocation. *)
Record layout {L TS T} {PL : ParamLib param L} (s : driver L TS T) (numDet tofMax : Z)
    (size : Z → Z) : Prop := {
  lay_dets : 1 <= numDet <= ADNED_MAX_DETS;
  lay_tof : 0 <= tofMax;
  lay_size d : 1 <= d <= numDet → 0 < size d;
  lay_fits : sum_to size numDet + numDet * (tofMax + 1) < 2 ^ 31;
  lay_numDet : int_is (params s) 0 ADnEDNumDetParam numDet;
  lay_pix d : 1 <= d <= numDet → pix_published (params s) size d;
  lay_tofs d : 1 <= d <= numDet → tof_published (params s) size numDet tofMax d;
  lay_m_tofMax : m_tofMax s = tofMax;
  lay_m_dataMaxSize : m_dataMaxSize s = sum_to size numDet;
  lay_m_bufferMaxSize : m_bufferMaxSize s = sum_to size numDet + numDet * (tofMax + 1);
  lay_data : ∃ data, p_Data s = Some data ∧ Z.of_nat (length data) = m_bufferMaxSize s
}.

(** The parameters [allocArray] writes. *)
Definition is_layout_param (p : param) : bool :=
  match p with
  | ADnEDDetPixelNumSizeParam | ADnEDDetNDArrayStartParam | ADnEDDetNDArrayEndParam
  | ADnEDDetNDArraySizeParam | ADnEDDetNDArrayTOFStartParam | ADnEDDetNDArrayTOFEndParam
  | ADnEDAllocSpaceStatusParam => true
  | _ => false
  end.

Definition same_config {L} {PL : ParamLib param L} (l l' : L) : Prop :=
  ∀ a p old, is_layout_param p = false →
    getIntegerParam l' a p old = getIntegerParam l a p old.

Section layout_theorems.
Context {L TS T : Type} {PL : ParamLib param L} {DL : DriverLib L}.
Context (calloc_ok : Z → Z → bool).
Local Abbreviation D := (driver L TS T).
Implicit Types (s : D) (l : L).

Lemma wp_setInt a p v (Q : asynStatus → D → Prop) E s :
  Q (fst (setIntegerParam (params s) a p v))
    (on_params (λ l, snd (setIntegerParam l a p v)) s) →
  wp (setInt a p v) Q E s.
Proof. done. Qed.

Lemma same_config_set l l' a p v :
  same_config l l' → is_layout_param p = true →
  same_config l (snd (setIntegerParam l' a p v)).
Proof.
  intros Hsame Hp a' p' old Hp'. rewrite get_set_int_ne; [by apply Hsame|].
  intros [= -> ->]. congruence.
Qed.

Section run.
Context (l0 : L) (numDet tofMax : Z) (pstart pend psize : Z → Z).
Context (Hpre : alloc_pre l0 numDet tofMax pstart pend psize).
Local Abbreviation size := (esize pstart pend psize).

Lemma esize_pos d : 1 <= d <= numDet → 0 < size d.
Proof.
  intros Hd. destruct (ap_order _ _ _ _ _ _ Hpre d Hd). unfold esize. case_decide; lia.
Qed.

Lemma esize_sum_le d : 0 <= d <= numDet → 0 <= sum_to size d <= sum_to size numDet.
Proof.
  intros Hd. rewrite <-(sum_to_0 size) at 1.
  split; apply sum_to_mono; try lia; intros k Hk;
    [pose proof (esize_pos k)|pose proof (esize_pos k)]; lia.
Qed.

Lemma esize_sum_pos : 0 < sum_to size numDet.
Proof.
  pose proof (ap_dets _ _ _ _ _ _ Hpre).
  rewrite sum_to_pred by lia. pose proof (esize_sum_le (numDet - 1)).
  pose proof (esize_pos numDet). lia.
Qed.

(** The state before the turn [det] of the first loop, and within that turn
    once the size of the detector is known. *)
Definition pix_state (s0 : D) (det : Z) (l : L) : D :=
  on_params (λ _, l) (on_m_dataMaxSize (λ _, sum_to size (det - 1)) s0).

Lemma pix_state_set s0 det l g : on_params g (pix_state s0 det l) = pix_state s0 det (g l).
Proof. by destruct s0. Qed.

Lemma pix_state_params s0 det l : params (pix_state s0 det l) = l.
Proof. by destruct s0. Qed.

Lemma pix_state_max s0 det l : m_dataMaxSize (pix_state s0 det l) = sum_to size (det - 1).
Proof. by destruct s0. Qed.

Lemma pix_state_next s0 det l g :
  g (sum_to size (det - 1)) = sum_to size det →
  on_m_dataMaxSize g (pix_state s0 det l) = pix_state s0 (det + 1) l.
Proof. intros Hg. unfold pix_state. rewrite Z.add_simpl_r, <-Hg. by destruct s0. Qed.

Record pix_lib (det : Z) (l : L) : Prop := {
  pl_pub d : 1 <= d < det → pix_published l size d;
  pl_same : same_config l0 l;
  pl_size d : det <= d <= numDet → int_is l d ADnEDDetPixelNumSizeParam (psize d)
}.

Record pix_lib_sized (det : Z) (l : L) : Prop := {
  ps_pub d : 1 <= d < det → pix_published l size d;
  ps_same : same_config l0 l;
  ps_det : int_is l det ADnEDDetPixelNumSizeParam (size det);
  ps_size d : det < d <= numDet → int_is l d ADnEDDetPixelNumSizeParam (psize d)
}.

Lemma det_bounds det :
  1 <= det <= numDet →
  0 <= det <= ADNED_MAX_DETS ∧ 0 < size det ∧ 0 <= sum_to size (det - 1) ∧
  sum_to size det = sum_to size (det - 1) + size det ∧
  sum_to size det <= sum_to size numDet < 2 ^ 31.
Proof.
  intros Hdet. pose proof (ap_dets _ _ _ _ _ _ Hpre). pose proof (ap_fits _ _ _ _ _ _ Hpre).
  pose proof (ap_tof _ _ _ _ _ _ Hpre).
  pose proof (esize_sum_le (det - 1)). pose proof (esize_sum_le det).
  split_and!; [lia|lia|by apply esize_pos|lia|apply sum_to_pred; lia|lia|nia].
Qed.

Lemma det_size_step s0 det l :
  1 <= det <= numDet → pix_lib det l →
  wp_ok (det_size det (pstart det) (pend det) (psize det))
    (λ n s', n = size det ∧ ∃ l', s' = pix_state s0 det l' ∧ pix_lib_sized det l')
    (pix_state s0 det l).
Proof.
  intros Hdet [Hpub Hsame Hsize].
  pose proof (ap_order _ _ _ _ _ _ Hpre det Hdet) as [Hord Hps].
  destruct (det_bounds det Hdet) as (Hd & Hpos & Hs0 & Hsum & Hle).
  unfold wp_ok, det_size. case_decide as Hz.
  - assert (size det = pend det - pstart det + 1) as Hsz by (unfold esize; by rewrite decide_True).
    do 2 (wp_step; wp_step). wp_step. apply wp_setInt. wp_step. rewrite pix_state_set.
    split; [done|]. eexists. split; [done|]. split.
    + intros d Hd'. destruct (Hpub d Hd') as [H1 H2 H3 H4].
      split; intros old; params_simpl; try lia; auto.
    + by apply same_config_set.
    + intros old. params_simpl. lia.
    + intros d Hd' old. params_simpl; [lia|]. apply Hsize. lia.
  - wp_steps. unfold esize at 1. rewrite decide_False by done. split; [done|].
    exists l. split; [done|]. split; [done..| |].
    + unfold esize. rewrite decide_False by done. apply Hsize. lia.
    + intros d Hd'. apply Hsize. lia.
Qed.

Lemma publish_pix_step s0 det l :
  1 <= det <= numDet → pix_lib_sized det l →
  wp_ok (publish_pix det (size det))
    (λ _ s', ∃ l', s' = pix_state s0 (det + 1) l' ∧ pix_lib (det + 1) l')
    (pix_state s0 det l).
Proof.
  intros Hdet [Hpub Hsame Hsz Hsize].
  destruct (det_bounds det Hdet) as (Hd & Hpos & Hs0 & Hsum & Hle).
  unfold wp_ok, publish_pix. do 2 wp_step. rewrite pix_state_max.
  do 3 (wp_step; apply wp_setInt; rewrite pix_state_set). wp_step.
  eexists. split; [apply pix_state_next; rewrite u32_id by mach_lia; lia|].
  rewrite (i32_id (sum_to _ _)) by mach_lia.
  rewrite (u32_id (_ - 1)), (i32_id (_ - 1)) by mach_lia. split.
  - intros d Hd'. destruct (decide (d = det)) as [->|Hne].
    + split; intros old; params_simpl; try done; by apply Hsz.
    + destruct (Hpub d) as [H1 H2 H3 H4]; [lia|].
      split; intros old; params_simpl; auto.
  - by repeat apply same_config_set.
  - intros d Hd' old. params_simpl. apply Hsize. lia.
Qed.

Lemma alloc_det_step s0 det vars s :
  1 <= det <= numDet → (∃ l, s = pix_state s0 det l ∧ pix_lib det l) →
  wp_ok (alloc_det det vars)
    (λ r s', ∃ vars', r = Some vars' ∧
       ∃ l', s' = pix_state s0 (det + 1) l' ∧ pix_lib (det + 1) l') s.
Proof.
  intros Hdet (l & -> & Hl). destruct vars as [[v1 v2] v3].
  pose proof (ap_order _ _ _ _ _ _ Hpre det Hdet) as [Hord _].
  unfold wp_ok, alloc_det, getInt. wp_steps. rewrite !pix_state_params.
  rewrite !(pl_same _ _ Hl), (ap_start _ _ _ _ _ _ Hpre), (ap_end _ _ _ _ _ _ Hpre) by done.
  rewrite (pl_size _ _ Hl) by lia. rewrite decide_True by done.
  wp_step. eapply wp_mono; [by apply det_size_step| |done].
  intros n s' (-> & l' & -> & Hl'). wp_step.
  eapply wp_mono; [by apply publish_pix_step| |done].
  intros [] s' (l'' & -> & Hl''). wp_step. eauto 6.
Qed.

(** The library before the turn [det] of the second loop. *)
Record tof_lib (det : Z) (l : L) : Prop := {
  tl_pix d : 1 <= d <= numDet → pix_published l size d;
  tl_tof d : 1 <= d < det → tof_published l size numDet tofMax d;
  tl_same : same_config l0 l
}.

Lemma with_params_set s0 l g : on_params g (on_params (λ _, l) s0) = on_params (λ _, g l) s0.
Proof. by destruct s0. Qed.

Lemma alloc_tof_step s0 det tofStart s :
  1 <= det <= numDet →
  (tofStart = tof_offset size numDet tofMax det ∧
   ∃ l, s = on_params (λ _, l) s0 ∧ tof_lib det l) →
  wp_ok (alloc_tof tofMax det tofStart)
    (λ r s', r = tof_offset size numDet tofMax (det + 1) ∧
       ∃ l', s' = on_params (λ _, l') s0 ∧ tof_lib (det + 1) l') s.
Proof.
  intros Hdet (-> & l & -> & [Hpix Htof Hsame]).
  destruct (det_bounds det Hdet) as (Hd & _ & _ & _ & _).
  pose proof (esize_sum_le numDet ltac:(lia)).
  pose proof (ap_fits _ _ _ _ _ _ Hpre). pose proof (ap_tof _ _ _ _ _ _ Hpre).
  assert (tof_offset size numDet tofMax det + tofMax + 1
          = tof_offset size numDet tofMax (det + 1)) as Hnext by (unfold tof_offset; lia).
  assert (0 <= tof_offset size numDet tofMax det ∧
          tof_offset size numDet tofMax det + tofMax + 1 < 2 ^ 31) as [Hlo Hhi]
    by (unfold tof_offset; nia).
  unfold wp_ok, alloc_tof. do 2 (wp_step; apply wp_setInt; rewrite with_params_set).
  wp_step. rewrite (u32_id (_ + tofMax)) by mach_lia.
  rewrite u32_id, !i32_id by mach_lia. split; [lia|].
  eexists. split; [done|]. split.
  - intros d Hd'. destruct (Hpix d Hd') as [P1 P2 P3 P4].
    split; intros old; params_simpl; auto.
  - intros d Hd'. destruct (decide (d = det)) as [->|Hne].
    + split; intros old; params_simpl; done.
    + destruct (Htof d) as [P1 P2]; [lia|]. split; intros old; params_simpl; auto.
  - by repeat apply same_config_set.
Qed.

Lemma pix_loop s0 :
  params s0 = l0 → m_dataMaxSize s0 = 0 →
  wp_ok (for_acc_return (seqZ 1 numDet) (0, 0, 0) alloc_det)
    (λ r s', ∃ b l, r = Some b ∧
       s' = on_params (λ _, l) (on_m_dataMaxSize (λ _, sum_to size numDet) s0) ∧
       (∀ d, 1 <= d <= numDet → pix_published l size d) ∧ same_config l0 l) s0.
Proof.
  intros Hl Hm. pose proof (ap_dets _ _ _ _ _ _ Hpre).
  eapply wp_mono; [apply (wp_for_acc_return_range 1 numDet _ _
    (λ det _ s, ∃ l, s = pix_state s0 det l ∧ pix_lib det l) (λ _ _, False))| |done].
  - lia.
  - exists l0. split.
    { unfold pix_state. rewrite Z.sub_diag, sum_to_0. destruct s0; cbn in *. by rewrite Hl, Hm. }
    split; [lia|done|apply (ap_size _ _ _ _ _ _ Hpre)].
  - intros det b s' Hdet Hs. apply alloc_det_step; [lia|done].
  - intros r s' (b & -> & l & -> & Hl'). exists b, l. split; [done|]. split.
    { unfold pix_state. by rewrite Z.add_simpl_l. }
    split; [|apply Hl']. intros d Hd. apply Hl'. lia.
Qed.

Lemma tof_loop s0 m :
  m = sum_to size numDet →
  (∀ d, 1 <= d <= numDet → pix_published (params s0) size d) →
  same_config l0 (params s0) →
  wp_ok (for_acc (seqZ 1 numDet) m (alloc_tof tofMax))
    (λ _ s', ∃ l, s' = on_params (λ _, l) s0 ∧
       (∀ d, 1 <= d <= numDet → pix_published l size d ∧
          tof_published l size numDet tofMax d) ∧ same_config l0 l) s0.
Proof.
  intros -> Hpix Hsame. pose proof (ap_dets _ _ _ _ _ _ Hpre).
  eapply wp_mono; [apply (wp_for_acc_range 1 numDet _ _ (λ det tofStart s,
    tofStart = tof_offset size numDet tofMax det ∧
    ∃ l, s = on_params (λ _, l) s0 ∧ tof_lib det l) (λ _ _, False))| |done].
  - lia.
  - split; [unfold tof_offset; lia|]. exists (params s0).
    split; [by destruct s0|]. split; [done|lia|done].
  - intros det b s' Hdet Hs. apply alloc_tof_step; [lia|done].
  - intros r s' (_ & l & -> & [P1 P2 P3]). exists l. split; [done|]. split; [|done].
    intros d Hd. split; [by apply P1|apply P2; lia].
Qed.
End run.

(** The status parameter publishes no region. *)
Lemma published_status l size numDet tofMax d v :
  let l' := snd (setIntegerParam l 0 ADnEDAllocSpaceStatusParam v) in
  (pix_published l size d → pix_published l' size d) ∧
  (tof_published l size numDet tofMax d → tof_published l' size numDet tofMax d).
Proof.
  cbn. split; intros Hp; split; intros old; params_simpl; apply Hp.
Qed.

Lemma alloc_buffer_run (s : D) tofWords :
  0 < m_dataMaxSize s → 0 <= tofWords → m_dataMaxSize s + tofWords < 2 ^ 32 →
  (∀ n, calloc_ok n 4 = true) →
  alloc_buffer calloc_ok tofWords s
  = (Ok asynSuccess,
     on_p_Data (λ _, Some (replicate (Z.to_nat (m_dataMaxSize s + tofWords)) 0))
       (on_m_bufferMaxSize (λ _, m_dataMaxSize s + tofWords) s)).
Proof.
  intros H1 H2 H3 Hc. destruct s; cbn in *.
  unfold alloc_buffer, mbind, M_bind, modify, gets. cbn. rewrite decide_True by lia. cbn.
  by rewrite u32_id, Hc by mach_lia.
Qed.

(** For a consistent configuration and enough memory [allocArray] succeeds and
    leaves a buffer of zeros, laid out as published. *)
Lemma allocArray_layout (s : D) numDet tofMax pstart pend psize :
  alloc_pre (params s) numDet tofMax pstart pend psize →
  m_dataAlloc s = true →
  (∀ n, calloc_ok n 4 = true) →
  wp_ok (allocArray calloc_ok)
    (λ st s', st = asynSuccess ∧
       layout s' numDet tofMax (esize pstart pend psize) ∧
       p_Data s' = Some (replicate (Z.to_nat (m_bufferMaxSize s')) 0) ∧
       m_dataAlloc s' = false ∧
       int_is (params s') 0 ADnEDAllocSpaceStatusParam s_ADNED_ALLOC_STATUS_OK ∧
       same_config (params s) (params s')) s.
Proof.
  intros Hpre Hda Hc.
  pose proof (ap_dets _ _ _ _ _ _ Hpre). pose proof (ap_tof _ _ _ _ _ _ Hpre).
  pose proof (ap_fits _ _ _ _ _ _ Hpre) as Hfits.
  pose proof (esize_sum_pos _ _ _ _ _ _ Hpre) as Hsum.
  assert (0 <= numDet * (tofMax + 1)) by nia. assert (tofMax + 1 <= numDet * (tofMax + 1)) by nia.
  unfold wp_ok, allocArray, getInt. do 2 wp_step. rewrite Hda. cbn [negb]. wp_steps.
  rewrite (ap_numDet _ _ _ _ _ _ Hpre), (ap_tofMax _ _ _ _ _ _ Hpre).
  rewrite decide_False by lia. wp_steps.
  eapply wp_mono; [apply (pix_loop _ _ _ _ _ _ Hpre); by destruct s| |done].
  intros r s1 (b & l1 & -> & -> & Hpix & Hsame1). cbn beta iota. wp_steps.
  eapply wp_mono; [apply (tof_loop _ _ _ _ _ _ Hpre); by destruct s| |done].
  intros m s2 (l2 & -> & Hpub & Hsame2). wp_step. unfold wp at 1.
  rewrite alloc_buffer_run by (destruct s; cbn; done || lia). cbn beta iota.
  rewrite decide_True by done. do 3 wp_step. apply wp_setInt. wp_step.
  destruct s; cbn in *. split; [done|]. split; [|split_and!].
  - split; cbn; try done; try lia.
    + apply (esize_pos _ _ _ _ _ _ Hpre).
    + intros old. rewrite (same_config_set _ _ _ _ _ Hsame2) by done.
      apply (ap_numDet _ _ _ _ _ _ Hpre).
    + intros d Hd. by apply published_status, Hpub.
    + intros d Hd. by apply published_status, Hpub.
    + apply u32_id. mach_lia.
    + eexists. split; [done|]. rewrite length_replicate. lia.
  - done.
  - done.
  - intros old. by params_simpl.
  - by apply same_config_set.
Qed.
End layout_theorems.

(** ** The regions of the buffer *)

Inductive region : Type :=
  | PixelRegion (det : Z)
  | TofRegion (det : Z).

Definition region_det (r : region) : Z :=
  match r with PixelRegion d | TofRegion d => d end.

(** The first and the last index a region's parameters publish. *)
Definition published_bounds {L} {PL : ParamLib param L} (l : L) (r : region) : Z * Z :=
  match r with
  | PixelRegion d => (getIntegerParam l d ADnEDDetNDArrayStartParam 0,
                      getIntegerParam l d ADnEDDetNDArrayEndParam 0)
  | TofRegion d => (getIntegerParam l d ADnEDDetNDArrayTOFStartParam 0,
                    getIntegerParam l d ADnEDDetNDArrayTOFEndParam 0)
  end.

Definition in_region {L} {PL : ParamLib param L} (l : L) (numDet : Z) (r : region)
    (j : Z) : Prop :=
  1 <= region_det r <= numDet ∧
  fst (published_bounds l r) <= j <= snd (published_bounds l r).

(** An index below a sum of sizes belongs to one summand. *)
Lemma sum_to_split f n j :
  0 <= n → 0 <= j < sum_to f n →
  ∃ d, 1 <= d <= n ∧ sum_to f (d - 1) <= j < sum_to f (d - 1) + f d.
Proof.
  intros Hn. pattern n. apply natlike_ind; [..|done]; clear n Hn.
  { rewrite sum_to_0. lia. }
  intros n Hn IH Hj. rewrite <-Z.add_1_r in Hj |- *.
  destruct (decide (j < sum_to f n)) as [Hlt|Hge].
  - destruct IH as (d & Hd & Hjd); [lia|]. exists d. lia.
  - exists (n + 1). rewrite Z.add_simpl_r. rewrite sum_to_succ in Hj by done. lia.
Qed.

Section regions.
Context {L TS T : Type} {PL : ParamLib param L}.
Context (s : driver L TS T) (numDet tofMax : Z) (size : Z → Z).
Context (Hlay : layout s numDet tofMax size).

Lemma layout_bounds r :
  1 <= region_det r <= numDet →
  published_bounds (params s) r
  = match r with
    | PixelRegion d => (pix_offset size d, pix_offset size d + size d - 1)
    | TofRegion d => (tof_offset size numDet tofMax d, tof_offset size numDet tofMax d + tofMax)
    end.
Proof.
  intros Hr. destruct r as [d|d]; cbn in *.
  - destruct (lay_pix _ _ _ _ Hlay d Hr) as [_ -> -> _]. done.
  - destruct (lay_tofs _ _ _ _ Hlay d Hr) as [-> ->]. done.
Qed.

Lemma pix_offset_mono d d' :
  1 <= d → d <= d' → d' <= numDet + 1 → pix_offset size d <= pix_offset size d'.
Proof.
  intros H1 H2 H3. unfold pix_offset. apply sum_to_mono; [|lia]. intros k Hk.
  pose proof (lay_size _ _ _ _ Hlay k). lia.
Qed.

Lemma pix_offset_next d : 1 <= d → pix_offset size (d + 1) = pix_offset size d + size d.
Proof. intros Hd. unfold pix_offset. rewrite Z.add_simpl_r. apply sum_to_pred. lia. Qed.

Lemma pix_region_below d :
  1 <= d <= numDet → 0 <= pix_offset size d ∧ pix_offset size d + size d <= sum_to size numDet.
Proof.
  intros Hd. split.
  - pose proof (pix_offset_mono 1 d). unfold pix_offset at 1 in H. rewrite sum_to_0 in H. lia.
  - rewrite <-pix_offset_next by lia. pose proof (pix_offset_mono (d + 1) (numDet + 1)) as H.
    unfold pix_offset at 2 in H. rewrite Z.add_simpl_r in H. lia.
Qed.

(** Every index of the buffer is in a region, and a region holds only indices
    of the buffer. *)
Lemma regions_cover j :
  0 <= j < m_bufferMaxSize s ↔ ∃ r, in_region (params s) numDet r j.
Proof.
  pose proof (lay_dets _ _ _ _ Hlay). pose proof (lay_tof _ _ _ _ Hlay).
  rewrite (lay_m_bufferMaxSize _ _ _ _ Hlay). split.
  - intros Hj. destruct (decide (j < sum_to size numDet)) as [Hp|Ht].
    + destruct (sum_to_split size numDet j) as (d & Hd & Hjd); [lia..|].
      exists (PixelRegion d). split; [done|]. rewrite layout_bounds by done. cbn.
      unfold pix_offset. lia.
    + set (q := (j - sum_to size numDet) / (tofMax + 1)).
      assert (0 <= q < numDet) as Hq.
      { split; [apply Z.div_pos; lia|apply Z.div_lt_upper_bound; lia]. }
      exists (TofRegion (q + 1)). split; [cbn; lia|]. rewrite layout_bounds by (cbn; lia).
      unfold tof_offset. rewrite Z.add_simpl_r. cbn.
      pose proof (Z.div_mod (j - sum_to size numDet) (tofMax + 1)).
      pose proof (Z.mod_pos_bound (j - sum_to size numDet) (tofMax + 1)). fold q in H1. lia.
  - intros (r & Hr & Hj). rewrite layout_bounds in Hj by done. destruct r as [d|d]; cbn in *.
    + pose proof (pix_region_below d Hr). nia.
    + unfold tof_offset in Hj. pose proof (pix_region_below 1). pose proof (lay_size _ _ _ _ Hlay 1).
      nia.
Qed.

Lemma regions_disjoint r r' j :
  in_region (params s) numDet r j → in_region (params s) numDet r' j → r = r'.
Proof.
  intros [Hr Hj] [Hr' Hj']. rewrite layout_bounds in Hj, Hj' by done.
  pose proof (lay_tof _ _ _ _ Hlay).
  assert (∀ a b, 1 <= a → a < b → b <= numDet →
    pix_offset size a + size a <= pix_offset size b) as Hmono.
  { intros a b Ha Hab Hb. rewrite <-pix_offset_next by lia. apply pix_offset_mono; lia. }
  destruct r as [d|d], r' as [d'|d']; cbn in *.
  - f_equal. destruct (Z.lt_trichotomy d d') as [Hlt|[?|Hlt]]; [|done|];
      apply Hmono in Hlt; lia.
  - pose proof (pix_region_below d Hr). unfold tof_offset in Hj'. nia.
  - pose proof (pix_region_below d' Hr'). unfold tof_offset in Hj. nia.
  - f_equal. unfold tof_offset in *. nia.
Qed.
End regions.

(** C1. For a consistent configuration and enough memory [allocArray] returns
    [asynSuccess], the buffer it leaves is all zeros, and the pixel and
    time-of-flight regions it publishes for the detectors partition that buffer:
    every index of the buffer is in exactly one region, and no region reaches
    outside it. *)
Theorem allocArray_partitions {L TS T} {PL : ParamLib param L} {DL : DriverLib L} calloc_ok
    (s : driver L TS T) numDet tofMax pstart pend psize :
  alloc_pre (params s) numDet tofMax pstart pend psize →
  m_dataAlloc s = true →
  (∀ n, calloc_ok n 4 = true) →
  wp_ok (allocArray calloc_ok)
    (λ st s', st = asynSuccess ∧ m_dataAlloc s' = false ∧
       p_Data s' = Some (replicate (Z.to_nat (m_bufferMaxSize s')) 0) ∧
       (∀ j, 0 <= j < m_bufferMaxSize s' ↔ ∃ r, in_region (params s') numDet r j) ∧
       (∀ r r' j, in_region (params s') numDet r j → in_region (params s') numDet r' j →
          r = r')) s.
Proof.
  intros Hpre Hda Hc. eapply wp_mono; [by apply allocArray_layout| |done].
  intros st s' (-> & Hlay & Hdata & Hda' & _). split_and!; [done..| |].
  - intros j. by eapply regions_cover.
  - intros r r' j. by eapply regions_disjoint.
Qed.

Lemma sample_alloc_pre :
  alloc_pre (params sample_ready) 2 5 (λ d, if decide (d = 1) then 10 else 20)
    (λ d, if decide (d = 1) then 13 else 21) (λ _, 0).
Proof.
  split; try done.
  1-3: intros d Hd old; assert (d = 1 ∨ d = 2) as [-> | ->] by lia; by vm_compute.
  intros d Hd. case_decide; lia.
Qed.

Lemma allocArray_partitions_witness :
  wp_ok (allocArray calloc_always)
    (λ st s', st = asynSuccess ∧ m_dataAlloc s' = false ∧
       p_Data s' = Some (replicate (Z.to_nat (m_bufferMaxSize s')) 0) ∧
       (∀ j, 0 <= j < m_bufferMaxSize s' ↔ ∃ r, in_region (params s') 2 r j) ∧
       (∀ r r' j, in_region (params s') 2 r j → in_region (params s') 2 r' j →
          r = r')) sample_ready.
Proof.
  apply (allocArray_partitions calloc_always sample_ready 2 5 _ _ _ sample_alloc_pre);
    [reflexivity|done].
Defined.

(** ** Failed allocations *)

(** The first detector whose range is reversed is [bad]. *)
Record bad_range {L} {PL : ParamLib param L} (l : L) (numDet bad : Z)
    (pstart pend : Z → Z) : Prop := {
  br_numDet : int_is l 0 ADnEDNumDetParam numDet;
  br_start d : 1 <= d <= bad → int_is l d ADnEDDetPixelNumStartParam (pstart d);
  br_end d : 1 <= d <= bad → int_is l d ADnEDDetPixelNumEndParam (pend d);
  br_bad : 1 <= bad <= numDet;
  br_order d : 1 <= d < bad → pstart d <= pend d ∧ pend d - pstart d + 1 < 2 ^ 31;
  br_reversed : pend bad < pstart bad
}.

(** What a failed allocation leaves as it was. *)
Record alloc_kept {L TS T} (s s' : driver L TS T) : Prop := {
  ak_data : p_Data s' = p_Data s;
  ak_buffer : m_bufferMaxSize s' = m_bufferMaxSize s;
  ak_request : m_dataAlloc s' = m_dataAlloc s
}.

Lemma alloc_kept_trans {L TS T} (s1 s2 s3 : driver L TS T) :
  alloc_kept s1 s2 → alloc_kept s2 s3 → alloc_kept s1 s3.
Proof. intros [] []. split; congruence. Qed.

Lemma alloc_kept_params {L TS T} (s s' : driver L TS T) g :
  alloc_kept s s' → alloc_kept s (on_params g s').
Proof. intros [??]. by destruct s'. Qed.

Section failed.
Context {L TS T : Type} {PL : ParamLib param L} {DL : DriverLib L}.
Context (calloc_ok : Z → Z → bool).
Local Abbreviation D := (driver L TS T).

(** The state stays that of [s0] but for layout parameters and
    [m_dataMaxSize]. *)
Record alloc_partial (s0 s : D) : Prop := {
  apart_kept : alloc_kept s0 s;
  apart_config : same_config (params s0) (params s);
  apart_tofMax : m_tofMax s = m_tofMax s0
}.

Lemma alloc_partial_set s0 s a p v :
  alloc_partial s0 s → is_layout_param p = true →
  alloc_partial s0 (on_params (λ l, snd (setIntegerParam l a p v)) s).
Proof.
  intros [Hk Hs Ht] Hp. split; [by apply alloc_kept_params| |by destruct s].
  destruct s; cbn in *. by apply same_config_set.
Qed.

Lemma alloc_partial_max s0 s g :
  alloc_partial s0 s → alloc_partial s0 (on_m_dataMaxSize g s).
Proof. intros [[] ??]. by destruct s. Qed.

Lemma alloc_det_partial s0 det vars s detStart detEnd :
  alloc_partial s0 s →
  int_is (params s0) det ADnEDDetPixelNumStartParam detStart →
  int_is (params s0) det ADnEDDetPixelNumEndParam detEnd →
  detStart <= detEnd → detEnd - detStart + 1 < 2 ^ 31 →
  wp_ok (alloc_det det vars) (λ r s', ∃ vars', r = Some vars' ∧ alloc_partial s0 s') s.
Proof.
  intros Hp Hstart Hend Hle Hfit. destruct vars as [[v1 v2] v3].
  unfold wp_ok, alloc_det, getInt. wp_steps.
  rewrite !(apart_config _ _ Hp), Hstart, Hend by done. rewrite decide_True by done.
  wp_step. eapply (wp_mono _ (λ _ s', alloc_partial s0 s') _ (λ _ _, False)); [| |done].
  - unfold det_size. case_decide; wp_steps; [|done]. apply wp_setInt. wp_step.
    by apply alloc_partial_set.
  - intros n s' Hp'. unfold publish_pix. wp_steps.
    do 3 (apply wp_setInt; wp_steps). eexists. split; [done|].
    apply alloc_partial_max. by do 3 (apply alloc_partial_set; [|done]).
Qed.

(** The turn that finds the reversed range. *)
Lemma alloc_det_reversed s0 det vars s detStart detEnd :
  alloc_partial s0 s →
  int_is (params s0) det ADnEDDetPixelNumStartParam detStart →
  int_is (params s0) det ADnEDDetPixelNumEndParam detEnd →
  detEnd < detStart →
  wp_ok (alloc_det det vars) (λ r s', r = None ∧ alloc_partial s0 s' ∧
    int_is (params s') 0 ADnEDAllocSpaceStatusParam s_ADNED_ALLOC_STATUS_FAIL) s.
Proof.
  intros Hp Hstart Hend Hlt. destruct vars as [[v1 v2] v3].
  unfold wp_ok, alloc_det, getInt. wp_steps.
  rewrite !(apart_config _ _ Hp), Hstart, Hend by done. rewrite decide_False by lia.
  wp_step. apply wp_setInt. wp_step. split_and!; [done|by apply alloc_partial_set|].
  destruct s; cbn. intros old. by params_simpl.
Qed.

(** C2. When a detector's pixel range is reversed [allocArray] returns
    [asynError] and sets the status parameter to FAIL; the old buffer and its
    size stay, and so does the request to allocate.  [m_tofMax], however, has
    already taken the new value of the TOF_MAX parameter. *)
Theorem allocArray_bad_range (s : D) numDet bad pstart pend :
  bad_range (params s) numDet bad pstart pend →
  m_dataAlloc s = true →
  wp_ok (allocArray calloc_ok)
    (λ st s', st = asynError ∧ alloc_kept s s' ∧
       m_tofMax s' = u32 (getIntegerParam (params s) 0 ADnEDTOFMaxParam 0) ∧
       int_is (params s') 0 ADnEDAllocSpaceStatusParam s_ADNED_ALLOC_STATUS_FAIL) s.
Proof.
  intros Hbr Hda. destruct Hbr as [Hnum Hst Hen [Hb1 Hb2] Hord Hrev].
  unfold wp_ok, allocArray, getInt. do 2 wp_step. rewrite Hda. cbn [negb]. wp_steps.
  rewrite Hnum, decide_False by lia. wp_steps.
  set (s0 := on_m_dataMaxSize _ _).
  assert (alloc_kept s s0 ∧ params s0 = params s ∧
    m_tofMax s0 = u32 (getIntegerParam (params s) 0 ADnEDTOFMaxParam 0)) as (Hk0 & Hps0 & <-)
    by (unfold s0; by destruct s).
  rewrite <-Hps0 in Hst, Hen.
  eapply wp_mono; [apply (wp_for_acc_return_exit 1 numDet _ _
    (λ det _ s', det <= bad ∧ alloc_partial s0 s')
    (λ s', alloc_partial s0 s' ∧
       int_is (params s') 0 ADnEDAllocSpaceStatusParam s_ADNED_ALLOC_STATUS_FAIL)
    (λ _ _, False))| |done].
  - lia.
  - by repeat split.
  - intros det b s' Hdet (Hle & Hp). destruct (decide (det = bad)) as [->|Hne].
    + eapply wp_mono; [by eapply alloc_det_reversed; eauto with lia| |done].
      naive_solver.
    + destruct (Hord det) as [Ho Hfit]; [lia|].
      eapply wp_mono; [by eapply alloc_det_partial; eauto with lia| |done].
      cbn. intros r s'' (? & -> & ?). split; [lia|done].
  - intros [b|] s' H; wp_step; [lia|]. destruct H as [[Hk _ Ht] Hfail].
    split_and!; [done|by eapply alloc_kept_trans|done|done].
Qed.
End failed.

(** Detector 2 has its range reversed. *)
Definition sample_reversed : sample_driver :=
  on_params (λ l, set_ints l [(2, ADnEDDetPixelNumStartParam, 30)]) sample_ready.

Lemma allocArray_bad_range_witness :
  wp_ok (allocArray calloc_always)
    (λ st s', st = asynError ∧ alloc_kept sample_reversed s' ∧
       m_tofMax s' = u32 (getIntegerParam (params sample_reversed) 0 ADnEDTOFMaxParam 0) ∧
       int_is (params s') 0 ADnEDAllocSpaceStatusParam s_ADNED_ALLOC_STATUS_FAIL)
    sample_reversed.
Proof.
  apply (allocArray_bad_range calloc_always sample_reversed 2 2
    (λ d, if decide (d = 1) then 10 else 30) (λ d, if decide (d = 1) then 13 else 21));
    [|reflexivity].
  split; try done.
  1-2: intros d Hd old; assert (d = 1 ∨ d = 2) as [-> | ->] by lia; by vm_compute.
  intros d Hd. case_decide; lia.
Defined.
