(* ===== verification/Ops.v ===== *)
(** * Reset, clear and check operations

    Theorems about [resetTOFArray], [clearParams] and [checkPixelMap]
    (Driver.v). *)

From stdpp Require Import base numbers list option strings.
From S2P Require Import Prelude Float64 Params Transform Driver Sample Alloc.

Local Open Scope Z_scope.

(** ** Clearing words *)

Lemma zero_words_spec (l : list Z) start n :
  0 <= start → 0 <= n → start + n <= Z.of_nat (length l) →
  ∃ l', zero_words l start n = Some l' ∧ length l' = length l ∧
    ∀ j, rd l' j = if decide (start <= j < start + n) then Some 0 else rd l j.
Proof.
  intros Hs Hn Hl. unfold zero_words. rewrite decide_True by lia. eexists. split; [done|].
  split; [rewrite !length_app, length_take, length_replicate, length_drop; lia|].
  intros j. unfold rd. case_decide as Hj; [|by rewrite decide_False by lia].
  case_decide as Hin; [|destruct (decide (j < start)) as [Hlt|Hge]].
  - rewrite lookup_app_r by (rewrite length_take; lia).
    rewrite length_take, lookup_app_l by (rewrite length_replicate; lia).
    apply lookup_replicate_2. lia.
  - rewrite lookup_app_l by (rewrite length_take; lia). apply lookup_take_lt. lia.
  - rewrite lookup_app_r by (rewrite length_take; lia).
    rewrite length_take, lookup_app_r by (rewrite length_replicate; lia).
    rewrite length_replicate, lookup_drop. f_equal. lia.
Qed.

Section ops.
Context {L TS T : Type} {PL : ParamLib param L} {DL : DriverLib L} {TL : TimeStampLib TS}.
Local Abbreviation D := (driver L TS T).

(** C12. Resetting the time-of-flight array of a detector clears exactly the
    words of its time-of-flight region, of a buffer laid out by [allocArray]. *)
Theorem resetTOFArray_clears (s : D) numDet tofMax size det data :
  layout s numDet tofMax size → 0 < tofMax → 1 <= det <= numDet →
  p_Data s = Some data →
  wp_ok (resetTOFArray det)
    (λ _ s', ∃ data', s' = on_p_Data (λ _, Some data') s ∧ length data' = length data ∧
       ∀ j v, rd data j = Some v →
         (in_region (params s) numDet (TofRegion det) j → rd data' j = Some 0) ∧
         (¬ in_region (params s) numDet (TofRegion det) j → rd data' j = Some v)) s.
Proof.
  intros Hlay Ht Hdet Hdata. pose proof Hlay as [Hd Htof Hsz Hfit _ _ Htofs Htm _ Hbm (dat & E1 & E2)].
  rewrite Hdata in E1. injection E1 as <-.
  assert (0 < tof_offset size numDet tofMax det) as Hpos.
  { pose proof (pix_region_below _ _ _ _ Hlay 1 ltac:(lia)). pose proof (Hsz 1 ltac:(lia)).
    unfold tof_offset. nia. }
  assert (tof_offset size numDet tofMax det + (tofMax + 1) <= Z.of_nat (length data)) as Hend.
  { rewrite E2, Hbm. unfold tof_offset. nia. }
  unfold wp_ok, resetTOFArray, getInt. do 2 wp_step. rewrite Htm, decide_True by lia.
  wp_steps. rewrite (tp_start _ _ _ _ _ (Htofs det Hdet)), Hdata, decide_True by lia.
  destruct (zero_words_spec data (tof_offset size numDet tofMax det) (tofMax + 1))
    as (l' & Hl' & Hlen & Hrd); [lia..|].
  rewrite u32_id, Hl' by (unfold is_u32; nia). wp_steps. exists l'. split_and!; [done..|].
  intros j v Hv. unfold in_region. rewrite (layout_bounds _ _ _ _ Hlay) by done. cbn.
  rewrite Hrd, Hv. split; intros Hj; [by rewrite decide_True by lia|by rewrite decide_False by lia].
Qed.

(** ** The pixel map check *)

Definition pixel_map_cleared (s : D) (det : Z) (map : list Z) (size : Z) : D :=
  on_m_PixelMapSize (λ l, upd l det 0)
    (on_p_PixelMap (λ l, upd l det (Some (zero_bytes map size))) s).

Lemma check_entries_run (s : D) det ds map fuel : ∀ index status,
  rd (p_PixelMap s) det = Some (Some map) →
  rd (m_PixelMapSize s) det = Some (Z.of_nat (length map)) →
  0 <= index → Z.of_nat (length map) - index <= Z.of_nat fuel →
  check_entries det ds fuel index status s
  = if decide (Forall (λ v, v <= u32 ds) (drop (Z.to_nat index) map)) then (Ok status, s)
    else (Ok asynError, pixel_map_cleared s det map (Z.of_nat (length map))).
Proof.
  induction fuel as [|fuel IH]; intros index status Hmap Hsize Hi Hf.
  - cbn [check_entries]. unfold mbind, M_bind, gets. rewrite Hsize. cbn.
    rewrite decide_False, decide_True; [done|by rewrite drop_ge by lia|lia].
  - cbn [check_entries]. unfold mbind at 1, M_bind at 1, gets at 1. rewrite Hsize.
    cbn [default from_option id]. case_decide as Hlt.
    2:{ rewrite decide_True; [done|]. by rewrite drop_ge by lia. }
    assert (in_bounds map index) as Hin by (unfold in_bounds; lia).
    apply rd_Some in Hin as [v Hv].
    assert (drop (Z.to_nat index) map = v :: drop (Z.to_nat (index + 1)) map) as Hdrop.
    { unfold rd in Hv. rewrite decide_True in Hv by done.
      rewrite (drop_S map v) by done. do 2 f_equal. lia. }
    rewrite Hdrop. unfold mbind at 1, M_bind at 1, gets at 1. rewrite Hmap. cbn.
    unfold mbind at 1, M_bind at 1. cbn. rewrite Hv. unfold mbind at 1, M_bind at 1. cbn.
    unfold mbind at 1, M_bind at 1. destruct (decide (v > u32 ds)) as [Hbad|Hbad].
    + rewrite decide_False by (rewrite Forall_cons; lia). cbn.
      change (check_entries det ds fuel (index + 1) asynError
          (pixel_map_cleared s det map (Z.of_nat (length map)))
        = (Ok asynError, pixel_map_cleared s det map (Z.of_nat (length map)))).
      assert (rd (m_PixelMapSize (pixel_map_cleared s det map (Z.of_nat (length map)))) det
        = Some 0) as Hz.
      { apply rd_in_bounds in Hsize. destruct s; cbn in *. by apply rd_upd_eq. }
      destruct fuel; cbn [check_entries]; unfold mbind, M_bind, gets; rewrite Hz; cbn;
        by rewrite decide_False by lia.
    + cbn. rewrite IH by (done || lia).
      destruct (decide (Forall (λ v, v <= u32 ds) (drop (Z.to_nat (index + 1)) map))) as [Ha|Ha].
      * rewrite decide_True by (apply Forall_cons; split; [lia|done]). done.
      * rewrite decide_False by (rewrite Forall_cons; tauto). done.
Qed.

Lemma checkPixelMap_run (s : D) det map ds :
  map ≠ [] → rd (p_PixelMap s) det = Some (Some map) →
  rd (m_PixelMapSize s) det = Some (Z.of_nat (length map)) →
  getIntegerParam (params s) det ADnEDDetPixelNumSizeParam 0 = ds →
  checkPixelMap det s
  = if decide (Forall (λ v, v <= u32 ds) map) then (Ok asynSuccess, s)
    else (Ok asynError, pixel_map_cleared s det map (Z.of_nat (length map))).
Proof.
  intros Hne Hmap Hsize Hds. unfold checkPixelMap, getInt, mbind, M_bind, gets. cbn.
  rewrite Hds, Hmap, Hsize. cbn. assert (0 < length map)%nat by (destruct map; [done|cbn; lia]).
  rewrite decide_True, (check_entries_run s det ds map) by (done || lia). done.
Qed.

(** C14. [checkPixelMap] accepts a map exactly when no entry exceeds the size of
    the detector, and then changes nothing; otherwise it disables the map by
    setting its size to 0 and returns [asynError].  An entry equal to the size is
    accepted, although the counters of the detector end one below it. *)
Theorem checkPixelMap_spec (s : D) det map ds :
  map ≠ [] → rd (p_PixelMap s) det = Some (Some map) →
  rd (m_PixelMapSize s) det = Some (Z.of_nat (length map)) →
  getIntegerParam (params s) det ADnEDDetPixelNumSizeParam 0 = ds →
  checkPixelMap det s
  = if decide (Forall (λ v, v <= u32 ds) map) then (Ok asynSuccess, s)
    else (Ok asynError, pixel_map_cleared s det map (Z.of_nat (length map))).
Proof. apply checkPixelMap_run. Qed.

(** ** [clearParams] *)

(** A write the library accepts. *)
Definition accepted (w : M D asynStatus) : Prop :=
  ∀ s, ∃ l, w s = (Ok asynSuccess, on_params (λ _, l) s).

Lemma accepted_setInt a p v :
  0 <= a <= ADNED_MAX_DETS → adned_param_type p = Some asynParamInt32 →
  accepted (setInt a p v).
Proof.
  intros Ha Hp s. exists (snd (setIntegerParam (params s) a p v)). unfold setInt.
  rewrite setIntegerParam_success by (done || by apply driver_valid_addr). by destruct s.
Qed.

Lemma accepted_setDouble a p v :
  0 <= a <= ADNED_MAX_DETS → adned_param_type p = Some asynParamFloat64 →
  accepted (setDouble a p v).
Proof.
  intros Ha Hp s. exists (snd (setDoubleParam (params s) a p v)). unfold setDouble.
  rewrite setDoubleParam_success by (done || by apply driver_valid_addr). by destruct s.
Qed.

Lemma set_all_cons w ws (s s' : D) :
  w s = (Ok asynSuccess, s') → set_all (w :: ws) s = set_all ws s'.
Proof. intros Hw. unfold set_all. cbn [for_acc]. unfold mbind, M_bind. by rewrite Hw. Qed.

Lemma set_all_accepted ws (s : D) :
  Forall accepted ws → ∃ l, set_all ws s = (Ok true, on_params (λ _, l) s).
Proof.
  intros Hws. revert s. induction Hws as [|w ws Hw _ IH]; intros s.
  { exists (params s). cbn. by destruct s. }
  destruct (Hw s) as [l Hl]. rewrite (set_all_cons _ _ _ _ Hl).
  destruct (IH (on_params (λ _, l) s)) as [l' ->]. exists l'. by destruct s.
Qed.

(** The members after the turns for the channels below [n]. *)
Definition chans_cleared (n : Z) (s s' : D) : Prop :=
  ∃ l seqCounter seqID lastSeqID ts tsl,
    s' = on_params (λ _, l) (on_m_seqCounter (λ _, seqCounter) (on_m_seqID (λ _, seqID)
           (on_m_lastSeqID (λ _, lastSeqID) (on_m_TimeStamp (λ _, ts)
             (on_m_TimeStampLast (λ _, tsl) s))))) ∧
    length seqCounter = length (m_seqCounter s) ∧ length seqID = length (m_seqID s) ∧
    length lastSeqID = length (m_lastSeqID s) ∧
    ∀ chan, 0 <= chan < n → rd seqCounter chan = Some 0 ∧ rd seqID chan = Some 0 ∧
      rd lastSeqID chan = Some (u32 (-1)).

Lemma rd_upd {A} (l : list A) i j x :
  in_bounds l i → rd (upd l i x) j = if decide (j = i) then Some x else rd l j.
Proof.
  intros Hi. case_decide as E; [subst; by apply rd_upd_eq|].
  apply rd_upd_ne; [unfold in_bounds in Hi; lia|done].
Qed.

Lemma wp_clear_channel (s s1 : D) chan :
  0 <= chan < ADNED_MAX_CHANNELS → length (m_seqCounter s) = n_channels →
  length (m_seqID s) = n_channels → length (m_lastSeqID s) = n_channels →
  chans_cleared chan s s1 →
  wp_ok (clear_channel chan true) (λ ok s', ok = true ∧ chans_cleared (chan + 1) s s') s1.
Proof.
  intros Hc H1 H2 H3 (l & a & b & c & t & u & -> & Ha & Hb & Hcc & Hall).
  assert (0 <= chan <= ADNED_MAX_DETS) by (unfold ADNED_MAX_DETS, ADNED_MAX_CHANNELS in *; lia).
  assert (Z.of_nat n_channels = ADNED_MAX_CHANNELS) as Hnc by done.
  unfold wp_ok, clear_channel. wp_step. unfold wp at 1.
  set (s2 := on_params _ _).
  match goal with |- context [set_all ?ws s2] =>
    destruct (set_all_accepted ws s2) as [l' ->] end.
  { by repeat (constructor; [apply accepted_setInt|]). }
  wp_steps. split; [done|]. unfold s2. destruct s; cbn in *. unfold chans_cleared. cbn.
  do 6 eexists. split; [reflexivity|]. rewrite !length_upd. split_and!; [done..|].
  intros k Hk. rewrite !rd_upd by (unfold in_bounds; lia). case_decide; [done|].
  apply Hall. lia.
Qed.

Definition dets_cleared (n : Z) (s s' : D) : Prop :=
  ∃ l tot, s' = on_params (λ _, l) (on_m_detTotalEvents (λ _, tot) s) ∧
    length tot = length (m_detTotalEvents s) ∧
    ∀ det, 0 <= det < n → rd tot det = Some (f_of_Z 0).

Lemma wp_clear_det (s s1 : D) det :
  0 <= det <= ADNED_MAX_DETS → length (m_detTotalEvents s) = n_dets1 →
  dets_cleared det s s1 →
  wp_ok (clear_det det) (λ _ s', dets_cleared (det + 1) s s') s1.
Proof.
  intros Hd Hlen (l & tot & -> & Ht & Hall).
  assert (Z.of_nat n_dets1 = ADNED_MAX_DETS + 1) as Hn by done.
  unfold wp_ok, clear_det. wp_steps. unfold wp, setDouble. cbn.
  destruct s; cbn in *. unfold dets_cleared. cbn. do 2 eexists. split; [reflexivity|].
  rewrite length_upd. split; [done|]. intros k Hk. rewrite rd_upd by (unfold in_bounds; lia).
  case_decide; [done|]. apply Hall. lia.
Qed.

(** A driver whose tables have their sizes and whose buffer is as long as
    recorded. *)
Record tables_ok (s : D) : Prop := {
  to_seqCounter : length (m_seqCounter s) = n_channels;
  to_seqID : length (m_seqID s) = n_channels;
  to_lastSeqID : length (m_lastSeqID s) = n_channels;
  to_total : length (m_detTotalEvents s) = n_dets1;
  to_data data : p_Data s = Some data → Z.of_nat (length data) = m_bufferMaxSize s
}.

Lemma clear_data_run (s : D) :
  tables_ok s →
  clear_data s = (Ok (), on_p_Data (fmap (λ data, replicate (length data) 0)) s).
Proof.
  intros Hs. unfold clear_data, mbind, M_bind, gets. cbn.
  destruct (p_Data s) as [data|] eqn:E; [|destruct s; cbn in *; by subst].
  pose proof (to_data _ Hs data E) as Hlen. unfold zero_words. rewrite decide_True by lia.
  cbn. unfold modify. rewrite Z.add_0_l, <-Hlen, Nat2Z.id, drop_all, app_nil_r.
  destruct s; cbn in *. by subst.
Qed.

Lemma wp_clearParams (s : D) :
  tables_ok s →
  wp_ok clearParams
    (λ st s', st = asynSuccess ∧
       p_Data s' = (λ data, replicate (length data) 0) <$> p_Data s ∧
       m_pulseCounter s' = 0 ∧ m_pChargeInt s' = f_of_Z 0 ∧
       (∀ chan, 0 <= chan < ADNED_MAX_CHANNELS →
          rd (m_seqCounter s') chan = Some 0 ∧ rd (m_seqID s') chan = Some 0 ∧
          rd (m_lastSeqID s') chan = Some (u32 (-1))) ∧
       (∀ det, 0 <= det <= ADNED_MAX_DETS → rd (m_detTotalEvents s') det = Some (f_of_Z 0)) ∧
       m_det s' = m_det s ∧ m_tofMax s' = m_tofMax s ∧ m_bufferMaxSize s' = m_bufferMaxSize s) s.
Proof.
  intros Hs. pose proof Hs as [T1 T2 T3 T4 T5]. unfold wp_ok, clearParams. wp_step.
  unfold wp at 1.
  match goal with |- context [set_all ?ws s] => destruct (set_all_accepted ws s) as [l ->] end.
  { constructor; [by apply accepted_setInt|].
    by repeat (constructor; [apply accepted_setDouble|]). }
  wp_steps. unfold wp at 1. rewrite clear_data_run by (destruct s; by split). wp_step.
  set (s1 := on_p_Data _ _).
  eapply wp_mono; [apply (wp_for_acc_range 0 ADNED_MAX_CHANNELS true clear_channel
    (λ n ok s', ok = true ∧ chans_cleared n s1 s') (λ _ _, False))| |done].
  - done.
  - split; [done|]. exists l, (m_seqCounter s), (m_seqID s), (m_lastSeqID s), (m_TimeStamp s),
      (m_TimeStampLast s). unfold s1. destruct s. split_and!; try done. cbn. lia.
  - intros chan ok s' Hc [-> Hcl].
    apply wp_clear_channel; [lia|by destruct s..|done].
  - intros ok s2 [-> Hch]. wp_step.
    eapply wp_mono; [apply (wp_for_range 0 (ADNED_MAX_DETS + 1) clear_det
      (λ n s', dets_cleared n s2 s') (λ _ _, False))| |done].
    + done.
    + exists (params s2), (m_detTotalEvents s2). destruct s2. split_and!; try done. lia.
    + intros det s' Hd Hcl. apply wp_clear_det; [lia| |done].
      destruct Hch as (? & ? & ? & ? & ? & ? & -> & _). by destruct s.
    + intros [] s3 (l3 & tot & -> & _ & Htot). wp_step.
      destruct Hch as (l2 & a & b & c & t & u & -> & _ & _ & _ & Hch).
      destruct s; cbn in *. split_and!; try done.
      intros det Hdet. apply Htot. unfold ADNED_MAX_DETS in *. lia.
Qed.

(** C13. [clearParams] returns [asynSuccess] and clears everything the driver
    accumulates: the whole buffer, the pulse counter, the integrated charge, the
    sequence counters of every channel, and the event totals of every detector;
    the last sequence number of every channel is again the marker -1, so that the
    next packet is taken as the first. *)
Theorem clearParams_clears (s : D) :
  tables_ok s →
  wp_ok clearParams
    (λ st s', st = asynSuccess ∧
       p_Data s' = (λ data, replicate (length data) 0) <$> p_Data s ∧
       m_pulseCounter s' = 0 ∧ m_pChargeInt s' = f_of_Z 0 ∧
       (∀ chan, 0 <= chan < ADNED_MAX_CHANNELS →
          rd (m_seqCounter s') chan = Some 0 ∧ rd (m_seqID s') chan = Some 0 ∧
          rd (m_lastSeqID s') chan = Some (u32 (-1))) ∧
       (∀ det, 0 <= det <= ADNED_MAX_DETS → rd (m_detTotalEvents s') det = Some (f_of_Z 0)) ∧
       m_det s' = m_det s ∧ m_tofMax s' = m_tofMax s ∧ m_bufferMaxSize s' = m_bufferMaxSize s) s.
Proof. apply wp_clearParams. Qed.
End ops.

(** ** Witnesses *)

Definition sample_alloc : sample_driver :=
  Eval vm_compute in snd (allocArray calloc_always sample_ready).

Lemma sample_layout : layout sample_alloc 2 5 sample_size.
Proof.
  split.
  - done.
  - done.
  - by apply dets_1_2.
  - by vm_compute.
  - intros old. by vm_compute.
  - apply dets_1_2; split; intros old; by vm_compute.
  - apply dets_1_2; split; intros old; by vm_compute.
  - by vm_compute.
  - by vm_compute.
  - by vm_compute.
  - exists (replicate 18 0). split; by vm_compute.
Qed.

Lemma resetTOFArray_clears_witness :
  wp_ok (resetTOFArray 2)
    (λ _ s', ∃ data', s' = on_p_Data (λ _, Some data') sample_alloc ∧ length data' = 18%nat ∧
       ∀ j v, rd (replicate 18 0) j = Some v →
         (in_region (params sample_alloc) 2 (TofRegion 2) j → rd data' j = Some 0) ∧
         (¬ in_region (params sample_alloc) 2 (TofRegion 2) j → rd data' j = Some v))
    sample_alloc.
Proof.
  apply (resetTOFArray_clears sample_alloc 2 5 _ 2 (replicate 18 0) sample_layout);
    [lia|lia|reflexivity].
Defined.

(** A map for detector 2, whose size is 2: the entry 2 passes the check. *)
Definition sample_mapped : sample_driver :=
  on_p_PixelMap (λ l, upd l 2 (Some [0; 2])) (on_m_PixelMapSize (λ l, upd l 2 2) sample_alloc).

Lemma checkPixelMap_spec_witness :
  checkPixelMap 2 sample_mapped = (Ok asynSuccess, sample_mapped).
Proof.
  refine (checkPixelMap_spec sample_mapped 2 [0; 2] 2 _ _ _ _).
  - done.
  - reflexivity.
  - reflexivity.
  - vm_compute. reflexivity.
Defined.

Lemma clearParams_clears_witness :
  wp_ok clearParams
    (λ st s', st = asynSuccess ∧
       p_Data s' = Some (replicate 18 0) ∧
       m_pulseCounter s' = 0 ∧ m_pChargeInt s' = f_of_Z 0 ∧
       (∀ chan, 0 <= chan < ADNED_MAX_CHANNELS →
          rd (m_seqCounter s') chan = Some 0 ∧ rd (m_seqID s') chan = Some 0 ∧
          rd (m_lastSeqID s') chan = Some (u32 (-1))) ∧
       (∀ det, 0 <= det <= ADNED_MAX_DETS → rd (m_detTotalEvents s') det = Some (f_of_Z 0)) ∧
       m_det s' = m_det sample_alloc ∧ m_tofMax s' = m_tofMax sample_alloc ∧
       m_bufferMaxSize s' = m_bufferMaxSize sample_alloc) sample_alloc.
Proof.
  apply (clearParams_clears sample_alloc). split; [reflexivity..|].
  intros data [= <-]. reflexivity.
Defined.
