(* ===== verification/Write.v ===== *)
(** * The write handlers

    Models [ADnED::writeInt32], [writeFloat64] and [writeOctet] (ADnED.cpp),
    through which clients configure and control the driver.

    - [codes] are the acquisition states of areaDetector (ADStatus_t), which are
      not part of this repository.
    - [address] is what [getAddress] gives for the caller: a status and, when it
      is [asynSuccess], the address.
    - [base_write] is [asynNDArrayDriver::writeOctet].
    - [fs], [strtod] and [errno] are those of File.v.
    - [calloc_ok] and [mem] are the answers of [calloc] (Alloc.v). *)

From stdpp Require Import base numbers list option strings.
From Stdlib Require Import Ascii.
From S2P Require Import Prelude Float64 Params Transform File Driver Alloc.

Local Open Scope Z_scope.

Record ADStatus_t : Type := {
  ADStatusIdle : Z;
  ADStatusAcquire : Z;
  ADStatusError : Z;
  ADStatusAborted : Z
}.

(** The parameters of the base classes, which come before
    [ADNED_FIRST_DRIVER_COMMAND]. *)
Definition is_base_param (p : param) : bool :=
  match p with
  | ADStatus | ADStatusMessage | ADAcquire | ADManufacturer | ADModel | NDArrayCounter
  | NDArrayCallbacks | OtherParam _ => true
  | _ => false
  end.

Section write.
Context {L TS : Type} {PL : ParamLib param L} {TL : TimeStampLib TS}.
Context (codes : ADStatus_t) (calloc_ok : Z → Z → bool).
Local Abbreviation D := (driver L TS transform).

(** A call of a method of [p_Transform[addr]]; the pointer at index 0 is never
    set. *)
Definition with_transform {A} (addr : Z) (m : M transform A) : M D A := λ s,
  match mjoin (rd (p_Transform s) addr) with
  | None => (UB Uninitialised, s)
  | Some t =>
      let '(o, t') := m t in (o, on_p_Transform (λ l, upd l addr (Some t')) s)
  end.

Definition printTofTrans (det : Z) : M D () := with_transform det printParams.

Definition printPixelMap (det : Z) : M D () :=
  size ← gets (λ s, default 0 (rd (m_PixelMapSize s) det));
  map ← gets (λ s, mjoin (rd (p_PixelMap s) det));
  match map with
  | Some m =>
      if decide (size > 0) then
        _ ← checked OutOfBounds (if decide (size <= Z.of_nat (length m)) then Some () else None);
        mret ()
      else mret ()
  | None => mret ()
  end.

(** The end of a write: [inl] is a [return], [inr] the value to store. *)
Definition configure (adStatus value : Z) : M D (asynStatus + Z) :=
  if decide (adStatus ≠ ADStatusAcquire codes) then
    modify (on_m_dataAlloc (λ _, true)) ;; mret (inr value)
  else mret (inl asynError).

Definition limit (adStatus value max : Z) : M D (asynStatus + Z) :=
  if decide (adStatus ≠ ADStatusAcquire codes) then
    if decide (value > max) then mret (inl asynError) else mret (inr value)
  else mret (inl asynError).

Definition write_start (adStatus value : Z) : M D (asynStatus + Z) :=
  if decide (value ≠ 0) then
    if decide (adStatus = ADStatusIdle codes ∨ adStatus = ADStatusError codes ∨
               adStatus = ADStatusAborted codes) then
      clearParams ;;
      setInt 0 ADnEDPauseParam 0 ;;
      modify (on_m_startEvent (λ _, true)) ;;
      mret (inr value)
    else
      setInt 0 ADnEDStartParam 0 ;;
      mret (inl asynError)
  else mret (inr value).

Definition write_stop (adStatus value : Z) : M D (asynStatus + Z) :=
  if decide (value ≠ 0) then
    if decide (adStatus = ADStatusAcquire codes) then
      setInt 0 ADnEDPauseParam 0 ;;
      modify (on_m_stopEvent (λ _, true)) ;;
      mret (inr value)
    else
      setInt 0 ADnEDStopParam 0 ;;
      mret (inl asynError)
  else mret (inr value).

Definition write_alloc (adStatus value : Z) : M D (asynStatus + Z) :=
  if decide (adStatus ≠ ADStatusAcquire codes) then
    st ← allocArray calloc_ok;
    if decide (st ≠ asynSuccess) then
      setInt 0 ADnEDAllocSpaceStatusParam s_ADNED_ALLOC_STATUS_FAIL ;;
      setString 0 ADStatusMessage "allocArray Error" ;;
      setInt 0 ADStatus (ADStatusError codes) ;;
      mret (inl asynError)
    else mret (inr value)
  else mret (inl asynError).

(** The [if] chain over the parameter. *)
Definition write_action (function : param) (addr value adStatus : Z) : M D (asynStatus + Z) :=
  match function with
  | ADnEDResetParam => clearParams ;; mret (inr value)
  | ADnEDStartParam => write_start adStatus value
  | ADnEDStopParam => write_stop adStatus value
  | ADnEDDetPixelNumStartParam | ADnEDDetPixelNumEndParam | ADnEDDetPixelNumSizeParam
  | ADnEDTOFMaxParam => configure adStatus value
  | ADnEDAllocSpaceParam => write_alloc adStatus value
  | ADnEDNumDetParam => limit adStatus value ADNED_MAX_DETS
  | ADnEDNumChannelsParam => limit adStatus value ADNED_MAX_CHANNELS
  | ADnEDDetTOFTransPrintParam => printTofTrans addr ;; mret (inr value)
  | ADnEDDetTOFTransDebugParam =>
      with_transform addr (setDebug (bool_decide (value ≠ 0))) ;; mret (inr value)
  | ADnEDDetPixelMapPrintParam => printPixelMap addr ;; mret (inr value)
  | ADnEDDetPixelROISizeXParam => mret (inr (if decide (value <= 0) then 1 else value))
  | ADnEDDetPixelROIEnableParam =>
      (if decide (value = 1) then setInt addr ADnEDDetTOFROIEnableParam 0 ;; mret ()
       else mret ()) ;; mret (inr value)
  | ADnEDDetTOFROIEnableParam =>
      (if decide (value = 1) then setInt addr ADnEDDetPixelROIEnableParam 0 ;; mret ()
       else mret ()) ;; mret (inr value)
  | ADnEDDetTOFArrayResetParam => resetTOFArray addr ;; mret (inr value)
  | _ => mret (inr value)
  end.

(** From the transformation parameters to the end. *)
Definition write_finish (function : param) (addr value : Z) : M D asynStatus :=
  status ←
    match matchTransInt function with
    | Some transIndex =>
        r ← with_transform addr (setIntParam transIndex (u32 value));
        mret (if decide (r ≠ ADNED_TRANSFORM_OK) then asynError else asynSuccess)
    | None => mret asynSuccess
    end;
  dataAlloc ← gets m_dataAlloc;
  (if (dataAlloc : bool) then
     setInt 0 ADnEDAllocSpaceStatusParam s_ADNED_ALLOC_STATUS_REQ ;; mret ()
   else mret ()) ;;
  if decide (status ≠ asynSuccess) then mret asynError
  else setInt addr function value.

Definition writeInt32 (address : asynStatus * Z) (function : param) (value : Z)
    : M D asynStatus :=
  if decide (address.1 ≠ asynSuccess) then mret (address.1)
  else
    adStatus ← getInt 0 ADStatus 0;
    r ← write_action function (address.2) value adStatus;
    match r with
    | inl status => mret status
    | inr value => write_finish function (address.2) value
    end.

Definition writeFloat64 (address : asynStatus * Z) (function : param) (value : f64)
    : M D asynStatus :=
  if decide (address.1 ≠ asynSuccess) then mret (address.1)
  else
    status ←
      match matchTransFloat function with
      | Some transIndex =>
          r ← with_transform (address.2) (setTransDoubleParam transIndex value);
          mret (if decide (r ≠ ADNED_TRANSFORM_OK) then asynError else asynSuccess)
      | None => mret asynSuccess
      end;
    if decide (status ≠ asynSuccess) then mret asynError
    else setDouble (address.2) function value.

End write.

(** ** Files *)

Section write_files.
Context {L TS : Type} {PL : ParamLib param L} {TL : TimeStampLib TS}.
Context (mem : memory).
Context (fs : string → open_result) (strtod : list ascii → converted f64).
Context (base_write : Z → param → string → L → asynStatus * L).
Local Abbreviation D := (driver L TS transform).

(** A block of [n] zeros from the call number [k] of [calloc] in the operation, or
    NULL. *)
Definition calloc {A} (k : nat) (zero : A) (n size : Z) : option (list A) :=
  if mem k n size then Some (replicate (Z.to_nat n) zero) else None.

(** The [try] block of a transformation file; the new [errno] is returned with
    the status.  The file is read into one block and copied into another, which the
    transformation allocates. *)
Definition load_transform (addr transIndex : Z) (value : string) (errno : bool)
    : M D (asynStatus * bool) :=
  match newADnEDFile fs value errno with
  | (UB f, _) => undefined f
  | (Throw _, errno) => mret (asynError, errno)
  | (Ok file, errno) =>
      if decide (getSize file ≠ 0) then
        let arraySize := getSize file in
        let pArray := calloc 0%nat (f_of_Z 0) arraySize 8 in
        match readDataIntoDoubleArray strtod file errno pArray with
        | (UB f, _) => undefined f
        | (Throw _, r) => mret (asynError, erange r)
        | (Ok (), r) =>
            st ← with_transform addr
                   (setDoubleArray (mem 1%nat) transIndex (Some (array r)) arraySize);
            mret (if decide (st ≠ ADNED_TRANSFORM_OK) then asynError else asynSuccess, erange r)
        end
      else mret (asynSuccess, errno)
  end.

Definition set_pixel_map (addr : Z) (m : option (list Z)) : M D () :=
  modify (on_p_PixelMap (λ l, upd l addr m)).

(** The [try] block of a pixel map file: an exception frees the map and leaves
    the status as it was. *)
Definition load_pixel_map (addr : Z) (value : string) (errno : bool)
    : M D (asynStatus * bool) :=
  match newADnEDFile fs value errno with
  | (UB f, _) => undefined f
  | (Throw _, errno) => set_pixel_map addr None ;; mret (asynSuccess, errno)
  | (Ok file, errno) =>
      if decide (getSize file ≠ 0) then
        modify (on_m_PixelMapSize (λ l, upd l addr (getSize file))) ;;
        old ← gets (λ s, mjoin (rd (p_PixelMap s) addr));
        let block := match old with
                     | None => calloc 0%nat 0 (getSize file) 4
                     | Some m => Some m
                     end in
        match readDataIntoIntArray file errno block with
        | (UB f, _) => undefined f
        | (Throw _, r) => set_pixel_map addr None ;; mret (asynSuccess, erange r)
        | (Ok (), r) =>
            set_pixel_map addr (Some (array r)) ;;
            status ← checkPixelMap addr;
            (if decide (status = asynError) then set_pixel_map addr None else mret ()) ;;
            mret (status, erange r)
        end
      else mret (asynSuccess, errno)
  end.

(** The call of the base class. *)
Definition base_writeOctet (addr : Z) (function : param) (value : string) : M D asynStatus :=
  l ← gets params;
  let '(status, l') := base_write addr function value l in
  modify (on_params (λ _, l')) ;; mret status.

Definition write_file (function : param) (addr : Z) (value : string) (errno : bool)
    : M D (asynStatus * bool) :=
  match matchTransFile function with
  | Some transIndex => load_transform addr transIndex value errno
  | None =>
      if decide (function = ADnEDDetPixelMapFileParam) then
        old ← gets (λ s, mjoin (rd (p_PixelMap s) addr));
        (match old with
         | Some _ =>
             set_pixel_map addr None ;; modify (on_m_PixelMapSize (λ l, upd l addr 0))
         | None => mret ()
         end) ;;
        load_pixel_map addr value errno
      else if is_base_param function then
        status ← base_writeOctet addr function value; mret (status, errno)
      else mret (asynSuccess, errno)
  end.

(** The status, [errno], and the number of characters reported as written. *)
Definition writeOctet (address : asynStatus * Z) (function : param) (value : string)
    (nChars : Z) (errno : bool) : M D (asynStatus * bool * option Z) :=
  if decide (address.1 ≠ asynSuccess) then mret (address.1, errno, None)
  else
    '(status, errno) ← write_file function (address.2) value errno;
    if decide (status ≠ asynSuccess) then mret (asynError, errno, None)
    else
      setString (address.2) function value ;;
      l ← gets params;
      mret (callParamCallbacks (P := param) l (address.2), errno, Some nChars).
End write_files.
