(* ===== verification/WriteTheorems.v ===== *)
(** * Theorems about the write handlers: the acquisition guard, the invariants
    of the configuration, and the loading of pixel maps. *)

From stdpp Require Import base numbers list option strings.
From Stdlib Require Import Ascii.
From S2P Require Import Prelude Float64 Params Transform File FileTheorems Driver Sample Alloc.
From S2P Require Import Ops Write.

Local Open Scope Z_scope.

(** ** What the operations write *)

Section writes_only.
Context {L TS T : Type} {PL : ParamLib param L} {DL : DriverLib L} {TL : TimeStampLib TS}.
Local Abbreviation D := (driver L TS T).
Context (keep : param → bool).

(** The integer parameters of [keep] are unchanged. *)
Definition same_ints (s s' : D) : Prop :=
  ∀ a p old, keep p = true →
    getIntegerParam (params s') a p old = getIntegerParam (params s) a p old.

#[global] Instance same_ints_preorder : PreOrder same_ints.
Proof.
  split; [by intros s a p old _|].
  intros s1 s2 s3 H12 H23 a p old Hp. by rewrite H23, H12.
Qed.

Lemma frames_params {A} (m : M D A) : (∀ s, params (m s).2 = params s) → stable same_ints m.
Proof. intros Hm. apply stable_pure. intros s a p old _. by rewrite Hm. Qed.

Lemma frames_setInt a p v : keep p = false → stable same_ints (setInt a p v).
Proof.
  intros Hk s x s' [= _ <-] a' p' old Hp. destruct s; cbn.
  apply get_set_int_ne. intros [= -> ->]. congruence.
Qed.

(** The parameters of [keep] are of integer type. *)
Context (keep_int : ∀ p, keep p = true → adned_param_type p = Some asynParamInt32).

Lemma frames_setDouble a p v : stable same_ints (setDouble a p v).
Proof.
  intros s x s' [= _ <-] a' p' old Hp. destruct s; cbn.
  by apply get_int_set_double_typed, keep_int.
Qed.

Lemma frames_setString a p v : stable same_ints (setString a p v).
Proof.
  intros s x s' [= _ <-] a' p' old Hp. destruct s; cbn.
  by apply get_int_set_string_typed, keep_int.
Qed.
End writes_only.

(** [stable_set_all] takes a list of writes apart. *)
Lemma stable_set_all {L TS T} {PL : ParamLib param L} (R : driver L TS T → driver L TS T → Prop)
    `{!PreOrder R} ws : Forall (stable R) ws → stable R (set_all ws).
Proof.
  unfold set_all. generalize true. induction ws as [|w ws IH]; intros b Hws; cbn.
  { by apply stable_ret. }
  apply Forall_cons in Hws as [Hw Hws]. apply stable_bind; [done| |intros; by apply IH].
  apply stable_bind; [done..|]. intros. by apply stable_ret.
Qed.

Ltac frames_leaf :=
  idtac; lazymatch goal with
  | |- stable _ (set_all _) => apply stable_set_all; [exact _|];
      repeat first [apply Forall_nil_2 | apply Forall_cons_2; [frames_leaf|]]
  | |- stable _ (setInt _ _ _) => apply frames_setInt; reflexivity
  | |- stable _ (setDouble _ _ _) => apply frames_setDouble; by intros []
  | |- stable _ (setString _ _ _) => apply frames_setString; by intros []
  | |- stable _ (getInt _ _ _) => apply frames_params; reflexivity
  | |- stable _ (modify _) => apply frames_params; intros []; reflexivity
  end.

Ltac frames_split := stable_split frames_leaf.

(** The parameters the invariant of the configuration is about. *)
Definition guarded (p : param) : bool :=
  match p with
  | ADnEDDetTOFROIEnableParam | ADnEDDetPixelROIEnableParam | ADnEDDetPixelROISizeXParam
  | ADnEDNumDetParam | ADnEDNumChannelsParam => true
  | _ => false
  end.

Section invariants.
Context {L TS : Type} {PL : ParamLib param L} {DL : DriverLib L} {TL : TimeStampLib TS}.
Context (codes : ADStatus_t) (calloc_ok : Z → Z → bool).
Local Abbreviation D := (driver L TS transform).

Lemma frames_clear_data : stable (same_ints guarded) (clear_data : M D _).
Proof. unfold clear_data. frames_split. Qed.

Lemma frames_clearParams : stable (same_ints guarded) (clearParams : M D _).
Proof. unfold clearParams, clear_data, clear_channel, clear_det. frames_split. Qed.

Lemma frames_allocArray : stable (same_ints guarded) (allocArray calloc_ok : M D _).
Proof.
  unfold allocArray, alloc_det, det_size, publish_pix, alloc_tof, alloc_buffer. frames_split.
Qed.

Lemma frames_resetTOFArray det : stable (same_ints guarded) (resetTOFArray det : M D _).
Proof. unfold resetTOFArray. frames_split. Qed.

Lemma frames_with_transform {A} addr (m : M transform A) :
  stable (same_ints guarded) (with_transform addr m : M D A).
Proof.
  apply frames_params. intros s. unfold with_transform. destruct (mjoin _); [|done].
  destruct (m _). by destruct s.
Qed.

Lemma frames_printPixelMap addr : stable (same_ints guarded) (printPixelMap addr : M D _).
Proof. unfold printPixelMap. frames_split. Qed.

(** ** The invariant of the configuration *)

Record config_ok (l : L) : Prop := {
  cfg_dets : getIntegerParam l 0 ADnEDNumDetParam 0 <= ADNED_MAX_DETS;
  cfg_chans : getIntegerParam l 0 ADnEDNumChannelsParam 0 <= ADNED_MAX_CHANNELS;
  cfg_roi det : 0 <= det <= ADNED_MAX_DETS →
    0 <= getIntegerParam l det ADnEDDetPixelROISizeXParam 0;
  cfg_filters det : 0 <= det <= ADNED_MAX_DETS →
    ¬ (getIntegerParam l det ADnEDDetTOFROIEnableParam 0 = 1 ∧
       getIntegerParam l det ADnEDDetPixelROIEnableParam 0 = 1)
}.

Definition agree_guarded (l l' : L) : Prop :=
  ∀ a p old, guarded p = true → getIntegerParam l' a p old = getIntegerParam l a p old.

Lemma config_ok_agree l l' : agree_guarded l l' → config_ok l → config_ok l'.
Proof.
  intros Hag [H1 H2 H3 H4]. split; intros; rewrite ?Hag by done; auto.
Qed.

Lemma frames_write_action f addr v st :
  f ≠ ADnEDDetTOFROIEnableParam → f ≠ ADnEDDetPixelROIEnableParam →
  stable (same_ints guarded) (write_action codes calloc_ok f addr v st : M D _).
Proof.
  intros H1 H2. destruct f; try done; cbn [write_action];
    unfold write_start, write_stop, write_alloc, configure, limit, printTofTrans;
    frames_split; auto using frames_clearParams, frames_allocArray, frames_resetTOFArray,
      frames_with_transform, frames_printPixelMap.
Qed.

Lemma frames_write_finish f addr v :
  guarded f = false → stable (same_ints guarded) (write_finish f addr v : M D _).
Proof.
  intros Hf. unfold write_finish.
  apply stable_bind; [exact _|frames_split; apply frames_with_transform|].
  frames_split. by apply frames_setInt.
Qed.

(** The end of the write of a guarded parameter stores the value. *)
Lemma write_finish_guarded f addr v (s s' : D) st :
  guarded f = true → write_finish f addr v s = (Ok st, s') →
  ∃ l, agree_guarded (params s) l ∧ params s' = snd (setIntegerParam l addr f v).
Proof.
  intros Hf. assert (matchTransInt f = None) as Hm by (by destruct f).
  unfold write_finish, mbind, M_bind, gets. rewrite Hm. cbn.
  destruct (m_dataAlloc s); cbn; intros [= _ <-]; destruct s; cbn; eexists; (split; [|reflexivity]).
  - intros a p old Hp. apply get_set_int_ne. intros [= -> ->]. by destruct f.
  - done.
Qed.

Lemma config_ok_set l l1 addr f v :
  config_ok l → agree_guarded l l1 → 0 <= addr <= ADNED_MAX_DETS →
  adned_param_type f = Some asynParamInt32 →
  (f = ADnEDNumDetParam → v <= ADNED_MAX_DETS) →
  (f = ADnEDNumChannelsParam → v <= ADNED_MAX_CHANNELS) →
  (f = ADnEDDetPixelROISizeXParam → 0 <= v) →
  (f = ADnEDDetTOFROIEnableParam → v = 1 →
     getIntegerParam l1 addr ADnEDDetPixelROIEnableParam 0 ≠ 1) →
  (f = ADnEDDetPixelROIEnableParam → v = 1 →
     getIntegerParam l1 addr ADnEDDetTOFROIEnableParam 0 ≠ 1) →
  config_ok (snd (setIntegerParam l1 addr f v)).
Proof.
  intros Hl Hag Ha Hf H1 H2 H3 H4 H5. pose proof (config_ok_agree _ _ Hag Hl) as [C1 C2 C3 C4].
  split.
  - rewrite driver_get_set_int by done. case_decide as E; [|done]. injection E as _ <-. auto.
  - rewrite driver_get_set_int by done. case_decide as E; [|done]. injection E as _ <-. auto.
  - intros det Hd. rewrite driver_get_set_int by done. case_decide as E; [|auto].
    injection E as _ <-. auto.
  - intros det Hd [E1 E2]. specialize (C4 det Hd).
    rewrite driver_get_set_int in E1, E2 by done.
    destruct (decide ((det, ADnEDDetTOFROIEnableParam) = (addr, f))) as [E|E];
      destruct (decide ((det, ADnEDDetPixelROIEnableParam) = (addr, f))) as [E'|E'];
      simplify_eq; [by apply H4|by apply H5|tauto].
Qed.

Lemma config_ok_frames {A} (m : M D A) s x s' :
  stable (same_ints guarded) m → m s = (Ok x, s') → config_ok (params s) → config_ok (params s').
Proof. intros Hm E. apply config_ok_agree. intros a p old Hp. by apply (Hm _ _ _ E). Qed.

(** Enabling a filter first disables the other one. *)
Lemma config_ok_filter s s' addr f other v st :
  (f, other) = (ADnEDDetTOFROIEnableParam, ADnEDDetPixelROIEnableParam) ∨
  (f, other) = (ADnEDDetPixelROIEnableParam, ADnEDDetTOFROIEnableParam) →
  0 <= addr <= ADNED_MAX_DETS → config_ok (params s) →
  ((if decide (v = 1) then setInt addr other 0 ;; mret () else mret ()) ;;
   write_finish f addr v) s = (Ok st, s') →
  config_ok (params (s' : D)).
Proof.
  intros Hfo Ha Hc. unfold mbind at 1, M_bind at 1. set (s1 := if decide (v = 1)
    then on_params (λ l, snd (setIntegerParam l addr other 0)) s else s).
  replace ((if decide (v = 1) then setInt addr other 0 ;; mret () else mret ()) s)
    with (Ok (), s1) by (unfold s1; by case_decide).
  intros E. assert (config_ok (params s1)) as Hc1.
  { unfold s1. case_decide; [|done]. destruct s; cbn in *.
    eapply config_ok_set; try done; destruct Hfo; naive_solver. }
  apply write_finish_guarded in E as (l & Hag & ->); [|destruct Hfo; naive_solver].
  assert (v = 1 → getIntegerParam l addr other 0 = 0) as Hother.
  { intros Hv. rewrite Hag by (destruct Hfo; naive_solver). unfold s1.
    rewrite decide_True by done. destruct s; cbn.
    rewrite driver_get_set_int, decide_True by (destruct Hfo; naive_solver). done. }
  eapply config_ok_set; try done; destruct Hfo as [[= -> ->]|[= -> ->]]; try done;
    intros _ Hv; rewrite (Hother Hv); done.
Qed.

Lemma writeInt32_config_ok addr f v (s s' : D) st :
  0 <= addr <= ADNED_MAX_DETS → config_ok (params s) →
  writeInt32 codes calloc_ok (asynSuccess, addr) f v s = (Ok st, s') → config_ok (params s').
Proof.
  intros Ha Hc. unfold writeInt32. cbn [fst snd]. rewrite decide_False by tauto.
  unfold mbind at 1, M_bind at 1, getInt at 1, gets at 1.
  destruct (decide (f = ADnEDDetTOFROIEnableParam)) as [->|H1].
  { cbn [write_action]. intros E. eapply (config_ok_filter s s' addr _ _ v); [by left|done|done|].
    destruct (decide (v = 1)); exact E. }
  destruct (decide (f = ADnEDDetPixelROIEnableParam)) as [->|H2].
  { cbn [write_action]. intros E. eapply (config_ok_filter s s' addr _ _ v); [by right|done|done|].
    destruct (decide (v = 1)); exact E. }
  set (adStatus := getIntegerParam _ _ _ _). unfold mbind, M_bind.
  destruct (write_action codes calloc_ok f addr v adStatus s) as [[r|e|u] s1] eqn:E1; [|done..].
  pose proof (config_ok_frames _ _ _ _ (frames_write_action f addr v adStatus H1 H2) E1 Hc) as Hc1.
  destruct r as [st'|v']; [by intros [= _ <-]|]. intros E2.
  destruct (guarded f) eqn:Hg.
  2:{ by eapply config_ok_frames; [apply (frames_write_finish f addr v')|exact E2|]. }
  apply write_finish_guarded in E2 as (l & Hag & ->); [|done].
  assert (f = ADnEDDetPixelROISizeXParam ∨ f = ADnEDNumDetParam ∨ f = ADnEDNumChannelsParam)
    as Hf by (destruct f; naive_solver).
  eapply config_ok_set; try done.
  - by destruct Hf as [-> |[-> | ->]].
  - intros ->. cbn in E1. unfold limit in E1. repeat case_decide; try done.
    injection E1 as -> _. lia.
  - intros ->. cbn in E1. unfold limit in E1. repeat case_decide; try done.
    injection E1 as -> _. lia.
  - intros ->. cbn in E1. injection E1 as <- _. case_decide; lia.
Qed.

(** A history of writes of integers; their statuses are ignored. *)
Definition write_all (ws : list (Z * param * Z)) : M D () :=
  for_ ws (λ '(addr, f, v), writeInt32 codes calloc_ok (asynSuccess, addr) f v ;; mret ()).

(** Invariant of the configuration: no history of integer writes, to any
    parameters with any values, ends in more detectors or channels than the
    driver has tables for, in a negative region-of-interest width, or in a
    detector with both its time-of-flight filter and its pixel filter set to 1. *)
Lemma config_ok_invariant ws (s s' : D) r :
  Forall (λ w, 0 <= w.1.1 <= ADNED_MAX_DETS) ws → config_ok (params s) →
  write_all ws s = (Ok r, s') → config_ok (params s').
Proof.
  intros Hws. revert s. induction Hws as [|[[addr f] v] ws Ha _ IH]; intros s Hc.
  { by intros [= _ <-]. }
  unfold write_all. cbn [for_]. unfold mbind, M_bind.
  destruct (writeInt32 codes calloc_ok (asynSuccess, addr) f v s) as [[st|e|u] s1] eqn:E; [|done..].
  cbn. apply IH. by eapply writeInt32_config_ok.
Qed.

(** ** The acquisition guard *)

(** The parameters that may not be written during acquisition. *)
Definition is_setup_param (p : param) : bool :=
  match p with
  | ADnEDDetPixelNumStartParam | ADnEDDetPixelNumEndParam | ADnEDDetPixelNumSizeParam
  | ADnEDTOFMaxParam | ADnEDAllocSpaceParam | ADnEDNumDetParam | ADnEDNumChannelsParam => true
  | _ => false
  end.

Lemma write_setup_frozen addr f v (s : D) :
  is_setup_param f = true →
  getIntegerParam (params s) 0 ADStatus 0 = ADStatusAcquire codes →
  writeInt32 codes calloc_ok (asynSuccess, addr) f v s = (Ok asynError, s).
Proof.
  intros Hf Hst. unfold writeInt32. cbn [fst snd]. rewrite decide_False by tauto.
  unfold mbind, M_bind, getInt, gets. rewrite Hst.
  destruct f; try done; cbn [write_action]; unfold configure, limit, write_alloc;
    by rewrite decide_False by tauto.
Qed.

(** C24. During acquisition the setup is frozen: a write to a pixel range, a
    detector size, TOF_MAX, the allocation command, the number of detectors or the
    number of channels returns [asynError] and leaves the whole driver state as it
    was, the buffer included. *)
Theorem writeInt32_frozen addr f v (s : D) :
  is_setup_param f = true →
  getIntegerParam (params s) 0 ADStatus 0 = ADStatusAcquire codes →
  writeInt32 codes calloc_ok (asynSuccess, addr) f v s = (Ok asynError, s).
Proof. apply write_setup_frozen. Qed.

(** The library when the value is about to be stored. *)
Definition request_alloc (s : D) : L :=
  if m_dataAlloc s then
    snd (setIntegerParam (params s) 0 ADnEDAllocSpaceStatusParam s_ADNED_ALLOC_STATUS_REQ)
  else params s.

Lemma write_finish_run f addr v (s : D) :
  matchTransInt f = None →
  write_finish f addr v s
  = (Ok (fst (setIntegerParam (request_alloc s) addr f v)),
     on_params (λ _, snd (setIntegerParam (request_alloc s) addr f v)) s).
Proof.
  intros Hf. unfold write_finish, request_alloc, mbind, M_bind, gets. rewrite Hf. cbn.
  destruct (m_dataAlloc s); cbn; destruct s; done.
Qed.

(** Starting: written while the driver is idle, aborted or in error, START
    clears the accumulated data, releases a pause, signals the event task and
    returns [asynSuccess]; in any other state it returns [asynError] and neither
    clears data nor signals the task. *)
Lemma writeInt32_start (s : D) v :
  tables_ok s → v ≠ 0 →
  wp_ok (writeInt32 codes calloc_ok (asynSuccess, 0) ADnEDStartParam v)
    (λ st s',
       let adStatus := getIntegerParam (params s) 0 ADStatus 0 in
       if decide (adStatus = ADStatusIdle codes ∨ adStatus = ADStatusError codes ∨
                  adStatus = ADStatusAborted codes) then
         st = asynSuccess ∧ m_startEvent s' = true ∧ int_is (params s') 0 ADnEDPauseParam 0 ∧
         p_Data s' = (λ data, replicate (length data) 0) <$> p_Data s ∧ m_pulseCounter s' = 0
       else
         st = asynError ∧ m_startEvent s' = m_startEvent s ∧ p_Data s' = p_Data s ∧
         m_pulseCounter s' = m_pulseCounter s) s.
Proof.
  intros Hs Hv. unfold wp_ok, writeInt32. cbn [fst snd]. rewrite decide_False by tauto.
  unfold getInt. do 3 wp_step. cbn [write_action]. unfold write_start.
  rewrite (decide_True (P := v ≠ 0)) by done. case_decide.
  - wp_step. eapply wp_mono; [by apply wp_clearParams| |done].
    intros st s1 (_ & Hd & Hp & _). wp_step. apply wp_setInt. wp_steps.
    unfold wp. rewrite write_finish_run by done. unfold request_alloc. destruct s1; cbn in *.
    rewrite setIntegerParam_success by (done || by apply driver_valid_addr). split_and!; try done.
    intros old. destruct m_dataAlloc; by params_simpl.
  - wp_step. apply wp_setInt. wp_steps. by destruct s.
Qed.
End invariants.

(** ** What the other two handlers change *)

(** A relation that the members a file changes respect is respected by the
    handlers that load files. *)
Section octet_frames.
Context {L TS : Type} {PL : ParamLib param L} {TL : TimeStampLib TS}.
Context (mem : memory) (fs : string → open_result).
Context (strtod : list ascii → converted f64).
Context (base_write : Z → param → string → L → asynStatus * L).
Local Abbreviation D := (driver L TS transform).
Context (R : D → D → Prop) `{!PreOrder R}.
Hypothesis on_map : ∀ g s, R s (on_p_PixelMap g s).
Hypothesis on_size : ∀ g s, R s (on_m_PixelMapSize g s).
Hypothesis on_transform : ∀ A addr (m : M transform A), stable R (with_transform addr m).
Hypothesis on_base : ∀ addr f v, stable R (base_writeOctet base_write addr f v).
Hypothesis on_string : ∀ a p v, stable R (setString a p v).
Hypothesis on_double : ∀ a p v, stable R (setDouble a p v).

Ltac octet_leaf :=
  idtac; lazymatch goal with
  | |- stable _ (modify (on_p_PixelMap _)) => apply stable_modify, on_map
  | |- stable _ (modify (on_m_PixelMapSize _)) => apply stable_modify, on_size
  | |- stable _ (set_pixel_map _ _) => apply stable_modify; intros; apply on_map
  | |- stable _ (with_transform _ _) => apply on_transform
  | |- stable _ (base_writeOctet _ _ _ _) => apply on_base
  | |- stable _ (setString _ _ _) => apply on_string
  | |- stable _ (setDouble _ _ _) => apply on_double
  end.

Lemma stable_check_entries det ds fuel index status :
  stable R (check_entries det ds fuel index status).
Proof.
  revert index status. induction fuel as [|fuel IH]; intros; cbn [check_entries];
    stable_split ltac:(idtac; first [apply IH | octet_leaf]).
Qed.

Lemma stable_checkPixelMap det : stable R (checkPixelMap det).
Proof.
  unfold checkPixelMap, getInt. stable_split ltac:(idtac; apply stable_check_entries).
Qed.

Lemma stable_writeOctet address f v n errno :
  stable R (writeOctet mem fs strtod base_write address f v n errno).
Proof.
  unfold writeOctet, write_file, load_transform, load_pixel_map.
  stable_split ltac:(idtac; first [apply stable_checkPixelMap | octet_leaf]).
Qed.

Lemma stable_writeFloat64 address f v : stable R (writeFloat64 address f v).
Proof. unfold writeFloat64. stable_split octet_leaf. Qed.
End octet_frames.

(** What the driver relies on of the base class: a string for one of the base
    parameters leaves the integers and the doubles of the driver, and the acquisition
    state, alone. *)
Definition driver_int (p : param) : bool :=
  negb (is_base_param p) || bool_decide (p = ADStatus).

Record base_ok {L} {PL : ParamLib param L}
    (base_write : Z → param → string → L → asynStatus * L) : Prop := {
  base_int addr f v l a p old :
    driver_int p = true → adned_param_type p = Some asynParamInt32 →
    getIntegerParam (snd (base_write addr f v l)) a p old = getIntegerParam l a p old;
  base_double addr f v l a p old :
    adned_param_type p = Some asynParamFloat64 →
    getDoubleParam (snd (base_write addr f v l)) a p old = getDoubleParam l a p old
}.

Section octet_ints.
Context {L TS : Type} {PL : ParamLib param L} {DL : DriverLib L} {TL : TimeStampLib TS}.
Context (mem : memory) (fs : string → open_result).
Context (strtod : list ascii → converted f64).
Context (base_write : Z → param → string → L → asynStatus * L) (Hbase : base_ok base_write).
Local Abbreviation D := (driver L TS transform).

Lemma frames_writeOctet address f v n errno :
  stable (same_ints guarded) (writeOctet mem fs strtod base_write address f v n errno : M D _).
Proof.
  apply stable_writeOctet; [exact _|by intros ? []..|intros; apply frames_with_transform| |].
  - intros addr f' v' s st s' Hrun a p old Hp. unfold base_writeOctet, mbind, M_bind, gets in Hrun.
    destruct (base_write addr f' v' (params s)) as [st' l'] eqn:E. injection Hrun as _ <-.
    replace l' with (snd (base_write addr f' v' (params s))) by (by rewrite E).
    destruct s. apply Hbase; by destruct p.
  - intros. apply frames_setString. by intros [].
Qed.

Lemma frames_writeFloat64 address f v :
  stable (same_ints guarded) (writeFloat64 address f v : M D _).
Proof.
  apply stable_writeFloat64; [exact _|intros; apply frames_with_transform|].
  intros. apply frames_setDouble. by intros [].
Qed.
End octet_ints.

(** ** Pixel maps *)

Section pixel_maps.
Context {L TS : Type} {PL : ParamLib param L} {DL : DriverLib L} {TL : TimeStampLib TS}.
Context (mem : memory) (fs : string → open_result).
Context (strtod : list ascii → converted f64).
Context (base_write : Z → param → string → L → asynStatus * L).
Local Abbreviation D := (driver L TS transform).
Local Abbreviation write :=
  (writeOctet mem fs strtod base_write (L := L) (TS := TS)).

(** A map that is in use has the recorded size. *)
Definition pixel_maps_ok (s : D) : Prop :=
  length (p_PixelMap s) = n_dets1 ∧ length (m_PixelMapSize s) = n_dets1 ∧
  ∀ det m, rd (p_PixelMap s) det = Some (Some m) →
    default 0 (rd (m_PixelMapSize s) det) > 0 →
    rd (m_PixelMapSize s) det = Some (Z.of_nat (length m)).

Lemma wp_setString a p v (Q : asynStatus → D → Prop) E s :
  Q (fst (setStringParam (params s) a p v))
    (on_params (λ l, snd (setStringParam l a p v)) s) →
  wp (setString a p v) Q E s.
Proof. done. Qed.

(** The driver with the map of a detector replaced. *)
Definition with_map (s : D) (det : Z) (m : option (list Z)) (size : Z) : D :=
  on_m_PixelMapSize (λ l, upd l det size) (on_p_PixelMap (λ l, upd l det m) s).

Lemma with_map_with_map s det m size m' size' :
  with_map (with_map s det m size) det m' size' = with_map s det m' size'.
Proof. unfold with_map. destruct s; cbn. by rewrite !upd_upd. Qed.

Lemma with_map_rd s det m size :
  0 <= det <= ADNED_MAX_DETS → length (p_PixelMap s) = n_dets1 →
  length (m_PixelMapSize s) = n_dets1 →
  rd (p_PixelMap (with_map s det m size)) det = Some m ∧
  rd (m_PixelMapSize (with_map s det m size)) det = Some size ∧
  params (with_map s det m size) = params s.
Proof.
  intros Hd H1 H2. assert (Z.of_nat n_dets1 = ADNED_MAX_DETS + 1) by done.
  destruct s; cbn in *. rewrite !rd_upd_eq by (unfold in_bounds; lia). done.
Qed.

Lemma upd_self {A} (l : list A) i x : rd l i = Some x → upd l i x = l.
Proof. unfold rd, upd. case_decide; [|done]. apply list_insert_id. Qed.

(** Every state is that with its own entries. *)
Lemma with_map_self s det :
  0 <= det <= ADNED_MAX_DETS → length (p_PixelMap s) = n_dets1 →
  length (m_PixelMapSize s) = n_dets1 →
  ∃ m size, s = with_map s det m size ∧ rd (p_PixelMap s) det = Some m ∧
    rd (m_PixelMapSize s) det = Some size.
Proof.
  intros Hd H1 H2. assert (Z.of_nat n_dets1 = ADNED_MAX_DETS + 1) by done.
  assert (is_Some (rd (p_PixelMap s) det)) as [m Hm] by (apply rd_Some; unfold in_bounds; lia).
  assert (is_Some (rd (m_PixelMapSize s) det)) as [size Hs]
    by (apply rd_Some; unfold in_bounds; lia).
  exists m, size. split; [|done]. unfold with_map. destruct s; cbn in *. by rewrite !upd_self.
Qed.

(** Before a pixel map file is opened the old map is gone. *)
Lemma write_map_file s det value errno :
  0 <= det <= ADNED_MAX_DETS → length (p_PixelMap s) = n_dets1 →
  length (m_PixelMapSize s) = n_dets1 →
  ∃ size, (size = 0 ∨ rd (m_PixelMapSize s) det = Some size) ∧
    write_file mem fs strtod base_write ADnEDDetPixelMapFileParam det value errno s
    = load_pixel_map mem fs det value errno (with_map s det None size).
Proof.
  intros Hd H1 H2. destruct (with_map_self s det Hd H1 H2) as (m & size & Hs & Hm & Hsz).
  unfold write_file. change (matchTransFile ADnEDDetPixelMapFileParam) with (@None Z). cbv iota.
  rewrite decide_True by done. unfold mbind at 1, M_bind at 1, gets at 1. rewrite Hm.
  destruct m as [m|]; cbn.
  - exists 0. split; [by left|done].
  - exists size. rewrite <-Hs. split; [by right|done].
Qed.

(** C26. Loading a pixel map file: writing the name of a readable file that lists
    entries not above the size of the detector stores, when the memory for them can
    be had, exactly those entries as the map of the detector, with their number,
    and returns [asynSuccess]. *)
Theorem writeOctet_loads_map (s : D) det name vs ds nChars :
  0 <= det <= ADNED_MAX_DETS → length (p_PixelMap s) = n_dets1 →
  length (m_PixelMapSize s) = n_dets1 →
  (0 < String.length name < 255)%nat → fs name = Opened (print_file vs) →
  vs ≠ [] → Forall is_u32 vs → is_u32 (Z.of_nat (length vs)) →
  (∀ n, mem 0%nat n 4 = true) →
  getIntegerParam (params s) det ADnEDDetPixelNumSizeParam 0 = ds → Forall (λ v, v <= u32 ds) vs →
  wp_ok (write (asynSuccess, det) ADnEDDetPixelMapFileParam name nChars false)
    (λ r s', r = (asynSuccess, false, Some nChars) ∧
       rd (p_PixelMap s') det = Some (Some vs) ∧
       rd (m_PixelMapSize s') det = Some (Z.of_nat (length vs))) s.
Proof.
  intros Hd H1 H2 Hname Hfs Hne Hvs Hlen Hc Hds Hle.
  destruct (int_file_read fs name vs Hname Hfs Hvs Hlen) as (f & Hnew & Hsize & Hread).
  destruct (write_map_file s det name false Hd H1 H2) as (size & _ & Hw).
  destruct (with_map_rd s det (Some vs) (Z.of_nat (length vs)) Hd H1 H2) as (R1 & R2 & R3).
  assert (0 < length vs)%nat by (destruct vs; [done|cbn; lia]).
  assert (load_pixel_map mem fs det name false (with_map s det None size)
    = (Ok (asynSuccess, false), with_map s det (Some vs) (Z.of_nat (length vs)))) as Hload.
  { unfold load_pixel_map. rewrite Hnew, Hsize, decide_True by lia.
    unfold mbind at 1, M_bind at 1, modify at 1. cbn.
    destruct (with_map_rd s det None size Hd H1 H2) as (Rn & _ & _).
    assert (rd (p_PixelMap (on_m_PixelMapSize (λ l, upd l det (Z.of_nat (length vs)))
      (with_map s det None size))) det = Some None) as Rn' by (destruct s; done).
    unfold mbind at 1, M_bind at 1, gets at 1. rewrite Rn'. cbn [mjoin option_join id].
    unfold calloc. rewrite Hc, Nat2Z.id, Hread. cbn [array erange].
    unfold mbind at 1, M_bind at 1, set_pixel_map at 1, modify at 1.
    replace (on_p_PixelMap _ _) with (with_map s det (Some vs) (Z.of_nat (length vs)))
      by (unfold with_map; destruct s; cbn; by rewrite !upd_upd).
    unfold mbind at 1, M_bind at 1.
    rewrite (checkPixelMap_run _ det vs ds) by (rewrite ?R3; done).
    rewrite decide_True by done. done. }
  unfold wp_ok, writeOctet. cbn [fst snd]. rewrite decide_False by tauto. wp_step.
  unfold wp at 1. rewrite Hw, Hload. rewrite decide_False by tauto.
  wp_step. apply wp_setString. wp_steps. rewrite callParamCallbacks_success by by apply driver_valid_addr.
  split; [done|]. by destruct s.
Qed.

(** C27. A pixel map file that cannot be read is reported as success: when the
    constructor of ADnEDFile throws, [writeOctet] frees the map of the detector,
    stores the file name and returns the status of the callbacks; no error
    reaches the client. *)
Theorem writeOctet_map_failure_silent (s : D) det name nChars errno errno' e :
  0 <= det <= ADNED_MAX_DETS → length (p_PixelMap s) = n_dets1 →
  length (m_PixelMapSize s) = n_dets1 →
  newADnEDFile fs name errno = (Throw e, errno') →
  wp_ok (write (asynSuccess, det) ADnEDDetPixelMapFileParam name nChars errno)
    (λ r s', r = (asynSuccess, errno', Some nChars) ∧ rd (p_PixelMap s') det = Some None) s.
Proof.
  intros Hd H1 H2 Hnew. destruct (write_map_file s det name errno Hd H1 H2) as (size & _ & Hw).
  destruct (with_map_rd s det None size Hd H1 H2) as (R1 & _ & _).
  unfold wp_ok, writeOctet. cbn [fst snd]. rewrite decide_False by tauto. wp_step.
  unfold wp at 1. rewrite Hw. unfold load_pixel_map. rewrite Hnew.
  unfold set_pixel_map, mbind at 1, M_bind at 1, modify. cbn beta iota.
  unfold mret at 1, M_ret at 1. rewrite decide_False by tauto.
  wp_step. apply wp_setString. wp_steps.
  rewrite callParamCallbacks_success by by apply driver_valid_addr. split; [done|].
  assert (Z.of_nat n_dets1 = ADNED_MAX_DETS + 1) by done. destruct s; cbn in *.
  apply rd_upd_eq. apply in_bounds_upd. unfold in_bounds. lia.
Qed.

(** ** Safety of loading *)

(** No file holds a NUL character. *)
Definition text_files : Prop := ∀ name stream, fs name = Opened stream → nul ∉ stream.

Lemma newADnEDFile_safe name errno :
  text_files → (String.length name < 255)%nat →
  match newADnEDFile fs name errno with
  | (Ok f, _) => is_u32 (getSize f) ∧ (getSize f ≠ 0 → ∃ st, p_FILE f = Some st ∧ nul ∉ st)
  | (Throw _, _) => True
  | (UB _, _) => False
  end.
Proof.
  clear strtod base_write. intros Htext Hname. unfold newADnEDFile. case_decide; [by split|].
  rewrite decide_False by (unfold ADNEDFILE_MAX_STRING; lia).
  destruct (fs name) as [| |st] eqn:Hfs; [done..|]. apply Htext in Hfs.
  assert (∀ line rest, default ([], st) (fgets (ADNEDFILE_MAX_STRING - 1) st) = (line, rest) →
    nul ∉ rest) as Hrest.
  { intros line rest E. destruct st as [|c st]; [by injection E as <- <-|].
    destruct (fgets_some (ADNEDFILE_MAX_STRING - 1) (c :: st)) as (l & r & E' & Hs & _); [done..|].
    rewrite E' in E. injection E as <- <-. rewrite Hs in Hfs. rewrite not_elem_of_app in Hfs. tauto. }
  destruct (default _ _) as [line rest]. specialize (Hrest line rest eq_refl).
  unfold mbind, M_bind, modify, gets. cbn. destruct (negb _ && _); [|done]. cbn.
  split; [apply u32_range|]. intros _. by exists rest.
Qed.

Lemma newADnEDFile_size name errno :
  match newADnEDFile fs name errno with (Ok f, _) => is_u32 (getSize f) | _ => True end.
Proof.
  unfold newADnEDFile. case_decide; [done|]. case_decide; [done|].
  destruct (fs name) as [| |st]; [done..|]. destruct (default _ _) as [line rest].
  unfold mbind, M_bind, modify, gets. cbn. destruct (negb _ && _); [|done]. apply u32_range.
Qed.

Lemma readData_outcome {A} (conv : list ascii → converted A) what f errno a :
  (∃ st, p_FILE f = Some st ∧ nul ∉ st) → (∀ b, a = Some b → getSize f <= Z.of_nat (length b)) →
  match readData conv what f errno a with
  | (Ok _, r) => ∃ b, a = Some b ∧ length (array r) = length b
  | (Throw _, _) => True
  | (UB _, _) => False
  end.
Proof.
  intros (st & Hf & Hn) Ha. unfold readData. rewrite Hf. destruct a as [b|]; [|done].
  pose proof (wp_read_loop conv what (m_Size f) (length b) (S (length st)) 0
    (Reading st errno b) Hn ltac:(lia) (Ha b eq_refl) eq_refl) as Hw.
  unfold wp in Hw. unfold mbind, M_bind.
  destruct (read_loop conv what (m_Size f) (S (length st)) 0 _) as [[] ?]; try done. by exists b.
Qed.

Lemma pixel_maps_ok_with s det m size :
  0 <= det <= ADNED_MAX_DETS → pixel_maps_ok s →
  (∀ l, m = Some l → size > 0 → size = Z.of_nat (length l)) →
  pixel_maps_ok (with_map s det m size).
Proof.
  intros Hd (H1 & H2 & H3) Hm. assert (Z.of_nat n_dets1 = ADNED_MAX_DETS + 1) by done.
  unfold pixel_maps_ok. destruct s; cbn in *. rewrite !length_upd. split_and!; [done..|].
  intros k l. destruct (decide (k = det)) as [->|Hne].
  - rewrite !rd_upd_eq by (unfold in_bounds; lia). intros [= ->] Hpos. cbn in Hpos.
    f_equal. by apply Hm.
  - rewrite !rd_upd_ne by lia. apply H3.
Qed.

(** What a pixel map file leaves as the entry of a detector: no map, or a map with
    its number of entries. *)
Definition map_entry (size : Z) (m : option (list Z)) (size' : Z) : Prop :=
  match m with
  | None => size' = size ∨ is_u32 size'
  | Some l => size' = Z.of_nat (length l) ∧ is_u32 size' ∧ Forall is_u32 l
  end.

Lemma set_with_map s det m m' size :
  set_pixel_map det m' (with_map s det m size) = (Ok (), with_map s det m' size).
Proof. unfold set_pixel_map, modify, with_map. destruct s; cbn. by rewrite upd_upd. Qed.

(** The check of the map that was read. *)
Lemma load_checked s det a :
  0 <= det <= ADNED_MAX_DETS → length (p_PixelMap s) = n_dets1 →
  length (m_PixelMapSize s) = n_dets1 → a ≠ [] → is_u32 (Z.of_nat (length a)) → Forall is_u32 a →
  ∃ st m size, (status ← checkPixelMap det;
     (if decide (status = asynError) then set_pixel_map det None else mret ()) ;; mret status)
       (with_map s det (Some a) (Z.of_nat (length a))) = (Ok st, with_map s det m size) ∧
     map_entry 0 m size.
Proof.
  intros Hd H1 H2 Hne Hu Ha.
  destruct (with_map_rd s det (Some a) (Z.of_nat (length a)) Hd H1 H2) as (R1 & R2 & _).
  unfold mbind at 1, M_bind at 1. rewrite (checkPixelMap_run _ det a _ Hne R1 R2 eq_refl).
  destruct (decide (Forall _ _)).
  - rewrite decide_False by done. by exists asynSuccess, (Some a), (Z.of_nat (length a)).
  - rewrite decide_True by done.
    replace (pixel_map_cleared _ _ _ _) with
      (with_map s det (Some (zero_bytes a (Z.of_nat (length a)))) 0)
      by (unfold pixel_map_cleared, with_map; destruct s; cbn; by rewrite !upd_upd).
    unfold mbind, M_bind. rewrite set_with_map. exists asynError, None, 0. split; [done|by left].
Qed.

Lemma load_pixel_map_cases s det size name errno :
  0 <= det <= ADNED_MAX_DETS → length (p_PixelMap s) = n_dets1 →
  length (m_PixelMapSize s) = n_dets1 →
  match load_pixel_map mem fs det name errno (with_map s det None size) with
  | (Ok _, s') => ∃ m size', s' = with_map s det m size' ∧ map_entry size m size'
  | (Throw _, _) => False
  | (UB _, _) => ¬ (text_files ∧ (String.length name < 255)%nat)
  end.
Proof.
  clear strtod base_write. intros Hd H1 H2. unfold load_pixel_map.
  pose proof (newADnEDFile_safe name errno) as Hnew. pose proof (newADnEDFile_size name errno) as Hu.
  destruct (newADnEDFile fs name errno) as [[f|e|u] errno']; [| |cbn; tauto].
  2:{ unfold mbind, M_bind. rewrite set_with_map. exists None, size. split; [done|by left]. }
  case_decide as Hz; [|exists None, size; split; [done|by left]].
  unfold mbind at 1, M_bind at 1, modify at 1.
  replace (on_m_PixelMapSize _ _) with (with_map s det None (getSize f))
    by (unfold with_map; destruct s; cbn; by rewrite upd_upd).
  unfold mbind at 1, M_bind at 1, gets at 1.
  destruct (with_map_rd s det None (getSize f) Hd H1 H2) as (-> & _ & _). cbn [mjoin option_join id].
  assert (∀ b, calloc mem 0%nat 0 (getSize f) 4 = Some b →
    Z.of_nat (length b) = getSize f ∧ Forall is_u32 b) as Hb.
  { unfold calloc. destruct (mem _ _ _); [|done]. intros b [= <-].
    rewrite length_replicate. split; [mach_lia|]. by apply Forall_replicate. }
  unfold readDataIntoIntArray.
  destruct (readData _ _ _ _ _) as [[[]|e|u] r] eqn:E.
  - apply (readData_kept _ _ _ _ _ _ _ is_u32) in E as (b & Hcb & Hlen & Hw);
      [|intros; apply u32_range]. apply Hb in Hcb as [Hcb Hb'].
    unfold mbind at 1, M_bind at 1. rewrite set_with_map.
    replace (getSize f) with (Z.of_nat (length (array r))) by congruence.
    destruct (load_checked s det (array r)) as (st & m & size' & Hrun & Hm); auto.
    { intros E. rewrite E in Hlen. cbn in Hlen. lia. }
    { rewrite Hlen, Hcb. done. }
    unfold mbind, M_bind in Hrun |- *. destruct (checkPixelMap _ _) as [[st'|?|?] s1]; [|done..].
    destruct (_ s1) as [[]]; [|done..]. injection Hrun as <- ->. exists m, size'. split; [done|].
    destruct m; [done|]. right. by destruct Hm as [-> |].
  - unfold mbind, M_bind. rewrite set_with_map. exists None, (getSize f). split; [done|by right].
  - intros [Htext Hname]. destruct (Hnew Htext Hname) as [_ Hf].
    pose proof (readData_outcome int_of_line "Could not convert line to int." f errno'
      (calloc mem 0%nat 0 (getSize f) 4) (Hf Hz) ltac:(intros b [? _]%Hb; lia)) as Hr.
    by rewrite E in Hr.
Qed.

Lemma wp_load_pixel_map s det size name errno :
  0 <= det <= ADNED_MAX_DETS → pixel_maps_ok s → text_files → (String.length name < 255)%nat →
  wp_ok (load_pixel_map mem fs det name errno) (λ _ s', pixel_maps_ok s')
    (with_map s det None size).
Proof.
  clear strtod base_write. intros Hd Hs Htext Hname. pose proof Hs as (H1 & H2 & _). unfold wp_ok, wp.
  pose proof (load_pixel_map_cases s det size name errno Hd H1 H2) as Hl.
  destruct (load_pixel_map _ _ _ _ _ _) as [[r|e|u] s']; [|done|tauto].
  destruct Hl as (m & size' & -> & Hm). apply pixel_maps_ok_with; [done..|].
  intros l -> _. apply Hm.
Qed.

(** Loading pixel maps is safe: for any text files, whatever they contain,
    and any state of [errno], writing the name of a pixel map file has no
    undefined behaviour and throws nothing, and afterwards every map in use still
    has the number of entries that is recorded for it. *)
Lemma writeOctet_map_safe (s : D) det name nChars errno :
  0 <= det <= ADNED_MAX_DETS → pixel_maps_ok s → text_files → (String.length name < 255)%nat →
  wp_ok (write (asynSuccess, det) ADnEDDetPixelMapFileParam name nChars errno)
    (λ _ s', pixel_maps_ok s') s.
Proof.
  intros Hd Hs Htext Hname. pose proof Hs as (H1 & H2 & _).
  destruct (write_map_file s det name errno Hd H1 H2) as (size & _ & Hw).
  unfold wp_ok, writeOctet. cbn [fst snd]. rewrite decide_False by tauto. wp_step.
  pose proof (wp_load_pixel_map s det size name errno Hd Hs Htext Hname) as Hl.
  unfold wp_ok, wp in Hl. unfold wp at 1. rewrite Hw.
  destruct (load_pixel_map mem fs det name errno _) as [[[st e]|e|u] s']; [|done..].
  case_decide; [by wp_step|]. wp_step. apply wp_setString. wp_steps. by destruct s'.
Qed.
End pixel_maps.

(** ** Concrete runs *)

(** The values areaDetector gives to its acquisition states. *)
Definition sample_codes : ADStatus_t :=
  {| ADStatusIdle := 0; ADStatusAcquire := 1; ADStatusError := 6; ADStatusAborted := 10 |}.

(** The driver in an acquisition state. *)
Definition in_state (st : Z) (s : sample_driver) : sample_driver :=
  on_params (λ l, snd (setIntegerParam l 0 ADStatus st)) s.

Definition sample_writes : list (Z * param * Z) :=
  [(0, ADnEDNumDetParam, 9); (0, ADnEDNumChannelsParam, 2); (1, ADnEDDetPixelROISizeXParam, -3);
   (1, ADnEDDetTOFROIEnableParam, 1); (1, ADnEDDetPixelROIEnableParam, 1)].

Definition sample_file : list ascii := print_file [3; 2; 1; 0].

Definition sample_fs (name : string) : open_result :=
  if decide (name = "det1.map") then Opened sample_file else NotReadable.

(** The examples use no file of floating-point numbers and no base-class string. *)
Definition sample_strtod (l : list ascii) : converted f64 := Converted (f_of_Z 0) false false.

Definition sample_base (addr : Z) (p : param) (v : string) (l : map_lib param)
    : asynStatus * map_lib param := setStringParam l addr p v.

Lemma sample_text : text_files sample_fs.
Proof.
  intros name stream. unfold sample_fs. case_decide; [|done]. intros [= <-].
  refine (bool_decide_unpack _ _). vm_compute. exact I.
Qed.

Lemma sample_tables st : tables_ok (in_state st sample_alloc).
Proof. split; [reflexivity..|]. intros data [= <-]. reflexivity. Qed.

Lemma sample_maps : pixel_maps_ok sample_mapped.
Proof.
  split_and!; [reflexivity..|]. intros det m Hm _.
  destruct (decide (det = 2)) as [->|Hne]; [by injection Hm as <-|].
  unfold sample_mapped in Hm. cbn in Hm. rewrite rd_upd_ne in Hm by done.
  unfold rd in Hm. case_decide; [|done].
  change [None; None; None; None; None] with (replicate 5 (@None (list Z))) in Hm.
  by apply lookup_replicate_1 in Hm as [[=] _].
Qed.

Lemma config_ok_invariant_witness :
  config_ok (params (write_all sample_codes calloc_always sample_writes sample_new).2).
Proof.
  refine (config_ok_invariant sample_codes calloc_always sample_writes sample_new _ () _ _ _).
  - repeat (apply Forall_cons_2; [by cbn|]). by apply Forall_nil_2.
  - split; intros; vm_compute; try discriminate. intros [[=] _].
  - vm_compute. reflexivity.
Defined.

Lemma writeInt32_frozen_witness :
  writeInt32 sample_codes calloc_always (asynSuccess, 1) ADnEDDetPixelNumEndParam 99
    (in_state 1 sample_alloc) = (Ok asynError, in_state 1 sample_alloc).
Proof.
  apply (writeInt32_frozen sample_codes calloc_always 1 ADnEDDetPixelNumEndParam 99).
  - reflexivity.
  - vm_compute. reflexivity.
Defined.

Lemma writeInt32_start_witness :
  wp_ok (writeInt32 sample_codes calloc_always (asynSuccess, 0) ADnEDStartParam 1)
    (λ st s', st = asynSuccess ∧ m_startEvent s' = true ∧ int_is (params s') 0 ADnEDPauseParam 0 ∧
       p_Data s' = Some (replicate 18 0) ∧ m_pulseCounter s' = 0) (in_state 6 sample_alloc).
Proof.
  eapply wp_mono.
  - apply (writeInt32_start sample_codes calloc_always (in_state 6 sample_alloc) 1);
      [apply sample_tables|discriminate].
  - intros st s'. cbv beta zeta. case_decide as H; [exact id|].
    destruct H. right; left. vm_compute. reflexivity.
  - done.
Defined.

Lemma writeOctet_loads_map_witness :
  wp_ok (writeOctet memory_always sample_fs sample_strtod sample_base (asynSuccess, 1)
      ADnEDDetPixelMapFileParam "det1.map" 8 false)
    (λ r s', r = (asynSuccess, false, Some 8) ∧
       rd (p_PixelMap s') 1 = Some (Some [3; 2; 1; 0]) ∧
       rd (m_PixelMapSize s') 1 = Some 4) sample_alloc.
Proof.
  apply (writeOctet_loads_map memory_always sample_fs sample_strtod sample_base sample_alloc 1
    "det1.map" [3; 2; 1; 0] 4 8).
  - done.
  - reflexivity.
  - reflexivity.
  - cbn. lia.
  - reflexivity.
  - done.
  - repeat constructor; done.
  - done.
  - done.
  - vm_compute. reflexivity.
  - repeat constructor; done.
Defined.

Lemma writeOctet_map_failure_silent_witness :
  wp_ok (writeOctet memory_always sample_fs sample_strtod sample_base (asynSuccess, 2)
      ADnEDDetPixelMapFileParam "missing.map" 11 false)
    (λ r s', r = (asynSuccess, false, Some 11) ∧ rd (p_PixelMap s') 2 = Some None) sample_mapped.
Proof.
  eapply (writeOctet_map_failure_silent memory_always sample_fs sample_strtod sample_base
    sample_mapped 2 "missing.map" 11 false false).
  - done.
  - reflexivity.
  - reflexivity.
  - reflexivity.
Defined.

Lemma writeOctet_map_safe_witness :
  wp_ok (writeOctet memory_always sample_fs sample_strtod sample_base (asynSuccess, 2)
      ADnEDDetPixelMapFileParam "det1.map" 8 false) (λ _ s', pixel_maps_ok s') sample_mapped.
Proof.
  apply (writeOctet_map_safe memory_always sample_fs sample_strtod sample_base sample_mapped 2
    "det1.map" 8 false).
  - done.
  - exact sample_maps.
  - exact sample_text.
  - cbn. lia.
Defined.
