(* ===== verification/Event.v ===== *)
(** * The event handler

    Models [ADnED::eventHandler], which integrates one structure received on a
    channel: the update timer, the copies of the detector parameters, the time
    stamp and sequence checks, the histograms of the events, and the
    parameters it posts.

    The structure is data ([pv_struct]): a subfield that is absent or of
    another type is [None], and the timestamp subfield can fail to attach or
    throw.  The clock is an argument.  The debug dump is left out. *)

From stdpp Require Import base numbers list option strings.
From Stdlib Require Import PrimFloat.
From S2P Require Import Prelude Float64 Params Transform Driver.

Local Open Scope Z_scope.

(** ** The structure *)

Inductive attached (TS : Type) : Type :=
  | Attached (ts : TS)
  | AttachFailed
  | AttachThrew (what : string).
Arguments Attached {TS} ts.
Arguments AttachFailed {TS}.
Arguments AttachThrew {TS} what.

Record pv_struct (TS : Type) : Type := PvStruct {
  pv_timeStamp : attached TS;
  pv_pcharge : option f64;
  pv_pixels : option (list Z);
  pv_tof : option (list Z)
}.
Arguments PvStruct {TS}.
Arguments pv_timeStamp {TS}.
Arguments pv_pcharge {TS}.
Arguments pv_pixels {TS}.
Arguments pv_tof {TS}.

(** The local variables of the integration loops that keep their value from
    one turn to the next. *)
Record locals : Type := Locals { plotType : Z; tofBins : Z; tofIndex : Z }.

Section event.
Context {L TS T : Type} {PL : ParamLib param L} {TL : TimeStampLib TS} {TR : Transformer T}.
Local Abbreviation D := (driver L TS T).

(** ** The update timer *)

(** [Some timeDiffSecs] when the parameters are due for an update. *)
Definition update_timer (nowSecs nowNsecs : Z) : M D (option f64) :=
  lock ;;
  updatePeriod ← getDouble 0 ADnEDEventUpdatePeriodParam (f_of_Z 0);
  let now := f_add (f_of_Z nowSecs) (f_div (f_of_Z nowNsecs) 1e9%float) in
  modify (on_m_nowTimeSecs (λ _, now)) ;;
  last ← gets m_lastTimeSecs;
  r ← (if f_lt (f_sub now last) (f_div updatePeriod 1000%float) then mret None
       else modify (on_m_lastTimeSecs (λ _, now)) ;; mret (Some (f_sub now last)));
  unlock ;;
  mret r.

(** ** The detector parameters *)

Definition read_detector (l : L) (det : Z) (d : detvals) : detvals := {|
  m_detStartValues := getIntegerParam l det ADnEDDetPixelNumStartParam (m_detStartValues d);
  m_detEndValues := getIntegerParam l det ADnEDDetPixelNumEndParam (m_detEndValues d);
  m_detSizeValues := getIntegerParam l det ADnEDDetPixelNumSizeParam (m_detSizeValues d);
  m_NDArrayStartValues :=
    getIntegerParam l det ADnEDDetNDArrayStartParam (m_NDArrayStartValues d);
  m_NDArrayTOFStartValues :=
    getIntegerParam l det ADnEDDetNDArrayTOFStartParam (m_NDArrayTOFStartValues d);
  m_detTOFROIStartValues :=
    getIntegerParam l det ADnEDDetTOFROIStartParam (m_detTOFROIStartValues d);
  m_detTOFROISizeValues :=
    getIntegerParam l det ADnEDDetTOFROISizeParam (m_detTOFROISizeValues d);
  m_detTOFROIEnabled := getIntegerParam l det ADnEDDetTOFROIEnableParam (m_detTOFROIEnabled d);
  m_detPixelMappingEnabled :=
    getIntegerParam l det ADnEDDetPixelMapEnableParam (m_detPixelMappingEnabled d);
  m_detTOFTransType := getIntegerParam l det ADnEDDetTOFTransTypeParam (m_detTOFTransType d);
  m_detTOFTransOffset :=
    getDoubleParam l det ADnEDDetTOFTransOffsetParam (m_detTOFTransOffset d);
  m_detTOFTransScale := getDoubleParam l det ADnEDDetTOFTransScaleParam (m_detTOFTransScale d);
  m_detPixelROIStartX :=
    getIntegerParam l det ADnEDDetPixelROIStartXParam (m_detPixelROIStartX d);
  m_detPixelROIStartY :=
    getIntegerParam l det ADnEDDetPixelROIStartYParam (m_detPixelROIStartY d);
  m_detPixelROISizeX := getIntegerParam l det ADnEDDetPixelROISizeXParam (m_detPixelROISizeX d);
  m_detPixelROISizeY := getIntegerParam l det ADnEDDetPixelROISizeYParam (m_detPixelROISizeY d);
  m_detPixelSizeX := getIntegerParam l det ADnEDDetPixelSizeXParam (m_detPixelSizeX d);
  m_detPixelROIEnable :=
    getIntegerParam l det ADnEDDetPixelROIEnableParam (m_detPixelROIEnable d)
|}.

(** One turn of the loop; [false] when the handler returns. *)
Definition fetch_detector (det : Z) : M D bool :=
  l ← gets params;
  dets ← gets m_det;
  d0 ← checked OutOfBounds (rd dets det);
  let d := read_detector l det d0 in
  modify (on_m_det (λ ds, upd ds det d)) ;;
  mret (bool_decide (0 < m_detPixelROISizeX d)).

(** ** Time stamps and sequence numbers *)

(** The test for missing sequence numbers. *)
Definition check_seq (channelID : Z) : M D () :=
  seqID ← gets (λ s, default 0 (rd (m_seqID s) channelID));
  lastSeqID ← gets (λ s, default 0 (rd (m_lastSeqID s) channelID));
  (if decide (i32 lastSeqID ≠ -1) then
     if decide (seqID ≠ u32 (lastSeqID + 1)) then
       setInt channelID ADnEDSeqIDMissingParam (i32 (u32 (lastSeqID + 1))) ;;
       numMissingPackets ← getInt channelID ADnEDSeqIDNumMissingParam 0;
       setInt channelID ADnEDSeqIDNumMissingParam
         (i32 (u32 (numMissingPackets + (seqID - lastSeqID + 1)))) ;;
       mret ()
     else mret ()
   else mret ()) ;;
  modify (on_m_lastSeqID (λ l, upd l channelID seqID)).

(** [Some newPulse] when the handler goes on.  The mutex is held on entry and
    released on every exit. *)
Definition check_timestamp (ts : attached TS) (channelID : Z) : M D (option bool) :=
  match ts with
  | AttachFailed => unlock ;; mret None
  | AttachThrew _ => unlock ;; mret None
  | Attached now =>
      modify (on_m_TimeStamp (λ l, upd l channelID now)) ;;
      lasts ← gets m_TimeStampLast;
      last ← checked OutOfBounds (rd lasts channelID);
      let newPulse := bool_decide (channelID = 0) && ts_ne last now in
      if ts_gt last now then
        setInt channelID ADnEDBadTimeStampParam 1 ;;
        unlock ;; mret None
      else
        modify (on_m_TimeStampLast (λ l, upd l channelID
          (ts_put last (getSecondsPastEpoch now) (getNanoseconds now)))) ;;
        modify (on_m_seqID (λ l, upd l channelID (u32 (getUserTag now)))) ;;
        check_seq channelID ;;
        unlock ;; mret (Some newPulse)
  end.

(** ** Integration of one event *)

(** [p_Data[idx]++] *)
Definition count (idx : Z) : M D () :=
  d ← gets p_Data;
  data ← checked NullDeref d;
  v ← checked OutOfBounds (rd data idx);
  modify (on_p_Data (λ _, Some (upd data idx (u32 (v + 1))))).

(** The pixel ID in the detector, and mapped. *)
Definition pixel_offset (d : detvals) (pixel : Z) : Z := u32 (pixel - m_detStartValues d).

Definition map_pixel (det : Z) (d : detvals) (pixel : Z) : M D Z :=
  if decide (m_detPixelMappingEnabled d ≠ 0) then
    size ← gets (λ s, default 0 (rd (m_PixelMapSize s) det));
    m ← gets (λ s, mjoin (rd (p_PixelMap s) det));
    match m with
    | Some map =>
        if decide (size > 0) then
          v ← checked OutOfBounds (rd map (pixel_offset d pixel));
          mret (i32 v)
        else mret (i32 (pixel_offset d pixel))
    | None => mret (i32 (pixel_offset d pixel))
    end
  else mret (i32 (pixel_offset d pixel)).

(** The time of flight, transformed. *)
Definition event_tof (det : Z) (d : detvals) (pixel tofRaw : Z) : M D f64 :=
  if decide (m_detTOFTransType d ≠ 0) then
    t ← gets (λ s, mjoin (rd (p_Transform s) det));
    t ← checked Uninitialised t;
    v ← lift (tr_calculate t (u32 (m_detTOFTransType d))
                (u32 (i32 (pixel_offset d pixel))) tofRaw);
    mret (if f_le (f_of_Z 0) (m_detTOFTransScale d)
          then f_add (f_mul v (m_detTOFTransScale d)) (m_detTOFTransOffset d)
          else v)
  else mret (f_of_Z tofRaw).

(** The number of bins after the two limits. *)
Definition clip_bins (bins tofMax : Z) : Z :=
  if decide (bins < 1) then 1
  else if decide (tofMax < u32 bins) then i32 tofMax
  else bins.

(** [int(floor(tof / (m_tofMax / tofBins)))] *)
Definition tof_bin (tof : f64) (bins tofMax : Z) : M D Z :=
  width ← checked DivByZero (if decide (u32 bins = 0) then None else Some (tofMax / u32 bins));
  checked BadConversion (floor_i32 (f_div tof (f_of_Z width))).

(** [a / b] and [a % b] on [int]. *)
Definition int_quot (a b : Z) : M D Z :=
  _ ← checked DivByZero (if decide (b = 0) then None else Some ()); int_result (Z.quot a b).

Definition int_rem (a b : Z) : M D Z :=
  _ ← checked DivByZero (if decide (b = 0) then None else Some ());
  _ ← int_result (Z.quot a b); mret (Z.rem a b).

(** The index of the event in a 2-D plot against the time of flight; an unknown
    type leaves the variable as it was. *)
Definition plot_index (d : detvals) (lc : locals) (mapped : Z) (tof : f64) (tofMax : Z) : M D Z :=
  let bins := tofBins lc in
  if decide (u32 (plotType lc) = s_ADNED_2D_PLOT_XTOF) then
    x ← int_rem mapped (m_detPixelSizeX d);
    q ← tof_bin tof bins tofMax;
    mret (i32 (u32 (u32 (u32 x * bins) + q)))
  else if decide (u32 (plotType lc) = s_ADNED_2D_PLOT_YTOF) then
    y ← int_quot mapped (m_detPixelSizeX d);
    q ← tof_bin tof bins tofMax;
    mret (i32 (u32 (u32 (u32 y * bins) + q)))
  else if decide (u32 (plotType lc) = s_ADNED_2D_PLOT_PIXELIDTOF) then
    p ← int_result (mapped * bins);
    q ← tof_bin tof bins tofMax;
    int_result (p + q)
  else mret (tofIndex lc).

Definition tof_in_range (tof : f64) (tofMax : Z) : bool :=
  f_le tof (f_of_Z tofMax) && f_le (f_of_Z 0) tof.

(** The pixel histogram, or a 2-D plot. *)
Definition integrate_pixel (d : detvals) (lc : locals) (mapped : Z) (tof : f64)
    (tofMax : Z) : M D locals :=
  if decide (m_detTOFROIEnabled d ≠ 0) then
    (if f_le (f_of_Z (m_detTOFROIStartValues d)) tof then
       hi ← int_result (m_detTOFROIStartValues d + m_detTOFROISizeValues d);
       if f_lt tof (f_of_Z hi) then
         idx ← int_result (m_NDArrayStartValues d + mapped); count idx
       else mret ()
     else mret ()) ;;
    mret lc
  else if decide (u32 (plotType lc) = s_ADNED_2D_PLOT_XY) then
    idx ← int_result (m_NDArrayStartValues d + mapped);
    count idx ;; mret lc
  else if tof_in_range tof tofMax then
    i ← plot_index d lc mapped tof tofMax;
    hi ← int_result (m_detSizeValues d - 1);
    (if decide (i < hi) then
       idx ← int_result (m_NDArrayStartValues d + i); count idx
     else mret ()) ;;
    mret {| lc with tofIndex := i |}
  else mret lc.

(** Is the mapped pixel inside the X/Y region of interest? *)
Definition in_pixel_roi (d : detvals) (mapped : Z) : M D bool :=
  if decide (m_detPixelSizeX d > 0) then
    x ← int_rem mapped (m_detPixelSizeX d);
    if decide (m_detPixelROIStartX d <= x) then
      hiX ← int_result (m_detPixelROIStartX d + m_detPixelROISizeX d);
      if decide (x < hiX) then
        lo ← int_result (m_detPixelROIStartY d * m_detPixelSizeX d);
        if decide (lo <= mapped) then
          hiY ← int_result (m_detPixelROIStartY d + m_detPixelROISizeY d);
          hi ← int_result (hiY * m_detPixelSizeX d);
          mret (bool_decide (mapped < hi))
        else mret false
      else mret false
    else mret false
  else mret false.

(** The time-of-flight histogram. *)
Definition integrate_tof (d : detvals) (mapped : Z) (tof : f64) (tofInt tofMax : Z) : M D () :=
  if tof_in_range tof tofMax then
    hit ← (if decide (m_detPixelROIEnable d ≠ 0) then
             if decide (m_detPixelMappingEnabled d = 0) then mret true
             else in_pixel_roi d mapped
           else mret true);
    if (hit : bool) then count (u32 (m_NDArrayTOFStartValues d + tofInt)) else mret ()
  else mret ().

(** One event against one detector.  The time of flight is converted to an unsigned
    integer whether the integer is used or not: a value that does not fit the type is
    undefined behaviour for every event of the detector. *)
Definition integrate_event (pixel tofRaw : Z) (det : Z) (lc : locals) : M D locals :=
  dets ← gets m_det;
  d ← checked OutOfBounds (rd dets det);
  if decide (u32 (m_detStartValues d) <= pixel ∧ pixel <= u32 (m_detEndValues d)) then
    tof ← event_tof det d pixel tofRaw;
    mapped ← map_pixel det d pixel;
    tofInt ← checked BadConversion (floor_u32 tof);
    plotType ← getInt det ADnEDDet2DTypeParam (plotType lc);
    bins ← getInt det ADnEDDetTOFNumBinsParam (tofBins lc);
    tofMax ← gets m_tofMax;
    let lc := {| plotType := plotType; tofBins := clip_bins bins tofMax;
                 tofIndex := tofIndex lc |} in
    lc ← integrate_pixel d lc mapped tof tofMax;
    integrate_tof d mapped tof tofInt tofMax ;;
    modify (on_m_detEventsSinceLastUpdate
      (alter (λ n, u32 (n + 1)) (Z.to_nat det))) ;;
    modify (on_m_detTotalEvents (alter (λ x, f_add x (f_of_Z 1)) (Z.to_nat det))) ;;
    mret lc
  else mret lc.

(** All events of the structure, and the proton charge of a new pulse. *)
Definition integrate_events (numDet : Z) (events : list (Z * Z)) : M D locals :=
  for_acc events (Locals 0 0 0) (λ '(pixel, tofRaw) lc,
    for_acc (seqZ 1 numDet) lc (integrate_event pixel tofRaw)).

Definition integrate_pulse (newPulse : bool) (pCharge : f64) : M D () :=
  if newPulse then
    modify (on_m_pChargeInt (λ x, f_add x pCharge)) ;;
    modify (on_m_pulseCounter (λ n, u32 (n + 1)))
  else mret ().

(** ** Parameters posted at the update period *)

Definition event_rate (n : Z) (timeDiffSecs : f64) : M D Z :=
  r ← checked BadConversion (floor_u32 (f_div (f_of_Z n) timeDiffSecs)); mret (i32 r).

Definition post_channel (chan : Z) : M D () :=
  c ← gets (λ s, default 0 (rd (m_seqCounter s) chan));
  setInt chan ADnEDSeqCounterParam (i32 c) ;;
  i ← gets (λ s, default 0 (rd (m_seqID s) chan));
  setInt chan ADnEDSeqIDParam (i32 i) ;; mret ().

Definition post_detector (timeDiffSecs : f64) (det : Z) : M D () :=
  n ← gets (λ s, default 0 (rd (m_detEventsSinceLastUpdate s) det));
  r ← event_rate n timeDiffSecs;
  setInt det ADnEDDetEventRateParam r ;;
  modify (on_m_detEventsSinceLastUpdate (λ l, upd l det 0)) ;;
  t ← gets (λ s, default (f_of_Z 0) (rd (m_detTotalEvents s) det));
  setDouble det ADnEDDetEventTotalParam t ;; mret ().

Definition post_updates (timeDiffSecs : f64) (numChan numDet : Z) (pCharge : f64) : M D () :=
  for_ (seqZ 0 numChan) post_channel ;;
  pulses ← gets m_pulseCounter;
  setInt 0 ADnEDPulseCounterParam (i32 pulses) ;;
  n ← gets m_eventsSinceLastUpdate;
  r ← event_rate n timeDiffSecs;
  setInt 0 ADnEDEventRateParam r ;;
  modify (on_m_eventsSinceLastUpdate (λ _, 0)) ;;
  for_ (seqZ 1 numDet) (post_detector timeDiffSecs) ;;
  setDouble 0 ADnEDPChargeParam pCharge ;;
  q ← gets m_pChargeInt;
  setDouble 0 ADnEDPChargeIntParam q ;;
  mret ().

(** ** The handler *)

(** The data part: the events of the structure when both arrays are present. *)
Definition handle_data (pv : pv_struct TS) (paused : Z) (due : option f64)
    (numChan numDet : Z) (newPulse : bool) (pCharge : f64) : M D () :=
  match pv_pixels pv, pv_tof pv with
  | Some pixels, Some tofs =>
      if decide (length pixels ≠ length tofs) then mret ()
      else
        modify (on_m_eventsSinceLastUpdate (λ n, u32 (n + Z.of_nat (length pixels)))) ;;
        lock ;;
        (if decide (paused = 0) then
           integrate_events numDet (zip pixels tofs) ;;
           integrate_pulse newPulse pCharge
         else mret ()) ;;
        (match due with
         | Some timeDiffSecs => post_updates timeDiffSecs numChan numDet pCharge
         | None => mret ()
         end) ;;
        unlock
  | _, _ => mret ()
  end.

Definition eventHandler (pv : pv_struct TS) (channelID nowSecs nowNsecs : Z) : M D () :=
  paused ← getInt 0 ADnEDPauseParam 0;
  due ← update_timer nowSecs nowNsecs;
  if decide (ADNED_MAX_CHANNELS <= channelID) then mret ()
  else
    numChan ← getInt 0 ADnEDNumChannelsParam 0;
    let numChan := Z.min numChan ADNED_MAX_CHANNELS in
    numDet ← getInt 0 ADnEDNumDetParam 0;
    let numDet := Z.min numDet ADNED_MAX_DETS in
    go ← for_return (seqZ 1 numDet) fetch_detector;
    if negb go then mret ()
    else
      lock ;;
      modify (on_m_seqCounter (alter (λ n, u32 (n + 1)) (Z.to_nat channelID))) ;;
      r ← check_timestamp (pv_timeStamp pv) channelID;
      match r, pv_pcharge pv with
      | None, _ => mret ()
      | Some _, None => mret ()
      | Some newPulse, Some pCharge =>
          d ← gets p_Data;
          m ← gets m_dataMaxSize;
          match d with
          | None => mret ()
          | Some _ =>
              if decide (m = 0) then mret ()
              else handle_data pv paused due numChan numDet newPulse pCharge
          end
      end.
End event.
