(* ===== verification/Loading.v ===== *)
(** * From a transformation file to the events

    Composes the parts a transformation goes through: a client writes the name of a
    file, [writeOctet] reads the file and hands its values to the object of the
    detector, and [eventHandler] asks that object for the time of flight of an event. *)

From stdpp Require Import base numbers list option strings.
From Stdlib Require Import Ascii PrimFloat.
From S2P Require Import Prelude Float64 Params Transform File FileTheorems Driver Sample Alloc Ops.
From S2P Require Import Write WriteTheorems Event.

Local Open Scope Z_scope.

Section loading.
Context {L TS : Type} {PL : ParamLib param L} {DL : DriverLib L} {TL : TimeStampLib TS}.
Context (mem : memory) (fs : string → open_result).
Context (strtod : list ascii → converted f64).
Context (base_write : Z → param → string → L → asynStatus * L).
Local Abbreviation D := (driver L TS transform).

Lemma matchTransFile_range f i :
  matchTransFile f = Some i → 0 <= i < 6 ∧ adned_param_type f = Some asynParamOctet.
Proof.
  unfold matchTransFile. repeat (case_decide; [intros [= <-]; subst; split; [lia|done]|]). done.
Qed.

(** A file of values, loaded into the slot [i] of the object. *)
Lemma load_transform_run (s : D) det t i name ls factors :
  rd (p_Transform s) det = Some (Some t) → 0 <= i < 6 →
  (0 < String.length name < 255)%nat → fs name = Opened (double_file ls) →
  Forall2 (line_value strtod) ls factors → factors ≠ [] → is_u32 (Z.of_nat (length factors)) →
  (∀ k n, mem k n 8 = true) →
  load_transform mem fs strtod det i name false s
  = (Ok (asynSuccess, false), on_p_Transform (λ l, upd l det (Some (load_array i factors t))) s).
Proof.
  intros Ht Hi Hname Hfs Hvs Hne Hlen Hc.
  assert (0 < length factors)%nat by (destruct factors; [done|cbn; lia]).
  destruct (double_file_read fs strtod name ls factors (replicate (length factors) (f_of_Z 0))
    Hname Hfs Hvs Hlen (length_replicate _ _)) as (f & Hnew & Hsize & Hread).
  unfold load_transform. rewrite Hnew, Hsize. rewrite decide_True by lia. cbv zeta.
  unfold calloc. rewrite Hc, Nat2Z.id, Hread. cbn [array erange].
  unfold mbind, M_bind, with_transform. rewrite Ht. cbn [mjoin option_join id].
  rewrite setDoubleArray_load by done. rewrite decide_False by tauto. done.
Qed.

(** The copy of the array is made in a block that is not tested. *)
Lemma writeOctet_no_memory (s : D) det t f i name nChars ls factors :
  1 <= det <= ADNED_MAX_DETS → rd (p_Transform s) det = Some (Some t) →
  matchTransFile f = Some i →
  (0 < String.length name < 255)%nat → fs name = Opened (double_file ls) →
  Forall2 (line_value strtod) ls factors → factors ≠ [] → is_u32 (Z.of_nat (length factors)) →
  (∀ n, mem 0%nat n 8 = true) → mem 1%nat (Z.of_nat (length factors)) 8 = false →
  faults (writeOctet mem fs strtod base_write (asynSuccess, det) f name nChars false) NullDeref s.
Proof.
  intros Hd Ht Hf Hname Hfs Hvs Hne Hlen Hc Hbad. destruct (matchTransFile_range f i Hf) as [Hi _].
  destruct factors as [|x factors]; [done|].
  destruct (double_file_read fs strtod name ls (x :: factors)
    (replicate (length (x :: factors)) (f_of_Z 0)) Hname Hfs Hvs Hlen (length_replicate _ _))
    as (fl & Hnew & Hsize & Hread).
  unfold writeOctet. cbn [fst snd]. rewrite decide_False by tauto. apply faults_bind.
  unfold write_file. rewrite Hf. unfold load_transform.
  rewrite Hnew, Hsize, decide_True by (cbn; lia). cbv zeta.
  unfold calloc. rewrite Hc, Nat2Z.id, Hread. cbn [array erange]. apply faults_bind.
  destruct (setDoubleArray_no_memory (mem 1%nat) i x factors t Hi Hbad) as [t' Et].
  cbn [apply_op] in Et. unfold faults, with_transform. rewrite Ht. cbn [mjoin option_join id].
  destruct (setDoubleArray _ _ _ _ t) as [[st|e|u] t1] eqn:Es; unfold mbind, M_bind in Et;
    rewrite Es in Et; try done. injection Et as -> ->. by eexists.
Qed.

Lemma wp_writeOctet_transform (s : D) det t f i name nChars ls factors :
  1 <= det <= ADNED_MAX_DETS → rd (p_Transform s) det = Some (Some t) →
  matchTransFile f = Some i →
  (0 < String.length name < 255)%nat → fs name = Opened (double_file ls) →
  Forall2 (line_value strtod) ls factors → factors ≠ [] → is_u32 (Z.of_nat (length factors)) →
  (∀ k n, mem k n 8 = true) →
  wp_ok (writeOctet mem fs strtod base_write (asynSuccess, det) f name nChars false)
    (λ r s', r = (asynSuccess, false, Some nChars) ∧
       rd (p_Transform s') det = Some (Some (load_array i factors t))) s.
Proof.
  intros Hd Ht Hf Hname Hfs Hvs Hne Hlen Hc. destruct (matchTransFile_range f i Hf) as [Hi Hty].
  unfold wp_ok, writeOctet. cbn [fst snd]. rewrite decide_False by tauto. wp_step.
  unfold write_file. rewrite Hf. unfold wp at 1. rewrite (load_transform_run s det t i name ls factors)
    by done. rewrite decide_False by tauto. wp_step. apply wp_setString. wp_steps.
  rewrite callParamCallbacks_success by (apply driver_valid_addr; lia). split; [done|].
  apply rd_in_bounds in Ht. destruct s; cbn in *. by rewrite rd_upd_eq.
Qed.

(** The time of flight of an event under a d-spacing transformation. *)
Definition dspace_tof (d : detvals) (factors : list f64) (pixel tofRaw : Z) : f64 :=
  let v := match rd factors (pixel_offset d pixel) with
           | Some v => f_mul (f_of_Z tofRaw) v
           | None => transform_error
           end in
  if f_le (f_of_Z 0) (m_detTOFTransScale d)
  then f_add (f_mul v (m_detTOFTransScale d)) (m_detTOFTransOffset d)
  else v.

(** C22. From a file to the events: when a client writes the name of a file that lists
    the factors of the pixels for the first array of a detector, and the memory for
    them can be had, the request succeeds,
    and from then on a detector whose transformation type is 1 gets, for every event,
    the time of flight times the factor of the pixel's position in the detector (the
    error value for a position the file has no line for), scaled and shifted as
    configured. *)
Theorem transform_file_applied pow (s : D) det t name nChars ls factors :
  1 <= det <= ADNED_MAX_DETS → rd (p_Transform s) det = Some (Some t) → transform_wf t →
  (0 < String.length name < 255)%nat → fs name = Opened (double_file ls) →
  Forall2 (line_value strtod) ls factors → factors ≠ [] → is_u32 (Z.of_nat (length factors)) →
  (∀ k n, mem k n 8 = true) →
  wp_ok (writeOctet mem fs strtod base_write (asynSuccess, det) ADnEDDetTOFTransFile0Param
           name nChars false)
    (λ r s', r = (asynSuccess, false, Some nChars) ∧
       ∀ d pixel tofRaw, m_detTOFTransType d = ADNED_TRANSFORM_TYPE1 →
         event_tof (TR := adned_transformer pow) det d pixel tofRaw s'
         = (Ok (dspace_tof d factors pixel tofRaw), s')) s.
Proof.
  intros Hd Ht Hwf Hname Hfs Hvs Hne Hlen Hc.
  eapply wp_mono; [by apply (wp_writeOctet_transform s det t ADnEDDetTOFTransFile0Param 0 name nChars
    ls factors)| |done].
  intros r s' [-> Hr]. split; [done|]. intros d pixel tofRaw Hty.
  assert (0 <= 0 < 6) as H6 by lia. pose proof (load_array_wf 0 factors t H6 Hne Hwf) as Hwf'.
  assert (u32 (i32 (pixel_offset d pixel)) = pixel_offset d pixel) as Hpix
    by (unfold pixel_offset; by rewrite u32_i32, u32_idem).
  pose proof (u32_range (pixel - m_detStartValues d)) as Hu. fold (pixel_offset d pixel) in Hu.
  unfold event_tof. rewrite Hty, decide_True by done. unfold mbind, M_bind, gets, checked, lift.
  rewrite Hr. cbn. unfold calculate. rewrite Hpix.
  change (u32 ADNED_TRANSFORM_TYPE1) with ADNED_TRANSFORM_TYPE1.
  rewrite decide_False by done. rewrite decide_False by mach_lia. rewrite decide_True by done.
  rewrite calc_dspace_static_spec by (done || mach_lia). rewrite load_array_ptr by done.
  by rewrite decide_True by done.
Qed.
End loading.

(** ** A concrete file *)

(** Two factors; the conversion of the example takes a line for the number of its
    characters. *)
Definition line_length (l : list ascii) : converted f64 :=
  Converted (f_of_Z (Z.of_nat (length l))) true false.

Definition sample_factors : list (list ascii) := [["0"; "."; "5"]; ["2"]]%char.

Definition factor_fs (name : string) : open_result :=
  if decide (name = "det1.dspace") then Opened (double_file sample_factors) else NotReadable.

Lemma transform_file_applied_witness :
  wp_ok (writeOctet memory_always factor_fs line_length sample_base (asynSuccess, 1)
           ADnEDDetTOFTransFile0Param "det1.dspace" 11 false)
    (λ r s', r = (asynSuccess, false, Some 11) ∧
       ∀ d pixel tofRaw, m_detTOFTransType d = ADNED_TRANSFORM_TYPE1 →
         event_tof (TR := adned_transformer sample_pow) 1 d pixel tofRaw s'
         = (Ok (dspace_tof d [f_of_Z 3; f_of_Z 1] pixel tofRaw), s')) sample_alloc.
Proof.
  apply (transform_file_applied memory_always factor_fs line_length sample_base sample_pow sample_alloc
    1 ADnEDTransformBase "det1.dspace" 11 sample_factors).
  - done.
  - reflexivity.
  - apply base_wf.
  - cbn. lia.
  - reflexivity.
  - repeat constructor; apply (bool_decide_unpack _); vm_compute; exact I.
  - done.
  - done.
  - done.
Defined.
