(* ===== verification/Histogram.v ===== *)
(** * The histograms of the event handler

    A reference for the integration of events, on mathematical integers: which
    cells of the buffer an event counts in.  The theorems say that the loops of
    [eventHandler] (Event.v) compute it: on a consistent setup ([det_ok] for
    every detector) they have no undefined behaviour and the buffer ends as the
    reference says. *)

From stdpp Require Import base numbers list option strings.
From S2P Require Import Prelude Float64 FloatDiv Params Transform Driver Sample Alloc Event.

Local Open Scope Z_scope.

(** ** Counting in a buffer *)

Definition bump (data : list Z) (idx : Z) : list Z :=
  upd data idx (u32 (default 0 (rd data idx) + 1)).

(** How often [j] is among [cells]. *)
Definition occ (j : Z) (cells : list Z) : Z :=
  Z.of_nat (length (filter (λ i, i = j) cells)).

Lemma occ_app j l k : occ j (l ++ k) = occ j l + occ j k.
Proof. unfold occ. rewrite filter_app, length_app. lia. Qed.

Lemma occ_cons j i l : occ j (i :: l) = (if decide (i = j) then 1 else 0) + occ j l.
Proof. unfold occ. rewrite filter_cons. case_decide; cbn [length]; lia. Qed.

Lemma length_bumps cells : ∀ data, length (foldl bump data cells) = length data.
Proof. induction cells as [|i l IH]; intros data; cbn; [done|]. rewrite IH. apply length_upd. Qed.

Lemma rd_bumps cells : ∀ data j v,
  Forall (in_bounds data) cells → rd data j = Some v → is_u32 v →
  rd (foldl bump data cells) j = Some (u32 (v + occ j cells)).
Proof.
  induction cells as [|i l IH]; intros data j v Hin Hv Hu; cbn [foldl].
  { rewrite Hv. unfold occ. cbn. by rewrite Z.add_0_r, u32_id. }
  apply Forall_cons in Hin as [Hi Hl].
  assert (Forall (in_bounds (bump data i)) l) as Hl'.
  { eapply Forall_impl; [exact Hl|]. intros k. apply in_bounds_upd. }
  rewrite occ_cons. destruct (decide (i = j)) as [->|Hne].
  - rewrite (IH _ _ (u32 (v + 1))); [|done| |apply u32_range].
    + autorewrite with mach. do 2 f_equal. lia.
    + unfold bump. by rewrite rd_upd_eq, Hv by done.
  - rewrite (IH _ _ v); [done..| |done]. unfold bump. rewrite rd_upd_ne; [done| |done].
    unfold in_bounds in Hi. lia.
Qed.

Lemma elem_of_option_list {A} (x : A) o : x ∈ option_list o ↔ o = Some x.
Proof.
  destruct o as [y|]; cbn; [rewrite list_elem_of_singleton; naive_solver|].
  split; [by intros ?%elem_of_nil|done].
Qed.

Section histogram.
Context {L TS T : Type} {PL : ParamLib param L} {TR : Transformer T}.
Local Abbreviation D := (driver L TS T).
Implicit Types (s : D) (d : detvals).

(** ** The reference *)

Definition in_detector d (pixel : Z) : bool :=
  bool_decide (m_detStartValues d <= pixel <= m_detEndValues d).

(** The pixel counter of the pixel ID [start + k]. *)
Definition ref_pixel s (det : Z) d (k : Z) : option Z :=
  if decide (m_detPixelMappingEnabled d = 0) then Some k
  else match mjoin (rd (p_PixelMap s) det) with
  | Some map =>
      if decide (default 0 (rd (m_PixelMapSize s) det) > 0) then rd map k else Some k
  | None => Some k
  end.

Definition ref_tof s (det : Z) d (k tofRaw : Z) : f64 :=
  if decide (m_detTOFTransType d = 0) then f_of_Z tofRaw
  else match mjoin (rd (p_Transform s) det) with
  | Some t =>
      match tr_calculate t (u32 (m_detTOFTransType d)) k tofRaw with
      | Ok v =>
          if f_le (f_of_Z 0) (m_detTOFTransScale d)
          then f_add (f_mul v (m_detTOFTransScale d)) (m_detTOFTransOffset d) else v
      | _ => f_of_Z 0
      end
  | None => f_of_Z 0
  end.

Definition ref_plot s (det : Z) : Z := getIntegerParam (params s) det ADnEDDet2DTypeParam 0.

Definition ref_bins s (det : Z) : Z :=
  clip_bins (getIntegerParam (params s) det ADnEDDetTOFNumBinsParam 0) (m_tofMax s).

(** The bin of a time of flight, and the row of a pixel in each kind of plot. *)
Definition ref_bin (tof : f64) (bins tofMax : Z) : Z :=
  default 0 (f_floor (f_div tof (f_of_Z (tofMax / bins)))).

Definition ref_row d (plot pixel : Z) : Z :=
  if decide (plot = s_ADNED_2D_PLOT_XTOF) then pixel `mod` m_detPixelSizeX d
  else if decide (plot = s_ADNED_2D_PLOT_YTOF) then pixel / m_detPixelSizeX d
  else pixel.

(** The time of flight of every event in the detector is converted to an unsigned
    integer, which has to fit the type. *)
Definition converts s (det : Z) d (e : Z * Z) : Prop :=
  in_detector d (e.1) = true →
  is_Some (floor_u32 (ref_tof s det d (e.1 - m_detStartValues d) (e.2))).

(** The cell of the pixel region the event counts in. *)
Definition ref_pixel_cell s (det : Z) d (pixel : Z) (tof : f64) : option Z :=
  if decide (m_detTOFROIEnabled d ≠ 0) then
    if f_le (f_of_Z (m_detTOFROIStartValues d)) tof
       && f_lt tof (f_of_Z (m_detTOFROIStartValues d + m_detTOFROISizeValues d))
    then Some pixel else None
  else if decide (ref_plot s det = s_ADNED_2D_PLOT_XY) then Some pixel
  else if tof_in_range tof (m_tofMax s) then
    let i := ref_row d (ref_plot s det) pixel * ref_bins s det
             + ref_bin tof (ref_bins s det) (m_tofMax s) in
    if decide (i < m_detSizeValues d - 1) then Some i else None
  else None.

Definition ref_in_roi d (pixel : Z) : bool :=
  bool_decide (m_detPixelROIEnable d = 0 ∨ m_detPixelMappingEnabled d = 0 ∨
    (0 < m_detPixelSizeX d ∧
     m_detPixelROIStartX d <= pixel `mod` m_detPixelSizeX d
       < m_detPixelROIStartX d + m_detPixelROISizeX d ∧
     m_detPixelROIStartY d * m_detPixelSizeX d <= pixel
       < (m_detPixelROIStartY d + m_detPixelROISizeY d) * m_detPixelSizeX d)).

(** The cell of the time-of-flight region. *)
Definition ref_tof_cell s d (pixel : Z) (tof : f64) : option Z :=
  if tof_in_range tof (m_tofMax s) && ref_in_roi d pixel then f_floor tof else None.

Definition ref_cells s (det : Z) d (k tofRaw : Z) : list Z :=
  let tof := ref_tof s det d k tofRaw in
  match ref_pixel s det d k with
  | Some pixel =>
      (Z.add (m_NDArrayStartValues d) <$> option_list (ref_pixel_cell s det d pixel tof))
      ++ (Z.add (m_NDArrayTOFStartValues d) <$> option_list (ref_tof_cell s d pixel tof))
  | None => []
  end.

(** All the cells one event counts in for one detector. *)
Definition event_cells s (det : Z) d (ev : Z * Z) : list Z :=
  if in_detector d (ev.1) then ref_cells s det d (ev.1 - m_detStartValues d) (ev.2) else [].

(** The detectors whose counters the event advances. *)
Definition event_hits (det : Z) d (ev : Z * Z) : list Z :=
  if in_detector d (ev.1) then [det] else [].

Definition tick (tot : list f64) (det : Z) : list f64 :=
  alter (λ x, f_add x (f_of_Z 1)) (Z.to_nat det) tot.

(** The events of a structure against the detectors 1 to [numDet]. *)
Definition det_at s (det : Z) : detvals := default detvals_zero (rd (m_det s) det).

Definition all_dets {A} s (numDet : Z) (f : Z → detvals → list A) : list A :=
  concat ((λ det, f det (det_at s det)) <$> seqZ 1 numDet).

Definition all_cells s (numDet : Z) (events : list (Z * Z)) : list Z :=
  concat ((λ e, all_dets s numDet (λ det d, event_cells s det d e)) <$> events).

Definition all_hits s (numDet : Z) (events : list (Z * Z)) : list Z :=
  concat ((λ e, all_dets s numDet (λ det d, event_hits det d e)) <$> events).

(** All events against all detectors. *)
Definition all_convert s (numDet : Z) (events : list (Z * Z)) : Prop :=
  Forall (λ e, Forall (λ det, converts s det (det_at s det) e) (seqZ 1 numDet)) events.

#[global] Instance all_convert_dec s numDet events : Decision (all_convert s numDet events).
Proof. unfold all_convert, converts. apply _. Defined.

(** Without a transformation every time of flight fits. *)
Lemma converts_plain s det d e : m_detTOFTransType d = 0 → is_u32 (e.2) → converts s det d e.
Proof.
  intros Ht He _. unfold ref_tof. rewrite decide_True by done.
  by rewrite floor_u32_of_Z.
Qed.

(** ** A consistent setup of a detector

    [n] is the number of words of the buffer. *)
Record det_ok s (n det : Z) d : Prop := {
  do_det : rd (m_det s) det = Some d;
  do_tofMax : is_u32 (m_tofMax s);
  do_range : 0 <= m_detStartValues d <= m_detEndValues d ∧ m_detEndValues d < 2 ^ 31;
  do_size : 0 < m_detSizeValues d;
  do_words : n < 2 ^ 31;
  do_pix : 0 <= m_NDArrayStartValues d ∧ m_NDArrayStartValues d + m_detSizeValues d <= n;
  do_tof : 0 <= m_NDArrayTOFStartValues d ∧ m_NDArrayTOFStartValues d + m_tofMax s < n;
  do_pixel k : 0 <= k <= m_detEndValues d - m_detStartValues d →
    ∃ v, ref_pixel s det d k = Some v ∧ 0 <= v < m_detSizeValues d;
  do_trans : m_detTOFTransType d ≠ 0 →
    ∃ t, mjoin (rd (p_Transform s) det) = Some t ∧
      tr_covers t (m_detEndValues d - m_detStartValues d + 1);
  do_plot : int_is (params s) det ADnEDDet2DTypeParam (ref_plot s det);
  do_bins : int_is (params s) det ADnEDDetTOFNumBinsParam
    (getIntegerParam (params s) det ADnEDDetTOFNumBinsParam 0);
  do_bins_int : is_i32 (getIntegerParam (params s) det ADnEDDetTOFNumBinsParam 0);
  do_plots : ref_plot s det = s_ADNED_2D_PLOT_XY ∨
    (s_ADNED_2D_PLOT_XTOF <= ref_plot s det <= s_ADNED_2D_PLOT_PIXELIDTOF ∧
     0 < m_detPixelSizeX d < 2 ^ 31 ∧ 0 < m_tofMax s < 2 ^ 30 ∧
     m_detSizeValues d * ref_bins s det <= 2 ^ 30);
  do_tof_roi : is_i32 (m_detTOFROIStartValues d + m_detTOFROISizeValues d);
  do_pixel_roi : m_detPixelROIEnable d ≠ 0 →
    is_i32 (m_detPixelROIStartX d + m_detPixelROISizeX d) ∧
    is_i32 (m_detPixelROIStartY d * m_detPixelSizeX d) ∧
    is_i32 (m_detPixelROIStartY d + m_detPixelROISizeY d) ∧
    is_i32 ((m_detPixelROIStartY d + m_detPixelROISizeY d) * m_detPixelSizeX d)
}.

(** ** The integration steps *)

(** [s] with the members the integration writes. *)
Definition with_histo s (data ev : list Z) (tot : list f64) : D :=
  on_p_Data (λ _, Some data) (on_m_detEventsSinceLastUpdate (λ _, ev)
    (on_m_detTotalEvents (λ _, tot) s)).

Lemma with_histo_params s data ev tot : params (with_histo s data ev tot) = params s.
Proof. by destruct s. Qed.

Lemma with_histo_det s data ev tot : m_det (with_histo s data ev tot) = m_det s.
Proof. by destruct s. Qed.

Lemma with_histo_tofMax s data ev tot : m_tofMax (with_histo s data ev tot) = m_tofMax s.
Proof. by destruct s. Qed.

Lemma with_histo_map s data ev tot : p_PixelMap (with_histo s data ev tot) = p_PixelMap s.
Proof. by destruct s. Qed.

Lemma with_histo_mapsize s data ev tot :
  m_PixelMapSize (with_histo s data ev tot) = m_PixelMapSize s.
Proof. by destruct s. Qed.

Lemma with_histo_transform s data ev tot :
  p_Transform (with_histo s data ev tot) = p_Transform s.
Proof. by destruct s. Qed.

Lemma wp_count s data ev tot idx (Q : () → D → Prop) E :
  in_bounds data idx → Q () (with_histo s (bump data idx) ev tot) →
  wp (count idx) Q E (with_histo s data ev tot).
Proof.
  intros Hi HQ. unfold count. destruct s; cbn in *.
  apply rd_Some in Hi as [v Hv]. do 2 wp_step. cbn. wp_steps. rewrite Hv. wp_steps.
  unfold bump in HQ. by rewrite Hv in HQ.
Qed.

(** [/] and [%] on non-negative operands. *)
Lemma quot_nonneg a b : 0 <= a < 2 ^ 31 → 0 < b → Z.quot a b = a / b ∧ is_i32 (a / b).
Proof.
  intros Ha Hb. rewrite Z.quot_div_nonneg by lia. split; [done|].
  assert (0 <= a / b) by (apply Z.div_pos; lia).
  assert (a / b <= a) by (apply Z.div_le_upper_bound; nia). mach_lia.
Qed.

Lemma wp_int_quot a b (Q : Z → D → Prop) E st :
  0 <= a < 2 ^ 31 → 0 < b → Q (a / b) st → wp (int_quot a b) Q E st.
Proof.
  intros Ha Hb HQ. destruct (quot_nonneg a b Ha Hb) as [Hq Hr]. unfold int_quot.
  rewrite decide_False, Hq by lia. by wp_steps.
Qed.

Lemma wp_int_rem a b (Q : Z → D → Prop) E st :
  0 <= a < 2 ^ 31 → 0 < b → Q (a `mod` b) st → wp (int_rem a b) Q E st.
Proof.
  intros Ha Hb HQ. destruct (quot_nonneg a b Ha Hb) as [Hq Hr]. unfold int_rem.
  rewrite decide_False, Hq, Z.rem_mod_nonneg by lia. by wp_steps.
Qed.

Section one_detector.
Context {TL : TransformerLaws T}.
Context (s : D) (n det : Z) (d : detvals) (Hok : det_ok s n det d).
Local Abbreviation H := (with_histo s).

Lemma offset_eq pixel :
  in_detector d pixel = true →
  pixel_offset d pixel = pixel - m_detStartValues d ∧
  i32 (pixel - m_detStartValues d) = pixel - m_detStartValues d ∧
  u32 (pixel - m_detStartValues d) = pixel - m_detStartValues d ∧
  0 <= pixel - m_detStartValues d <= m_detEndValues d - m_detStartValues d.
Proof.
  intros Hin%bool_decide_eq_true. destruct (do_range _ _ _ _ Hok). unfold pixel_offset.
  rewrite u32_id, i32_id by mach_lia. split_and!; [done..|lia|lia].
Qed.

Lemma wp_event_tof pixel tofRaw data ev tot (Q : f64 → D → Prop) E :
  in_detector d pixel = true →
  Q (ref_tof s det d (pixel - m_detStartValues d) tofRaw) (H data ev tot) →
  wp (event_tof det d pixel tofRaw) Q E (H data ev tot).
Proof.
  intros Hin HQ. destruct (offset_eq pixel Hin) as (Ho & Hi & Hu & Hk).
  unfold event_tof, ref_tof in *. rewrite Ho, Hi, Hu.
  destruct (decide (m_detTOFTransType d = 0)) as [Ht|Ht].
  - rewrite decide_False by tauto. by wp_steps.
  - rewrite decide_True by done. destruct (do_trans _ _ _ _ Hok Ht) as (t & Hmt & Hcov).
    wp_steps. rewrite with_histo_transform. rewrite Hmt in HQ |- *. wp_steps.
    destruct (tr_calculate_defined t _ (u32 (m_detTOFTransType d))
      (pixel - m_detStartValues d) tofRaw Hcov ltac:(lia)) as (v & Hv).
    rewrite Hv in HQ |- *. unfold wp at 1, lift. by wp_step.
Qed.

Lemma wp_map_pixel pixel data ev tot (Q : Z → D → Prop) E :
  in_detector d pixel = true →
  (∀ v, ref_pixel s det d (pixel - m_detStartValues d) = Some v →
     0 <= v < m_detSizeValues d → Q v (H data ev tot)) →
  wp (map_pixel det d pixel) Q E (H data ev tot).
Proof.
  intros Hin HQ. destruct (offset_eq pixel Hin) as (Ho & Hi & Hu & Hk).
  destruct (do_pixel _ _ _ _ Hok _ Hk) as (v & Hv & Hr). specialize (HQ v Hv Hr).
  destruct (do_pix _ _ _ _ Hok). pose proof (do_words _ _ _ _ Hok).
  assert (i32 v = v) as Hiv by (apply i32_id; mach_lia).
  unfold map_pixel, ref_pixel in *. rewrite Ho.
  destruct (decide (m_detPixelMappingEnabled d = 0)) as [He|He].
  { rewrite decide_False by tauto. wp_steps. by simplify_eq; rewrite Hi. }
  rewrite decide_True by done. wp_steps.
  rewrite with_histo_map, with_histo_mapsize.
  destruct (mjoin (rd (p_PixelMap s) det)) as [map|]; [|wp_steps; by simplify_eq; rewrite Hi].
  case_decide; [|wp_steps; by simplify_eq; rewrite Hi].
  rewrite Hv. wp_steps. by rewrite Hiv.
Qed.
(** The number of bins is usable. *)
Lemma bins_range :
  0 < m_tofMax s < 2 ^ 30 →
  1 <= ref_bins s det <= m_tofMax s ∧ u32 (ref_bins s det) = ref_bins s det ∧
  1 <= m_tofMax s / ref_bins s det < 2 ^ 30.
Proof.
  intros Ht. pose proof (do_bins_int _ _ _ _ Hok) as Hb.
  assert (1 <= ref_bins s det <= m_tofMax s) as Hr.
  { unfold ref_bins, clip_bins. repeat case_decide; [lia|rewrite i32_id by mach_lia; lia|].
    rewrite u32_id in * by mach_lia. lia. }
  split_and!; [lia..|apply u32_id; mach_lia| |].
  - apply Z.div_le_lower_bound; lia.
  - apply (Z.le_lt_trans _ (m_tofMax s)); [|lia]. apply Z.div_le_upper_bound; nia.
Qed.

Lemma wp_tof_bin tof (Q : Z → D → Prop) E st :
  0 < m_tofMax s < 2 ^ 30 → tof_in_range tof (m_tofMax s) = true →
  (0 <= ref_bin tof (ref_bins s det) (m_tofMax s) <= m_tofMax s →
   Q (ref_bin tof (ref_bins s det) (m_tofMax s)) st) →
  wp (tof_bin tof (ref_bins s det) (m_tofMax s)) Q E st.
Proof.
  intros Ht [Hhi Hlo]%andb_prop HQ. destruct (bins_range Ht) as (Hb & Hu & Hw).
  unfold tof_bin. rewrite Hu, decide_False by lia. wp_steps.
  destruct (f_div_floor tof (f_of_Z (m_tofMax s / ref_bins s det))
    (m_tofMax s / ref_bins s det * 2 ^ 1074) (m_tofMax s)) as (q & Hq & Hqr);
    [apply scaled_of_Z; lia|lia|lia|done|done|].
  unfold ref_bin in HQ. unfold floor_i32. rewrite Hq in HQ |- *. cbn.
  rewrite decide_True by mach_lia. wp_steps. apply HQ. cbn. lia.
Qed.

(** The row of a pixel stays below the size of the detector. *)
Lemma row_range plot pixel :
  0 < m_detPixelSizeX d → 0 <= pixel < m_detSizeValues d →
  0 <= ref_row d plot pixel <= pixel.
Proof.
  intros Hx Hp. unfold ref_row. repeat case_decide.
  - pose proof (Z.mod_pos_bound pixel (m_detPixelSizeX d) Hx).
    pose proof (Z.mod_le pixel (m_detPixelSizeX d)). lia.
  - split; [apply Z.div_pos; lia|]. apply Z.div_le_upper_bound; nia.
  - lia.
Qed.

Lemma wp_plot_index lc pixel tof (Q : Z → D → Prop) E st :
  plotType lc = ref_plot s det → tofBins lc = ref_bins s det →
  ref_plot s det ≠ s_ADNED_2D_PLOT_XY → 0 <= pixel < m_detSizeValues d →
  tof_in_range tof (m_tofMax s) = true →
  (let i := ref_row d (ref_plot s det) pixel * ref_bins s det
            + ref_bin tof (ref_bins s det) (m_tofMax s) in
   0 <= i → Q i st) →
  wp (plot_index d lc pixel tof (m_tofMax s)) Q E st.
Proof.
  intros Hp Hb Hxy Hpix Hin HQ.
  destruct (do_plots _ _ _ _ Hok) as [|(Hplot & Hx & Ht & Hfit)]; [done|].
  destruct (bins_range Ht) as (Hbins & _ & _).
  destruct (do_pix _ _ _ _ Hok) as [? ?]. pose proof (do_words _ _ _ _ Hok).
  pose proof (row_range (ref_plot s det) pixel ltac:(lia) Hpix) as Hrow.
  assert (0 <= ref_row d (ref_plot s det) pixel * ref_bins s det <= 2 ^ 30) as Hrb by nia.
  unfold plot_index. rewrite Hp, Hb, u32_id by (unfold is_u32, s_ADNED_2D_PLOT_XTOF,
    s_ADNED_2D_PLOT_PIXELIDTOF in *; lia).
  unfold ref_row in HQ, Hrb, Hrow. repeat case_decide; try lia.
  - wp_step. apply wp_int_rem; [lia..|]. wp_step. apply wp_tof_bin; [done..|].
    intros Hq. wp_steps. rewrite (u32_id (pixel `mod` _)) by mach_lia.
    rewrite u32_id, u32_id, i32_id by (rewrite ?u32_id; mach_lia). apply HQ. lia.
  - wp_step. apply wp_int_quot; [lia..|]. wp_step. apply wp_tof_bin; [done..|].
    intros Hq. wp_steps. rewrite (u32_id (pixel / _)) by mach_lia.
    rewrite u32_id, u32_id, i32_id by (rewrite ?u32_id; mach_lia). apply HQ. lia.
  - wp_steps. apply wp_tof_bin; [done..|]. intros Hq. wp_steps. apply HQ. lia.
  - unfold s_ADNED_2D_PLOT_XY, s_ADNED_2D_PLOT_XTOF, s_ADNED_2D_PLOT_YTOF,
      s_ADNED_2D_PLOT_PIXELIDTOF in *. lia.
Qed.
(** Cells of the pixel region. *)
Lemma count_pixel i data ev tot (Q : () → D → Prop) E :
  Z.of_nat (length data) = n → 0 <= i < m_detSizeValues d →
  Q () (H (bump data (m_NDArrayStartValues d + i)) ev tot) →
  wp (idx ← int_result (m_NDArrayStartValues d + i); count idx) Q E (H data ev tot).
Proof.
  intros Hn Hi HQ. destruct (do_pix _ _ _ _ Hok). pose proof (do_words _ _ _ _ Hok).
  wp_steps. apply wp_count; [unfold in_bounds; lia|done].
Qed.

Lemma wp_integrate_pixel lc pixel tof data ev tot (Q : locals → D → Prop) E :
  Z.of_nat (length data) = n → 0 <= pixel < m_detSizeValues d →
  plotType lc = ref_plot s det → tofBins lc = ref_bins s det →
  (∀ lc', Q lc' (H (foldl bump data (Z.add (m_NDArrayStartValues d)
                     <$> option_list (ref_pixel_cell s det d pixel tof))) ev tot)) →
  wp (integrate_pixel d lc pixel tof (m_tofMax s)) Q E (H data ev tot).
Proof.
  intros Hn Hpix Hp Hb HQ. unfold integrate_pixel, ref_pixel_cell in *.
  pose proof (do_tof_roi _ _ _ _ Hok). case_decide as Hroi.
  { destruct (f_le _ tof); [|by wp_steps]. wp_steps.
    destruct (f_lt tof _); [|by wp_steps]. apply count_pixel; [done..|]. by wp_step. }
  assert (u32 (ref_plot s det) = ref_plot s det) as Hpu.
  { apply u32_id. unfold is_u32. destruct (do_plots _ _ _ _ Hok) as [->|(Hr & _)]; [done|].
    unfold s_ADNED_2D_PLOT_XTOF, s_ADNED_2D_PLOT_PIXELIDTOF in Hr. lia. }
  rewrite Hp, Hpu. case_decide as Hxy.
  { wp_step. destruct (do_pix _ _ _ _ Hok). pose proof (do_words _ _ _ _ Hok). wp_step.
    wp_step. apply wp_count; [unfold in_bounds; lia|]. by wp_steps. }
  destruct (tof_in_range tof (m_tofMax s)) eqn:Hin; [|by wp_steps].
  wp_step. apply wp_plot_index; [done..|]. cbv zeta in HQ |- *. intros Hi.
  destruct (do_pix _ _ _ _ Hok). pose proof (do_words _ _ _ _ Hok).
  pose proof (do_size _ _ _ _ Hok). wp_steps.
  case_decide; [|by wp_steps]. apply count_pixel; [done|lia|]. by wp_step.
Qed.

Lemma wp_in_pixel_roi pixel (Q : bool → D → Prop) E st :
  m_detPixelROIEnable d ≠ 0 → m_detPixelMappingEnabled d ≠ 0 →
  0 <= pixel < m_detSizeValues d →
  Q (ref_in_roi d pixel) st → wp (in_pixel_roi d pixel) Q E st.
Proof.
  intros He Hm Hpix HQ. destruct (do_pixel_roi _ _ _ _ Hok He) as (Hx & Hy & Hyy & Hhi).
  destruct (do_pix _ _ _ _ Hok) as [? ?]. pose proof (do_words _ _ _ _ Hok).
  unfold in_pixel_roi. unfold ref_in_roi in HQ.
  assert (∀ b : bool, b = bool_decide (m_detPixelROIEnable d = 0 ∨
      m_detPixelMappingEnabled d = 0 ∨ (0 < m_detPixelSizeX d ∧
      m_detPixelROIStartX d <= pixel `mod` m_detPixelSizeX d
        < m_detPixelROIStartX d + m_detPixelROISizeX d ∧
      m_detPixelROIStartY d * m_detPixelSizeX d <= pixel
        < (m_detPixelROIStartY d + m_detPixelROISizeY d) * m_detPixelSizeX d)) → Q b st)
    as HQ' by (by intros ? ->).
  repeat first
    [ case_decide
    | wp_step
    | apply wp_int_rem; [lia..|] ];
  apply HQ'; symmetry;
    first [apply bool_decide_eq_false_2; lia | apply bool_decide_ext; lia].
Qed.

Lemma wp_integrate_tof pixel tof tofInt data ev tot (Q : () → D → Prop) E :
  Z.of_nat (length data) = n → 0 <= pixel < m_detSizeValues d → floor_u32 tof = Some tofInt →
  Q () (H (foldl bump data (Z.add (m_NDArrayTOFStartValues d)
            <$> option_list (ref_tof_cell s d pixel tof))) ev tot) →
  wp (integrate_tof d pixel tof tofInt (m_tofMax s)) Q E (H data ev tot).
Proof.
  intros Hn Hpix Ht HQ. unfold integrate_tof, ref_tof_cell in *.
  destruct (tof_in_range tof (m_tofMax s)) eqn:Hin; [|by wp_steps].
  wp_step. eapply (wp_mono _ (λ b st, b = ref_in_roi d pixel ∧ st = H data ev tot) _
    (λ _ _, False)); [| |done].
  { case_decide as He; [case_decide as Hm|]; [wp_step|by apply wp_in_pixel_roi|wp_step];
      (split; [|done]); symmetry; apply bool_decide_eq_true_2; tauto. }
  intros b st [-> ->]. destruct (ref_in_roi d pixel); [|by wp_steps].
  apply andb_prop in Hin as [Hhi Hlo]. pose proof (do_tofMax _ _ _ _ Hok) as Hu.
  destruct (floor_u32_between tof (m_tofMax s) Hu Hlo Hhi) as (k & Hk & Hr).
  assert (tofInt = k) as -> by congruence. destruct (do_tof _ _ _ _ Hok). pose proof (do_words _ _ _ _ Hok).
  unfold floor_u32 in Hk. destruct (f_floor tof) as [k'|]; [|done]. cbn in *.
  case_decide; simplify_eq. rewrite u32_id by mach_lia.
  apply wp_count; [unfold in_bounds; lia|done].
Qed.

Lemma wp_integrate_event e lc data ev tot :
  0 <= det → Z.of_nat (length data) = n → converts s det d e →
  wp_ok (integrate_event (e.1) (e.2) det lc)
    (λ _ st, st = H (foldl bump data (event_cells s det d e))
       (foldl bump ev (event_hits det d e)) (foldl tick tot (event_hits det d e)))
    (H data ev tot).
Proof.
  intros Hdet Hn Hconv. destruct e as [pixel tofRaw]; cbn [fst snd]. unfold wp_ok, integrate_event.
  do 2 wp_step. rewrite with_histo_det, (do_det _ _ _ _ Hok). do 2 wp_step.
  destruct (do_range _ _ _ _ Hok) as [Hr1 Hr2]. rewrite !u32_id by mach_lia.
  unfold event_cells, event_hits. cbn [fst snd]. destruct (in_detector d pixel) eqn:Hin.
  2:{ apply bool_decide_eq_false in Hin. rewrite decide_False by lia. by wp_step. }
  rewrite decide_True by (apply bool_decide_eq_true in Hin; lia).
  wp_step. apply wp_event_tof; [done|]. wp_step. apply wp_map_pixel; [done|].
  intros v Hv Hvr. destruct (Hconv Hin) as [tofInt Ht]. cbn [fst snd] in Ht. rewrite Ht.
  unfold getInt. do 8 wp_step. rewrite with_histo_params, with_histo_tofMax.
  rewrite (do_plot _ _ _ _ Hok), (do_bins _ _ _ _ Hok). wp_step.
  apply wp_integrate_pixel; [done|done|done|done|]. intros lc'. wp_step.
  apply wp_integrate_tof; [by rewrite length_bumps|done|done|]. wp_steps.
  unfold ref_cells. rewrite Hv, foldl_app. destruct s; cbn. unfold with_histo. cbn.
  do 2 f_equal. unfold bump, upd. rewrite list_insert_alter. apply list_alter_ext; [|done].
  intros x Hx. unfold rd. by rewrite decide_True, Hx.
Qed.

(** An event whose time of flight does not fit is undefined behaviour. *)
Lemma event_faults e lc data ev tot :
  ¬ converts s det d e →
  faults (integrate_event (e.1) (e.2) det lc) BadConversion (H data ev tot).
Proof.
  intros Hconv. destruct e as [pixel tofRaw]; cbn [fst snd]. unfold integrate_event.
  unfold converts in Hconv. cbn [fst snd] in Hconv.
  destruct (in_detector d pixel) eqn:Hin; [|by destruct Hconv].
  destruct (do_range _ _ _ _ Hok) as [Hr1 Hr2].
  apply (wp_faults _ _ (λ ds st, ds = m_det s ∧ st = H data ev tot));
    [apply wp_gets; by rewrite with_histo_det|]. intros ds st [-> ->].
  rewrite (do_det _ _ _ _ Hok).
  apply (wp_faults _ _ (λ d' st, d' = d ∧ st = H data ev tot));
    [by apply wp_checked|]. intros d' st [-> ->].
  rewrite !u32_id by mach_lia. rewrite decide_True by (apply bool_decide_eq_true in Hin; lia).
  apply (wp_faults _ _ (λ tof st, tof = ref_tof s det d (pixel - m_detStartValues d) tofRaw ∧
    st = H data ev tot)); [by apply wp_event_tof|]. intros tof st [-> ->].
  apply (wp_faults _ _ (λ _ st, st = H data ev tot)); [by apply wp_map_pixel|].
  intros v st ->. apply faults_bind. eexists.
  destruct (floor_u32 _) eqn:Hf; [|done]. destruct Hconv. intros _. by eexists.
Qed.

(** The cells of the reference are in the regions of the detector. *)
Lemma pixel_cell_range pixel tof i :
  0 <= pixel < m_detSizeValues d → ref_pixel_cell s det d pixel tof = Some i →
  0 <= i < m_detSizeValues d.
Proof.
  intros Hpix. unfold ref_pixel_cell. case_decide as Hroi.
  { destruct (_ && _); [|done]. by intros [= <-]. }
  case_decide as Hxy; [by intros [= <-]|].
  destruct (tof_in_range tof (m_tofMax s)) eqn:Hin; [|done].
  case_decide as Hi; [|done]. intros [= <-]. split; [|lia].
  destruct (do_plots _ _ _ _ Hok) as [|(_ & Hx & Ht & _)]; [done|].
  destruct (bins_range Ht) as (Hb & _ & Hw).
  pose proof (row_range (ref_plot s det) pixel ltac:(lia) Hpix).
  assert (0 <= ref_bin tof (ref_bins s det) (m_tofMax s)); [|nia].
  apply andb_prop in Hin as [Hhi Hlo]. unfold ref_bin.
  destruct (f_div_floor tof (f_of_Z (m_tofMax s / ref_bins s det))
    (m_tofMax s / ref_bins s det * 2 ^ 1074) (m_tofMax s)) as (q & -> & ?);
    [apply scaled_of_Z; lia|lia|lia|done|done|]. cbn. lia.
Qed.

Lemma tof_cell_range pixel tof i :
  ref_tof_cell s d pixel tof = Some i → 0 <= i <= m_tofMax s.
Proof.
  unfold ref_tof_cell. destruct (_ && ref_in_roi d pixel) eqn:E; [|done].
  apply andb_prop in E as [[Hhi Hlo]%andb_prop _].
  pose proof (do_tofMax _ _ _ _ Hok). intros Hf.
  destruct (f_floor_between 0 tof (m_tofMax s)) as (q & Hq & ?); [mach_lia..|done|done|].
  congruence.
Qed.

Lemma event_cells_regions e j :
  j ∈ event_cells s det d e →
  (m_NDArrayStartValues d <= j < m_NDArrayStartValues d + m_detSizeValues d) ∨
  (m_NDArrayTOFStartValues d <= j <= m_NDArrayTOFStartValues d + m_tofMax s).
Proof.
  unfold event_cells. destruct (in_detector d (e.1)) eqn:Hin; [|by intros ?%elem_of_nil].
  destruct (offset_eq _ Hin) as (_ & _ & _ & Hk).
  destruct (do_pixel _ _ _ _ Hok _ Hk) as (v & Hv & Hvr).
  unfold ref_cells. rewrite Hv, elem_of_app, !list_elem_of_fmap.
  intros [(i & -> & Hi)|(i & -> & Hi)]; apply elem_of_option_list in Hi.
  - apply pixel_cell_range in Hi; [|done]. lia.
  - apply tof_cell_range in Hi. lia.
Qed.

Lemma event_cells_in_bounds e (data : list Z) :
  Z.of_nat (length data) = n → Forall (in_bounds data) (event_cells s det d e).
Proof.
  intros Hn. apply Forall_forall. intros j Hj%event_cells_regions. unfold in_bounds.
  destruct (do_pix _ _ _ _ Hok), (do_tof _ _ _ _ Hok). pose proof (do_size _ _ _ _ Hok). lia.
Qed.
End one_detector.

(** ** All events *)

Section all_events.
Context {TL : TransformerLaws T}.
Context (s : D) (n numDet : Z).
Context (Hok : ∀ det, 1 <= det <= numDet → det_ok s n det (det_at s det)).
Local Abbreviation H := (with_histo s).

Lemma wp_event_dets e dets lc data ev tot :
  Forall (λ det, 1 <= det <= numDet) dets → Z.of_nat (length data) = n →
  Forall (λ det, converts s det (det_at s det) e) dets →
  wp_ok (for_acc dets lc (integrate_event (e.1) (e.2)))
    (λ _ st, st = H
       (foldl bump data (concat ((λ det, event_cells s det (det_at s det) e) <$> dets)))
       (foldl bump ev (concat ((λ det, event_hits det (det_at s det) e) <$> dets)))
       (foldl tick tot (concat ((λ det, event_hits det (det_at s det) e) <$> dets))))
    (H data ev tot).
Proof.
  intros Hd. revert lc data ev tot.
  induction Hd as [|det dets Hdet _ IH]; intros lc data ev tot Hn Hc.
  { done. }
  apply Forall_cons in Hc as [Hc1 Hc].
  unfold wp_ok. cbn [for_acc fmap list_fmap concat]. rewrite !foldl_app. wp_step.
  eapply wp_mono; [apply (wp_integrate_event s n det _ (Hok det Hdet)); [lia|done..]| |done].
  intros lc' st ->. apply IH; [by rewrite length_bumps|done].
Qed.

Lemma event_dets_faults e dets lc data ev tot :
  Forall (λ det, 1 <= det <= numDet) dets → Z.of_nat (length data) = n →
  ¬ Forall (λ det, converts s det (det_at s det) e) dets →
  faults (for_acc dets lc (integrate_event (e.1) (e.2))) BadConversion (H data ev tot).
Proof.
  intros Hd. revert lc data ev tot.
  induction Hd as [|det dets Hdet Hd IH]; intros lc data ev tot Hn Hc; [by destruct Hc|].
  cbn [for_acc]. assert (Decision (converts s det (det_at s det) e)) as Hdec
    by (unfold converts; apply _).
  destruct (decide (converts s det (det_at s det) e)) as [Hc1|Hc1].
  - eapply wp_faults; [apply (wp_integrate_event s n det _ (Hok det Hdet)); [lia|done..]|].
    intros lc' st ->. apply IH; [by rewrite length_bumps|].
    contradict Hc. by constructor.
  - apply faults_bind, (event_faults s n det _ (Hok det Hdet)); done.
Qed.

Lemma all_dets_range : Forall (λ det, 1 <= det <= numDet) (seqZ 1 numDet).
Proof. apply Forall_forall. intros det ?%elem_of_seqZ. lia. Qed.

Lemma wp_integrate_events_from events lc data ev tot :
  Z.of_nat (length data) = n → all_convert s numDet events →
  wp_ok (for_acc events lc (λ '(pixel, tofRaw) lc,
           for_acc (seqZ 1 numDet) lc (integrate_event pixel tofRaw)))
    (λ _ st, st = H (foldl bump data (all_cells s numDet events))
       (foldl bump ev (all_hits s numDet events))
       (foldl tick tot (all_hits s numDet events)))
    (H data ev tot).
Proof.
  revert lc data ev tot. induction events as [|e events IH]; intros lc data ev tot Hn Hc.
  { done. }
  apply Forall_cons in Hc as [Hc1 Hc].
  unfold wp_ok. cbn [for_acc]. wp_step. destruct e as [pixel tofRaw].
  eapply wp_mono; [apply (wp_event_dets (pixel, tofRaw) _ _ _ _ _ all_dets_range Hn Hc1)| |done].
  intros lc' st ->. unfold all_cells, all_hits. cbn [fmap list_fmap concat].
  rewrite !foldl_app. apply IH; [by rewrite length_bumps|done].
Qed.

Lemma wp_integrate_events events data ev tot :
  Z.of_nat (length data) = n → all_convert s numDet events →
  wp_ok (integrate_events numDet events)
    (λ _ st, st = H (foldl bump data (all_cells s numDet events))
       (foldl bump ev (all_hits s numDet events))
       (foldl tick tot (all_hits s numDet events)))
    (H data ev tot).
Proof. apply wp_integrate_events_from. Qed.

(** The first event that does not fit ends the defined behaviour. *)
Lemma integrate_events_faults events lc data ev tot :
  Z.of_nat (length data) = n → ¬ all_convert s numDet events →
  faults (for_acc events lc (λ '(pixel, tofRaw) lc,
            for_acc (seqZ 1 numDet) lc (integrate_event pixel tofRaw)))
    BadConversion (H data ev tot).
Proof.
  revert lc data ev tot. induction events as [|e events IH]; intros lc data ev tot Hn Hc.
  { destruct Hc. constructor. }
  cbn [for_acc]. pose proof (all_convert_dec s numDet [e]) as Hdec.
  destruct e as [pixel tofRaw]. destruct (decide (all_convert s numDet [(pixel, tofRaw)])) as [Hc1|Hc1].
  - eapply wp_faults; [apply (wp_event_dets (pixel, tofRaw) _ _ _ _ _ all_dets_range Hn)|].
    + by apply Forall_cons in Hc1 as [? _].
    + intros lc' st ->. apply IH; [by rewrite length_bumps|]. contradict Hc.
      apply Forall_cons in Hc1 as [? _]. by constructor.
  - apply faults_bind, (event_dets_faults (pixel, tofRaw)); [apply all_dets_range|done|].
    contradict Hc1. by constructor.
Qed.

Lemma all_cells_in_bounds events (data : list Z) :
  Z.of_nat (length data) = n → Forall (in_bounds data) (all_cells s numDet events).
Proof.
  intros Hn. apply Forall_concat, Forall_fmap, Forall_forall. intros e _.
  apply Forall_concat, Forall_fmap, Forall_forall. intros det ?%elem_of_seqZ.
  eapply event_cells_in_bounds; [apply Hok; lia|done].
Qed.
End all_events.
End histogram.
