(* ===== verification/Counts.v ===== *)
(** * What the buffer counts

    The histogram theorems in terms of the events: the general refinement of
    the reference of Histogram.v, the plain X/Y histogram, and the bins of the
    2-D plots. *)

From stdpp Require Import base numbers list option strings.
From S2P Require Import Prelude Float64 FloatDiv Params Transform Driver Sample Alloc Event.
From S2P Require Import Histogram.

Local Open Scope Z_scope.

(** ** Occurrences in concatenations *)

Lemma occ_nil_iff j l : occ j l = 0 ↔ j ∉ l.
Proof.
  induction l as [|i l IH]; [split; [intros _ ?%elem_of_nil|]; done|].
  rewrite occ_cons, not_elem_of_cons, <-IH. assert (0 <= occ j l) by (unfold occ; lia).
  case_decide; split; intros; naive_solver lia.
Qed.

(** Only one element contributes. *)
Lemma occ_concat_one {A} (f : A → list Z) j x l :
  NoDup l → x ∈ l → (∀ y, y ∈ l → y ≠ x → j ∉ f y) →
  occ j (concat (f <$> l)) = occ j (f x).
Proof.
  intros Hnd. induction Hnd as [|y l Hy Hnd IH]; intros Hx Hf; [by apply elem_of_nil in Hx|].
  cbn [fmap list_fmap concat]. rewrite occ_app. apply elem_of_cons in Hx as [->|Hx].
  - assert (occ j (concat (f <$> l)) = 0) as ->; [|lia].
    apply occ_nil_iff. intros (k & Hk & Hjk)%list_elem_of_In%in_concat.
    apply list_elem_of_In, list_elem_of_fmap in Hk as (z & -> & Hz).
    apply (Hf z); [by apply elem_of_cons; right| |by apply list_elem_of_In]. intros ->. done.
  - rewrite IH; [|done|]; [|intros; apply Hf; [by apply elem_of_cons; right|done]].
    assert (occ j (f y) = 0) as ->; [|lia]. apply occ_nil_iff, Hf.
    + apply elem_of_cons. by left.
    + intros ->. done.
Qed.

(** Each event contributes one occurrence or none. *)
Lemma occ_concat_events {A} (f : A → list Z) (P : A → Prop) `{∀ x, Decision (P x)} j l :
  Forall (λ x, occ j (f x) = if decide (P x) then 1 else 0) l →
  occ j (concat (f <$> l)) = Z.of_nat (length (filter P l)).
Proof.
  intros Hf. induction Hf as [|x l Hx Hf IH]; [done|]. cbn [fmap list_fmap concat].
  rewrite occ_app, IH, Hx, filter_cons. case_decide; cbn [length]; lia.
Qed.

Section refinement.
Context {L TS T : Type} {PL : ParamLib param L} {TR : Transformer T} {TL : TransformerLaws T}.
Local Abbreviation D := (driver L TS T).

Lemma with_histo_self (s : D) data :
  p_Data s = Some data →
  s = with_histo s data (m_detEventsSinceLastUpdate s) (m_detTotalEvents s).
Proof. destruct s; cbn. by intros ->. Qed.

Lemma with_histo_data (s : D) data ev tot : p_Data (with_histo s data ev tot) = Some data.
Proof. by destruct s. Qed.

Lemma with_histo_ev (s : D) data ev tot :
  m_detEventsSinceLastUpdate (with_histo s data ev tot) = ev.
Proof. by destruct s. Qed.

(** The events of the list that fall into a detector. *)
Definition events_in (d : detvals) (events : list (Z * Z)) : list (Z * Z) :=
  filter (λ e, in_detector d (e.1)) events.

Lemma hits_count (s : D) numDet events det :
  1 <= det <= numDet →
  occ det (all_hits s numDet events) = Z.of_nat (length (events_in (det_at s det) events)).
Proof.
  intros Hdet. unfold all_hits, events_in. apply occ_concat_events.
  apply Forall_forall. intros e _. unfold all_dets. rewrite (occ_concat_one _ _ det).
  - unfold event_hits. destruct (in_detector _ _); [|done]. unfold occ. cbn.
    by rewrite decide_True.
  - apply NoDup_seqZ.
  - apply elem_of_seqZ. lia.
  - intros k _ Hk. unfold event_hits. destruct (in_detector _ _); [|apply not_elem_of_nil].
    rewrite list_elem_of_singleton. naive_solver.
Qed.

Lemma all_hits_range (s : D) numDet events :
  Forall (λ det, 1 <= det <= numDet) (all_hits s numDet events).
Proof.
  apply Forall_concat, Forall_fmap, Forall_forall. intros e _.
  apply Forall_concat, Forall_fmap, Forall_forall. intros det ?%elem_of_seqZ.
  unfold compose, event_hits. destruct (in_detector (det_at s det) _); repeat constructor; lia.
Qed.

Lemma histogram_words (s : D) numDet events data :
  all_convert s numDet events → p_Data s = Some data → Forall is_u32 data →
  (∀ det, 1 <= det <= numDet → det_ok s (Z.of_nat (length data)) det (det_at s det)) →
  wp_ok (integrate_events numDet events)
    (λ _ s', ∃ data', p_Data s' = Some data' ∧ length data' = length data ∧
       s' = with_histo s data' (foldl bump (m_detEventsSinceLastUpdate s)
              (all_hits s numDet events))
            (foldl tick (m_detTotalEvents s) (all_hits s numDet events)) ∧
       (∀ j v, rd data j = Some v →
          rd data' j = Some (u32 (v + occ j (all_cells s numDet events))))) s.
Proof.
  intros Hc Hdata Hu Hok.
  pose proof (wp_integrate_events s _ numDet Hok events data
    (m_detEventsSinceLastUpdate s) (m_detTotalEvents s) eq_refl Hc) as Hwp.
  rewrite <-with_histo_self in Hwp by done. eapply wp_mono; [exact Hwp| |done].
  intros lc s' ->. eexists. rewrite with_histo_data, length_bumps. split_and!; [done..|].
  intros j v Hv. apply rd_bumps; [by apply (all_cells_in_bounds s _ _ Hok)|done|].
  rewrite Forall_forall in Hu. apply Hu. unfold rd in Hv. case_decide; [|done].
  by eapply list_elem_of_lookup_2.
Qed.

Lemma integrate_events_counts (s : D) numDet events data :
  all_convert s numDet events → p_Data s = Some data → Forall is_u32 data →
  (∀ det, 1 <= det <= numDet → det_ok s (Z.of_nat (length data)) det (det_at s det)) →
  wp_ok (integrate_events numDet events)
    (λ _ s', ∃ data', p_Data s' = Some data' ∧ length data' = length data ∧
       (∀ j v, rd data j = Some v →
          rd data' j = Some (u32 (v + occ j (all_cells s numDet events)))) ∧
       (∀ det c, 1 <= det <= numDet → rd (m_detEventsSinceLastUpdate s) det = Some c →
          is_u32 c → numDet < Z.of_nat (length (m_detEventsSinceLastUpdate s)) →
          rd (m_detEventsSinceLastUpdate s') det
          = Some (u32 (c + Z.of_nat (length (events_in (det_at s det) events)))))) s.
Proof.
  intros Hc Hdata Hu Hok. eapply wp_mono; [by apply histogram_words| |done].
  intros lc s' (data' & Hd' & Hlen' & Hs' & Hw). exists data'. split_and!; [done..|].
  intros det c Hdet Hrd Huc Hlen. rewrite Hs', with_histo_ev, <-(hits_count _ numDet) by done.
  apply rd_bumps; [|done|done]. eapply Forall_impl; [apply (all_hits_range s numDet events)|].
  unfold in_bounds. cbn. lia.
Qed.

(** C3. The event loops of [eventHandler] refine the reference.  On a consistent
    setup, when the time of flight of every event in the range of a detector, after
    the transformation of that detector, fits an unsigned integer
    ([all_convert]), the loops have no undefined behaviour and throw nothing, every
    word [j] of the buffer grows, modulo 2^32, by the number of cells of the
    reference that are [j], the event counter of each detector grows by the number
    of events in its pixel range, and the buffer keeps its length.  When one of these
    times of flight does not fit, such as the error value -1 of a transformation, the
    conversion of line 1188 is undefined behaviour. *)
Theorem integrate_events_histogram (s : D) numDet events data :
  p_Data s = Some data → Forall is_u32 data →
  (∀ det, 1 <= det <= numDet → det_ok s (Z.of_nat (length data)) det (det_at s det)) →
  (all_convert s numDet events →
   wp_ok (integrate_events numDet events)
    (λ _ s', ∃ data', p_Data s' = Some data' ∧ length data' = length data ∧
       (∀ j v, rd data j = Some v →
          rd data' j = Some (u32 (v + occ j (all_cells s numDet events)))) ∧
       (∀ det c, 1 <= det <= numDet → rd (m_detEventsSinceLastUpdate s) det = Some c →
          is_u32 c → numDet < Z.of_nat (length (m_detEventsSinceLastUpdate s)) →
          rd (m_detEventsSinceLastUpdate s') det
          = Some (u32 (c + Z.of_nat (length (events_in (det_at s det) events)))))) s) ∧
  (¬ all_convert s numDet events →
   ∃ s', integrate_events numDet events s = (UB BadConversion, s')).
Proof.
  intros Hdata Hu Hok. split; intros Hc; [by apply integrate_events_counts|].
  rewrite (with_histo_self s data Hdata). by eapply integrate_events_faults.
Qed.
End refinement.

(** ** The plain histogram: X/Y plot, no filter, no mapping, no transformation *)

Section plain.
Context {L TS T : Type} {PL : ParamLib param L} {TR : Transformer T} {TL : TransformerLaws T}.
Local Abbreviation D := (driver L TS T).

(** The cached start values of the detectors are the published ones. *)
Record linked (s : D) (numDet tofMax : Z) (size : Z → Z) : Prop := {
  lk_layout : layout s numDet tofMax size;
  lk_pix det : 1 <= det <= numDet → m_NDArrayStartValues (det_at s det) = pix_offset size det;
  lk_size det : 1 <= det <= numDet → m_detSizeValues (det_at s det) = size det;
  lk_tof det : 1 <= det <= numDet →
    m_NDArrayTOFStartValues (det_at s det) = tof_offset size numDet tofMax det
}.

Record plain (s : D) (det : Z) (d : detvals) : Prop := {
  plain_trans : m_detTOFTransType d = 0;
  plain_map : m_detPixelMappingEnabled d = 0;
  plain_roi : m_detTOFROIEnabled d = 0;
  plain_xy : ref_plot s det = s_ADNED_2D_PLOT_XY
}.

Section run.
Context (s : D) (n numDet tofMax : Z) (size : Z → Z).
Context (Hok : ∀ det, 1 <= det <= numDet → det_ok s n det (det_at s det)).
Context (Hlk : linked s numDet tofMax size).

(** The cells of a detector are in its own regions. *)
Lemma cells_own_region det e j :
  1 <= det <= numDet → j ∈ event_cells s det (det_at s det) e →
  in_region (params s) numDet (PixelRegion det) j ∨
  in_region (params s) numDet (TofRegion det) j.
Proof.
  intros Hdet Hj. eapply event_cells_regions in Hj; [|by apply Hok].
  rewrite (lk_pix _ _ _ _ Hlk), (lk_size _ _ _ _ Hlk), (lk_tof _ _ _ _ Hlk),
    (lay_m_tofMax _ _ _ _ (lk_layout _ _ _ _ Hlk)) in Hj by done.
  unfold in_region. rewrite !(layout_bounds _ _ _ _ (lk_layout _ _ _ _ Hlk)) by done.
  cbn. destruct Hj; [left|right]; lia.
Qed.

(** So a word of a region counts cells of its detector only. *)
Lemma occ_one_detector r e j :
  in_region (params s) numDet r j →
  occ j (all_dets s numDet (λ det d, event_cells s det d e))
  = occ j (event_cells s (region_det r) (det_at s (region_det r)) e).
Proof.
  intros Hr. unfold all_dets. rewrite (occ_concat_one _ _ (region_det r)); [done|..].
  - apply NoDup_seqZ.
  - destruct Hr as [Hr _]. apply elem_of_seqZ. lia.
  - intros det Hdet%elem_of_seqZ Hne Hj. apply cells_own_region in Hj; [|lia].
    destruct Hj as [Hj|Hj]; eapply regions_disjoint in Hj; try exact Hr;
      try apply Hlk; by subst.
Qed.

Section detector.
Context (det : Z) (Hdet : 1 <= det <= numDet) (Hplain : plain s det (det_at s det)).
Local Abbreviation d := (det_at s det).

Lemma plain_cells e :
  is_u32 (e.2) →
  event_cells s det d e
  = if in_detector d (e.1) then
      m_NDArrayStartValues d + (e.1 - m_detStartValues d)
      :: (if decide (e.2 <= tofMax) then [m_NDArrayTOFStartValues d + e.2] else [])
    else [].
Proof.
  intros He. unfold event_cells. destruct (in_detector d (e.1)) eqn:Hin; [|done].
  destruct Hplain as [Ht Hm Hr Hx]. unfold ref_cells, ref_pixel, ref_tof.
  rewrite Ht, Hm. cbn [decide decide_rel]. rewrite !decide_True by done.
  unfold ref_pixel_cell, ref_tof_cell, tof_in_range.
  rewrite decide_False by (rewrite Hr; tauto). rewrite decide_True by done. cbn.
  assert (ref_in_roi d (e.1 - m_detStartValues d) = true) as ->
    by (apply bool_decide_eq_true_2; tauto).
  rewrite (lay_m_tofMax _ _ _ _ (lk_layout _ _ _ _ Hlk)).
  pose proof (do_tofMax _ _ _ _ (Hok det Hdet)) as Hu.
  rewrite (lay_m_tofMax _ _ _ _ (lk_layout _ _ _ _ Hlk)) in Hu.
  rewrite !f_le_of_Z, f_floor_of_Z by mach_lia. f_equal.
  destruct (Z.leb_spec (e.2) tofMax), (Z.leb_spec 0 (e.2)); case_decide; try mach_lia; done.
Qed.

Lemma region_facts :
  m_NDArrayStartValues d + m_detSizeValues d <= m_NDArrayTOFStartValues d ∧
  (∀ k, 0 <= k < m_detSizeValues d →
     in_region (params s) numDet (PixelRegion det) (m_NDArrayStartValues d + k)) ∧
  (∀ t, 0 <= t <= tofMax →
     in_region (params s) numDet (TofRegion det) (m_NDArrayTOFStartValues d + t)).
Proof.
  pose proof (lk_layout _ _ _ _ Hlk) as Hlay. unfold in_region.
  rewrite !(layout_bounds _ _ _ _ Hlay) by done.
  rewrite (lk_pix _ _ _ _ Hlk), (lk_size _ _ _ _ Hlk), (lk_tof _ _ _ _ Hlk) by done. cbn.
  pose proof (pix_region_below _ _ _ _ Hlay det Hdet). pose proof (lay_tof _ _ _ _ Hlay).
  unfold tof_offset. split_and!; [nia|intros; lia|intros; lia].
Qed.

Lemma plain_pixel_occ events k :
  Forall (λ e : Z * Z, is_u32 (e.2)) events →
  0 <= k <= m_detEndValues d - m_detStartValues d → k < m_detSizeValues d →
  occ (m_NDArrayStartValues d + k) (all_cells s numDet events)
  = Z.of_nat (length (filter (λ e, e.1 = m_detStartValues d + k) events)).
Proof.
  intros He Hk Hs. destruct region_facts as (Hsep & Hpr & _). unfold all_cells.
  apply occ_concat_events. eapply Forall_impl; [exact He|]. intros e Hu. cbn in Hu |- *.
  rewrite (occ_one_detector _ _ _ (Hpr k ltac:(lia))), plain_cells by done. cbn [region_det].
  pose proof (do_size _ _ _ _ (Hok det Hdet)). unfold in_detector.
  case_bool_decide as Hin; [|unfold occ; cbn; case_decide; lia]. rewrite occ_cons.
  assert (occ (m_NDArrayStartValues d + k)
    (if decide (e.2 <= tofMax) then [m_NDArrayTOFStartValues d + e.2] else []) = 0) as ->.
  { apply occ_nil_iff. case_decide; [|apply not_elem_of_nil].
    rewrite list_elem_of_singleton. mach_lia. }
  repeat case_decide; lia.
Qed.

Lemma plain_tof_occ events t :
  Forall (λ e : Z * Z, is_u32 (e.2)) events → 0 <= t <= tofMax →
  occ (m_NDArrayTOFStartValues d + t) (all_cells s numDet events)
  = Z.of_nat (length (filter (λ e, e.2 = t) (events_in d events))).
Proof.
  intros He Ht. destruct region_facts as (Hsep & _ & Htr). unfold all_cells, events_in.
  rewrite list_filter_filter. apply occ_concat_events.
  eapply Forall_impl; [exact He|]. intros e Hu. cbn in Hu |- *.
  rewrite (occ_one_detector _ _ _ (Htr t Ht)), plain_cells by done. cbn [region_det].
  destruct (in_detector d (e.1)) eqn:Hin; [|unfold occ; cbn; case_decide; naive_solver].
  destruct (do_range _ _ _ _ (Hok det Hdet)). rewrite occ_cons.
  destruct (do_pixel _ _ _ _ (Hok det Hdet) (e.1 - m_detStartValues d)) as (v & Hv & Hvr).
  { apply bool_decide_eq_true in Hin. lia. }
  unfold ref_pixel in Hv. rewrite decide_True in Hv by apply Hplain. simplify_eq.
  rewrite decide_False by lia.
  repeat case_decide; rewrite ?occ_cons; unfold occ; cbn; repeat case_decide; naive_solver lia.
Qed.
End detector.
End run.

Lemma all_convert_plain (s : D) numDet events :
  Forall (λ e : Z * Z, is_u32 (e.2)) events →
  (∀ k, 1 <= k <= numDet → m_detTOFTransType (det_at s k) ≠ 0 →
     Forall (converts s k (det_at s k)) events) →
  all_convert s numDet events.
Proof.
  intros He Hc. apply Forall_forall. intros e Hin. apply Forall_forall. intros k Hk%elem_of_seqZ.
  destruct (decide (m_detTOFTransType (det_at s k) = 0)) as [Ht|Ht].
  - apply converts_plain; [done|]. rewrite Forall_forall in He. by apply He.
  - assert (1 <= k <= numDet) as Hk' by lia. specialize (Hc k Hk' Ht).
    rewrite Forall_forall in Hc. by apply Hc.
Qed.

(** C4. The plain histogram is exact.  For an X/Y plot without filter, mapping
    and transformation (and with times of flight that fit an unsigned integer in the
    other detectors that have a transformation), after the event loops the word of pixel ID [start + k]
    has grown by the number of events with that pixel ID, and the word of time
    of flight [t] by the number of events of the detector with that time of
    flight (modulo 2^32); events of other detectors do not count. *)
Theorem plain_histogram (s : D) numDet tofMax size events data det :
  linked s numDet tofMax size → p_Data s = Some data → Forall is_u32 data →
  (∀ k, 1 <= k <= numDet → det_ok s (Z.of_nat (length data)) k (det_at s k)) →
  Forall (λ e : Z * Z, is_u32 (e.2)) events →
  (∀ k, 1 <= k <= numDet → m_detTOFTransType (det_at s k) ≠ 0 →
     Forall (converts s k (det_at s k)) events) →
  1 <= det <= numDet → plain s det (det_at s det) →
  wp_ok (integrate_events numDet events)
    (λ _ s', ∃ data', p_Data s' = Some data' ∧
       (∀ k v, 0 <= k <= m_detEndValues (det_at s det) - m_detStartValues (det_at s det) →
          rd data (m_NDArrayStartValues (det_at s det) + k) = Some v →
          rd data' (m_NDArrayStartValues (det_at s det) + k)
          = Some (u32 (v + Z.of_nat (length (filter
                (λ e, e.1 = m_detStartValues (det_at s det) + k) events))))) ∧
       (∀ t v, 0 <= t <= tofMax →
          rd data (m_NDArrayTOFStartValues (det_at s det) + t) = Some v →
          rd data' (m_NDArrayTOFStartValues (det_at s det) + t)
          = Some (u32 (v + Z.of_nat (length (filter
                (λ e, e.2 = t) (events_in (det_at s det) events))))))) s.
Proof.
  intros Hlk Hdata Hu Hok He Hc Hdet Hp.
  eapply wp_mono; [eapply histogram_words; [by apply all_convert_plain|done..]| |done].
  intros lc s' (data' & Hd' & _ & _ & Hw). exists data'. split; [done|]. split.
  - intros k v Hk Hv. rewrite (Hw _ _ Hv). by erewrite plain_pixel_occ by
      (try done; destruct (do_pixel _ _ _ _ (Hok det Hdet) k Hk) as (x & Hx & Hr);
       unfold ref_pixel in Hx; rewrite decide_True in Hx by apply Hp; naive_solver lia).
  - intros t v Ht Hv. rewrite (Hw _ _ Hv). by erewrite plain_tof_occ.
Qed.
End plain.

(** ** The bins of the 2-D plots *)

Section bins.
Context {L TS T : Type} {PL : ParamLib param L}.

Lemma tof_bin_int (s : driver L TS T) t bins tofMax :
  0 <= t <= tofMax → 1 <= bins <= tofMax → tofMax < 2 ^ 31 →
  tof_bin (f_of_Z t) bins tofMax s = (Ok (t / (tofMax / bins)), s).
Proof.
  intros Ht Hb Hm. unfold tof_bin, mbind, M_bind.
  assert (1 <= tofMax / bins) as Hw by (apply Z.div_le_lower_bound; lia).
  assert (tofMax / bins <= tofMax) by (apply Z.div_le_upper_bound; nia).
  assert (0 <= t / (tofMax / bins) <= t).
  { split; [apply Z.div_pos; lia|apply Z.div_le_upper_bound; nia]. }
  rewrite u32_id, decide_False by (try mach_lia; lia). unfold checked, lift. cbn.
  unfold floor_i32. rewrite f_floor_div_of_Z by mach_lia. cbn.
  by rewrite decide_True by mach_lia.
Qed.

(** C5. Without transformation the bin that the 2-D plots compute in floating
    point is the integer quotient of the time of flight by the bin width
    [m_tofMax / tofBins]: neither the conversion nor the rounding of the
    division moves an event to another bin. *)
Theorem tof_bin_exact (s : driver L TS T) t bins tofMax :
  0 <= t <= tofMax → 1 <= bins <= tofMax → tofMax < 2 ^ 31 →
  tof_bin (f_of_Z t) bins tofMax s = (Ok (t / (tofMax / bins)), s).
Proof. apply tof_bin_int. Qed.

(** C6. The largest time of flight gets a bin outside its row: for
    [t = m_tofMax] the bin is at least [tofBins], so the event is counted in the
    row of the next pixel. *)
Theorem tof_bin_last_spills (s : driver L TS T) bins tofMax :
  1 <= bins <= tofMax → tofMax < 2 ^ 31 →
  ∃ q, tof_bin (f_of_Z tofMax) bins tofMax s = (Ok q, s) ∧ bins <= q.
Proof.
  intros Hb Hm. rewrite tof_bin_int by lia. eexists. split; [done|].
  assert (1 <= tofMax / bins) by (apply Z.div_le_lower_bound; lia).
  apply Z.div_le_lower_bound; [lia|]. rewrite Z.mul_comm. apply Z.mul_div_le. lia.
Qed.
End bins.

(** ** A small setup: two detectors, allocated and fetched *)

Definition sample_fetched : sample_driver :=
  Eval vm_compute in
    snd (for_return (seqZ 1 2) fetch_detector
      (snd (allocArray calloc_always sample_ready))).

Lemma base_covers n : tr_covers ADnEDTransformBase n.
Proof.
  split; [apply base_wf|]. intros k a Ha. unfold array_ptr, rd in Ha.
  case_decide; [|done]. exfalso. revert Ha. generalize (Z.to_nat k). intros i.
  by do 6 (destruct i as [|i]; [done|]).
Qed.

Ltac small_det_ok :=
  intros Hdet; match type of Hdet with 1 <= ?det <= 2 =>
    assert (det = 1 ∨ det = 2) as [-> | ->] by lia end;
  (split; try (by vm_compute);
   try (intros _; eexists; split; [reflexivity|apply base_covers]); try (vm_compute; intuition congruence);
   [intros k Hk; exists k; split; [by vm_compute|];
    match type of Hk with _ <= _ <= ?a => let a := eval vm_compute in a in
      change (0 <= k <= a) in Hk end;
    match goal with |- _ <= _ < ?b => let b := eval vm_compute in b in
      change (0 <= k < b) end; lia]).

Lemma sample_det_ok det :
  1 <= det <= 2 → det_ok sample_fetched 18 det (det_at sample_fetched det).
Proof. small_det_ok. Qed.

Lemma sample_converts :
  all_convert sample_fetched 2 [(10, 3); (21, 5); (11, 3); (99, 0)].
Proof.
  apply all_convert_plain; [by repeat constructor|]. intros k Hk.
  assert (k = 1 ∨ k = 2) as [-> | ->] by lia; by intros [].
Qed.

(** The first detector with a transformation whose result is -1. *)
Definition sample_untransformable : sample_driver :=
  Eval vm_compute in
    on_m_det (λ ds, upd ds 1
      {| (det_at sample_fetched 1) with m_detTOFTransType := 9; m_detTOFTransScale := f_of_Z 1 |}) sample_fetched.

Lemma sample_untransformable_ok det :
  1 <= det <= 2 → det_ok sample_untransformable 18 det (det_at sample_untransformable det).
Proof. small_det_ok. Qed.

Lemma integrate_events_histogram_witness :
  wp_ok (integrate_events 2 [(10, 3); (21, 5); (11, 3); (99, 0)])
    (λ _ s', ∃ data', p_Data s' = Some data' ∧ length data' = 18%nat ∧
       (∀ j v, rd (replicate 18 0) j = Some v →
          rd data' j = Some (u32 (v + occ j (all_cells sample_fetched 2
            [(10, 3); (21, 5); (11, 3); (99, 0)])))) ∧
       (∀ det c, 1 <= det <= 2 →
          rd (m_detEventsSinceLastUpdate sample_fetched) det = Some c → is_u32 c →
          2 < Z.of_nat (length (m_detEventsSinceLastUpdate sample_fetched)) →
          rd (m_detEventsSinceLastUpdate s') det
          = Some (u32 (c + Z.of_nat (length (events_in (det_at sample_fetched det)
              [(10, 3); (21, 5); (11, 3); (99, 0)])))))) sample_fetched ∧
  ∃ s', integrate_events 2 [(21, 5); (10, 3)] sample_untransformable = (UB BadConversion, s').
Proof.
  split.
  - refine (proj1 (integrate_events_histogram sample_fetched 2 _ (replicate 18 0) _ _ _) _);
      [reflexivity|by repeat constructor|exact sample_det_ok|exact sample_converts].
  - refine (proj2 (integrate_events_histogram sample_untransformable 2 _ (replicate 18 0) _ _ _) _);
      [reflexivity|by repeat constructor|exact sample_untransformable_ok|].
    apply (bool_decide_eq_false_1 _). vm_compute. reflexivity.
Defined.

Example sample_cells :
  all_cells sample_fetched 2 [(10, 3); (21, 5); (11, 3); (99, 0)] = [0; 9; 5; 17; 1; 9].
Proof. vm_compute. reflexivity. Qed.

Lemma sample_linked : linked sample_fetched 2 5 sample_size.
Proof.
  split; [split|..].
  - done.
  - done.
  - by apply dets_1_2.
  - by vm_compute.
  - intros old. by vm_compute.
  - apply dets_1_2; split; intros old; by vm_compute.
  - apply dets_1_2; split; intros old; by vm_compute.
  - by vm_compute.
  - by vm_compute.
  - by vm_compute.
  - exists (replicate 18 0). split; by vm_compute.
  - apply dets_1_2; by vm_compute.
  - apply dets_1_2; by vm_compute.
  - apply dets_1_2; by vm_compute.
Qed.

Lemma plain_histogram_witness :
  wp_ok (integrate_events 2 [(10, 3); (21, 5); (11, 3)])
    (λ _ s', ∃ data', p_Data s' = Some data' ∧
       (∀ k v, 0 <= k <= 3 → rd (replicate 18 0) (0 + k) = Some v →
          rd data' (0 + k) = Some (u32 (v + Z.of_nat (length (filter
                (λ e : Z * Z, e.1 = 10 + k) [(10, 3); (21, 5); (11, 3)]))))) ∧
       (∀ t v, 0 <= t <= 5 → rd (replicate 18 0) (6 + t) = Some v →
          rd data' (6 + t) = Some (u32 (v + Z.of_nat (length (filter
                (λ e, e.2 = t) (events_in (det_at sample_fetched 1)
                   [(10, 3); (21, 5); (11, 3)]))))))) sample_fetched.
Proof.
  apply (plain_histogram sample_fetched 2 5 sample_size _ (replicate 18 0) 1).
  - exact sample_linked.
  - reflexivity.
  - by repeat constructor.
  - exact sample_det_ok.
  - by repeat constructor.
  - intros k Hk. assert (k = 1 ∨ k = 2) as [-> | ->] by lia; by intros [].
  - lia.
  - split; by vm_compute.
Defined.

Lemma tof_bin_exact_witness :
  0 <= 9 <= 10 ∧ tof_bin (f_of_Z 9) 3 10 sample_new = (Ok 3, sample_new).
Proof. split; [lia|]. apply (tof_bin_exact sample_new 9 3 10); lia. Defined.

Lemma tof_bin_last_spills_witness :
  1 <= 4 <= 10 ∧ ∃ q, tof_bin (f_of_Z 10) 4 10 sample_new = (Ok q, sample_new) ∧ 4 <= q.
Proof. split; [lia|]. apply (tof_bin_last_spills sample_new 4 10); lia. Defined.
