(* ===== verification/Handler.v ===== *)
(** * The event handler as a whole

    The mutex is released on every path, sequence numbers and time stamps are
    tracked per channel, a structure is dropped or integrated as a whole, and a
    paused driver still follows the packets. *)

From stdpp Require Import base numbers list option strings.
From Stdlib Require Import PrimFloat.
From S2P Require Import Prelude Float64 FloatDiv Params Transform Driver Sample Alloc Ops.
From S2P Require Import Event Histogram Counts.

Local Open Scope Z_scope.

(** ** Lock balance *)

Section locks.
Context {L TS T : Type} {PL : ParamLib param L} {TL : TimeStampLib TS} {TR : Transformer T}.
Local Abbreviation D := (driver L TS T).

(** A run of [m] that returns leaves the mutex [k] levels deeper. *)
Definition locks {A} (k : Z) (m : M D A) : Prop :=
  ∀ s a s', m s = (Ok a, s') → lockDepth s' = lockDepth s + k.

Lemma locks_ret {A} (a : A) : locks 0 (mret a).
Proof. intros s a' s' [= _ <-]. lia. Qed.

Lemma locks_bind {A B} k1 k2 (m : M D A) (f : A → M D B) :
  locks k1 m → (∀ a, locks k2 (f a)) → locks (k1 + k2) (m ≫= f).
Proof.
  intros Hm Hf s b s'. unfold mbind, M_bind.
  destruct (m s) as [[a|e|u] s1] eqn:E; [|done..]. intros E'.
  apply Hm in E. apply Hf in E'. lia.
Qed.

Lemma locks_gets {A} (f : D → A) : locks 0 (gets f).
Proof. intros s a s' [= _ <-]. lia. Qed.

Lemma locks_lift {A} (o : outcome A) : locks 0 (lift o).
Proof. intros s a s' [= _ <-]. lia. Qed.

Lemma locks_checked {A} u (o : option A) : locks 0 (checked u o).
Proof. apply locks_lift. Qed.

Lemma locks_int_result z : locks 0 (int_result z).
Proof. unfold int_result. case_decide; [apply locks_ret|by intros ???]. Qed.

Lemma locks_modify g : (∀ s, lockDepth (g s) = lockDepth s) → locks 0 (modify g).
Proof. intros Hg s a s' [= _ <-]. rewrite Hg. lia. Qed.

Lemma locks_setInt a p v : locks 0 (setInt a p v).
Proof. intros s x s' [= _ <-]. destruct s; cbn. lia. Qed.

Lemma locks_setDouble a p v : locks 0 (setDouble a p v).
Proof. intros s x s' [= _ <-]. destruct s; cbn. lia. Qed.

Lemma locks_lock : locks 1 lock.
Proof. intros s x s' [= _ <-]. by destruct s. Qed.

Lemma locks_unlock : locks (-1) unlock.
Proof. intros s x s' [= _ <-]. by destruct s. Qed.

Lemma locks_for {A} (l : list A) body : (∀ x, locks 0 (body x)) → locks 0 (for_ l body).
Proof.
  intros Hb. induction l as [|x l IH]; cbn; [apply locks_ret|].
  by apply (locks_bind 0 0).
Qed.

Lemma locks_for_acc {A B} (l : list A) (b : B) body :
  (∀ x b, locks 0 (body x b)) → locks 0 (for_acc l b body).
Proof.
  intros Hb. revert b. induction l as [|x l IH]; intros b; cbn; [apply locks_ret|].
  by apply (locks_bind 0 0).
Qed.

Lemma locks_for_return {A} (l : list A) body :
  (∀ x, locks 0 (body x)) → locks 0 (for_return l body).
Proof.
  intros Hb. induction l as [|x l IH]; cbn; [apply locks_ret|].
  apply (locks_bind 0 0); [done|]. intros [|]; [done|apply locks_ret].
Qed.
End locks.

Create HintDb locks.
#[export] Hint Resolve locks_ret locks_gets locks_lift locks_checked locks_int_result
  locks_setInt locks_setDouble locks_lock locks_unlock : locks.

(** Splits a program into its calls, each of which leaves the mutex as it
    found it unless it is [lock], [unlock] or a call that [down] knows to
    release it. *)
Ltac locks_seq n :=
  lazymatch goal with
  | |- locks ?k _ => let k2 := eval vm_compute in (k - n) in apply (locks_bind n k2)
  end.

Ltac locks_split down :=
  repeat (intros; lazymatch goal with
  | |- locks _ (lock ≫= _) => locks_seq 1; [apply locks_lock|]
  | |- locks _ (unlock ≫= _) => locks_seq (-1); [apply locks_unlock|]
  | |- locks _ (_ ≫= _) => first [locks_seq (-1); [down|] | locks_seq 0]
  | |- locks _ (if ?b then _ else _) => destruct b
  | |- locks _ (match ?x with _ => _ end) => destruct x
  | |- locks _ (modify _) => apply locks_modify; intros []; reflexivity
  | |- locks _ (for_ _ _) => apply locks_for
  | |- locks _ (for_acc _ _ _) => apply locks_for_acc
  | |- locks _ (for_return _ _) => apply locks_for_return
  | |- locks _ (getInt _ _ _) => apply locks_gets
  | |- locks _ (getDouble _ _ _) => apply locks_gets
  | |- _ => solve [auto with locks]
  end).

Section handler_locks.
Context {L TS T : Type} {PL : ParamLib param L} {TL : TimeStampLib TS} {TR : Transformer T}.
Local Abbreviation D := (driver L TS T).

Lemma locks_update_timer a b : locks 0 (update_timer a b : M D _).
Proof. unfold update_timer. locks_split fail. Qed.

Lemma locks_fetch_detector det : locks 0 (fetch_detector det : M D _).
Proof. unfold fetch_detector. locks_split fail. Qed.

Lemma locks_check_timestamp ts ch : locks (-1) (check_timestamp ts ch : M D _).
Proof. unfold check_timestamp, check_seq. locks_split fail. Qed.

Lemma locks_integrate_event p t det lc : locks 0 (integrate_event p t det lc : M D _).
Proof.
  unfold integrate_event, event_tof, map_pixel, integrate_pixel, integrate_tof, plot_index,
    tof_bin, int_rem, int_quot, in_pixel_roi, count, int_rem. locks_split fail.
Qed.

Lemma locks_post_updates t nc nd q : locks 0 (post_updates t nc nd q : M D _).
Proof.
  unfold post_updates, post_channel, post_detector, event_rate. locks_split fail.
Qed.

Lemma locks_handle_data pv p due nc nd np q : locks 0 (handle_data pv p due nc nd np q : M D _).
Proof.
  unfold handle_data, integrate_events, integrate_pulse.
  locks_split fail; auto using locks_post_updates.
  intros [p' t'] lc. apply locks_for_acc. auto using locks_integrate_event.
Qed.

(** C7. The mutex is balanced: on every path by which [eventHandler] returns
    (unknown channel, invalid region of interest, bad or backward time stamp,
    missing fields, no buffer, different lengths, paused, with and without
    the parameter update) the lock depth is what it was on entry. *)
Theorem eventHandler_lock_balance pv channelID nowSecs nowNsecs (s s' : D) r :
  eventHandler pv channelID nowSecs nowNsecs s = (Ok r, s') →
  lockDepth s' = lockDepth s.
Proof.
  intros E. rewrite <-(Z.add_0_r (lockDepth s)). revert E. generalize s, r, s'.
  change (locks 0 (eventHandler pv channelID nowSecs nowNsecs : M D ())).
  unfold eventHandler. locks_split ltac:(apply locks_check_timestamp);
    auto using locks_update_timer, locks_fetch_detector, locks_handle_data.
Qed.
End handler_locks.

(** ** Sequence numbers *)

Section sequence.
Context {L TS T : Type} {PL : ParamLib param L} {DL : DriverLib L} {TL : TimeStampLib TS}.
Local Abbreviation D := (driver L TS T).

(** C8. Sequence numbers.  After the first packet of a channel, [check_seq]
    accepts the successor (modulo 2^32) without touching a parameter.  When
    [lost > 0] packets are missing it publishes the first missing number and adds
    [lost + 2] to the count of missing packets: two more than were lost.  Either
    way it remembers the new number. *)
Theorem check_seq_counts (s : D) ch last lost n :
  0 <= ch < ADNED_MAX_CHANNELS → is_u32 last → last ≠ u32 (-1) → 0 <= lost < 2 ^ 32 - 1 →
  rd (m_lastSeqID s) ch = Some last →
  rd (m_seqID s) ch = Some (u32 (last + 1 + lost)) →
  int_is (params s) ch ADnEDSeqIDNumMissingParam n →
  wp_ok (check_seq ch)
    (λ _ s', rd (m_lastSeqID s') ch = Some (u32 (last + 1 + lost)) ∧
       if decide (lost = 0) then params s' = params s
       else int_is (params s') ch ADnEDSeqIDMissingParam (i32 (u32 (last + 1))) ∧
            int_is (params s') ch ADnEDSeqIDNumMissingParam (i32 (u32 (n + lost + 2)))) s.
Proof.
  intros Hch Hl Hne Hlost Hlast Hseq Hn.
  assert (0 <= ch <= ADNED_MAX_DETS) as Hca by (unfold ADNED_MAX_CHANNELS, ADNED_MAX_DETS in *; lia).
  assert (i32 last ≠ -1) as Hm1.
  { intros E. apply Hne. by rewrite <-(u32_id last), <-u32_i32, E by done. }
  assert (in_bounds (m_lastSeqID s) ch) as Hin by (by eapply rd_in_bounds).
  unfold wp_ok, check_seq. wp_steps. rewrite Hlast, Hseq. cbn [default from_option]. unfold id.
  rewrite (decide_True (P := i32 last ≠ -1)) by done. destruct (decide (lost = 0)) as [->|Hz].
  - rewrite Z.add_0_r, decide_False by tauto. wp_steps. destruct s; cbn in *.
    by rewrite rd_upd_eq.
  - rewrite decide_True.
    2:{ intros E%u32_eq. replace (last + 1 + lost - (last + 1)) with lost in E by lia.
        rewrite u32_id in E by mach_lia. done. }
    wp_step. apply wp_setInt. unfold getInt. wp_steps. apply wp_setInt. wp_steps.
    destruct s; cbn in *. rewrite rd_upd_eq by done. split; [done|].
    split; intros old; params_simpl; [done|].
    rewrite Hn. f_equal. replace (n + (u32 (last + 1 + lost) - last + 1))
      with (u32 (last + 1 + lost) + (n - last + 1)) by lia.
    rewrite u32_add_l. f_equal. lia.
Qed.
End sequence.

(** ** Dropped structures *)

Section dropped.
Context {L TS T : Type} {PL : ParamLib param L} {TL : TimeStampLib TS} {TR : Transformer T}.
Local Abbreviation D := (driver L TS T).

(** What integration changes. *)
Definition integrated (s : D) : option (list Z) * list f64 * Z * f64 :=
  (p_Data s, m_detTotalEvents s, m_pulseCounter s, m_pChargeInt s).

Definition same_integrated (s s' : D) : Prop := integrated s' = integrated s.

#[global] Instance same_integrated_preorder : PreOrder same_integrated.
Proof. split; unfold same_integrated; [done|]. intros s1 s2 s3. congruence. Qed.
End dropped.

Ltac keeps_leaf :=
  idtac; lazymatch goal with
  | |- stable _ _ => apply stable_pure; intros []; reflexivity
  end.

Ltac keeps_split := stable_split keeps_leaf.

Section dropped_theorem.
Context {L TS T : Type} {PL : ParamLib param L} {TL : TimeStampLib TS} {TR : Transformer T}.
Local Abbreviation D := (driver L TS T).

(** A structure the handler can integrate: all four fields, arrays of the same
    length. *)
Definition pv_complete (pv : pv_struct TS) : bool :=
  match pv_timeStamp pv, pv_pcharge pv, pv_pixels pv, pv_tof pv with
  | Attached _, Some _, Some pixels, Some tofs => bool_decide (length pixels = length tofs)
  | _, _, _, _ => false
  end.

Lemma keeps_prologue nowSecs nowNsecs det :
  stable same_integrated (update_timer nowSecs nowNsecs : M D _) ∧ stable same_integrated (fetch_detector det : M D _).
Proof. unfold update_timer, fetch_detector. split; keeps_split. Qed.

Lemma keeps_check_timestamp ts ch : stable same_integrated (check_timestamp ts ch : M D _).
Proof. unfold check_timestamp, check_seq. keeps_split. Qed.

#[local] Instance attached_dec (ts : attached TS) : Decision (∃ t, ts = Attached t).
Proof. destruct ts; [left; eauto|right; naive_solver..]. Defined.

Lemma check_timestamp_unattached (ts : attached TS) ch (s s' : D) r :
  (∀ t, ts ≠ Attached t) → check_timestamp ts ch s = (Ok r, s') → r = None.
Proof. destruct ts; [naive_solver|by intros _ [= <- _]..]. Qed.

(** C9. A structure that lacks a field, whose arrays differ in length, or that
    arrives on an unknown channel is dropped as a whole: [eventHandler] leaves
    the buffer, the event totals, the pulse counter and the integrated charge
    as they were. *)
Theorem eventHandler_drops pv channelID nowSecs nowNsecs (s s' : D) r :
  pv_complete pv = false ∨ ADNED_MAX_CHANNELS <= channelID →
  eventHandler pv channelID nowSecs nowNsecs s = (Ok r, s') →
  integrated s' = integrated s.
Proof.
  intros Hdrop. revert s r s'.
  change (stable same_integrated (eventHandler pv channelID nowSecs nowNsecs : M D ())). unfold eventHandler.
  apply stable_bind; [exact _|keeps_split|intros paused].
  apply stable_bind; [exact _|by apply keeps_prologue|intros due].
  case_decide; [keeps_split|]. destruct Hdrop as [Hpv|]; [|lia].
  apply stable_bind; [exact _|keeps_split|intros numChan]. apply stable_bind; [exact _|keeps_split|intros numDet].
  apply stable_bind; [exact _|apply stable_for_return; [exact _|]; intros; by apply (keeps_prologue 0 0)|intros go].
  destruct go; cbn [negb]; [|keeps_split].
  apply stable_bind; [exact _|keeps_split|intros _]. apply stable_bind; [exact _|keeps_split|intros _].
  destruct (decide (∃ t, pv_timeStamp pv = Attached t)) as [[t Ht]|Hts].
  - apply stable_bind; [exact _|apply keeps_check_timestamp|intros o].
    unfold pv_complete in Hpv. rewrite Ht in Hpv. unfold handle_data.
    destruct o, (pv_pcharge pv), (pv_pixels pv), (pv_tof pv);
      try case_bool_decide; keeps_split; done.
  - intros s a s'. unfold mbind at 1, M_bind at 1.
    destruct (check_timestamp _ _ s) as [[o|e|u] s1] eqn:E; [|done..].
    pose proof (keeps_check_timestamp _ _ _ _ _ E) as Hk. unfold same_integrated in Hk |- *.
    rewrite <-Hk.
    apply check_timestamp_unattached in E as ->; [by intros [= _ <-]|naive_solver].
Qed.
End dropped_theorem.

(** ** Time stamps *)

Section timestamps.
Context {L TS T : Type} {PL : ParamLib param L} {DL : DriverLib L} {TL : TimeStampLib TS}.
Local Abbreviation D := (driver L TS T).

(** A time stamp older than the last one of the channel is refused: the
    parameter BAD_TIMESTAMP becomes 1, the mutex is released, and the last time
    stamp, the sequence numbers and the integrated data stay. *)
Lemma check_timestamp_backwards (s : D) ch now last :
  0 <= ch < ADNED_MAX_CHANNELS →
  rd (m_TimeStampLast s) ch = Some last → ts_gt last now = true →
  wp_ok (check_timestamp (Attached now) ch)
    (λ r s', r = None ∧ lockDepth s' = lockDepth s - 1 ∧
       int_is (params s') ch ADnEDBadTimeStampParam 1 ∧
       m_TimeStampLast s' = m_TimeStampLast s ∧ m_seqID s' = m_seqID s ∧
       m_lastSeqID s' = m_lastSeqID s ∧ integrated s' = integrated s) s.
Proof.
  intros Hch Hlast Hgt.
  assert (0 <= ch <= ADNED_MAX_DETS) as Hca by (unfold ADNED_MAX_CHANNELS, ADNED_MAX_DETS in *; lia).
  unfold wp_ok, check_timestamp. do 4 wp_step. destruct s; cbn in *. rewrite Hlast.
  do 2 wp_step. rewrite Hgt. wp_step. apply wp_setInt. wp_step. unfold unlock. do 2 wp_step.
  cbn. split_and!; try done. intros old. by params_simpl.
Qed.
End timestamps.

(** ** Accepted structures *)

Section setup.
Context {L TS T : Type} {PL : ParamLib param L} {TL : TimeStampLib TS} {TR : Transformer T}.
Local Abbreviation D := (driver L TS T).

(** The states agree on what the integration reads. *)
Record same_setup (s s' : D) : Prop := {
  ss_det : m_det s' = m_det s;
  ss_tofMax : m_tofMax s' = m_tofMax s;
  ss_map : p_PixelMap s' = p_PixelMap s;
  ss_mapSize : m_PixelMapSize s' = m_PixelMapSize s;
  ss_trans : p_Transform s' = p_Transform s;
  ss_plot det old : getIntegerParam (params s') det ADnEDDet2DTypeParam old
    = getIntegerParam (params s) det ADnEDDet2DTypeParam old;
  ss_bins det old : getIntegerParam (params s') det ADnEDDetTOFNumBinsParam old
    = getIntegerParam (params s) det ADnEDDetTOFNumBinsParam old
}.

#[global] Instance same_setup_refl : Reflexive same_setup.
Proof. by intros s. Qed.

#[global] Instance same_setup_trans : Transitive same_setup.
Proof. intros s1 s2 s3 [] []. split; intros; etrans; eauto. Qed.

Lemma same_setup_ref s s' :
  same_setup s s' →
  (∀ det, ref_plot s' det = ref_plot s det) ∧ (∀ det, ref_bins s' det = ref_bins s det) ∧
  (∀ det d k, ref_pixel s' det d k = ref_pixel s det d k) ∧
  (∀ det d k t, ref_tof s' det d k t = ref_tof s det d k t) ∧
  (∀ det, det_at s' det = det_at s det).
Proof.
  intros [H1 H2 H3 H4 H5 H6 H7].
  unfold ref_plot, ref_bins, ref_pixel, ref_tof, det_at.
  rewrite H1, H2, H3, H4, H5. split_and!; intros; by rewrite ?H6, ?H7.
Qed.

Lemma same_setup_cells s s' numDet events :
  same_setup s s' → all_cells s' numDet events = all_cells s numDet events.
Proof.
  intros Hs. destruct (same_setup_ref s s' Hs) as (H1 & H2 & H3 & H4 & H5).
  unfold all_cells, all_dets. f_equal. apply list_fmap_ext. intros i e _. f_equal.
  apply list_fmap_ext. intros k det _. rewrite H5. unfold event_cells.
  destruct (in_detector _ _); [|done]. unfold ref_cells. rewrite H3, H4.
  unfold ref_pixel_cell, ref_tof_cell. by rewrite H1, H2, (ss_tofMax _ _ Hs).
Qed.

Lemma same_setup_converts s s' numDet events :
  same_setup s s' → all_convert s numDet events → all_convert s' numDet events.
Proof.
  intros Hs Hc. destruct (same_setup_ref s s' Hs) as (_ & _ & _ & H4 & H5).
  eapply Forall_impl; [exact Hc|]. intros e He. eapply Forall_impl; [exact He|].
  intros det Hdet. unfold converts in *. by rewrite H5, H4.
Qed.

Lemma same_setup_det_ok s s' n det d : same_setup s s' → det_ok s n det d → det_ok s' n det d.
Proof.
  intros Hs [??????????????]. destruct (same_setup_ref s s' Hs) as (H1 & H2 & H3 & H4 & H5).
  destruct Hs as [E1 E2 E3 E4 E5 E6 E7].
  split; rewrite ?E1, ?E2, ?E5, ?H1, ?H2; try done.
  - intros k Hk. rewrite H3. eauto.
  - intros old. by rewrite E6.
  - intros old. by rewrite !E7.
  - by rewrite E7.
Qed.

(** The handler's fetch loop. *)
Definition fetch_dets (l : L) (dets : list Z) (ds : list detvals) : list detvals :=
  foldl (λ ds det, upd ds det (read_detector l det (default detvals_zero (rd ds det)))) ds dets.

Definition fetched (s : D) (numDet : Z) : D :=
  on_m_det (fetch_dets (params s) (seqZ 1 numDet)) s.

Lemma length_fetch_dets l dets : ∀ ds, length (fetch_dets l dets ds) = length ds.
Proof.
  induction dets as [|det dets IH]; intros ds; cbn; [done|].
  unfold fetch_dets in IH. rewrite IH. apply length_upd.
Qed.
End setup.

Section accepted.
Context {L TS T : Type} {PL : ParamLib param L} {DL : DriverLib L} {TL : TimeStampLib TS}.
Context {TR : Transformer T} {TRL : TransformerLaws T}.
Local Abbreviation D := (driver L TS T).
Implicit Types (s : D).

Lemma fetch_loop s n dets : ∀ ds,
  length ds = n →
  Forall (λ det, 0 <= det < Z.of_nat n ∧
    ∀ old, 0 < getIntegerParam (params s) det ADnEDDetPixelROISizeXParam old) dets →
  for_return dets fetch_detector (on_m_det (λ _, ds) s)
  = (Ok true, on_m_det (λ _, fetch_dets (params s) dets ds) s).
Proof.
  induction dets as [|det dets IH]; intros ds Hn Hd; [done|].
  apply Forall_cons in Hd as [[Hdet Hroi] Hd]. cbn [for_return].
  assert (in_bounds ds det) as Hin by (unfold in_bounds; lia).
  apply rd_Some in Hin as [d0 Hd0]. unfold mbind at 1, M_bind at 1.
  assert (fetch_detector det (on_m_det (λ _, ds) s)
    = (Ok true, on_m_det (λ _, upd ds det (read_detector (params s) det d0)) s)) as ->.
  { unfold fetch_detector, mbind, M_bind, gets, modify, checked, lift. destruct s; cbn in *.
    rewrite Hd0. cbn. unfold mret, M_ret. do 2 f_equal. apply bool_decide_eq_true_2, Hroi. }
  rewrite IH; [|by rewrite length_upd|done]. do 2 f_equal. cbn [fetch_dets foldl].
  by rewrite Hd0.
Qed.

(** The update timer. *)
Definition timer_now (nowSecs nowNsecs : Z) : f64 :=
  f_add (f_of_Z nowSecs) (f_div (f_of_Z nowNsecs) 1e9%float).

Definition timer_due s (nowSecs nowNsecs : Z) : option f64 :=
  let diff := f_sub (timer_now nowSecs nowNsecs) (m_lastTimeSecs s) in
  if f_lt diff (f_div (getDoubleParam (params s) 0 ADnEDEventUpdatePeriodParam (f_of_Z 0))
                  1000%float)
  then None else Some diff.

Definition timer_state s (nowSecs nowNsecs : Z) : D :=
  on_m_nowTimeSecs (λ _, timer_now nowSecs nowNsecs)
    (match timer_due s nowSecs nowNsecs with
     | None => s
     | Some _ => on_m_lastTimeSecs (λ _, timer_now nowSecs nowNsecs) s
     end).

Lemma update_timer_run s nowSecs nowNsecs :
  update_timer nowSecs nowNsecs s
  = (Ok (timer_due s nowSecs nowNsecs), timer_state s nowSecs nowNsecs).
Proof.
  unfold update_timer, timer_state, timer_due, mbind, M_bind, lock, unlock, getDouble, gets, modify.
  destruct s; cbn. fold (timer_now nowSecs nowNsecs).
  destruct (f_lt _ _); cbn; by rewrite Z.add_simpl_r.
Qed.

(** What the time stamp check leaves of the state it started in. *)
Record followed s s' (ch : Z) (now : TS) : Prop := {
  fo_setup : same_setup s s';
  fo_integrated : integrated s' = integrated s;
  fo_size : m_dataMaxSize s' = m_dataMaxSize s;
  fo_events : m_detEventsSinceLastUpdate s' = m_detEventsSinceLastUpdate s;
  fo_seq : rd (m_lastSeqID s') ch = Some (u32 (getUserTag now));
  fo_lock : lockDepth s' = lockDepth s - 1;
  fo_timer : m_lastTimeSecs s' = m_lastTimeSecs s
}.

(** The last time stamp of a channel after a structure of the time [now]. *)
Definition stamped (last now : TS) : TS :=
  ts_put last (getSecondsPastEpoch now) (getNanoseconds now).

Lemma wp_check_timestamp s ch now last :
  0 <= ch → length (m_lastSeqID s) = length (m_seqID s) → in_bounds (m_seqID s) ch →
  rd (m_TimeStampLast s) ch = Some last → ts_gt last now = false →
  wp_ok (check_timestamp (Attached now) ch)
    (λ r s', r = Some (bool_decide (ch = 0) && ts_ne last now) ∧ followed s s' ch now ∧
       rd (m_TimeStampLast s') ch = Some (stamped last now)) s.
Proof.
  intros Hch Hlen Hin Hlast Hgt.
  assert (in_bounds (m_lastSeqID s) ch) as Hin' by (unfold in_bounds in *; lia).
  unfold wp_ok, check_timestamp, check_seq. do 4 wp_step.
  destruct s; cbn in *. rewrite Hlast. do 2 wp_step. rewrite Hgt. wp_steps. cbn.
  rewrite rd_upd_eq by done. cbn [default from_option]. unfold id.
  lazymatch goal with |- wp _ _ _ ?st =>
    eapply (wp_mono _ (λ _ s', ∃ l, s' = on_params (λ _, l) st ∧
      ∀ det p old, p = ADnEDDet2DTypeParam ∨ p = ADnEDDetTOFNumBinsParam →
        getIntegerParam l det p old = getIntegerParam params det p old) _ (λ _ _, False))
  end; [| |done].
  - case_decide; [case_decide|]; wp_steps.
    + apply wp_setInt. unfold getInt. wp_steps. apply wp_setInt. wp_steps.
      eexists. split; [reflexivity|]. cbn. intros det p old Hp.
      rewrite !get_set_int_ne by (destruct Hp; naive_solver). done.
    + exists params. split; [reflexivity|done].
    + exists params. split; [reflexivity|done].
  - intros [] s' (l & -> & Hl). wp_steps. unfold unlock. wp_steps. cbn.
    split_and!; [done| |by apply rd_upd_eq, (rd_in_bounds _ _ last)].
    split; cbn; try done. 2:{ by rewrite rd_upd_eq. }
    split; cbn; try done; intros; apply Hl; tauto.
Qed.

(** ** The parameter update *)

(** The time since the last update is a number of at least 1 second. *)
Definition one_second (due : option f64) : Prop :=
  ∀ diff, due = Some diff → ∃ b, scaled diff = Some b ∧ 2 ^ 1074 <= b.

Lemma wp_event_rate n diff b (Q : Z → D → Prop) E st :
  is_u32 n → scaled diff = Some b → 2 ^ 1074 <= b → (∀ r, Q r st) →
  wp (event_rate n diff) Q E st.
Proof.
  intros Hn Hb Hge HQ. unfold event_rate.
  destruct (f_div_floor (f_of_Z n) diff b n Hb Hge) as (q & Hq & Hr);
    [mach_lia|rewrite f_le_of_Z by mach_lia; apply Z.leb_le; mach_lia
    |rewrite f_le_of_Z by mach_lia; apply Z.leb_le; lia|].
  unfold floor_u32. rewrite Hq. cbn. rewrite decide_True by mach_lia. wp_steps. apply HQ.
Qed.

(** What posting the parameters keeps. *)
Record posted s s' : Prop := {
  po_integrated : integrated s' = integrated s;
  po_seq : m_lastSeqID s' = m_lastSeqID s;
  po_lock : lockDepth s' = lockDepth s;
  po_events : Forall is_u32 (m_detEventsSinceLastUpdate s) →
    Forall is_u32 (m_detEventsSinceLastUpdate s')
}.

#[local] Instance posted_refl : Reflexive posted.
Proof. by intros s. Qed.

#[local] Instance posted_trans : Transitive posted.
Proof. intros s1 s2 s3 [] []. split; [congruence..|auto]. Qed.

Lemma posted_params g s : posted s (on_params g s).
Proof. by destruct s. Qed.

Lemma rd_default_u32 l k : Forall is_u32 l → is_u32 (default 0 (rd l k)).
Proof.
  intros Hl. unfold rd. case_decide; [|done]. destruct (l !! _) eqn:E; [|done]. cbn.
  by eapply Forall_lookup_1.
Qed.

Lemma wp_post_detector s diff b det :
  scaled diff = Some b → 2 ^ 1074 <= b → Forall is_u32 (m_detEventsSinceLastUpdate s) →
  wp_ok (post_detector diff det) (λ _ s', posted s s') s.
Proof.
  intros Hb Hge Hu. unfold wp_ok, post_detector. do 3 wp_step.
  eapply wp_event_rate; [by apply rd_default_u32|done|done|]. intros r.
  wp_step. apply wp_setInt. wp_steps. unfold setDouble. unfold wp at 1. wp_steps.
  destruct s; cbn in *. split; cbn; try done. intros _. by apply Forall_insert.
Qed.

Lemma wp_post_updates s diff b numChan numDet q :
  scaled diff = Some b → 2 ^ 1074 <= b → Forall is_u32 (m_detEventsSinceLastUpdate s) →
  is_u32 (m_eventsSinceLastUpdate s) →
  wp_ok (post_updates diff numChan numDet q) (λ _ s', posted s s') s.
Proof.
  intros Hb Hge Hu Hn. unfold wp_ok, post_updates. wp_step.
  eapply (wp_mono _ (λ _ s', posted s s' ∧ m_eventsSinceLastUpdate s' = m_eventsSinceLastUpdate s)
    _ (λ _ _, False)); [| |done].
  { eapply wp_mono; [apply (wp_for _ _ (λ _ s', posted s s' ∧
      m_eventsSinceLastUpdate s' = m_eventsSinceLastUpdate s) (λ _ _, False))|done|done]; [done|].
    intros l1 chan l2 s' _ [Hp He]. unfold post_channel. wp_steps. apply wp_setInt. wp_steps.
    apply wp_setInt. wp_steps. split; [|by destruct s'].
    by do 2 (etrans; [|apply posted_params]). }
  intros [] s1 [Hp He]. wp_steps. apply wp_setInt. do 3 wp_step.
  eapply wp_event_rate; [destruct s1; cbn in *; by rewrite He|done|done|]. intros r.
  wp_step. apply wp_setInt. wp_steps.
  eapply (wp_mono _ (λ _ s', posted s s') _ (λ _ _, False)); [| |done].
  { eapply wp_mono; [apply (wp_for _ _ (λ _ s', posted s s') (λ _ _, False))|done|done].
    - etrans; [exact Hp|]. by destruct s1.
    - intros l1 det l2 s' _ Hp'. eapply wp_mono; [eapply wp_post_detector; [done..|]| |done].
      + by apply Hp'.
      + intros ? s'' Hp''. by etrans. }
  intros [] s2 Hp2. wp_step. unfold setDouble, wp at 1. wp_steps. unfold wp at 1. wp_step.
  by do 2 (etrans; [|apply posted_params]).
Qed.

(** ** The data part *)

Definition pulsed s (newPulse : bool) : Z :=
  if newPulse then u32 (m_pulseCounter s + 1) else m_pulseCounter s.

Lemma u32_bumps cells : ∀ ev, Forall is_u32 ev → Forall is_u32 (foldl bump ev cells).
Proof.
  induction cells as [|i l IH]; intros ev Hev; cbn; [done|]. apply IH.
  apply Forall_insert; [done|]. apply u32_range.
Qed.

Lemma wp_handle_data s (pv : pv_struct TS) pixels tofs paused due numChan numDet newPulse q data :
  pv_pixels pv = Some pixels → pv_tof pv = Some tofs → length pixels = length tofs →
  all_convert s numDet (zip pixels tofs) → p_Data s = Some data → one_second due →
  Forall is_u32 (m_detEventsSinceLastUpdate s) →
  (∀ det, 1 <= det <= numDet → det_ok s (Z.of_nat (length data)) det (det_at s det)) →
  wp_ok (handle_data pv paused due numChan numDet newPulse q)
    (λ _ s', lockDepth s' = lockDepth s ∧ m_lastSeqID s' = m_lastSeqID s ∧
       if decide (paused = 0) then
         p_Data s' = Some (foldl bump data (all_cells s numDet (zip pixels tofs))) ∧
         m_pulseCounter s' = pulsed s newPulse
       else p_Data s' = Some data ∧ m_pulseCounter s' = m_pulseCounter s) s.
Proof.
  intros Hpx Htf Hlen Hnd Hdata Hdue Hev Hok. unfold wp_ok, handle_data.
  rewrite Hpx, Htf, decide_False by tauto. unfold lock. wp_steps.
  set (s1 := on_lockDepth _ _).
  assert (same_setup s s1 ∧ p_Data s1 = Some data ∧ lockDepth s1 = lockDepth s + 1 ∧
    m_lastSeqID s1 = m_lastSeqID s ∧ m_pulseCounter s1 = m_pulseCounter s ∧
    m_detEventsSinceLastUpdate s1 = m_detEventsSinceLastUpdate s ∧
    is_u32 (m_eventsSinceLastUpdate s1)) as (Hss & Hd1 & Hl1 & Hq1 & Hp1 & He1 & Hn1).
  { unfold s1. destruct s; cbn in *. split_and!; try done. apply u32_range. }
  clearbody s1.
  eapply (wp_mono _ (λ _ s2, lockDepth s2 = lockDepth s + 1 ∧ m_lastSeqID s2 = m_lastSeqID s ∧
    Forall is_u32 (m_detEventsSinceLastUpdate s2) ∧ is_u32 (m_eventsSinceLastUpdate s2) ∧
    if decide (paused = 0) then
      p_Data s2 = Some (foldl bump data (all_cells s numDet (zip pixels tofs))) ∧
      m_pulseCounter s2 = pulsed s newPulse
    else p_Data s2 = Some data ∧ m_pulseCounter s2 = m_pulseCounter s) _ (λ _ _, False));
    [| |done].
  - case_decide as Hpa; [|wp_steps; by rewrite He1].
    pose proof (wp_integrate_events s1 (Z.of_nat (length data)) numDet
      ltac:(intros; rewrite (proj2 (proj2 (proj2 (proj2 (same_setup_ref _ _ Hss)))));
            eapply same_setup_det_ok; eauto)
      (zip pixels tofs) data (m_detEventsSinceLastUpdate s1) (m_detTotalEvents s1) eq_refl
      (same_setup_converts _ _ _ _ Hss Hnd))
      as Hrun.
    rewrite <-(with_histo_self s1 data Hd1) in Hrun. wp_step.
    eapply wp_mono; [exact Hrun| |done]. intros lc s2 ->.
    rewrite (same_setup_cells _ _ _ _ Hss). unfold integrate_pulse, pulsed.
    assert (Forall is_u32 (foldl bump (m_detEventsSinceLastUpdate s1)
      (all_hits s1 numDet (zip pixels tofs)))) by (apply u32_bumps; by rewrite He1).
    destruct newPulse; wp_steps; destruct s1; cbn in *; subst; done.
  - intros [] s2 (Hl2 & Hq2 & He2 & Hn2 & Hres). wp_step.
    eapply (wp_mono _ (λ _ s3, posted s2 s3) _ (λ _ _, False)); [| |done].
    { destruct due as [diff|]; [|by wp_step]. destruct (Hdue diff eq_refl) as (b & Hb & Hge).
      by eapply wp_post_updates. }
    intros [] s3 [Hi3 Hq3 Hl3 _]. unfold unlock. wp_step.
    injection Hi3 as Ed _ Ep _. destruct s3; cbn in *. subst.
    case_decide; split_and!; try lia; try congruence; destruct Hres; congruence.
Qed.

(** ** The whole handler *)

(** A structure for channel [ch], and a driver that can integrate it. *)
Record ready s (pv : pv_struct TS) (ch numDet : Z) (data pixels tofs : list Z) (now last : TS)
    : Prop := {
  rdy_ch : 0 <= ch < ADNED_MAX_CHANNELS;
  rdy_numDet : 0 <= numDet ∧
    Z.min (getIntegerParam (params s) 0 ADnEDNumDetParam 0) ADNED_MAX_DETS = numDet;
  rdy_roi det old : 1 <= det <= numDet →
    0 < getIntegerParam (params s) det ADnEDDetPixelROISizeXParam old;
  rdy_dets : length (m_det s) = n_dets1;
  rdy_seqs : length (m_seqID s) = n_channels ∧ length (m_lastSeqID s) = n_channels;
  rdy_ts : pv_timeStamp pv = Attached now;
  rdy_last : rd (m_TimeStampLast s) ch = Some last ∧ ts_gt last now = false;
  rdy_charge : is_Some (pv_pcharge pv);
  rdy_pixels : pv_pixels pv = Some pixels;
  rdy_tofs : pv_tof pv = Some tofs;
  rdy_lengths : length pixels = length tofs;
  rdy_data : p_Data s = Some data ∧ m_dataMaxSize s ≠ 0;
  rdy_events : Forall is_u32 (m_detEventsSinceLastUpdate s);
  rdy_ok det : 1 <= det <= numDet →
    det_ok (fetched s numDet) (Z.of_nat (length data)) det (det_at (fetched s numDet) det);
  rdy_convert : all_convert (fetched s numDet) numDet (zip pixels tofs)
}.

(** From the update timer to the state in which the data part starts. *)
Lemma wp_prologue s pv ch numDet data pixels tofs now last nowSecs nowNsecs
    (Q : () → D → Prop) (k : bool → M D ()) :
  ready s pv ch numDet data pixels tofs now last →
  (∀ s1, followed (on_lockDepth (λ n, n + 1) (fetched (timer_state s nowSecs nowNsecs) numDet))
           s1 ch now → rd (m_TimeStampLast s1) ch = Some (stamped last now) →
     wp_ok (k (bool_decide (ch = 0) && ts_ne last now)) Q s1) →
  wp_ok
    (go ← for_return (seqZ 1 numDet) fetch_detector;
     if negb go then mret ()
     else
       lock ;;
       modify (on_m_seqCounter (alter (λ n, u32 (n + 1)) (Z.to_nat ch))) ;;
       r ← check_timestamp (pv_timeStamp pv) ch;
       match r with None => mret () | Some newPulse => k newPulse end) Q
    (timer_state s nowSecs nowNsecs).
Proof.
  intros [] Hk. unfold wp_ok. wp_step.
  set (s0 := timer_state s nowSecs nowNsecs).
  assert (params s0 = params s ∧ m_det s0 = m_det s) as [Hp0 Hd0].
  { unfold s0, timer_state. destruct (timer_due _ _ _); by destruct s. }
  assert (s0 = on_m_det (λ _, m_det s0) s0) as Hs0 by (by destruct s0).
  unfold wp at 1. rewrite Hs0, (fetch_loop _ n_dets1);
    [|by rewrite Hd0|apply Forall_forall; intros det ?%elem_of_seqZ; rewrite Hp0; split;
      [change (Z.of_nat n_dets1) with 5; unfold ADNED_MAX_DETS in *; lia|intros; apply rdy_roi0; lia]].
  cbn [negb]. unfold lock. wp_steps. rewrite rdy_ts0.
  set (s2 := on_m_seqCounter _ _).
  assert (same_setup (on_lockDepth (λ n, n + 1) (fetched s0 numDet)) s2 ∧
    integrated s2 = integrated s0 ∧ m_dataMaxSize s2 = m_dataMaxSize s0 ∧
    m_detEventsSinceLastUpdate s2 = m_detEventsSinceLastUpdate s0 ∧
    lockDepth s2 = lockDepth s0 + 1 ∧ m_seqID s2 = m_seqID s ∧ m_lastSeqID s2 = m_lastSeqID s ∧
    m_TimeStampLast s2 = m_TimeStampLast s ∧ m_lastTimeSecs s2 = m_lastTimeSecs s0)
    as (H1 & H2 & H3 & H4 & H5 & H6 & H7 & H8 & H9).
  { unfold s2. unfold fetched. rewrite Hd0. unfold s0, timer_state.
    destruct (timer_due s nowSecs nowNsecs); by destruct s. }
  clearbody s2. eapply wp_mono; [eapply wp_check_timestamp| |done]; try apply rdy_last0.
  - lia.
  - rewrite H6, H7. destruct rdy_seqs0. congruence.
  - unfold in_bounds. rewrite H6. destruct rdy_seqs0 as [-> _].
    change (Z.of_nat n_channels) with 4. unfold ADNED_MAX_CHANNELS in *. lia.
  - rewrite H8. apply rdy_last0.
  - intros r s3 (-> & [F1 F2 F3 F4 F5 F6 F7] & Hts). apply Hk; [|done].
    split; [by etrans| | | |done| |].
    + rewrite F2, H2. unfold s0. by destruct (timer_state s nowSecs nowNsecs).
    + rewrite F3, H3. unfold s0. by destruct (timer_state s nowSecs nowNsecs).
    + rewrite F4, H4. unfold s0. by destruct (timer_state s nowSecs nowNsecs).
    + rewrite F6, H5. unfold s0. by destruct (timer_state s nowSecs nowNsecs).
    + rewrite F7, H9. unfold s0. by destruct (timer_state s nowSecs nowNsecs).
Qed.

(** What the data part leaves alone: the setup, the time stamps and the timer. *)
Record undisturbed s s' : Prop := {
  un_setup : same_setup s s';
  un_stamps : m_TimeStampLast s' = m_TimeStampLast s;
  un_timer : m_lastTimeSecs s' = m_lastTimeSecs s
}.

#[local] Instance undisturbed_preorder : PreOrder undisturbed.
Proof.
  split; [by intros s|]. intros s1 s2 s3 [A1 A2 A3] [B1 B2 B3]. split; [by etrans|congruence..].
Qed.

Lemma undisturbed_setInt a p v :
  p ≠ ADnEDDet2DTypeParam → p ≠ ADnEDDetTOFNumBinsParam → stable undisturbed (setInt a p v).
Proof.
  intros H1 H2 s x s' [= _ <-]. destruct s. split; [|done..].
  split; cbn; try done; intros; by apply get_set_int_ne; congruence.
Qed.

Lemma undisturbed_setDouble a p v :
  p ≠ ADnEDDet2DTypeParam → p ≠ ADnEDDetTOFNumBinsParam → stable undisturbed (setDouble a p v).
Proof.
  intros H1 H2 s x s' [= _ <-]. destruct s. split; [|done..].
  split; cbn; try done; intros; by apply get_int_set_double; congruence.
Qed.

Ltac undisturbed_leaf :=
  idtac; lazymatch goal with
  | |- stable _ (setInt _ _ _) => by apply undisturbed_setInt
  | |- stable _ (setDouble _ _ _) => by apply undisturbed_setDouble
  | |- stable _ _ => apply stable_pure; intros []; by split
  end.

Lemma undisturbed_integrate_events numDet events :
  stable undisturbed (integrate_events numDet events).
Proof.
  apply stable_for_acc; [exact _|]. intros [pixel tofRaw] lc. unfold integrate_event, event_tof,
    map_pixel, integrate_pixel, plot_index, integrate_tof, in_pixel_roi, tof_bin, int_rem, int_quot,
    count. stable_split undisturbed_leaf.
Qed.

Lemma undisturbed_handle_data pv paused due numChan numDet newPulse q :
  stable undisturbed (handle_data pv paused due numChan numDet newPulse q).
Proof.
  unfold handle_data, integrate_pulse, post_updates, post_channel, post_detector, event_rate.
  stable_split undisturbed_leaf. apply undisturbed_integrate_events.
Qed.

(** The timer state has everything else from the state before. *)
Lemma timer_state_kept s nowSecs nowNsecs :
  let s' := timer_state s nowSecs nowNsecs in
  params s' = params s ∧ integrated s' = integrated s ∧ m_dataMaxSize s' = m_dataMaxSize s ∧
  m_detEventsSinceLastUpdate s' = m_detEventsSinceLastUpdate s ∧ lockDepth s' = lockDepth s ∧
  ∀ numDet, same_setup (fetched s numDet) (fetched s' numDet).
Proof.
  cbn. unfold timer_state, fetched. destruct (timer_due _ _ _); destruct s; cbn; by split_and!.
Qed.

(** An accepted structure: what it does to the histograms, and the state for the
    next one. *)
Lemma wp_eventHandler s pv ch numDet data pixels tofs now last nowSecs nowNsecs :
  ready s pv ch numDet data pixels tofs now last →
  one_second (timer_due s nowSecs nowNsecs) →
  wp_ok (eventHandler pv ch nowSecs nowNsecs)
    (λ _ s', (lockDepth s' = lockDepth s ∧
       rd (m_lastSeqID s') ch = Some (u32 (getUserTag now)) ∧
       if decide (getIntegerParam (params s) 0 ADnEDPauseParam 0 = 0) then
         p_Data s' = Some (foldl bump data
           (all_cells (fetched s numDet) numDet (zip pixels tofs))) ∧
         m_pulseCounter s' = pulsed s (bool_decide (ch = 0) && ts_ne last now)
       else p_Data s' = Some data ∧ m_pulseCounter s' = m_pulseCounter s) ∧
       same_setup (fetched s numDet) s' ∧ rd (m_TimeStampLast s') ch = Some (stamped last now) ∧
       m_lastTimeSecs s' = m_lastTimeSecs (timer_state s nowSecs nowNsecs)) s.
Proof.
  intros Hr Hdue. pose proof Hr as []. unfold wp_ok, eventHandler, getInt. do 3 wp_step.
  unfold wp at 1. rewrite update_timer_run, decide_False by lia. do 4 wp_step.
  destruct (timer_state_kept s nowSecs nowNsecs) as (-> & T2 & T3 & T4 & T5 & T6).
  destruct rdy_numDet0 as [Hnd ->]. destruct rdy_charge0 as [q Hq]. rewrite Hq.
  eapply wp_prologue; [done|]. set (s0 := timer_state s nowSecs nowNsecs) in *. clearbody s0.
  intros s1 Hf Hts.
  assert (same_setup (fetched s numDet) s1) as Hss.
  { etrans; [apply T6|]. etrans; [|apply Hf]. by destruct s0. }
  destruct Hf as [_ F2 F3 F4 F5 F6 F7].
  assert (integrated s1 = integrated s ∧ m_dataMaxSize s1 = m_dataMaxSize s ∧
    m_detEventsSinceLastUpdate s1 = m_detEventsSinceLastUpdate s ∧ lockDepth s1 = lockDepth s ∧
    m_lastTimeSecs s1 = m_lastTimeSecs s0) as (Hi & H2 & H4 & H5 & H6).
  { rewrite F2, F3, F4, F6, F7, <-T2, <-T3, <-T4, <-T5. destruct s0; cbn. split_and!; (done || lia). }
  destruct rdy_data0 as [Hd Hsz]. injection Hi as H1 _ H3 _. rewrite Hd in H1. rewrite <-H4 in rdy_events0.
  unfold wp_ok. do 4 wp_step. rewrite H1, H2, decide_False by done.
  eapply wp_mono; [apply (wp_stable undisturbed); [apply undisturbed_handle_data|];
    eapply wp_handle_data; try done| |done].
  - by eapply same_setup_converts.
  - intros det Hdet.
    rewrite (proj2 (proj2 (proj2 (proj2 (same_setup_ref _ _ Hss))))).
    eapply same_setup_det_ok; eauto.
  - intros [] s' [(Hl & Hs & Hres) [U1 U2 U3]].
    rewrite Hl, Hs, U2, U3, <-(same_setup_cells _ _ _ _ Hss).
    unfold pulsed in *. rewrite H3 in Hres. split_and!; try done. by etrans.
Qed.

(** One structure.  On a driver that is [ready] for a structure,
    [eventHandler] ends without undefined behaviour and without
    an exception; if the driver is not paused every word of the buffer has been
    advanced by the cells of the reference for all events of the structure
    against all detectors, and a new pulse on channel 0 has been counted; if it
    is paused the buffer and the pulse counter are as they were.  In both cases
    the sequence number of the channel is remembered and the mutex released. *)
Lemma eventHandler_integrates s pv ch numDet data pixels tofs now last nowSecs nowNsecs :
  ready s pv ch numDet data pixels tofs now last →
  one_second (timer_due s nowSecs nowNsecs) →
  wp_ok (eventHandler pv ch nowSecs nowNsecs)
    (λ _ s', lockDepth s' = lockDepth s ∧
       rd (m_lastSeqID s') ch = Some (u32 (getUserTag now)) ∧
       if decide (getIntegerParam (params s) 0 ADnEDPauseParam 0 = 0) then
         p_Data s' = Some (foldl bump data
           (all_cells (fetched s numDet) numDet (zip pixels tofs))) ∧
         m_pulseCounter s' = pulsed s (bool_decide (ch = 0) && ts_ne last now)
       else p_Data s' = Some data ∧ m_pulseCounter s' = m_pulseCounter s) s.
Proof.
  intros Hr Hdue. eapply wp_mono; [by apply wp_eventHandler| |done].
  intros [] s' [Hs _]. exact Hs.
Qed.
End accepted.

(** ** The handler on the small setup *)

Definition sample_pv : pv_struct stamp :=
  PvStruct (Attached (Stamp 5 0 1)) (Some 1%float) (Some [10; 21; 11]) (Some [3; 5; 3]).

Lemma sample_fetched_eq : fetched sample_alloc 2 = sample_fetched.
Proof. vm_compute. reflexivity. Qed.

Lemma sample_handler_ready :
  ready sample_alloc sample_pv 0 2 (replicate 18 0) [10; 21; 11] [3; 5; 3]
    (Stamp 5 0 1) (Stamp 0 0 0).
Proof.
  split.
  - done.
  - split; [done|by vm_compute].
  - intros det old. revert det. apply dets_1_2; by vm_compute.
  - done.
  - done.
  - done.
  - split; by vm_compute.
  - by eexists.
  - done.
  - done.
  - done.
  - split; by vm_compute.
  - by repeat constructor.
  - rewrite sample_fetched_eq. exact sample_det_ok.
  - apply (bool_decide_eq_true_1 _). vm_compute. reflexivity.
Qed.

Lemma sample_one_second : one_second (timer_due sample_alloc 10 0).
Proof.
  intros diff Hdiff. exists (10 * 2 ^ 1074). split; [|lia].
  assert (diff = 10%float) as -> by (vm_compute in Hdiff; congruence). by vm_compute.
Qed.

Lemma eventHandler_integrates_witness :
  wp_ok (eventHandler sample_pv 0 10 0)
    (λ _ s', lockDepth s' = 0 ∧ rd (m_lastSeqID s') 0 = Some 1 ∧
       p_Data s' = Some (foldl bump (replicate 18 0)
         (all_cells (fetched sample_alloc 2) 2 [(10, 3); (21, 5); (11, 3)])) ∧
       m_pulseCounter s' = 1) sample_alloc.
Proof.
  exact (eventHandler_integrates sample_alloc sample_pv 0 2 _ _ _ _ _ 10 0
           sample_handler_ready sample_one_second).
Defined.

Lemma eventHandler_lock_balance_witness :
  lockDepth (eventHandler sample_pv 0 10 0 sample_alloc).2 = lockDepth sample_alloc.
Proof.
  apply (eventHandler_lock_balance sample_pv 0 10 0 sample_alloc _ ()).
  vm_compute. reflexivity.
Defined.

Definition sample_short : pv_struct stamp :=
  PvStruct (Attached (Stamp 5 0 1)) (Some 1%float) (Some [10; 21; 11]) (Some [3; 5]).

Lemma eventHandler_drops_witness :
  integrated (eventHandler sample_short 0 10 0 sample_alloc).2 = integrated sample_alloc.
Proof.
  apply (eventHandler_drops sample_short 0 10 0 sample_alloc _ ()).
  - left. reflexivity.
  - vm_compute. reflexivity.
Defined.

(** Channel 1 has seen number 7, and number 11 arrives. *)
Definition sample_gap : sample_driver :=
  on_m_lastSeqID (λ l, upd l 1 7) (on_m_seqID (λ l, upd l 1 11) sample_alloc).

Lemma check_seq_counts_witness :
  wp_ok (check_seq 1)
    (λ _ s', rd (m_lastSeqID s') 1 = Some 11 ∧
       int_is (params s') 1 ADnEDSeqIDMissingParam 8 ∧
       int_is (params s') 1 ADnEDSeqIDNumMissingParam 5) sample_gap.
Proof.
  exact (check_seq_counts sample_gap 1 7 3 0 ltac:(done) ltac:(done) ltac:(done) ltac:(done)
           ltac:(reflexivity) ltac:(reflexivity) ltac:(intros old; vm_compute; reflexivity)).
Defined.

Lemma check_timestamp_backwards_witness :
  wp_ok (check_timestamp (Attached (Stamp (-1) 0 1)) 0)
    (λ r s', r = None ∧ lockDepth s' = lockDepth sample_alloc - 1 ∧
       int_is (params s') 0 ADnEDBadTimeStampParam 1 ∧
       m_TimeStampLast s' = m_TimeStampLast sample_alloc ∧
       m_seqID s' = m_seqID sample_alloc ∧ m_lastSeqID s' = m_lastSeqID sample_alloc ∧
       integrated s' = integrated sample_alloc) sample_alloc.
Proof.
  apply (check_timestamp_backwards sample_alloc 0 (Stamp (-1) 0 1) (Stamp 0 0 0));
    [done|reflexivity|reflexivity].
Defined.
