(* ===== verification/Monitor.v ===== *)
(** * The monitor loop

    Models [nEDMonitorRequester::monitorEvent] (nEDChannel.cpp), which passes the
    structures waiting in a monitor to the event handler, and proves what a whole
    queue of structures does to the histograms.

    A queue element is a structure and the time of the clock when it is handled.
    [monitor->release] belongs to pvData; an exception it throws is printed and
    leaves nothing behind. *)

From stdpp Require Import base numbers list option strings.
From stdpp Require Import sets.
From Stdlib Require Import PrimFloat.
From S2P Require Import Prelude Float64 Params Transform Driver Sample Alloc Ops Event.
From S2P Require Import Histogram Counts Handler.

Local Open Scope Z_scope.

Section monitor.
Context {L TS T : Type} {PL : ParamLib param L} {TL : TimeStampLib TS} {TR : Transformer T}.
Local Abbreviation D := (driver L TS T).

Definition update : Type := pv_struct TS * (Z * Z).

Definition monitorEvent (channelID : Z) (queue : list update) : M D () :=
  for_ queue (λ '(pv, (nowSecs, nowNsecs)), eventHandler pv channelID nowSecs nowNsecs).
End monitor.

(** ** What the handler keeps for the next structure *)

Section kept.
Context {L TS T : Type} {PL : ParamLib param L} {DL : DriverLib L} {TL : TimeStampLib TS}.
Context {TR : Transformer T}.
Local Abbreviation D := (driver L TS T).

(** The parameters the handler reads are not among those it writes. *)
Definition handler_writes (p : param) : bool :=
  match p with
  | ADnEDSeqIDMissingParam | ADnEDSeqIDNumMissingParam | ADnEDBadTimeStampParam
  | ADnEDSeqCounterParam | ADnEDSeqIDParam | ADnEDPulseCounterParam | ADnEDEventRateParam
  | ADnEDDetEventRateParam | ADnEDDetEventTotalParam | ADnEDPChargeParam
  | ADnEDPChargeIntParam => true
  | _ => false
  end.

Record kept (s s' : D) : Prop := {
  kp_int a p old : handler_writes p = false →
    getIntegerParam (params s') a p old = getIntegerParam (params s) a p old;
  kp_double a p old : handler_writes p = false →
    getDoubleParam (params s') a p old = getDoubleParam (params s) a p old;
  kp_size : m_dataMaxSize s' = m_dataMaxSize s;
  kp_seqID : length (m_seqID s') = length (m_seqID s);
  kp_lastSeqID : length (m_lastSeqID s') = length (m_lastSeqID s);
  kp_events : Forall is_u32 (m_detEventsSinceLastUpdate s) →
    Forall is_u32 (m_detEventsSinceLastUpdate s')
}.

#[local] Instance kept_preorder : PreOrder kept.
Proof.
  split; [by intros s|]. intros s1 s2 s3 [A1 A2 A3 A4 A5 A6] [B1 B2 B3 B4 B5 B6].
  split; intros; rewrite ?B1, ?B2 by done; auto; congruence.
Qed.

Lemma kept_setInt a p v : handler_writes p = true → stable kept (setInt a p v : M D _).
Proof.
  intros Hp s x s' [= _ <-]. destruct s. split; cbn; try done; intros a' p' old Hp'.
  - apply get_set_int_ne. congruence.
  - apply get_double_set_int. congruence.
Qed.

Lemma kept_setDouble a p v : handler_writes p = true → stable kept (setDouble a p v : M D _).
Proof.
  intros Hp s x s' [= _ <-]. destruct s. split; cbn; try done; intros a' p' old Hp'.
  - apply get_int_set_double. congruence.
  - by apply (setDoubleParam_frame params a p v a' p' ltac:(congruence)).
Qed.

Ltac kept_leaf :=
  idtac; lazymatch goal with
  | |- stable _ (setInt _ _ _) => by apply kept_setInt
  | |- stable _ (setDouble _ _ _) => by apply kept_setDouble
  | |- stable _ (modify (on_m_detEventsSinceLastUpdate (λ l, upd l _ 0))) =>
      apply stable_modify; intros []; split; try done; cbn; intros; by apply Forall_insert
  | |- stable _ (modify (on_m_detEventsSinceLastUpdate (alter _ _))) =>
      apply stable_modify; intros []; split; try done; cbn; intros;
      apply Forall_alter; [done|]; intros; apply u32_range
  | |- stable _ (modify _) =>
      apply stable_modify; intros []; split; try done; cbn; by rewrite ?length_upd
  | |- stable _ _ => apply stable_pure; intros []; by split
  end.

Lemma kept_integrate_events numDet events : stable kept (integrate_events numDet events : M D _).
Proof.
  apply stable_for_acc; [exact _|]. intros [pixel tofRaw] lc. unfold integrate_event, event_tof,
    map_pixel, integrate_pixel, plot_index, integrate_tof, in_pixel_roi, tof_bin, int_rem, int_quot,
    count. stable_split kept_leaf.
Qed.

Lemma kept_eventHandler pv ch secs nsecs : stable kept (eventHandler pv ch secs nsecs : M D _).
Proof.
  unfold eventHandler, update_timer, fetch_detector, check_timestamp, check_seq, handle_data,
    integrate_pulse, post_updates, post_channel, post_detector, event_rate.
  stable_split kept_leaf; apply kept_integrate_events.
Qed.
End kept.

(** ** Fetching again *)

Section fetch.
Context {L TS T : Type} {PL : ParamLib param L} {DL : DriverLib L} {TL : TimeStampLib TS}.
Context {TR : Transformer T}.
Local Abbreviation D := (driver L TS T).

(** The parameters of the detectors do not depend on the variables they are read
    into: they have been set. *)
Definition reads_set (l : L) (numDet : Z) : Prop :=
  ∀ det d d', 1 <= det <= numDet → read_detector l det d = read_detector l det d'.

Lemma kept_read (s s' : D) det d :
  kept s s' → read_detector (params s') det d = read_detector (params s) det d.
Proof. intros [H1 H2 _ _ _ _]. unfold read_detector. by rewrite !H1, !H2 by done. Qed.

Lemma fetch_dets_lookup l dets (ds : list detvals) k :
  Forall (λ det, 0 <= det) dets →
  (∀ det d d', det ∈ dets → read_detector l det d = read_detector l det d') →
  fetch_dets l dets ds !! k
  = (if decide (Z.of_nat k ∈ dets) then λ _, read_detector l (Z.of_nat k) detvals_zero else id)
      <$> ds !! k.
Proof.
  intros Hpos. revert ds. induction Hpos as [|det dets Hdet Hpos IH]; intros ds Hset.
  { rewrite decide_False by apply not_elem_of_nil. change (fetch_dets l [] ds) with ds. by destruct (ds !! k). }
  change (fetch_dets l (det :: dets) ds) with
    (fetch_dets l dets (upd ds det (read_detector l det (default detvals_zero (rd ds det))))).
  rewrite IH by (intros; apply Hset; set_solver). unfold upd.
  destruct (decide (Z.of_nat k = det)) as [<-|Hne].
  - rewrite Nat2Z.id, (decide_True (P := _ ∈ _ :: _)) by set_solver.
    destruct (decide (k < length ds)%nat) as [Hk|Hk].
    + rewrite list_lookup_insert_eq by done. destruct (lookup_lt_is_Some_2 ds k Hk) as [d ->]. cbn.
      case_decide; [done|]. unfold id. f_equal. apply Hset. set_solver.
    + rewrite list_insert_ge, lookup_ge_None_2 by lia. done.
  - rewrite list_lookup_insert_ne by lia. f_equal.
    by rewrite (decide_ext (Z.of_nat k ∈ det :: dets) (Z.of_nat k ∈ dets)) by set_solver.
Qed.

Lemma fetch_again (s s' : D) numDet ds :
  kept s s' → reads_set (params s) numDet →
  fetch_dets (params s') (seqZ 1 numDet) (fetch_dets (params s) (seqZ 1 numDet) ds)
  = fetch_dets (params s) (seqZ 1 numDet) ds.
Proof.
  intros Hk Hset. apply list_eq. intros k.
  assert (Forall (λ det, 0 <= det) (seqZ 1 numDet)) as Hpos
    by (apply Forall_forall; intros det ?%elem_of_seqZ; lia).
  rewrite fetch_dets_lookup; [|done|].
  2:{ intros det d d' Hdet%elem_of_seqZ. rewrite !(kept_read s s') by done. apply Hset. lia. }
  rewrite fetch_dets_lookup; [|done|].
  2:{ intros det d d' Hdet%elem_of_seqZ. apply Hset. lia. }
  destruct (ds !! k) as [d|]; cbn; [|done]. case_decide; [|done]. by rewrite (kept_read s s').
Qed.

(** So the handler sees the same setup for the next structure. *)
Lemma fetched_again (s s' : D) numDet :
  kept s s' → reads_set (params s) numDet → same_setup (fetched s numDet) s' →
  same_setup (fetched s numDet) (fetched s' numDet).
Proof.
  intros Hk Hset [E1 E2 E3 E4 E5 E6 E7].
  pose proof (fetch_again s s' numDet (m_det s) Hk Hset) as Hf.
  destruct s, s'. cbn in *. subst. by split.
Qed.
End fetch.

(** ** A queue of structures *)

Section queue.
Context {L TS T : Type} {PL : ParamLib param L} {DL : DriverLib L} {TL : TimeStampLib TS}.
Context {TR : Transformer T} {TRL : TransformerLaws T}.
Local Abbreviation D := (driver L TS T).
Implicit Types (s : D) (q : list (@update TS)).

(** The update timer from the last update, without the driver. *)
Definition due_at (period last : f64) (nowSecs nowNsecs : Z) : option f64 :=
  let diff := f_sub (timer_now nowSecs nowNsecs) last in
  if f_lt diff (f_div period 1000%float) then None else Some diff.

Definition next_update (period last : f64) (nowSecs nowNsecs : Z) : f64 :=
  match due_at period last nowSecs nowNsecs with
  | None => last
  | Some _ => timer_now nowSecs nowNsecs
  end.

Definition period_of s : f64 := getDoubleParam (params s) 0 ADnEDEventUpdatePeriodParam (f_of_Z 0).

(** A queue of complete structures whose time stamps do not go backwards, with the
    parameters posted at most once a second: [lastTime] is the time of the last
    update and [last] the last time stamp. *)
Fixpoint in_order (period lastTime : f64) (last : TS) q : Prop :=
  match q with
  | [] => True
  | (pv, (nowSecs, nowNsecs)) :: q =>
      ∃ now pixels tofs, pv_timeStamp pv = Attached now ∧ is_Some (pv_pcharge pv) ∧
        pv_pixels pv = Some pixels ∧ pv_tof pv = Some tofs ∧ length pixels = length tofs ∧
        ts_gt last now = false ∧ one_second (due_at period lastTime nowSecs nowNsecs) ∧
        in_order period (next_update period lastTime nowSecs nowNsecs) (stamped last now) q
  end.

(** The events of a queue, and the number of new pulses in it. *)
Definition pv_events (pv : pv_struct TS) : list (Z * Z) :=
  zip (default [] (pv_pixels pv)) (default [] (pv_tof pv)).

Definition queue_events q : list (Z * Z) := q ≫= λ u, pv_events u.1.

Fixpoint new_pulses (ch : Z) (last : TS) q : Z :=
  match q with
  | [] => 0
  | (pv, _) :: q =>
      match pv_timeStamp pv with
      | Attached now =>
          (if bool_decide (ch = 0) && ts_ne last now then 1 else 0)
          + new_pulses ch (stamped last now) q
      | _ => new_pulses ch last q
      end
  end.

(** A driver that can integrate the structures of channel [ch]. *)
Record delivering s (ch numDet : Z) (data : list Z) : Prop := {
  dl_ch : 0 <= ch < ADNED_MAX_CHANNELS;
  dl_numDet : 0 <= numDet ∧
    Z.min (getIntegerParam (params s) 0 ADnEDNumDetParam 0) ADNED_MAX_DETS = numDet;
  dl_roi det old : 1 <= det <= numDet →
    0 < getIntegerParam (params s) det ADnEDDetPixelROISizeXParam old;
  dl_reads : reads_set (params s) numDet;
  dl_dets : length (m_det s) = n_dets1;
  dl_seqs : length (m_seqID s) = n_channels ∧ length (m_lastSeqID s) = n_channels;
  dl_data : p_Data s = Some data ∧ m_dataMaxSize s ≠ 0;
  dl_events : Forall is_u32 (m_detEventsSinceLastUpdate s);
  dl_ok det : 1 <= det <= numDet →
    det_ok (fetched s numDet) (Z.of_nat (length data)) det (det_at (fetched s numDet) det)
}.

Lemma delivering_ready s pv ch numDet data pixels tofs now last :
  delivering s ch numDet data → rd (m_TimeStampLast s) ch = Some last → ts_gt last now = false →
  pv_timeStamp pv = Attached now → is_Some (pv_pcharge pv) → pv_pixels pv = Some pixels →
  pv_tof pv = Some tofs → length pixels = length tofs →
  all_convert (fetched s numDet) numDet (zip pixels tofs) →
  ready s pv ch numDet data pixels tofs now last.
Proof. by intros []. Qed.

(** The driver can go on with the next structure. *)
Lemma delivering_next s s' ch numDet data data' :
  delivering s ch numDet data → kept s s' → same_setup (fetched s numDet) s' →
  p_Data s' = Some data' → length data' = length data → delivering s' ch numDet data'.
Proof.
  intros [H1 H2 H3 H4 H5 H6 H7 H8 H9] Hk Hss Hd Hlen. pose proof Hk as [K1 K2 K3 K4 K5 K6].
  pose proof (fetched_again s s' numDet Hk H4 Hss) as Hf. split.
  - done.
  - by rewrite K1.
  - intros det old Hdet. rewrite K1 by done. by apply H3.
  - intros det d d' Hdet. rewrite !(kept_read s s') by done. by apply H4.
  - rewrite (ss_det _ _ Hss). destruct s; cbn in *. by rewrite length_fetch_dets.
  - by rewrite K4, K5.
  - rewrite K3. by split; [|apply H7].
  - by apply K6.
  - intros det Hdet. rewrite Hlen, (proj2 (proj2 (proj2 (proj2 (same_setup_ref _ _ Hf))))).
    by eapply same_setup_det_ok; [|apply H9].
Qed.

Lemma all_cells_app s numDet e1 e2 :
  all_cells s numDet (e1 ++ e2) = all_cells s numDet e1 ++ all_cells s numDet e2.
Proof. unfold all_cells. by rewrite fmap_app, concat_app. Qed.

Lemma timer_next s nowSecs nowNsecs :
  m_lastTimeSecs (timer_state s nowSecs nowNsecs)
  = next_update (period_of s) (m_lastTimeSecs s) nowSecs nowNsecs.
Proof.
  unfold timer_state, next_update, timer_due, due_at, period_of.
  destruct (f_lt _ _); by destruct s.
Qed.

End queue.

(** ** A queue for the small setup *)

(** Two pulses, two seconds apart; the second structure has an event outside both
    detectors. *)
Definition sample_queue : list (@update stamp) :=
  [(sample_pv, (10, 0));
   (PvStruct (Attached (Stamp 7 0 2)) (Some 1%float) (Some [13; 99]) (Some [0; 1]), (12, 0))].

Lemma sample_delivering : delivering sample_alloc 0 2 (replicate 18 0).
Proof.
  destruct sample_handler_ready. by split.
Qed.

Lemma sample_due (due : option f64) (diff : f64) n :
  due = Some diff → scaled diff = Some (n * 2 ^ 1074) → 1 <= n → one_second due.
Proof. intros -> Hs Hn d [= <-]. eexists. split; [exact Hs|]. lia. Qed.

Lemma sample_in_order :
  in_order (period_of sample_alloc) (m_lastTimeSecs sample_alloc) (Stamp 0 0 0) sample_queue.
Proof.
  exists (Stamp 5 0 1), [10; 21; 11], [3; 5; 3].
  do 6 (split; [first [reflexivity|by eexists]|]).
  split; [apply (sample_due _ 10%float 10); [by vm_compute..|lia]|].
  exists (Stamp 7 0 2), [13; 99], [0; 1].
  do 6 (split; [first [reflexivity|by eexists]|]).
  split; [apply (sample_due _ 2%float 2); [by vm_compute..|lia]|done].
Qed.

Lemma sample_queue_converts :
  all_convert (fetched sample_alloc 2) 2 (queue_events sample_queue).
Proof. apply (bool_decide_eq_true_1 _). vm_compute. reflexivity. Qed.

