(* ===== verification/Mask.v ===== *)
(** * The mask plug-in

    Models class NDPluginMask (ADnEDPluginMask.cpp): [doMaskT] draws one mask
    into the data of an array, [doMask] selects the element type, and
    [processCallbacks] brings the masks of the plug-in inside the array and
    draws those in use into a copy of it.

    - The fields of [NDMask_t] are of type [size_t], those of [arrayInfo] come
      from [NDArray::getInfo], which is not part of this repository: they are
      an argument.
    - [pool_copy] is [NDArrayPool::copy]; [None] is NULL.
    - Element values are integers, single floats as [spec_float] of 24 bits, or
      double floats.

    [paint] is the reference: which elements a mask covers. *)

From stdpp Require Import base numbers list option strings.
From Stdlib Require Import PrimFloat SpecFloat.
From S2P Require Import Prelude Float64 Params.

Local Open Scope Z_scope.

(** ** Data *)

Definition s_MASK_TYPE_REJECT : Z := 0.
Definition s_MASK_TYPE_PASS : Z := 1.

Record NDMask_t : Type := Mask {
  PosX : Z;
  PosY : Z;
  SizeX : Z;
  SizeY : Z;
  MaskVal : Z;
  MaskType : Z
}.

Record NDArrayInfo : Type := ArrayInfo {
  xSize : Z;
  ySize : Z;
  xStride : Z;
  yStride : Z
}.

(** The data of an array with its element type; [NDOther] is any other type. *)
Inductive nd_data : Type :=
  | NDInt8 (l : list Z)
  | NDUInt8 (l : list Z)
  | NDInt16 (l : list Z)
  | NDUInt16 (l : list Z)
  | NDInt32 (l : list Z)
  | NDUInt32 (l : list Z)
  | NDFloat32 (l : list spec_float)
  | NDFloat64 (l : list f64)
  | NDOther.

Record nd_array : Type := NDArray { ndims : Z; nd_pData : nd_data }.

Inductive mask_param : Type :=
  | NDPluginMaskName
  | NDPluginMaskUse
  | NDPluginMaskMaxSizeX
  | NDPluginMaskMaxSizeY
  | NDPluginMaskPosX
  | NDPluginMaskPosY
  | NDPluginMaskSizeX
  | NDPluginMaskSizeY
  | NDPluginMaskVal
  | NDPluginMaskType
  | NDPluginDriverPluginType
  | NDArrayCallbacks.

#[export] Instance mask_param_eq_dec : EqDecision mask_param.
Proof. solve_decision. Defined.

(** The types with which the constructor creates the parameters. *)
#[export] Instance mask_param_names : ParamNames mask_param := λ p,
  Some (match p with
        | NDPluginMaskName | NDPluginDriverPluginType => asynParamOctet
        | _ => asynParamInt32
        end).

(** The macros of the file; their operands here are all unsigned. *)
Definition MAX (a b : Z) : Z := if decide (a > b) then a else b.
Definition MIN (a b : Z) : Z := if decide (a < b) then a else b.

(** [static_cast] of a [size_t] to the element types. *)
Definition to_uint (w v : Z) : Z := v `mod` 2 ^ w.
Definition to_int (w v : Z) : Z :=
  if decide (v `mod` 2 ^ w < 2 ^ (w - 1)) then v `mod` 2 ^ w else v `mod` 2 ^ w - 2 ^ w.
Definition to_f32 (v : Z) : spec_float := binary_normalize 24 128 v 0 false.
Definition to_f64 (v : Z) : f64 := f_of_Z v.

(** ** [doMaskT] *)

Section draw.
Context {A : Type} (cast : Z → A).

(** [data[i] = static_cast<epicsType>(mask_val)] *)
Definition put (i : Z) (v : A) : M (list A) () :=
  l ← gets id; l' ← checked OutOfBounds (wr l i v); modify (λ _, l').

(** The bounds of the mask in one direction. *)
Definition mask_range (pos size arrayMax : Z) : Z * Z :=
  (MAX pos 0, MIN (u64 (pos + size)) arrayMax).

Definition doMaskT (nd : Z) (info : NDArrayInfo) (xArrayMax yArrayMax : Z) (pMask : NDMask_t)
    : M (list A) () :=
  let '(xmin, xmax) := mask_range (PosX pMask) (SizeX pMask) xArrayMax in
  let '(ymin, ymax) := mask_range (PosY pMask) (SizeY pMask) yArrayMax in
  let v := cast (MaskVal pMask) in
  if decide (nd = 1) then
    if decide (MaskType pMask = s_MASK_TYPE_REJECT) then
      for_ (seqZ xmin (xmax - xmin)) (λ ix, put (u64 (ix * xStride info)) v)
    else if decide (MaskType pMask = s_MASK_TYPE_PASS) then
      for_ (seqZ 0 xArrayMax) (λ ix,
        if decide (ix < xmin ∨ ix >= xmax) then put (u64 (ix * xStride info)) v else mret ())
    else mret ()
  else if decide (nd = 2) then
    if decide (MaskType pMask = s_MASK_TYPE_REJECT) then
      for_ (seqZ ymin (ymax - ymin)) (λ iy,
        for_ (seqZ xmin (xmax - xmin)) (λ ix,
          put (u64 (iy * yStride info) + u64 (ix * xStride info)) v))
    else if decide (MaskType pMask = s_MASK_TYPE_PASS) then
      for_ (seqZ 0 yArrayMax) (λ iy,
        for_ (seqZ 0 xArrayMax) (λ ix,
          if decide ((ix < xmin ∨ ix >= xmax) ∨ (iy < ymin ∨ iy >= ymax)) then
            put (u64 (iy * yStride info) + u64 (ix * xStride info)) v
          else mret ()))
    else mret ()
  else mret ().
End draw.

(** ** [doMask] *)

(** An operation on the elements, as an operation on the data. *)
Definition on_elems {A} (wrap : list A → nd_data) (l : list A) (m : M (list A) ())
    : outcome asynStatus * nd_data :=
  let '(o, l') := m l in (_ ← o; mret asynSuccess, wrap l').

Definition doMask (nd : Z) (info : NDArrayInfo) (xArrayMax yArrayMax : Z) (pMask : NDMask_t)
    : M nd_data asynStatus := λ d,
  match d with
  | NDInt8 l => on_elems NDInt8 l (doMaskT (to_int 8) nd info xArrayMax yArrayMax pMask)
  | NDUInt8 l => on_elems NDUInt8 l (doMaskT (to_uint 8) nd info xArrayMax yArrayMax pMask)
  | NDInt16 l => on_elems NDInt16 l (doMaskT (to_int 16) nd info xArrayMax yArrayMax pMask)
  | NDUInt16 l => on_elems NDUInt16 l (doMaskT (to_uint 16) nd info xArrayMax yArrayMax pMask)
  | NDInt32 l => on_elems NDInt32 l (doMaskT (to_int 32) nd info xArrayMax yArrayMax pMask)
  | NDUInt32 l => on_elems NDUInt32 l (doMaskT (to_uint 32) nd info xArrayMax yArrayMax pMask)
  | NDFloat32 l => on_elems NDFloat32 l (doMaskT to_f32 nd info xArrayMax yArrayMax pMask)
  | NDFloat64 l => on_elems NDFloat64 l (doMaskT to_f64 nd info xArrayMax yArrayMax pMask)
  | NDOther => (Ok asynError, NDOther)
  end.

(** ** [processCallbacks] *)

Record mask_plugin (L : Type) : Type := MaskPlugin {
  mp_params : L;
  mp_lockDepth : Z;
  pMasks : list NDMask_t;
  pArray0 : option nd_data
}.
Arguments MaskPlugin {L}.
Arguments mp_params {L}.
Arguments mp_lockDepth {L}.
Arguments pMasks {L}.
Arguments pArray0 {L}.

Section plugin.
Context {L : Type} {PL : ParamLib mask_param L}.
Context (pool_copy : nd_array → option nd_data) (getInfo : nd_array → NDArrayInfo).
Local Abbreviation P := (mask_plugin L).

(** The constructor, [l] being the library with all parameters created: the masks
    are a block of zeros.  The base class connects to the source of the arrays. *)
Definition NDPluginMask_new (l : L) (maxMasks : Z) : P :=
  let l := snd (setStringParam l 0 NDPluginDriverPluginType "NDPluginMask") in
  let l := snd (setIntegerParam l 0 NDArrayCallbacks 1) in
  MaskPlugin l 0 (replicate (Z.to_nat maxMasks) (Mask 0 0 0 0 0 0)) None.

Definition mask_set (mask : Z) (p : mask_param) (v : Z) : M P () :=
  modify (λ s, {| s with mp_params := snd (setIntegerParam (mp_params s) mask p v) |}).

(** A position and a size as the code brings them inside [arrayMax] elements. *)
Definition clamp_pos (pos arrayMax : Z) : Z := MIN (MAX (u64 pos) 0) (u32 (arrayMax - 1)).
Definition clamp_size (size pos arrayMax : Z) : Z := MIN (MAX (u64 size) 0) (u64 (arrayMax - pos)).

(** The mask after its parameters have been fetched; the second component is the
    variable [itemp]. *)
Definition fetch_mask (l : L) (mask nd xArrayMax yArrayMax : Z) (m : NDMask_t) (itemp : Z)
    : NDMask_t * Z :=
  let px := getIntegerParam l mask NDPluginMaskPosX itemp in
  let sx := getIntegerParam l mask NDPluginMaskSizeX px in
  let posX := clamp_pos px xArrayMax in
  let sizeX := clamp_size sx posX xArrayMax in
  let '(posY, sizeY, i) :=
    if decide (nd > 1) then
      let py := getIntegerParam l mask NDPluginMaskPosY sx in
      let sy := getIntegerParam l mask NDPluginMaskSizeY py in
      let posY := clamp_pos py yArrayMax in
      (posY, clamp_size sy posY yArrayMax, sy)
    else (PosY m, SizeY m, sx) in
  let v := getIntegerParam l mask NDPluginMaskVal i in
  let t := getIntegerParam l mask NDPluginMaskType v in
  (Mask posX posY sizeX sizeY (u64 v) (u64 t), t).

(** One turn of the loop over the masks; the variables are [use] and [itemp]. *)
Definition process_mask (nd : Z) (info : NDArrayInfo) (xArrayMax yArrayMax mask : Z)
    (vars : Z * Z) : M P (Z * Z) :=
  let '(use0, itemp0) := vars in
  use ← gets (λ s, getIntegerParam (mp_params s) mask NDPluginMaskUse use0);
  if decide (use = 0) then mret (use, itemp0)
  else
    l ← gets mp_params;
    ms ← gets pMasks;
    m0 ← checked OutOfBounds (rd ms mask);
    let '(m, itemp) := fetch_mask l mask nd xArrayMax yArrayMax m0 itemp0 in
    modify (λ s, {| s with pMasks := upd (pMasks s) mask m |}) ;;
    mask_set mask NDPluginMaskPosX (i32 (PosX m)) ;;
    mask_set mask NDPluginMaskSizeX (i32 (SizeX m)) ;;
    (if decide (nd > 1) then
       mask_set mask NDPluginMaskPosY (i32 (PosY m)) ;;
       mask_set mask NDPluginMaskSizeY (i32 (SizeY m))
     else mret ()) ;;
    modify (λ s, {| s with mp_lockDepth := mp_lockDepth s - 1 |}) ;;
    out ← gets pArray0;
    d ← checked NullDeref out;
    let '(o, d') := doMask nd info xArrayMax yArrayMax m d in
    _ ← lift o;
    modify (λ s, {| s with pArray0 := Some d' |}) ;;
    modify (λ s, {| s with mp_lockDepth := mp_lockDepth s + 1 |}) ;;
    mret (use, itemp).

Definition processCallbacks (maxMasks : Z) (pArray : nd_array) : M P () :=
  modify (λ s, {| s with pArray0 := pool_copy pArray |}) ;;
  out ← gets pArray0;
  d ← checked NullDeref out;
  let info := getInfo {| pArray with nd_pData := d |} in
  mask_set 0 NDPluginMaskMaxSizeX (i32 (xSize info)) ;;
  mask_set 0 NDPluginMaskMaxSizeY (i32 (ySize info)) ;;
  let xArrayMax := u32 (i32 (xSize info)) in
  let yArrayMax := u32 (i32 (ySize info)) in
  for_acc (seqZ 0 maxMasks) (0, 0) (process_mask (ndims pArray) info xArrayMax yArrayMax) ;;
  mret ().
End plugin.

(** ** The reference *)

(** Does the rectangle of the mask cover column [x] of row [y]? *)
Definition covers (nd : Z) (m : NDMask_t) (x y : Z) : bool :=
  bool_decide (PosX m <= x < PosX m + SizeX m) &&
  (bool_decide (nd = 1) || bool_decide (PosY m <= y < PosY m + SizeY m)).

Definition painted (nd : Z) (m : NDMask_t) (x y : Z) : bool :=
  if decide (MaskType m = s_MASK_TYPE_REJECT) then covers nd m x y
  else if decide (MaskType m = s_MASK_TYPE_PASS) then negb (covers nd m x y)
  else false.

(** An array of rows of [w] elements under a mask. *)
Definition paint {A} (cast : Z → A) (nd w : Z) (m : NDMask_t) (l : list A) : list A :=
  imap (λ k a, if painted nd m (Z.of_nat k `mod` w) (Z.of_nat k `div` w)
               then cast (MaskVal m) else a) l.

Definition paint_data (nd w : Z) (m : NDMask_t) (d : nd_data) : nd_data :=
  match d with
  | NDInt8 l => NDInt8 (paint (to_int 8) nd w m l)
  | NDUInt8 l => NDUInt8 (paint (to_uint 8) nd w m l)
  | NDInt16 l => NDInt16 (paint (to_int 16) nd w m l)
  | NDUInt16 l => NDUInt16 (paint (to_uint 16) nd w m l)
  | NDInt32 l => NDInt32 (paint (to_int 32) nd w m l)
  | NDUInt32 l => NDUInt32 (paint (to_uint 32) nd w m l)
  | NDFloat32 l => NDFloat32 (paint to_f32 nd w m l)
  | NDFloat64 l => NDFloat64 (paint to_f64 nd w m l)
  | NDOther => NDOther
  end.

Definition data_length (d : nd_data) : Z :=
  match d with
  | NDInt8 l | NDUInt8 l | NDInt16 l | NDUInt16 l | NDInt32 l | NDUInt32 l => Z.of_nat (length l)
  | NDFloat32 l => Z.of_nat (length l)
  | NDFloat64 l => Z.of_nat (length l)
  | NDOther => 0
  end.

(** ** Loops that write *)

Section draw_lemmas.
Context {A : Type}.
Implicit Types (l : list A) (v : A).

(** [l] with [v] at the indices of [ws]. *)
Definition stamp_at (ws : list Z) v l : list A :=
  imap (λ k a, if decide (Z.of_nat k ∈ ws) then v else a) l.

Lemma length_stamp_at ws v l : length (stamp_at ws v l) = length l.
Proof. apply length_imap. Qed.

Lemma stamp_at_nil v l : stamp_at [] v l = l.
Proof.
  apply list_eq. intros k. unfold stamp_at. rewrite list_lookup_imap.
  destruct (l !! k) as [a|]; cbn; [|done]. rewrite decide_False; [done|]. apply not_elem_of_nil.
Qed.

Lemma stamp_at_cons i ws v l :
  in_bounds l i → stamp_at ws v (upd l i v) = stamp_at (i :: ws) v l.
Proof.
  intros Hi. unfold in_bounds in Hi. apply list_eq. intros k. unfold stamp_at, upd.
  rewrite !list_lookup_imap.
  destruct (decide (k = Z.to_nat i)) as [->|Hne].
  - rewrite list_lookup_insert_eq by lia.
    destruct (l !! Z.to_nat i) as [a|] eqn:E; [|apply lookup_ge_None in E; lia]. cbn.
    rewrite (decide_True (P := _ ∈ i :: ws)) by (rewrite Z2Nat.id by lia; constructor).
    by case_decide.
  - rewrite list_lookup_insert_ne by done. destruct (l !! k); cbn; [|done]. do 2 f_equal.
    apply decide_ext. rewrite elem_of_cons. split; [by right|]. intros [Hk|]; [lia|done].
Qed.

(** A loop that writes [v] at [f a] for the [a] that pass a test. *)
Lemma for_put {B} (xs : list B) (c : B → Prop) `{∀ b, Decision (c b)} (f : B → Z) v l :
  (∀ b, b ∈ xs → c b → in_bounds l (f b)) →
  for_ xs (λ b, if decide (c b) then put (f b) v else mret ()) l
  = (Ok (), stamp_at (f <$> filter c xs) v l).
Proof.
  revert l. induction xs as [|b xs IH]; intros l Hin; cbn [for_].
  { by rewrite stamp_at_nil. }
  unfold mbind, M_bind. rewrite filter_cons. destruct (decide (c b)) as [Hc|Hc].
  - unfold put, mbind, M_bind, gets, checked, lift. cbn [id].
    assert (in_bounds l (f b)) as Hb by (apply Hin; [by constructor|done]).
    rewrite wr_Some by done. cbn [require]. unfold modify. rewrite IH.
    + cbn [fmap list_fmap]. by rewrite stamp_at_cons.
    + intros b' ? ?. rewrite in_bounds_upd. apply Hin; [by constructor|done].
  - cbn. apply IH. intros b' ? ?. apply Hin; [by constructor|done].
Qed.

Lemma for_put_all {B} (xs : list B) (f : B → Z) v l :
  (∀ b, b ∈ xs → in_bounds l (f b)) →
  for_ xs (λ b, put (f b) v) l = (Ok (), stamp_at (f <$> xs) v l).
Proof.
  intros Hin. pose proof (for_put xs (λ _, True) f v l ltac:(auto)) as Hp.
  replace (filter (λ _, True) xs) with xs in Hp; [exact Hp|].
  clear. induction xs as [|x xs IH]; [done|]. rewrite filter_cons_True by done. by f_equal.
Qed.

(** Nested loops as one loop over pairs. *)
Lemma for_app {S B} (xs ys : list B) (body : B → M S ()) s :
  for_ (xs ++ ys) body s
  = match for_ xs body s with (Ok _, s') => for_ ys body s' | r => r end.
Proof.
  revert s. induction xs as [|x xs IH]; intros s; [done|]. cbn. unfold mbind, M_bind.
  destruct (body x s) as [[] s']; [|done..]. apply IH.
Qed.

Lemma for_fmap {S B C} (g : B → C) (xs : list B) (body : C → M S ()) s :
  for_ (g <$> xs) body s = for_ xs (λ x, body (g x)) s.
Proof.
  revert s. induction xs as [|x xs IH]; intros s; [done|]. cbn. unfold mbind, M_bind.
  destruct (body (g x) s) as [[] s']; [|done..]. apply IH.
Qed.

Definition grid (ys xs : list Z) : list (Z * Z) := ys ≫= λ y, pair y <$> xs.

Lemma elem_of_grid ys xs y x : (y, x) ∈ grid ys xs ↔ y ∈ ys ∧ x ∈ xs.
Proof.
  unfold grid. rewrite list_elem_of_bind. setoid_rewrite list_elem_of_fmap. naive_solver.
Qed.

Lemma for_grid {S} (ys xs : list Z) (body : Z → Z → M S ()) s :
  for_ ys (λ y, for_ xs (body y)) s = for_ (grid ys xs) (λ p, body p.1 p.2) s.
Proof.
  revert s. induction ys as [|y ys IH]; intros s; [done|]. unfold grid.
  rewrite bind_cons, for_app.
  pose proof (for_fmap (pair y) xs (λ p, body p.1 p.2) s) as Hrow. cbn [fst snd] in Hrow.
  rewrite Hrow. cbn [for_]. unfold mbind at 1, M_bind.
  destruct (for_ xs (body y) s) as [[[]| |] s']; [|done..]. apply IH.
Qed.
End draw_lemmas.

(** ** Drawing is painting *)

(** An array of [nd] dimensions with contiguous rows, of [n] elements. *)
Record geometry (nd : Z) (info : NDArrayInfo) (n : Z) : Prop := {
  geo_dims : nd = 1 ∨ nd = 2;
  geo_x : 0 < xSize info < 2 ^ 31;
  geo_y : nd = 2 → 0 < ySize info < 2 ^ 31;
  geo_xStride : xStride info = 1;
  geo_yStride : nd = 2 → yStride info = xSize info;
  geo_size : n = if decide (nd = 2) then ySize info * xSize info else xSize info
}.

(** The mask lies inside the array. *)
Record mask_fits (nd : Z) (info : NDArrayInfo) (m : NDMask_t) : Prop := {
  fits_x : 0 <= PosX m ∧ 0 <= SizeX m ∧ PosX m + SizeX m <= xSize info;
  fits_y : nd = 2 → 0 <= PosY m ∧ 0 <= SizeY m ∧ PosY m + SizeY m <= ySize info
}.

Section drawing.
Context {A : Type} (cast : Z → A).

Lemma mask_range_fits pos size n :
  0 <= pos → 0 <= size → pos + size <= n → n < 2 ^ 31 → mask_range pos size n = (pos, pos + size).
Proof.
  intros. unfold mask_range, MAX, MIN. rewrite u64_id by mach_lia.
  f_equal; case_decide; lia.
Qed.

Lemma stamp_paint ws nd w m (l : list A) :
  (∀ k, 0 <= k < Z.of_nat (length l) → k ∈ ws ↔ painted nd m (k `mod` w) (k `div` w) = true) →
  stamp_at ws (cast (MaskVal m)) l = paint cast nd w m l.
Proof.
  intros Hk. apply imap_ext. intros k a Hl. apply lookup_lt_Some in Hl.
  specialize (Hk (Z.of_nat k) ltac:(lia)). case_decide; case_match; naive_solver.
Qed.

Lemma paint_other nd w m (l : list A) :
  MaskType m ≠ s_MASK_TYPE_REJECT → MaskType m ≠ s_MASK_TYPE_PASS → paint cast nd w m l = l.
Proof.
  intros HR HP. apply list_eq. intros k. unfold paint, painted. rewrite list_lookup_imap.
  destruct (l !! k); cbn; [|done]. by rewrite !decide_False.
Qed.

(** The index of an element, and back. *)
Lemma elem_of_index1 (xs : list Z) n k :
  (∀ i, i ∈ xs → 0 <= i < n) → n < 2 ^ 31 → k ∈ (λ i, u64 (i * 1)) <$> xs ↔ k ∈ xs.
Proof.
  intros Hxs Hn. rewrite list_elem_of_fmap. split.
  - intros (i & -> & Hi). pose proof (Hxs i Hi). rewrite Z.mul_1_r, u64_id by mach_lia. done.
  - intros Hk. exists k. pose proof (Hxs k Hk). rewrite Z.mul_1_r, u64_id by mach_lia. done.
Qed.

Lemma index2_eq w h y x :
  0 <= x < w → 0 <= y < h → w < 2 ^ 31 → h < 2 ^ 31 → u64 (y * w) + u64 (x * 1) = y * w + x.
Proof. intros. rewrite !u64_id by (unfold is_u64; nia). lia. Qed.

Lemma elem_of_index2 (ps : list (Z * Z)) w h k :
  (∀ y x, (y, x) ∈ ps → 0 <= x < w ∧ 0 <= y < h) → 0 < w < 2 ^ 31 → h < 2 ^ 31 →
  k ∈ (λ p, u64 (p.1 * w) + u64 (p.2 * 1)) <$> ps ↔ (k `div` w, k `mod` w) ∈ ps.
Proof.
  intros Hps Hw Hh. rewrite list_elem_of_fmap. split.
  - intros ([y x] & -> & Hp). destruct (Hps y x Hp). cbn [fst snd].
    rewrite (index2_eq w h) by lia.
    rewrite Z.div_add_l, Z.div_small, Z.add_0_r by lia.
    rewrite Z.add_comm, Z.mod_add, Z.mod_small by lia. done.
  - intros Hp. destruct (Hps _ _ Hp). eexists. split; [|exact Hp]. cbn [fst snd].
    rewrite (index2_eq w h) by lia. pose proof (Z.div_mod k w). lia.
Qed.

Lemma doMaskT_1d info m (l : list A) :
  geometry 1 info (Z.of_nat (length l)) → mask_fits 1 info m →
  ∀ yMax, doMaskT cast 1 info (xSize info) yMax m l = (Ok (), paint cast 1 (xSize info) m l).
Proof.
  intros [_ Hx _ Hs _ Hn] [Hfx _] yMax. rewrite decide_False in Hn by done.
  unfold doMaskT. rewrite mask_range_fits by lia.
  destruct (mask_range (PosY m) (SizeY m) yMax) as [ymin ymax].
  rewrite decide_True by done. rewrite Hs, Z.add_simpl_l.
  assert (∀ c : Z → Prop, (∀ k, 0 <= k < Z.of_nat (length l) → c k ↔ painted 1 m k 0 = true) →
    ∀ ws, (∀ i, i ∈ ws → 0 <= i < xSize info) → (∀ k, 0 <= k < xSize info → k ∈ ws ↔ c k) →
    stamp_at ((λ i, u64 (i * 1)) <$> ws) (cast (MaskVal m)) l = paint cast 1 (xSize info) m l)
    as Hpaint.
  { intros c Hc ws Hws Hk. apply stamp_paint. intros k Hkl.
    rewrite (elem_of_index1 _ (xSize info)), Z.mod_small, Z.div_small by (done || lia).
    rewrite Hk by lia. by apply Hc. }
  assert (∀ k, painted 1 m k 0 = true ↔
    (MaskType m = s_MASK_TYPE_REJECT ∧ PosX m <= k < PosX m + SizeX m ∨
     MaskType m = s_MASK_TYPE_PASS ∧ (k < PosX m ∨ k >= PosX m + SizeX m))) as Hpt.
  { intros k. unfold painted, covers. rewrite (bool_decide_true (1 = 1)), andb_true_r by done.
    unfold s_MASK_TYPE_REJECT, s_MASK_TYPE_PASS in *.
    repeat case_decide; repeat case_bool_decide; cbn; (split; intros; [lia || done|lia || done]). }
  assert (∀ i, 0 <= i < xSize info → in_bounds l (u64 (i * 1))) as Hb
    by (intros; unfold in_bounds; rewrite Z.mul_1_r, u64_id by mach_lia; lia).
  case_decide as HR; [|case_decide as HP].
  - rewrite for_put_all by (intros b Hb'%elem_of_seqZ; apply Hb; lia). f_equal.
    apply (Hpaint (λ k, PosX m <= k < PosX m + SizeX m)).
    + intros k _. rewrite Hpt, HR. naive_solver.
    + intros i Hi%elem_of_seqZ. lia.
    + intros k _. apply elem_of_seqZ.
  - rewrite (for_put (seqZ 0 (xSize info)) (λ ix, ix < PosX m ∨ ix >= PosX m + SizeX m)).
    2:{ intros b Hb'%elem_of_seqZ _. apply Hb. lia. }
    f_equal. apply (Hpaint (λ k, k < PosX m ∨ k >= PosX m + SizeX m)).
    + intros k _. rewrite Hpt, HP. naive_solver.
    + intros i [_ Hi%elem_of_seqZ]%list_elem_of_filter. lia.
    + intros k Hk. rewrite list_elem_of_filter, elem_of_seqZ. naive_solver lia.
  - cbn. by rewrite paint_other.
Qed.

Lemma doMaskT_2d info m (l : list A) :
  geometry 2 info (Z.of_nat (length l)) → mask_fits 2 info m →
  doMaskT cast 2 info (xSize info) (ySize info) m l = (Ok (), paint cast 2 (xSize info) m l).
Proof.
  intros [_ Hx Hy Hs Hs' Hn] [Hfx Hfy]. rewrite decide_True in Hn by done.
  specialize (Hy eq_refl). specialize (Hs' eq_refl). specialize (Hfy eq_refl).
  unfold doMaskT. rewrite !mask_range_fits by lia.
  rewrite (decide_False (P := 2 = 1)), (decide_True (P := 2 = 2)) by done.
  rewrite Hs, Hs', !Z.add_simpl_l.
  set (inside p := PosY m <= p.1 < PosY m + SizeY m ∧ PosX m <= p.2 < PosX m + SizeX m).
  assert (∀ ps : list (Z * Z),
    (∀ y x, (y, x) ∈ ps → 0 <= x < xSize info ∧ 0 <= y < ySize info) →
    (∀ y x, 0 <= x < xSize info → 0 <= y < ySize info →
       (y, x) ∈ ps ↔ painted 2 m x y = true) →
    stamp_at ((λ p, u64 (p.1 * xSize info) + u64 (p.2 * 1)) <$> ps) (cast (MaskVal m)) l
    = paint cast 2 (xSize info) m l) as Hpaint.
  { intros ps Hps Hp. apply stamp_paint. intros k Hk.
    rewrite (elem_of_index2 _ _ (ySize info)) by (done || lia). apply Hp.
    - apply Z.mod_pos_bound. lia.
    - split; [apply Z.div_pos; lia|]. apply Z.div_lt_upper_bound; lia. }
  assert (∀ x y, painted 2 m x y = true ↔
    (MaskType m = s_MASK_TYPE_REJECT ∧ inside (y, x) ∨
     MaskType m = s_MASK_TYPE_PASS ∧
       ((x < PosX m ∨ x >= PosX m + SizeX m) ∨ (y < PosY m ∨ y >= PosY m + SizeY m)))) as Hpt.
  { intros x y. unfold painted, covers, inside. cbn [fst snd].
    unfold s_MASK_TYPE_REJECT, s_MASK_TYPE_PASS in *.
    repeat case_decide; repeat case_bool_decide; cbn; (split; intros; [lia || done|lia || done]). }
  assert (∀ y x, 0 <= x < xSize info → 0 <= y < ySize info →
    in_bounds l (u64 (y * xSize info) + u64 (x * 1))) as Hb.
  { intros y x ? ?. rewrite (index2_eq _ (ySize info)) by lia. unfold in_bounds. nia. }
  case_decide as HR; [|case_decide as HP].
  - rewrite for_grid, for_put_all.
    2:{ intros [y x] [Hy'%elem_of_seqZ Hx'%elem_of_seqZ]%elem_of_grid. apply Hb; cbn; lia. }
    f_equal. apply Hpaint.
    + intros y x. rewrite elem_of_grid, !elem_of_seqZ. lia.
    + intros y x ? ?. rewrite elem_of_grid, !elem_of_seqZ, Hpt, HR. unfold inside. naive_solver.
  - rewrite for_grid. set (c p := (p.2 < PosX m ∨ p.2 >= PosX m + SizeX m) ∨
      (p.1 < PosY m ∨ p.1 >= PosY m + SizeY m)).
    rewrite (for_put (grid (seqZ 0 (ySize info)) (seqZ 0 (xSize info))) c).
    2:{ intros [y x] [Hy'%elem_of_seqZ Hx'%elem_of_seqZ]%elem_of_grid _. apply Hb; cbn; lia. }
    f_equal. apply Hpaint.
    + intros y x. rewrite list_elem_of_filter, elem_of_grid, !elem_of_seqZ. lia.
    + intros y x ? ?. rewrite list_elem_of_filter, elem_of_grid, !elem_of_seqZ, Hpt, HP.
      unfold c. cbn [fst snd]. naive_solver.
  - cbn. by rewrite paint_other.
Qed.
End drawing.

Lemma doMask_run nd info m d :
  d ≠ NDOther → geometry nd info (data_length d) → mask_fits nd info m →
  ∀ yMax, (nd = 2 → yMax = ySize info) →
  doMask nd info (xSize info) yMax m d = (Ok asynSuccess, paint_data nd (xSize info) m d).
Proof.
  intros Hd Hg Hf yMax Hy. pose proof (geo_dims _ _ _ Hg) as [-> | ->]; [|rewrite Hy by done];
    destruct d; try done; cbn [doMask]; unfold on_elems;
    rewrite ?doMaskT_1d, ?doMaskT_2d by done; done.
Qed.

(** C29. Drawing a mask is exact, for every element type: for a mask inside a 1-D
    or 2-D array, [doMask] returns [asynSuccess], writes nothing outside the array,
    and gives the mask value to exactly the elements the mask covers (type 0), or
    to exactly those it does not cover (type 1), or to none (any other type). *)
Theorem doMask_paints nd info m d :
  d ≠ NDOther → geometry nd info (data_length d) → mask_fits nd info m →
  doMask nd info (xSize info) (ySize info) m d = (Ok asynSuccess, paint_data nd (xSize info) m d).
Proof.
  intros Hd Hg Hf. by apply doMask_run.
Qed.

(** ** The plug-in *)

(** A position and a size inside [n] elements: a position outside becomes the last
    one, a size that is negative or too large the rest of the array. *)
Definition inside_pos (pos n : Z) : Z := if decide (0 <= pos < n) then pos else n - 1.
Definition inside_size (size pos n : Z) : Z :=
  if decide (0 <= size <= n - pos) then size else n - pos.

Lemma clamp_pos_inside pos n : 0 < n < 2 ^ 31 → is_i32 pos → clamp_pos pos n = inside_pos pos n.
Proof.
  intros Hn Hp. unfold is_i32, clamp_pos, inside_pos, MIN, MAX in *. rewrite u32_id by mach_lia.
  unfold u64. destruct (decide (pos < 0)).
  - rewrite <- (Z_mod_plus_full pos 1), Z.mod_small by lia. repeat case_decide; lia.
  - rewrite Z.mod_small by lia. repeat case_decide; lia.
Qed.

Lemma clamp_size_inside size pos n :
  0 <= pos < n → n < 2 ^ 31 → is_i32 size → clamp_size size pos n = inside_size size pos n.
Proof.
  intros Hp Hn Hs. unfold is_i32, clamp_size, inside_size, MIN, MAX in *.
  rewrite (u64_id (n - pos)) by mach_lia. unfold u64. destruct (decide (size < 0)).
  - rewrite <- (Z_mod_plus_full size 1), Z.mod_small by lia. repeat case_decide; lia.
  - rewrite Z.mod_small by lia. repeat case_decide; lia.
Qed.

Lemma inside_pos_range pos n : 0 < n → 0 <= inside_pos pos n < n.
Proof. intros. unfold inside_pos. case_decide; lia. Qed.

(** The mask that the parameters [cfg] of a mask ask for. *)
Definition wanted (cfg : mask_param → Z) (info : NDArrayInfo) : NDMask_t :=
  let px := inside_pos (cfg NDPluginMaskPosX) (xSize info) in
  let py := inside_pos (cfg NDPluginMaskPosY) (ySize info) in
  Mask px py (inside_size (cfg NDPluginMaskSizeX) px (xSize info))
    (inside_size (cfg NDPluginMaskSizeY) py (ySize info))
    (cfg NDPluginMaskVal `mod` 2 ^ 64) (cfg NDPluginMaskType `mod` 2 ^ 64).

Lemma wanted_fits cfg nd info n : geometry nd info n → mask_fits nd info (wanted cfg info).
Proof.
  intros [_ Hx Hy _ _ _]. unfold wanted. split; cbn.
  - pose proof (inside_pos_range (cfg NDPluginMaskPosX) (xSize info)).
    unfold inside_size. case_decide; lia.
  - intros Hd. specialize (Hy Hd). pose proof (inside_pos_range (cfg NDPluginMaskPosY) (ySize info)).
    unfold inside_size. case_decide; lia.
Qed.

(** Equal but for the rows, which a 1-D array does not have. *)
Definition mask_agree (nd : Z) (m m' : NDMask_t) : Prop :=
  PosX m = PosX m' ∧ SizeX m = SizeX m' ∧ MaskVal m = MaskVal m' ∧ MaskType m = MaskType m' ∧
  (nd = 2 → PosY m = PosY m' ∧ SizeY m = SizeY m').

Lemma mask_agree_fits nd info m m' : mask_agree nd m m' → mask_fits nd info m' → mask_fits nd info m.
Proof.
  intros (E1 & E2 & _ & _ & Hy) [H1 H2]. split; [by rewrite E1, E2|].
  intros Hd. destruct (Hy Hd) as [-> ->]. auto.
Qed.

Lemma mask_agree_painted nd m m' x y :
  nd = 1 ∨ nd = 2 → mask_agree nd m m' → painted nd m x y = painted nd m' x y.
Proof.
  intros [-> | ->] (Hx & Hsx & _ & Ht & Hy); unfold painted, covers; rewrite Hx, Hsx, Ht.
  - rewrite (bool_decide_true (1 = 1)) by done. done.
  - by destruct Hy as [-> ->].
Qed.

Lemma mask_agree_paint {A} (cast : Z → A) nd w m m' l :
  nd = 1 ∨ nd = 2 → mask_agree nd m m' → paint cast nd w m l = paint cast nd w m' l.
Proof.
  intros Hd Hm. apply imap_ext. intros. rewrite (mask_agree_painted nd m m') by done.
  by destruct Hm as (_ & _ & -> & _).
Qed.

Lemma mask_agree_data nd w m m' d :
  nd = 1 ∨ nd = 2 → mask_agree nd m m' → paint_data nd w m d = paint_data nd w m' d.
Proof. intros. destruct d; cbn; f_equal; by apply mask_agree_paint. Qed.

Lemma paint_data_length nd w m d : data_length (paint_data nd w m d) = data_length d.
Proof. destruct d; cbn; unfold paint; by rewrite ?length_imap. Qed.

Lemma paint_data_other nd w m d : d ≠ NDOther → paint_data nd w m d ≠ NDOther.
Proof. by destruct d. Qed.

Section plugin_theorems.
Context {L : Type} {PL : ParamLib mask_param L} {LL : ParamLibLaws mask_param L}.
Context (pool_copy : nd_array → option nd_data) (getInfo : nd_array → NDArrayInfo).
Local Abbreviation P := (mask_plugin L).

(** The parameter [p] of the mask [k] holds [v]. *)
Definition mask_is (l : L) (k : Z) (p : mask_param) (v : Z) : Prop :=
  ∀ old, getIntegerParam l k p old = v.

Definition is_max_size (p : mask_param) : bool :=
  match p with NDPluginMaskMaxSizeX | NDPluginMaskMaxSizeY => true | _ => false end.

(** The masks from [k] to [n] are configured by [cfg]. *)
Definition configured (l : L) (cfg : Z → mask_param → Z) (k n : Z) : Prop :=
  ∀ k' p, k <= k' < n → is_max_size p = false → mask_is l k' p (cfg k' p).

Lemma mask_is_set l k p v k' p' v' :
  (k', p') ≠ (k, p) → mask_is l k' p' v' → mask_is (snd (setIntegerParam l k p v)) k' p' v'.
Proof. intros Hne Hl old. rewrite get_set_int_ne by done. apply Hl. Qed.

Lemma mask_is_set_eq l k p v :
  valid_addr (P := mask_param) (L := L) k → param_type_of p = Some asynParamInt32 →
  mask_is (snd (setIntegerParam l k p v)) k p v.
Proof.
  intros Hk Hp old. by apply setIntegerParam_get, setIntegerParam_success.
Qed.

(** What the plug-in publishes of a mask it has drawn. *)
Definition mask_published (l : L) (k nd : Z) (m : NDMask_t) : Prop :=
  mask_is l k NDPluginMaskPosX (PosX m) ∧ mask_is l k NDPluginMaskSizeX (SizeX m) ∧
  (nd = 2 → mask_is l k NDPluginMaskPosY (PosY m) ∧ mask_is l k NDPluginMaskSizeY (SizeY m)).

(** The state after the masks below [k]. *)
Definition drawn (cfg : Z → mask_param → Z) (nd : Z) (info : NDArrayInfo) (d : nd_data) (k : Z)
    : nd_data :=
  foldl (λ d k, if decide (cfg k NDPluginMaskUse = 0) then d
                else paint_data nd (xSize info) (wanted (cfg k) info) d) d (seqZ 0 k).

Record mask_inv (cfg : Z → mask_param → Z) (nd : Z) (info : NDArrayInfo) (d : nd_data)
    (n depth k : Z) (s : P) : Prop := {
  mi_out : pArray0 s = Some (drawn cfg nd info d k);
  mi_lock : mp_lockDepth s = depth;
  mi_masks : Z.of_nat (length (pMasks s)) = n;
  mi_cfg : configured (mp_params s) cfg k n;
  mi_pub j : 0 <= j < k → cfg j NDPluginMaskUse ≠ 0 →
    mask_published (mp_params s) j nd (wanted (cfg j) info)
}.

Lemma drawn_succ cfg nd info d k :
  0 <= k →
  drawn cfg nd info d (k + 1)
  = if decide (cfg k NDPluginMaskUse = 0) then drawn cfg nd info d k
    else paint_data nd (xSize info) (wanted (cfg k) info) (drawn cfg nd info d k).
Proof.
  intros Hk. unfold drawn. rewrite seqZ_app by lia. rewrite foldl_app, Z.add_0_l.
  by rewrite (seqZ_cons k 1).
Qed.

Lemma drawn_ok cfg nd info d k :
  d ≠ NDOther → drawn cfg nd info d k ≠ NDOther ∧
  data_length (drawn cfg nd info d k) = data_length d.
Proof.
  unfold drawn. revert d. induction (seqZ 0 k) as [|j js IH]; intros d Hd; [done|]. cbn.
  case_decide; [by apply IH|]. rewrite <-(paint_data_length nd (xSize info) (wanted (cfg j) info) d).
  apply IH. by apply paint_data_other.
Qed.

Lemma fetch_wanted l cfg k n nd info m0 i xs ys nn :
  configured l cfg k n → (∀ p, is_i32 (cfg k p)) → geometry nd info nn →
  k < n → xs = xSize info → (nd = 2 → ys = ySize info) →
  mask_agree nd (fetch_mask l k nd xs ys m0 i).1 (wanted (cfg k) info).
Proof.
  intros Hc Hint [Hd Hx Hy _ _ _] Hk -> Hys. unfold fetch_mask.
  rewrite (Hc k NDPluginMaskPosX), (Hc k NDPluginMaskSizeX) by (done || lia).
  rewrite (clamp_pos_inside (cfg k NDPluginMaskPosX)) by auto.
  pose proof (inside_pos_range (cfg k NDPluginMaskPosX) (xSize info) ltac:(lia)).
  rewrite (clamp_size_inside (cfg k NDPluginMaskSizeX)) by (auto || lia).
  destruct Hd as [-> | ->].
  - rewrite decide_False by done.
    rewrite (Hc k NDPluginMaskVal), (Hc k NDPluginMaskType) by (done || lia). done.
  - specialize (Hy eq_refl). rewrite decide_True, Hys by done.
    rewrite (Hc k NDPluginMaskPosY), (Hc k NDPluginMaskSizeY) by (done || lia).
    rewrite (Hc k NDPluginMaskVal), (Hc k NDPluginMaskType) by (done || lia).
    rewrite clamp_pos_inside by auto.
    pose proof (inside_pos_range (cfg k NDPluginMaskPosY) (ySize info) ltac:(lia)).
    rewrite clamp_size_inside by (auto || lia). done.
Qed.

(** The library after a mask has been published. *)
Definition publish (l : L) (k nd : Z) (m : NDMask_t) : L :=
  let set p v l := snd (setIntegerParam l k p v) in
  let l := set NDPluginMaskSizeX (i32 (SizeX m)) (set NDPluginMaskPosX (i32 (PosX m)) l) in
  if decide (nd > 1) then
    set NDPluginMaskSizeY (i32 (SizeY m)) (set NDPluginMaskPosY (i32 (PosY m)) l)
  else l.

Lemma publish_other l k nd m k' p v :
  k' ≠ k → mask_is l k' p v → mask_is (publish l k nd m) k' p v.
Proof.
  intros Hk Hl. unfold publish. case_decide; repeat (apply mask_is_set; [congruence|]); done.
Qed.

Lemma publish_own l k nd info n m :
  valid_addr (P := mask_param) (L := L) k → geometry nd info n → mask_fits nd info m →
  mask_published (publish l k nd m) k nd m.
Proof.
  intros Hk [_ Hx Hy _ _ _] [Hfx Hfy].
  assert (∀ l, mask_is (snd (setIntegerParam (snd (setIntegerParam l k NDPluginMaskPosX
      (i32 (PosX m)))) k NDPluginMaskSizeX (i32 (SizeX m)))) k NDPluginMaskPosX (PosX m) ∧
    mask_is (snd (setIntegerParam (snd (setIntegerParam l k NDPluginMaskPosX
      (i32 (PosX m)))) k NDPluginMaskSizeX (i32 (SizeX m)))) k NDPluginMaskSizeX (SizeX m)) as Hx'.
  { intros l'. rewrite !i32_id by mach_lia. split; [apply mask_is_set; [done|]|];
      by apply mask_is_set_eq. }
  unfold publish, mask_published. destruct (Hx' l) as [H1 H2].
  case_decide as Hd.
  - split_and!; [by do 2 (apply mask_is_set; [done|])..|]. intros ->. specialize (Hy eq_refl).
    specialize (Hfy eq_refl). rewrite !(i32_id (SizeY m)), !(i32_id (PosY m)) by mach_lia.
    split; [apply mask_is_set; [done|]|]; by apply mask_is_set_eq.
  - split_and!; [done..|]. lia.
Qed.

Lemma process_mask_step cfg nd info d n depth k vars s :
  d ≠ NDOther → geometry nd info (data_length d) → (∀ p, is_i32 (cfg k p)) →
  max_addr (P := mask_param) (L := L) = n → 0 <= k < n →
  mask_inv cfg nd info d n depth k s →
  wp_ok (process_mask nd info (u32 (i32 (xSize info))) (u32 (i32 (ySize info))) k vars)
    (λ _, mask_inv cfg nd info d n depth (k + 1)) s.
Proof.
  intros Hd Hg Hint Hmax Hk [Hout Hlock Hms Hcfg Hpub]. pose proof Hg as [Hdims Hx Hy _ _ _].
  assert (valid_addr (P := mask_param) (L := L) k) as Hka by (unfold valid_addr; lia).
  unfold wp_ok, process_mask. destruct vars as [use0 itemp0]. wp_step. wp_step.
  rewrite (Hcfg k NDPluginMaskUse) by (done || lia).
  case_decide as Huse.
  { wp_step. split; try done.
    - by rewrite drawn_succ, decide_True by (done || lia).
    - intros k' p ?. apply Hcfg. lia.
    - intros j Hj Hu. apply Hpub; [|done]. assert (j ≠ k) by congruence. lia. }
  do 4 wp_step. assert (is_Some (rd (pMasks s) k)) as [m0 Hm0]
    by (apply rd_Some; unfold in_bounds; lia).
  rewrite Hm0. wp_step. wp_step.
  assert (u32 (i32 (xSize info)) = xSize info) as -> by (rewrite i32_id, u32_id; mach_lia).
  assert (nd = 2 → u32 (i32 (ySize info)) = ySize info) as Hys.
  { intros H2. specialize (Hy H2). rewrite i32_id, u32_id; mach_lia. }
  pose proof (fetch_wanted (mp_params s) cfg k n nd info m0 itemp0 (xSize info)
    (u32 (i32 (ySize info))) _ Hcfg Hint Hg ltac:(lia) eq_refl Hys) as Hagree.
  destruct (fetch_mask _ _ _ _ _ _ _) as [m itemp]. cbn [fst] in Hagree.
  pose proof (mask_agree_fits _ _ _ _ Hagree (wanted_fits (cfg k) _ _ _ Hg)) as Hfits.
  destruct (drawn_ok cfg nd info d k Hd) as [Hdk Hlen]. rewrite <-Hlen in Hg.
  assert (doMask nd info (xSize info) (u32 (i32 (ySize info))) m (drawn cfg nd info d k)
    = (Ok asynSuccess, paint_data nd (xSize info) m (drawn cfg nd info d k))) as Hdo.
  { by apply doMask_run. }
  destruct s as [l dep ms o]. cbn in *. subst o.
  assert (mask_inv cfg nd info d n depth (k + 1) (MaskPlugin (publish l k nd m) (dep - 1 + 1)
    (upd ms k m) (Some (paint_data nd (xSize info) m (drawn cfg nd info d k))))) as Hinv.
  { split; cbn.
    - rewrite drawn_succ, decide_False by (done || lia). f_equal. by apply mask_agree_data.
    - lia.
    - by rewrite length_upd.
    - intros k' p Hk' Hp. apply publish_other; [lia|]. apply Hcfg; [lia|done].
    - intros j Hj Hu. destruct (decide (j = k)) as [->|Hne].
      + pose proof (publish_own l k nd info _ m Hka Hg Hfits) as (P1 & P2 & P3).
        destruct Hagree as (Ex & Esx & _ & _ & Hay). unfold mask_published. rewrite <-Ex, <-Esx.
        split_and!; [done..|]. intros H2. destruct (Hay H2) as [<- <-]. auto.
      + destruct (Hpub j ltac:(lia) Hu) as (P1 & P2 & P3).
        split_and!; [by apply publish_other..|]. intros H2. destruct (P3 H2).
        split; by apply publish_other. }
  unfold wp, mask_set, mbind, M_bind, modify, gets. cbn.
  unfold publish in Hinv. destruct (decide (nd > 1)); cbn; rewrite Hdo; exact Hinv.
Qed.

(** C30. The plug-in draws its masks inside the array. For any 32-bit values of the
    mask parameters, and any 1-D or 2-D array with contiguous rows that can be
    copied, [processCallbacks] has no undefined behaviour. The result is the input
    with every mask in use painted over it in turn, each at its configured
    position, or at the last element of the direction when that is outside the
    array, and of its configured size, or of all that is left of the array when
    that is negative or too large; so every mask drawn lies in the array. The
    parameters of those masks then hold the position and the size that were
    drawn. The mutex is held as before. *)
Theorem processCallbacks_draws cfg n arr d s :
  max_addr (P := mask_param) (L := L) = n → Z.of_nat (length (pMasks s)) = n →
  pool_copy arr = Some d → d ≠ NDOther →
  geometry (ndims arr) (getInfo (NDArray (ndims arr) d)) (data_length d) →
  configured (mp_params s) cfg 0 n → (∀ k p, is_i32 (cfg k p)) →
  let info := getInfo (NDArray (ndims arr) d) in
  wp_ok (processCallbacks pool_copy getInfo n arr)
    (λ _ s', pArray0 s' = Some (drawn cfg (ndims arr) info d n) ∧
       mp_lockDepth s' = mp_lockDepth s ∧
       ∀ k, 0 <= k < n → cfg k NDPluginMaskUse ≠ 0 →
         mask_fits (ndims arr) info (wanted (cfg k) info) ∧
         mask_published (mp_params s') k (ndims arr) (wanted (cfg k) info)) s.
Proof.
  intros Hmax Hms Hcopy Hd Hg Hcfg Hint info. fold info in Hg. unfold wp_ok, processCallbacks.
  do 4 wp_step. cbn [pArray0]. rewrite Hcopy. wp_step. wp_step. cbn [ndims].
  fold info. unfold mask_set. do 5 wp_step.
  eapply wp_mono; [eapply (wp_for_acc_range 0 n _ _
    (λ k _, mask_inv cfg (ndims arr) info d n (mp_lockDepth s) k) (λ _ _, False))| |done].
  - lia.
  - split; cbn; try done; try lia. intros k p Hk Hp.
    do 2 (apply mask_is_set; [by intros [= -> ->]|]). by apply Hcfg.
  - intros k vars s' Hk Hinv. apply process_mask_step; auto; lia.
  - intros _ s' [Hout Hlock _ _ Hpub]. rewrite Z.add_0_l in *. wp_step. split_and!; [done..|].
    intros k Hk Hu. split; [by eapply wanted_fits|]. by apply Hpub.
Qed.
End plugin_theorems.

(** ** Concrete runs *)

(** Four columns and three rows of bytes. *)
Definition sample_info : NDArrayInfo := ArrayInfo 4 3 1 4.
Definition sample_bytes : nd_data := NDUInt8 (replicate 12 7).

Lemma sample_geometry : geometry 2 sample_info (data_length sample_bytes).
Proof. split; cbn; auto; lia. Qed.

(** A mask of two columns and one row at (1, 1). *)
Lemma doMask_paints_witness :
  doMask 2 sample_info 4 3 (Mask 1 1 2 1 300 0) sample_bytes
  = (Ok asynSuccess, NDUInt8 [7; 7; 7; 7; 7; 44; 44; 7; 7; 7; 7; 7]).
Proof.
  apply (doMask_paints 2 sample_info (Mask 1 1 2 1 300 0) sample_bytes).
  - done.
  - exact sample_geometry.
  - split; cbn; lia.
Defined.

Definition mask_lib : ParamLib mask_param (map_lib mask_param) := map_lib_ops 3.
#[local] Existing Instance mask_lib.

#[local] Instance mask_lib_laws : ParamLibLaws mask_param (map_lib mask_param) := map_lib_laws 3.

(** Mask 0 starts left of the array and is too wide, mask 1 is inside and mask 2 is not
    in use. *)
Definition sample_masks (k : Z) (p : mask_param) : Z :=
  if decide (k = 0) then
    match p with
    | NDPluginMaskUse => 1
    | NDPluginMaskPosX => -2
    | NDPluginMaskSizeX => 9
    | NDPluginMaskSizeY => 2
    | NDPluginMaskVal => 5
    | NDArrayCallbacks => 1
    | _ => 0
    end
  else if decide (k = 1) then
    match p with
    | NDPluginMaskUse | NDPluginMaskPosX | NDPluginMaskPosY | NDPluginMaskSizeY => 1
    | NDPluginMaskSizeX => 2
    | NDPluginMaskVal => 300
    | _ => 0
    end
  else 0.

Definition sample_mask_params : list mask_param :=
  [NDPluginMaskUse; NDPluginMaskPosX; NDPluginMaskPosY; NDPluginMaskSizeX; NDPluginMaskSizeY;
   NDPluginMaskVal].

(** The plug-in for three masks after its constructor, with the lock taken and these
    parameters written. *)
Definition sample_plugin : mask_plugin (map_lib mask_param) :=
  (for_ [0; 1] (λ k, for_ sample_mask_params (λ p, mask_set k p (sample_masks k p)))
     {| (NDPluginMask_new map_lib_empty 3) with mp_lockDepth := 1 |}).2.

Lemma processCallbacks_draws_witness :
  wp_ok (processCallbacks (λ a, Some (nd_pData a)) (λ _, sample_info) 3 (NDArray 2 sample_bytes))
    (λ _ s', pArray0 s' = Some (NDUInt8 [7; 7; 7; 5; 7; 44; 44; 5; 7; 7; 7; 7]) ∧
       mp_lockDepth s' = 1 ∧
       ∀ k, 0 <= k < 3 → sample_masks k NDPluginMaskUse ≠ 0 →
         mask_fits 2 sample_info (wanted (sample_masks k) sample_info) ∧
         mask_published (mp_params s') k 2 (wanted (sample_masks k) sample_info)) sample_plugin.
Proof.
  apply (processCallbacks_draws (λ a, Some (nd_pData a)) (λ _, sample_info) sample_masks 3
    (NDArray 2 sample_bytes) sample_bytes sample_plugin).
  - reflexivity.
  - reflexivity.
  - reflexivity.
  - discriminate.
  - exact sample_geometry.
  - intros k p Hk _ old. assert (k = 0 ∨ k = 1 ∨ k = 2) as [-> | [-> | ->]] by lia;
      destruct p; reflexivity.
  - intros k p. unfold sample_masks, is_i32. repeat case_decide; destruct p; lia.
Defined.
