(* ===== verification/PixelROI.v ===== *)
(** * The pixel region-of-interest plug-in

    Models [ADnEDPixelROI::processCallbacks] (ADnEDPixelROI.cpp): it takes a range
    of the 1-D array of the driver and presents it as a 2-D image of X by Y
    pixels.

    - The sizes and offsets of [NDDimension_t] are of type [size_t].
    - [convert] is [NDArrayPool::convert], which is not part of this
      repository: a status and the new array, or NULL.  Of an array the plug-in
      sees the dimensions; [nd_elems] is the number of elements it holds. *)

From stdpp Require Import base numbers list option strings.
From S2P Require Import Prelude Float64 Params.

Local Open Scope Z_scope.

(** ** Data *)

Record NDDimension_t : Type := Dimension { size : Z; offset : Z; binning : Z }.

Record nd_image : Type := Image { ndims : Z; dims : list NDDimension_t; nd_elems : Z }.

Definition ND_SUCCESS : Z := 0.

Inductive roi_param : Type :=
  | ADnEDPixelROIName
  | ADnEDPixelROIDim0Min
  | ADnEDPixelROIDim1Min
  | ADnEDPixelROIDim2Min
  | ADnEDPixelROIDim0Size
  | ADnEDPixelROIDim1Size
  | ADnEDPixelROIDim2Size
  | ADnEDPixelROIDim0MaxSize
  | ADnEDPixelROIDim1MaxSize
  | ADnEDPixelROIDim2MaxSize
  | ADnEDPixelROIDataType
  | NDArraySizeX
  | NDArraySizeY
  | NDArraySizeZ
  | NDPluginDriverPluginType.

#[export] Instance roi_param_eq_dec : EqDecision roi_param.
Proof. solve_decision. Defined.

(** The types with which the constructor creates the parameters. *)
#[export] Instance roi_param_names : ParamNames roi_param := λ p,
  Some (match p with
        | ADnEDPixelROIName | NDPluginDriverPluginType => asynParamOctet
        | _ => asynParamInt32
        end).

(** The macros of the file. *)
Definition MAX (a b : Z) : Z := if decide (a > b) then a else b.
Definition MIN (a b : Z) : Z := if decide (a < b) then a else b.

(** ** The dimensions *)

(** One turn of the loop that fixes them: [dim0] is [dims[0].size] at the time
    of the test, [None] for the dimension 0 itself. *)
Definition fix_dim (n : Z) (dim0 : option Z) (d : NDDimension_t) : NDDimension_t :=
  let off := MIN (MAX (offset d) 0) (u64 (n - 1)) in
  let s := MAX (size d) 1 in
  {| size := MIN s (default s dim0); offset := off; binning := MAX (binning d) 1 |}.

(** The three dimensions after the fixes and after the test of the product. *)
Definition fix_dims (n : Z) (d0 d1 d2 : NDDimension_t)
    : NDDimension_t * NDDimension_t * NDDimension_t :=
  let d0 := fix_dim n None d0 in
  let d1 := fix_dim n (Some (size d0)) d1 in
  let d2 := fix_dim n (Some (size d0)) d2 in
  if decide (u64 (size d1 * size d2) >= n) then
    (d0, {| d1 with size := 1 |}, {| d2 with size := 1 |})
  else (d0, d1, d2).

(** ** [processCallbacks] *)

Record roi_plugin (L : Type) : Type := RoiPlugin {
  rp_params : L;
  rp_lockDepth : Z;
  rp_array : option nd_image
}.
Arguments RoiPlugin {L}.
Arguments rp_params {L}.
Arguments rp_lockDepth {L}.
Arguments rp_array {L}.

Section plugin.
Context {L : Type} {PL : ParamLib roi_param L}.
Context (convert : Z → list NDDimension_t → Z * option nd_image).
Local Abbreviation P := (roi_plugin L).

(** The constructor, [l] being the library with all parameters created. *)
Definition ADnEDPixelROI_new (l : L) : P :=
  RoiPlugin (snd (setStringParam l 0 NDPluginDriverPluginType "ADnEDPixelROI")) 0 None.

Definition roi_get (p : roi_param) (old : Z) : M P Z :=
  gets (λ s, getIntegerParam (rp_params s) 0 p old).

Definition roi_set (p : roi_param) (v : Z) : M P () :=
  modify (λ s, {| s with rp_params := snd (setIntegerParam (rp_params s) 0 p v) |}).

Definition roi_lock (k : Z) : M P () :=
  modify (λ s, {| s with rp_lockDepth := rp_lockDepth s + k |}).

(** The parameters, read one after the other through [itemp]. *)
Definition read_dims : M P (NDDimension_t * NDDimension_t * NDDimension_t * Z) :=
  o0 ← roi_get ADnEDPixelROIDim0Min 0;
  o1 ← roi_get ADnEDPixelROIDim1Min o0;
  o2 ← roi_get ADnEDPixelROIDim2Min o1;
  s0 ← roi_get ADnEDPixelROIDim0Size o2;
  s1 ← roi_get ADnEDPixelROIDim1Size s0;
  s2 ← roi_get ADnEDPixelROIDim2Size s1;
  dataType ← roi_get ADnEDPixelROIDataType 0;
  mret (Dimension (u64 s0) (u64 o0) 0, Dimension (u64 s1) (u64 o1) 0,
        Dimension (u64 s2) (u64 o2) 0, dataType).

Definition publish_dims (n : Z) (d0 d1 d2 : NDDimension_t) : M P () :=
  roi_set ADnEDPixelROIDim0MaxSize 0 ;;
  roi_set ADnEDPixelROIDim1MaxSize 0 ;;
  roi_set ADnEDPixelROIDim2MaxSize 0 ;;
  roi_set ADnEDPixelROIDim0MaxSize (i32 n) ;;
  roi_set ADnEDPixelROIDim1MaxSize (i32 n) ;;
  roi_set ADnEDPixelROIDim2MaxSize (i32 n) ;;
  roi_set ADnEDPixelROIDim0Min (i32 (offset d0)) ;;
  roi_set ADnEDPixelROIDim0Size (i32 (size d0)) ;;
  roi_set ADnEDPixelROIDim1Min (i32 (offset d1)) ;;
  roi_set ADnEDPixelROIDim1Size (i32 (size d1)) ;;
  roi_set ADnEDPixelROIDim2Min (i32 (offset d2)) ;;
  roi_set ADnEDPixelROIDim2Size (i32 (size d2)).

(** The new dimensions of the converted array. *)
Definition reshape (d1 d2 : NDDimension_t) (img : nd_image) : nd_image :=
  {| img with ndims := 2;
              dims := Dimension (size d1) 0 1 :: Dimension (size d2) 0 1 :: drop 2 (dims img) |}.

(** [n] is the size of the input array and [inType] its data type. *)
Definition processCallbacks (n inType : Z) : M P () :=
  '(d0, d1, d2, dataType) ← read_dims;
  modify (λ s, {| s with rp_array := None |}) ;;
  let '(d0, d1, d2) := fix_dims n d0 d1 d2 in
  publish_dims n d0 d1 d2 ;;
  roi_lock (-1) ;;
  let dataType := if decide (dataType = -1) then inType else dataType in
  let new_dims := [Dimension (size d0) (offset d0) 1; Dimension 0 0 1] in
  let '(status, out) := convert dataType new_dims in
  modify (λ s, {| s with rp_array := out |}) ;;
  if decide (status ≠ ND_SUCCESS) then roi_lock 1
  else match out with
  | None => roi_lock 1
  | Some img =>
      modify (λ s, {| s with rp_array := Some (reshape d1 d2 img) |}) ;;
      roi_lock 1 ;;
      roi_set NDArraySizeX 0 ;;
      roi_set NDArraySizeY 0 ;;
      roi_set NDArraySizeZ 0 ;;
      roi_set NDArraySizeX (i32 (size d1)) ;;
      roi_set NDArraySizeY (i32 (size d2))
  end.
End plugin.

(** ** Theorems *)

(** What the loop does to one dimension. *)
Lemma fix_dim_offset n dim0 d :
  0 < n < 2 ^ 63 → is_u64 (offset d) → 0 <= offset (fix_dim n dim0 d) < n.
Proof.
  intros Hn Ho. unfold fix_dim, MIN, MAX. cbn. rewrite u64_id by mach_lia.
  unfold is_u64 in *. repeat case_decide; lia.
Qed.

Lemma fix_dim_size n s0 d :
  1 <= s0 → 1 <= size (fix_dim n (Some s0) d) <= s0.
Proof. intros. unfold fix_dim, MIN, MAX. cbn. repeat case_decide; lia. Qed.

Lemma fix_dim_size0 n d : size (fix_dim n None d) = Z.max 1 (size d).
Proof. unfold fix_dim, MIN, MAX. cbn. repeat case_decide; lia. Qed.

(** A dimension that is inside the array stays, up to the binning. *)
Lemma fix_dim_id n s0 d :
  0 < n < 2 ^ 63 → 0 <= offset d < n → 1 <= size d <= default (size d) s0 →
  fix_dim n s0 d = {| d with binning := MAX (binning d) 1 |}.
Proof.
  intros Hn Ho Hs. unfold fix_dim, MIN, MAX. rewrite u64_id by mach_lia.
  assert ((if decide (size d > 1) then size d else 1) = size d) as -> by (case_decide; lia).
  destruct s0 as [s0|]; cbn in *; f_equal; repeat case_decide; lia.
Qed.

(** The dimensions are consistent with an array of [n] elements. *)
Record roi_ok (n : Z) (d0 d1 d2 : NDDimension_t) : Prop := {
  ro_offset0 : 0 <= offset d0 < n;
  ro_offset1 : 0 <= offset d1 < n;
  ro_offset2 : 0 <= offset d2 < n;
  ro_size1 : 1 <= size d1 <= size d0;
  ro_size2 : 1 <= size d2 <= size d0;
  ro_image : size d0 < 2 ^ 32 → size d1 * size d2 < n ∨ (size d1 = 1 ∧ size d2 = 1)
}.

Lemma fix_dims_ok n d0 d1 d2 e0 e1 e2 :
  0 < n < 2 ^ 63 → is_u64 (offset d0) → is_u64 (offset d1) → is_u64 (offset d2) →
  fix_dims n d0 d1 d2 = (e0, e1, e2) → roi_ok n e0 e1 e2.
Proof.
  intros Hn H0 H1 H2. unfold fix_dims.
  pose proof (fix_dim_offset n None d0 Hn H0). pose proof (fix_dim_size0 n d0) as Hs0.
  set (f0 := fix_dim n None d0) in *.
  pose proof (fix_dim_offset n (Some (size f0)) d1 Hn H1).
  pose proof (fix_dim_offset n (Some (size f0)) d2 Hn H2).
  pose proof (fix_dim_size n (size f0) d1 ltac:(lia)).
  pose proof (fix_dim_size n (size f0) d2 ltac:(lia)).
  set (f1 := fix_dim n (Some (size f0)) d1) in *. set (f2 := fix_dim n (Some (size f0)) d2) in *.
  clearbody f1 f2. clearbody f0.
  case_decide as Hprod; intros [= <- <- <-]; split; cbn; try lia.
  intros Hlt. left. rewrite u64_id in Hprod by (unfold is_u64; nia). lia.
Qed.

(** ** The reference *)

(** The size that a parameter asks for: 0 is taken as 1, and a negative value, which
    becomes a [size_t], as a huge one. *)
Definition asked_size (s : Z) : Z :=
  if decide (s = 0) then 1 else if decide (s < 0) then 2 ^ 64 + s else s.

(** The offset in an array of [n] elements: one outside is replaced by the last. *)
Definition asked_offset (n o : Z) : Z := if decide (0 <= o < n) then o else n - 1.

(** The range, and X and Y, that the parameters [cfg] ask for: X and Y are limited
    by the size of the range, and an image not smaller than the array (the
    product is one of [size_t]) becomes a single pixel. *)
Definition requested (cfg : roi_param → Z) (n : Z) : NDDimension_t * NDDimension_t * NDDimension_t :=
  let range := asked_size (cfg ADnEDPixelROIDim0Size) in
  let x := Z.min (asked_size (cfg ADnEDPixelROIDim1Size)) range in
  let y := Z.min (asked_size (cfg ADnEDPixelROIDim2Size)) range in
  let small := (x * y) `mod` 2 ^ 64 <? n in
  (Dimension range (asked_offset n (cfg ADnEDPixelROIDim0Min)) 1,
   Dimension (if small then x else 1) (asked_offset n (cfg ADnEDPixelROIDim1Min)) 1,
   Dimension (if small then y else 1) (asked_offset n (cfg ADnEDPixelROIDim2Min)) 1).

Lemma fix_dim_asked n dim0 s o :
  0 < n < 2 ^ 31 → is_i32 s → is_i32 o →
  fix_dim n dim0 (Dimension (u64 s) (u64 o) 0)
  = Dimension (Z.min (asked_size s) (default (asked_size s) dim0)) (asked_offset n o) 1.
Proof.
  intros Hn Hs Ho. unfold is_i32 in *.
  assert (MAX (u64 s) 1 = asked_size s) as Hsize.
  { unfold MAX, asked_size, u64. destruct (decide (s < 0)).
    - rewrite <- (Z_mod_plus_full s 1), Z.mod_small by lia. repeat case_decide; lia.
    - rewrite Z.mod_small by lia. repeat case_decide; lia. }
  unfold fix_dim. cbn [size offset binning]. rewrite Hsize. f_equal.
  - unfold MIN. destruct dim0; cbn; case_decide; lia.
  - unfold MIN, MAX, asked_offset. rewrite (u64_id (n - 1)) by mach_lia.
    unfold u64. destruct (decide (o < 0)).
    + rewrite <- (Z_mod_plus_full o 1), Z.mod_small by lia. repeat case_decide; lia.
    + rewrite Z.mod_small by lia. repeat case_decide; lia.
Qed.

(** What the plug-in makes of its parameters is what they ask for. *)
Lemma fix_dims_requested (cfg : roi_param → Z) n :
  0 < n < 2 ^ 31 → (∀ p, is_i32 (cfg p)) →
  fix_dims n
    (Dimension (u64 (cfg ADnEDPixelROIDim0Size)) (u64 (cfg ADnEDPixelROIDim0Min)) 0)
    (Dimension (u64 (cfg ADnEDPixelROIDim1Size)) (u64 (cfg ADnEDPixelROIDim1Min)) 0)
    (Dimension (u64 (cfg ADnEDPixelROIDim2Size)) (u64 (cfg ADnEDPixelROIDim2Min)) 0)
  = requested cfg n.
Proof.
  intros Hn Hcfg. unfold fix_dims, requested. rewrite !fix_dim_asked by auto.
  cbn [size offset binning default from_option id]. unfold u64. rewrite Z.min_id.
  generalize (Z.min (asked_size (cfg ADnEDPixelROIDim1Size)) (asked_size (cfg ADnEDPixelROIDim0Size))).
  generalize (Z.min (asked_size (cfg ADnEDPixelROIDim2Size)) (asked_size (cfg ADnEDPixelROIDim0Size))).
  intros y x. generalize ((x * y) `mod` 2 ^ 64). intros xy.
  destruct (Z.ltb_spec xy n); case_decide; done || lia.
Qed.

Lemma requested_ok cfg n d0 d1 d2 :
  0 < n < 2 ^ 31 → (∀ p, is_i32 (cfg p)) → requested cfg n = (d0, d1, d2) → roi_ok n d0 d1 d2.
Proof.
  intros Hn Hcfg Hreq. rewrite <- fix_dims_requested in Hreq by done.
  eapply fix_dims_ok; [lia|..|exact Hreq]; apply u64_range.
Qed.

Section plugin_theorems.
Context {L : Type} {PL : ParamLib roi_param L} {LL : ParamLibLaws roi_param L}.
Context (convert : Z → list NDDimension_t → Z * option nd_image).
Hypothesis one_address : max_addr (P := roi_param) (L := L) = 1.

Definition roi_is (l : L) (p : roi_param) (v : Z) : Prop := ∀ old, getIntegerParam l 0 p old = v.

Lemma roi_is_set l p v p' v' :
  p' ≠ p → roi_is l p' v' → roi_is (snd (setIntegerParam l 0 p v)) p' v'.
Proof. intros Hp Hl old. rewrite get_set_int_ne by congruence. apply Hl. Qed.

Lemma roi_is_set_eq l p v :
  param_type_of p = Some asynParamInt32 → roi_is (snd (setIntegerParam l 0 p v)) p v.
Proof.
  intros Hp old. apply setIntegerParam_get, setIntegerParam_success; [|done].
  unfold valid_addr. rewrite one_address. lia.
Qed.

(** Runs the plug-in on a state whose fields are known. *)
Ltac roi_steps := repeat (wp_step; cbn [rp_params rp_lockDepth rp_array]; cbn beta).

Ltac roi_sets := repeat (first [apply roi_is_set_eq; reflexivity | apply roi_is_set; [discriminate|]]); try done.

(** The parameters hold the dimensions. *)
Definition published (l : L) (n : Z) (d0 d1 d2 : NDDimension_t) : Prop :=
  (roi_is l ADnEDPixelROIDim0Min (offset d0) ∧ roi_is l ADnEDPixelROIDim0Size (i32 (size d0))) ∧
  (roi_is l ADnEDPixelROIDim1Min (offset d1) ∧ roi_is l ADnEDPixelROIDim1Size (i32 (size d1))) ∧
  (roi_is l ADnEDPixelROIDim2Min (offset d2) ∧ roi_is l ADnEDPixelROIDim2Size (i32 (size d2))) ∧
  roi_is l ADnEDPixelROIDim0MaxSize n ∧ roi_is l ADnEDPixelROIDim1MaxSize n ∧
  roi_is l ADnEDPixelROIDim2MaxSize n.

(** C31. The image the plug-in presents. Let the parameters hold any 32-bit values
    and the input array have 0 < n < 2^31 elements. The plug-in converts the range
    of the configured size (0 stands for 1) at the configured offset, or at the
    last element when that is outside the array, in the configured data type
    or that of the input; X and Y are the configured sizes limited by the size
    of the range, or both 1 when their product reaches n. So every offset lies in
    the array, 1 <= X, Y <= range, and X * Y < n or both are 1, unless the range
    is 2^32 or more (a negative size: nothing bounds the range by the array).
    On every path the parameters then hold these offsets and sizes, and the
    mutex is held as before; when the conversion succeeds the new array is 2-D
    of X by Y, which are also the published array sizes. *)
Theorem processCallbacks_image cfg n inType d0 d1 d2 s :
  0 < n < 2 ^ 31 → (∀ p, is_i32 (cfg p)) → (∀ p, roi_is (rp_params s) p (cfg p)) →
  requested cfg n = (d0, d1, d2) →
  roi_ok n d0 d1 d2 ∧
  wp_ok (processCallbacks convert n inType)
    (λ _ s', rp_lockDepth s' = rp_lockDepth s ∧ published (rp_params s') n d0 d1 d2 ∧
       let dataType := cfg ADnEDPixelROIDataType in
       match convert (if decide (dataType = -1) then inType else dataType)
               [Dimension (size d0) (offset d0) 1; Dimension 0 0 1] with
       | (0, Some img) =>
           rp_array s' = Some {| img with ndims := 2;
             dims := Dimension (size d1) 0 1 :: Dimension (size d2) 0 1 :: drop 2 (dims img) |} ∧
           roi_is (rp_params s') NDArraySizeX (i32 (size d1)) ∧
           roi_is (rp_params s') NDArraySizeY (i32 (size d2))
       | (_, out) => rp_array s' = out
       end) s.
Proof.
  intros Hn Hint Hcfg Hreq. pose proof (requested_ok _ _ _ _ _ Hn Hint Hreq) as Hok.
  split; [exact Hok|]. destruct Hok as [Ho0 Ho1 Ho2 _ _ _].
  rewrite <- fix_dims_requested in Hreq by done.
  destruct s as [l depth arr]. cbn in Hcfg.
  unfold wp_ok, processCallbacks, read_dims, roi_get. roi_steps. rewrite !Hcfg, Hreq. wp_step.
  unfold publish_dims, roi_set, roi_lock. roi_steps. cbv zeta.
  rewrite (i32_id (offset d0)), (i32_id (offset d1)), (i32_id (offset d2)), (i32_id n) by mach_lia.
  destruct (convert _ _) as [status out]. roi_steps. unfold ND_SUCCESS.
  destruct (decide (status ≠ 0)) as [Hst|Hst].
  { roi_steps. cbn. split_and!; [lia|unfold published; split_and!; roi_sets|by destruct status]. }
  assert (status = 0) as -> by lia. unfold published.
  destruct out as [img|]; roi_steps; cbn; split_and!; roi_sets; try lia.
Qed.

(** C32. The image can be larger than its data: the test of X times Y compares it
    with the whole input array, not with the range. A request of [s] pixels as an
    image of [s] by [s] is accepted as it is when [s * s] is below the size of
    the input array, and the array presented to the clients has [s * s] elements
    by its dimensions but holds [s]. *)
Theorem processCallbacks_image_exceeds cfg n inType r img s :
  1 < r → r * r < n < 2 ^ 31 → (∀ p, roi_is (rp_params s) p (cfg p)) →
  cfg ADnEDPixelROIDim0Min = 0 → cfg ADnEDPixelROIDim1Min = 0 → cfg ADnEDPixelROIDim2Min = 0 →
  cfg ADnEDPixelROIDim0Size = r → cfg ADnEDPixelROIDim1Size = r → cfg ADnEDPixelROIDim2Size = r →
  (∀ t d ds, convert t (d :: ds) = (ND_SUCCESS, Some (img (size d))) ∧ nd_elems (img (size d)) = size d) →
  wp_ok (processCallbacks convert n inType)
    (λ _ s', ∃ out, rp_array s' = Some out ∧ nd_elems out = r ∧ ndims out = 2 ∧
       take 2 (size <$> dims out) = [r; r] ∧ nd_elems out < r * r) s.
Proof.
  intros Hr Hn Hcfg O0 O1 O2 S0 S1 S2 Hconv.
  destruct s as [l depth arr]. cbn in Hcfg.
  unfold wp_ok, processCallbacks, read_dims, roi_get. roi_steps.
  rewrite !Hcfg, O0, O1, O2, S0, S1, S2.
  unfold fix_dims. rewrite (u64_id 0), (u64_id r) by (unfold is_u64; nia).
  rewrite (fix_dim_id n None) by (cbn; nia). cbn [size offset binning].
  rewrite !fix_dim_id by (cbn; nia). cbn [size offset binning].
  rewrite decide_False by (rewrite u64_id by (unfold is_u64; nia); nia). wp_step.
  unfold publish_dims, roi_set, roi_lock. roi_steps. cbv zeta.
  cbn [size offset]. destruct (Hconv (if decide (cfg ADnEDPixelROIDataType = -1) then inType
    else cfg ADnEDPixelROIDataType) (Dimension r 0 1) [Dimension 0 0 1]) as [-> Helems].
  roi_steps. rewrite decide_False by tauto. roi_steps. eexists. split; [reflexivity|].
  cbn in *. rewrite Helems. split_and!; [done..|nia].
Qed.
End plugin_theorems.

(** ** Concrete runs *)

Definition roi_lib : ParamLib roi_param (map_lib roi_param) := map_lib_ops 1.
#[local] Existing Instance roi_lib.

#[local] Instance roi_lib_laws : ParamLibLaws roi_param (map_lib roi_param) := map_lib_laws 1.

(** A range of 5 pixels, shown as 5 by 5. *)
Definition square_roi (p : roi_param) : Z :=
  match p with
  | ADnEDPixelROIDim0Size | ADnEDPixelROIDim1Size | ADnEDPixelROIDim2Size => 5
  | ADnEDPixelROIDataType => -1
  | _ => 0
  end.

(** A range of 6 pixels from pixel 4, shown as 3 by 2: of the offsets of X and Y one is
    outside the array. *)
Definition sample_roi (p : roi_param) : Z :=
  match p with
  | ADnEDPixelROIDim0Min => 4
  | ADnEDPixelROIDim1Min => 7
  | ADnEDPixelROIDim2Min => -1
  | ADnEDPixelROIDim0Size => 6
  | ADnEDPixelROIDim1Size => 3
  | ADnEDPixelROIDim2Size => 2
  | ADnEDPixelROIDataType => -1
  | _ => 0
  end.

(** The plug-in after its constructor, with the lock taken and these parameters
    written. *)
Definition sample_roi_plugin (cfg : roi_param → Z) : roi_plugin (map_lib roi_param) :=
  (for_ [ADnEDPixelROIDim0Min; ADnEDPixelROIDim1Min; ADnEDPixelROIDim2Min; ADnEDPixelROIDim0Size;
         ADnEDPixelROIDim1Size; ADnEDPixelROIDim2Size; ADnEDPixelROIDataType]
     (λ p, roi_set p (cfg p)) {| (ADnEDPixelROI_new map_lib_empty) with rp_lockDepth := 1 |}).2.

Definition sample_image (n : Z) : nd_image := Image 1 [Dimension n 0 1] n.

(** A conversion that gives a range of the type of the input. *)
Definition sample_convert (t : Z) (ds : list NDDimension_t) : Z * option nd_image :=
  (ND_SUCCESS, match ds with d :: _ => Some (sample_image (size d)) | [] => None end).

Lemma sample_roi_cfg p : roi_is (rp_params (sample_roi_plugin sample_roi)) p (sample_roi p).
Proof. intros old. by destruct p. Qed.

Lemma square_roi_cfg p : roi_is (rp_params (sample_roi_plugin square_roi)) p (square_roi p).
Proof. intros old. by destruct p. Qed.

Lemma processCallbacks_image_witness :
  roi_ok 100 (Dimension 6 4 1) (Dimension 3 7 1) (Dimension 2 99 1) ∧
  wp_ok (processCallbacks sample_convert 100 7)
    (λ _ s', rp_lockDepth s' = 1 ∧
       published (rp_params s') 100 (Dimension 6 4 1) (Dimension 3 7 1) (Dimension 2 99 1) ∧
       rp_array s' = Some (Image 2 [Dimension 3 0 1; Dimension 2 0 1] 6) ∧
       roi_is (rp_params s') NDArraySizeX 3 ∧
       roi_is (rp_params s') NDArraySizeY 2) (sample_roi_plugin sample_roi).
Proof.
  apply (processCallbacks_image (PL := roi_lib) sample_convert eq_refl sample_roi 100 7 (Dimension 6 4 1)
    (Dimension 3 7 1) (Dimension 2 99 1) (sample_roi_plugin sample_roi)).
  - lia.
  - intros p. destruct p; split; vm_compute; congruence.
  - exact sample_roi_cfg.
  - vm_compute. reflexivity.
Defined.

Lemma processCallbacks_image_exceeds_witness :
  wp_ok (processCallbacks sample_convert 100 7)
    (λ _ s', ∃ out, rp_array s' = Some out ∧ nd_elems out = 5 ∧ ndims out = 2 ∧
       take 2 (size <$> dims out) = [5; 5] ∧ nd_elems out < 5 * 5) (sample_roi_plugin square_roi).
Proof.
  apply (processCallbacks_image_exceeds sample_convert square_roi 100 7 5 sample_image
    (sample_roi_plugin square_roi)); try reflexivity.
  - lia.
  - exact square_roi_cfg.
  - intros t d ds. split; reflexivity.
Defined.
