(* ===== verification/Names.v ===== *)
(** * The names of the parameters

    The drvInfo strings by which clients find the parameters (the macros of ADnED.h,
    ADnEDPluginMask.h and ADnEDPixelROI.h) and the calls of [createParam] in the three
    constructors, and next to them, function by function, the types by which the code
    accesses the parameters.  asyn, which keeps the table of names, is not part of this
    repository: it numbers the parameters of a port in the order in which they are
    created, and refuses an access by another type than that of the creation. *)

From stdpp Require Import base numbers list option strings.
From S2P Require Import Prelude Params Write Mask PixelROI.

Local Open Scope Z_scope.

(** One call of [createParam]. *)
Record created (P : Type) : Type := Created {
  cr_name : string;
  cr_type : param_type;
  cr_param : P
}.
Arguments Created {P}.
Arguments cr_name {P}.
Arguments cr_type {P}.
Arguments cr_param {P}.

(** ** The driver *)

(** The macros [ADnED...ParamString]. *)
Definition ParamString (p : param) : string :=
  match p with
  | ADnEDFirstParam => "ADNED_FIRST"
  | ADnEDLastParam => "ADNED_LAST"
  | ADnEDResetParam => "ADNED_RESET"
  | ADnEDStartParam => "ADNED_START"
  | ADnEDStopParam => "ADNED_STOP"
  | ADnEDPauseParam => "ADNED_PAUSE"
  | ADnEDEventDebugParam => "ADNED_EVENT_DEBUG"
  | ADnEDSeqCounterParam => "ADNED_SEQ_COUNTER"
  | ADnEDPulseCounterParam => "ADNED_PULSE_COUNTER"
  | ADnEDEventRateParam => "ADNED_EVENT_RATE"
  | ADnEDSeqIDParam => "ADNED_SEQ_ID"
  | ADnEDSeqIDMissingParam => "ADNED_SEQ_ID_MISSING"
  | ADnEDSeqIDNumMissingParam => "ADNED_SEQ_ID_NUM_MISSING"
  | ADnEDBadTimeStampParam => "ADNED_BAD_TIMESTAMP"
  | ADnEDPChargeParam => "ADNED_PCHARGE"
  | ADnEDPChargeIntParam => "ADNED_PCHARGE_INT"
  | ADnEDEventUpdatePeriodParam => "ADNED_EVENT_UPDATE_PERIOD"
  | ADnEDFrameUpdatePeriodParam => "ADNED_FRAME_UPDATE_PERIOD"
  | ADnEDNumChannelsParam => "ADNED_NUM_CHANNELS"
  | ADnEDPVNameParam => "ADNED_PV_NAME"
  | ADnEDNumDetParam => "ADNED_NUM_DET"
  | ADnEDDetPixelNumStartParam => "ADNED_DET_PIXEL_NUM_START"
  | ADnEDDetPixelNumEndParam => "ADNED_DET_PIXEL_NUM_END"
  | ADnEDDetPixelNumSizeParam => "ADNED_DET_PIXEL_NUM_SIZE"
  | ADnEDDetTOFNumBinsParam => "ADNED_DET_TOF_NUM_BINS"
  | ADnEDDet2DTypeParam => "ADNED_DET_2D_TYPE"
  | ADnEDDetNDArrayStartParam => "ADNED_DET_NDARRAY_START"
  | ADnEDDetNDArrayEndParam => "ADNED_DET_NDARRAY_END"
  | ADnEDDetNDArraySizeParam => "ADNED_DET_NDARRAY_SIZE"
  | ADnEDDetNDArrayTOFStartParam => "ADNED_DET_NDARRAY_TOF_START"
  | ADnEDDetNDArrayTOFEndParam => "ADNED_DET_NDARRAY_TOF_END"
  | ADnEDDetEventRateParam => "ADNED_DET_EVENT_RATE"
  | ADnEDDetEventTotalParam => "ADNED_DET_EVENT_TOTAL"
  | ADnEDDetTOFROIStartParam => "ADNED_DET_TOF_ROI_START"
  | ADnEDDetTOFROISizeParam => "ADNED_DET_TOF_ROI_SIZE"
  | ADnEDDetTOFROIEnableParam => "ADNED_DET_TOF_ROI_ENABLE"
  | ADnEDDetTOFArrayResetParam => "ADNED_DET_TOF_ARRAY_RESET"
  | ADnEDDetTOFTransFile0Param => "ADNED_DET_TOF_TRANS_FILE0"
  | ADnEDDetTOFTransFile1Param => "ADNED_DET_TOF_TRANS_FILE1"
  | ADnEDDetTOFTransFile2Param => "ADNED_DET_TOF_TRANS_FILE2"
  | ADnEDDetTOFTransFile3Param => "ADNED_DET_TOF_TRANS_FILE3"
  | ADnEDDetTOFTransFile4Param => "ADNED_DET_TOF_TRANS_FILE4"
  | ADnEDDetTOFTransFile5Param => "ADNED_DET_TOF_TRANS_FILE5"
  | ADnEDDetTOFTransInt0Param => "ADNED_DET_TOF_TRANS_INT0"
  | ADnEDDetTOFTransInt1Param => "ADNED_DET_TOF_TRANS_INT1"
  | ADnEDDetTOFTransInt2Param => "ADNED_DET_TOF_TRANS_INT2"
  | ADnEDDetTOFTransInt3Param => "ADNED_DET_TOF_TRANS_INT3"
  | ADnEDDetTOFTransInt4Param => "ADNED_DET_TOF_TRANS_INT4"
  | ADnEDDetTOFTransInt5Param => "ADNED_DET_TOF_TRANS_INT5"
  | ADnEDDetTOFTransFloat0Param => "ADNED_DET_TOF_TRANS_FLOAT0"
  | ADnEDDetTOFTransFloat1Param => "ADNED_DET_TOF_TRANS_FLOAT1"
  | ADnEDDetTOFTransFloat2Param => "ADNED_DET_TOF_TRANS_FLOAT2"
  | ADnEDDetTOFTransFloat3Param => "ADNED_DET_TOF_TRANS_FLOAT3"
  | ADnEDDetTOFTransFloat4Param => "ADNED_DET_TOF_TRANS_FLOAT4"
  | ADnEDDetTOFTransFloat5Param => "ADNED_DET_TOF_TRANS_FLOAT5"
  | ADnEDDetTOFTransPrintParam => "ADNED_DET_TOF_TRANS_PRINT"
  | ADnEDDetTOFTransDebugParam => "ADNED_DET_TOF_TRANS_DEBUG"
  | ADnEDDetTOFTransTypeParam => "ADNED_DET_TOF_TRANS_TYPE"
  | ADnEDDetTOFTransOffsetParam => "ADNED_DET_TOF_TRANS_OFFSET"
  | ADnEDDetTOFTransScaleParam => "ADNED_DET_TOF_TRANS_SCALE"
  | ADnEDDetPixelMapFileParam => "ADNED_DET_PIXEL_MAP_FILE"
  | ADnEDDetPixelMapPrintParam => "ADNED_DET_PIXEL_MAP_PRINT"
  | ADnEDDetPixelMapEnableParam => "ADNED_DET_PIXEL_MAP_ENABLE"
  | ADnEDDetPixelROIStartXParam => "ADNED_DET_PIXEL_ROI_START_X"
  | ADnEDDetPixelROISizeXParam => "ADNED_DET_PIXEL_ROI_SIZE_X"
  | ADnEDDetPixelROIStartYParam => "ADNED_DET_PIXEL_ROI_START_Y"
  | ADnEDDetPixelROISizeYParam => "ADNED_DET_PIXEL_ROI_SIZE_Y"
  | ADnEDDetPixelSizeXParam => "ADNED_DET_PIXEL_SIZE_X"
  | ADnEDDetPixelROIEnableParam => "ADNED_DET_PIXEL_ROI_ENABLE"
  | ADnEDTOFMaxParam => "ADNED_TOF_MAX"
  | ADnEDAllocSpaceParam => "ADNED_ALLOC_SPACE"
  | ADnEDAllocSpaceStatusParam => "ADNED_ALLOC_SPACE_STATUS"
  | _ => EmptyString
  end.

Definition create (ty : param_type) (p : param) : created param := Created (ParamString p) ty p.

(** The calls in the constructor of ADnED. *)
Definition ADnED_createParams : list (created param) :=
  [create asynParamInt32 ADnEDFirstParam;
   create asynParamInt32 ADnEDResetParam;
   create asynParamInt32 ADnEDStartParam;
   create asynParamInt32 ADnEDStopParam;
   create asynParamInt32 ADnEDPauseParam;
   create asynParamInt32 ADnEDEventDebugParam;
   create asynParamInt32 ADnEDSeqCounterParam;
   create asynParamInt32 ADnEDPulseCounterParam;
   create asynParamInt32 ADnEDEventRateParam;
   create asynParamInt32 ADnEDSeqIDParam;
   create asynParamInt32 ADnEDSeqIDMissingParam;
   create asynParamInt32 ADnEDSeqIDNumMissingParam;
   create asynParamInt32 ADnEDBadTimeStampParam;
   create asynParamFloat64 ADnEDPChargeParam;
   create asynParamFloat64 ADnEDPChargeIntParam;
   create asynParamFloat64 ADnEDEventUpdatePeriodParam;
   create asynParamFloat64 ADnEDFrameUpdatePeriodParam;
   create asynParamInt32 ADnEDNumChannelsParam;
   create asynParamOctet ADnEDPVNameParam;
   create asynParamInt32 ADnEDNumDetParam;
   create asynParamInt32 ADnEDDetPixelNumStartParam;
   create asynParamInt32 ADnEDDetPixelNumEndParam;
   create asynParamInt32 ADnEDDetPixelNumSizeParam;
   create asynParamInt32 ADnEDDetTOFNumBinsParam;
   create asynParamInt32 ADnEDDet2DTypeParam;
   create asynParamInt32 ADnEDDetNDArrayStartParam;
   create asynParamInt32 ADnEDDetNDArrayEndParam;
   create asynParamInt32 ADnEDDetNDArraySizeParam;
   create asynParamInt32 ADnEDDetNDArrayTOFStartParam;
   create asynParamInt32 ADnEDDetNDArrayTOFEndParam;
   create asynParamInt32 ADnEDDetEventRateParam;
   create asynParamFloat64 ADnEDDetEventTotalParam;
   create asynParamInt32 ADnEDDetTOFROIStartParam;
   create asynParamInt32 ADnEDDetTOFROISizeParam;
   create asynParamInt32 ADnEDDetTOFROIEnableParam;
   create asynParamInt32 ADnEDDetTOFArrayResetParam;
   create asynParamOctet ADnEDDetTOFTransFile0Param;
   create asynParamOctet ADnEDDetTOFTransFile1Param;
   create asynParamOctet ADnEDDetTOFTransFile2Param;
   create asynParamOctet ADnEDDetTOFTransFile3Param;
   create asynParamOctet ADnEDDetTOFTransFile4Param;
   create asynParamOctet ADnEDDetTOFTransFile5Param;
   create asynParamInt32 ADnEDDetTOFTransInt0Param;
   create asynParamInt32 ADnEDDetTOFTransInt1Param;
   create asynParamInt32 ADnEDDetTOFTransInt2Param;
   create asynParamInt32 ADnEDDetTOFTransInt3Param;
   create asynParamInt32 ADnEDDetTOFTransInt4Param;
   create asynParamInt32 ADnEDDetTOFTransInt5Param;
   create asynParamFloat64 ADnEDDetTOFTransFloat0Param;
   create asynParamFloat64 ADnEDDetTOFTransFloat1Param;
   create asynParamFloat64 ADnEDDetTOFTransFloat2Param;
   create asynParamFloat64 ADnEDDetTOFTransFloat3Param;
   create asynParamFloat64 ADnEDDetTOFTransFloat4Param;
   create asynParamFloat64 ADnEDDetTOFTransFloat5Param;
   create asynParamInt32 ADnEDDetTOFTransPrintParam;
   create asynParamInt32 ADnEDDetTOFTransDebugParam;
   create asynParamInt32 ADnEDDetTOFTransTypeParam;
   create asynParamFloat64 ADnEDDetTOFTransOffsetParam;
   create asynParamFloat64 ADnEDDetTOFTransScaleParam;
   create asynParamOctet ADnEDDetPixelMapFileParam;
   create asynParamInt32 ADnEDDetPixelMapPrintParam;
   create asynParamInt32 ADnEDDetPixelMapEnableParam;
   create asynParamInt32 ADnEDDetPixelROIStartXParam;
   create asynParamInt32 ADnEDDetPixelROISizeXParam;
   create asynParamInt32 ADnEDDetPixelROIStartYParam;
   create asynParamInt32 ADnEDDetPixelROISizeYParam;
   create asynParamInt32 ADnEDDetPixelSizeXParam;
   create asynParamInt32 ADnEDDetPixelROIEnableParam;
   create asynParamInt32 ADnEDTOFMaxParam;
   create asynParamInt32 ADnEDAllocSpaceParam;
   create asynParamInt32 ADnEDAllocSpaceStatusParam;
   create asynParamInt32 ADnEDLastParam].

(** The parameter members of class ADnED as the header declares them, and
    [NUM_DRIVER_PARAMS], the distance of the first and the last. *)
Definition ADnED_members_of_params : list param :=
  [ADnEDFirstParam; ADnEDResetParam; ADnEDStartParam; ADnEDStopParam; ADnEDPauseParam;
   ADnEDEventDebugParam; ADnEDSeqCounterParam; ADnEDPulseCounterParam; ADnEDEventRateParam;
   ADnEDSeqIDParam; ADnEDSeqIDMissingParam; ADnEDSeqIDNumMissingParam; ADnEDBadTimeStampParam;
   ADnEDPChargeParam; ADnEDPChargeIntParam; ADnEDEventUpdatePeriodParam;
   ADnEDFrameUpdatePeriodParam; ADnEDNumChannelsParam; ADnEDPVNameParam; ADnEDNumDetParam;
   ADnEDDetPixelNumStartParam; ADnEDDetPixelNumEndParam; ADnEDDetPixelNumSizeParam;
   ADnEDDetTOFNumBinsParam; ADnEDDet2DTypeParam; ADnEDDetNDArrayStartParam;
   ADnEDDetNDArrayEndParam; ADnEDDetNDArraySizeParam; ADnEDDetNDArrayTOFStartParam;
   ADnEDDetNDArrayTOFEndParam; ADnEDDetEventRateParam; ADnEDDetEventTotalParam;
   ADnEDDetTOFROIStartParam; ADnEDDetTOFROISizeParam; ADnEDDetTOFROIEnableParam;
   ADnEDDetTOFArrayResetParam; ADnEDDetTOFTransFile0Param; ADnEDDetTOFTransFile1Param;
   ADnEDDetTOFTransFile2Param; ADnEDDetTOFTransFile3Param; ADnEDDetTOFTransFile4Param;
   ADnEDDetTOFTransFile5Param; ADnEDDetTOFTransInt0Param; ADnEDDetTOFTransInt1Param;
   ADnEDDetTOFTransInt2Param; ADnEDDetTOFTransInt3Param; ADnEDDetTOFTransInt4Param;
   ADnEDDetTOFTransInt5Param; ADnEDDetTOFTransFloat0Param; ADnEDDetTOFTransFloat1Param;
   ADnEDDetTOFTransFloat2Param; ADnEDDetTOFTransFloat3Param; ADnEDDetTOFTransFloat4Param;
   ADnEDDetTOFTransFloat5Param; ADnEDDetTOFTransPrintParam; ADnEDDetTOFTransDebugParam;
   ADnEDDetTOFTransTypeParam; ADnEDDetTOFTransOffsetParam; ADnEDDetTOFTransScaleParam;
   ADnEDDetPixelMapFileParam; ADnEDDetPixelMapPrintParam; ADnEDDetPixelMapEnableParam;
   ADnEDDetPixelROIStartXParam; ADnEDDetPixelROISizeXParam; ADnEDDetPixelROIStartYParam;
   ADnEDDetPixelROISizeYParam; ADnEDDetPixelSizeXParam; ADnEDDetPixelROIEnableParam;
   ADnEDTOFMaxParam; ADnEDAllocSpaceParam; ADnEDAllocSpaceStatusParam; ADnEDLastParam].

Definition NUM_DRIVER_PARAMS : Z :=
  let position p := default 0 (Z.of_nat <$> (fst <$> list_find (p =.) ADnED_members_of_params)) in
  position ADnEDLastParam - position ADnEDFirstParam + 1.

(** ** The plug-ins *)

Definition MaskString (p : mask_param) : string :=
  match p with
  | NDPluginMaskName => "MASK_NAME"
  | NDPluginMaskUse => "MASK_USE"
  | NDPluginMaskMaxSizeX => "MASK_MAX_SIZE_X"
  | NDPluginMaskMaxSizeY => "MASK_MAX_SIZE_Y"
  | NDPluginMaskPosX => "MASK_POS_X"
  | NDPluginMaskPosY => "MASK_POS_Y"
  | NDPluginMaskSizeX => "MASK_SIZE_X"
  | NDPluginMaskSizeY => "MASK_SIZE_Y"
  | NDPluginMaskVal => "MASK_VAL"
  | NDPluginMaskType => "MASK_TYPE"
  | _ => EmptyString
  end.

Definition create_mask (ty : param_type) (p : mask_param) : created mask_param :=
  Created (MaskString p) ty p.

Definition NDPluginMask_createParams : list (created mask_param) :=
  [create_mask asynParamOctet NDPluginMaskName;
   create_mask asynParamInt32 NDPluginMaskUse;
   create_mask asynParamInt32 NDPluginMaskMaxSizeX;
   create_mask asynParamInt32 NDPluginMaskMaxSizeY;
   create_mask asynParamInt32 NDPluginMaskPosX;
   create_mask asynParamInt32 NDPluginMaskPosY;
   create_mask asynParamInt32 NDPluginMaskSizeX;
   create_mask asynParamInt32 NDPluginMaskSizeY;
   create_mask asynParamInt32 NDPluginMaskVal;
   create_mask asynParamInt32 NDPluginMaskType].

Definition PixelROIString (p : roi_param) : string :=
  match p with
  | ADnEDPixelROIName => "PIXELROI_NAME"
  | ADnEDPixelROIDim0Min => "PIXELROI_DIM0_MIN"
  | ADnEDPixelROIDim1Min => "PIXELROI_DIM1_MIN"
  | ADnEDPixelROIDim2Min => "PIXELROI_DIM2_MIN"
  | ADnEDPixelROIDim0Size => "PIXELROI_DIM0_SIZE"
  | ADnEDPixelROIDim1Size => "PIXELROI_DIM1_SIZE"
  | ADnEDPixelROIDim2Size => "PIXELROI_DIM2_SIZE"
  | ADnEDPixelROIDim0MaxSize => "PIXELROI_DIM0_MAX_SIZE"
  | ADnEDPixelROIDim1MaxSize => "PIXELROI_DIM1_MAX_SIZE"
  | ADnEDPixelROIDim2MaxSize => "PIXELROI_DIM2_MAX_SIZE"
  | ADnEDPixelROIDataType => "PIXELROI_ROI_DATA_TYPE"
  | _ => EmptyString
  end.

Definition create_roi (ty : param_type) (p : roi_param) : created roi_param :=
  Created (PixelROIString p) ty p.

Definition ADnEDPixelROI_createParams : list (created roi_param) :=
  [create_roi asynParamOctet ADnEDPixelROIName;
   create_roi asynParamInt32 ADnEDPixelROIDim0Min;
   create_roi asynParamInt32 ADnEDPixelROIDim1Min;
   create_roi asynParamInt32 ADnEDPixelROIDim2Min;
   create_roi asynParamInt32 ADnEDPixelROIDim0Size;
   create_roi asynParamInt32 ADnEDPixelROIDim1Size;
   create_roi asynParamInt32 ADnEDPixelROIDim2Size;
   create_roi asynParamInt32 ADnEDPixelROIDim0MaxSize;
   create_roi asynParamInt32 ADnEDPixelROIDim1MaxSize;
   create_roi asynParamInt32 ADnEDPixelROIDim2MaxSize;
   create_roi asynParamInt32 ADnEDPixelROIDataType].

(** ** The accesses

    By which type each function of the code accesses the parameters of its own
    class: [setIntegerParam] and [getIntegerParam] access an Int32, [setDoubleParam] and
    [getDoubleParam] a Float64, [setStringParam] and [getStringParam] an Octet, and
    the number that [writeInt32], [writeFloat64] or [writeOctet] is called with is that of
    a parameter of the type in its name.  A parameter is listed once per function.
    The parameters of the base classes are left out. *)

Definition as_Int32 {P} : list P → list (param_type * P) := fmap (pair asynParamInt32).
Definition as_Float64 {P} : list P → list (param_type * P) := fmap (pair asynParamFloat64).
Definition as_Octet {P} : list P → list (param_type * P) := fmap (pair asynParamOctet).

(** The constructor of ADnED. *)
Definition constructor_accesses : list (param_type * param) :=
  as_Int32 [ADnEDResetParam; ADnEDStartParam; ADnEDStopParam; ADnEDPauseParam;
    ADnEDEventDebugParam; ADnEDPulseCounterParam; ADnEDEventRateParam; ADnEDNumDetParam;
    ADnEDNumChannelsParam; ADnEDSeqCounterParam; ADnEDSeqIDParam; ADnEDSeqIDMissingParam;
    ADnEDSeqIDNumMissingParam; ADnEDBadTimeStampParam; ADnEDDetPixelNumStartParam;
    ADnEDDetPixelNumEndParam; ADnEDDetPixelNumSizeParam; ADnEDDetTOFNumBinsParam;
    ADnEDDet2DTypeParam; ADnEDDetNDArrayStartParam; ADnEDDetNDArrayEndParam;
    ADnEDDetNDArraySizeParam; ADnEDDetNDArrayTOFStartParam; ADnEDDetNDArrayTOFEndParam;
    ADnEDDetEventRateParam; ADnEDDetTOFROIStartParam; ADnEDDetTOFROISizeParam;
    ADnEDDetTOFROIEnableParam; ADnEDDetTOFArrayResetParam; ADnEDDetTOFTransInt0Param;
    ADnEDDetTOFTransInt1Param; ADnEDDetTOFTransInt2Param; ADnEDDetTOFTransInt3Param;
    ADnEDDetTOFTransInt4Param; ADnEDDetTOFTransInt5Param; ADnEDDetTOFTransDebugParam;
    ADnEDDetTOFTransTypeParam; ADnEDDetPixelMapEnableParam; ADnEDDetPixelROIStartXParam;
    ADnEDDetPixelROISizeXParam; ADnEDDetPixelROIStartYParam; ADnEDDetPixelROISizeYParam;
    ADnEDDetPixelSizeXParam; ADnEDDetPixelROIEnableParam; ADnEDTOFMaxParam;
    ADnEDAllocSpaceParam; ADnEDAllocSpaceStatusParam] ++ as_Float64 [ADnEDPChargeParam;
    ADnEDPChargeIntParam; ADnEDDetEventTotalParam; ADnEDDetTOFTransFloat0Param;
    ADnEDDetTOFTransFloat1Param; ADnEDDetTOFTransFloat2Param; ADnEDDetTOFTransFloat3Param;
    ADnEDDetTOFTransFloat4Param; ADnEDDetTOFTransFloat5Param; ADnEDDetTOFTransOffsetParam;
    ADnEDDetTOFTransScaleParam] ++ as_Octet [ADnEDPVNameParam; ADnEDDetTOFTransFile0Param;
    ADnEDDetTOFTransFile1Param; ADnEDDetTOFTransFile2Param; ADnEDDetTOFTransFile3Param;
    ADnEDDetTOFTransFile4Param; ADnEDDetTOFTransFile5Param; ADnEDDetPixelMapFileParam].

(** [ADnED::writeInt32]: the comparisons with [function] and the calls. *)
Definition writeInt32_accesses : list (param_type * param) :=
  as_Int32 [ADnEDResetParam; ADnEDStartParam; ADnEDPauseParam; ADnEDStopParam;
    ADnEDDetPixelNumStartParam; ADnEDDetPixelNumEndParam; ADnEDDetPixelNumSizeParam;
    ADnEDTOFMaxParam; ADnEDAllocSpaceParam; ADnEDAllocSpaceStatusParam; ADnEDNumDetParam;
    ADnEDNumChannelsParam; ADnEDDetTOFTransPrintParam; ADnEDDetTOFTransDebugParam;
    ADnEDDetPixelMapPrintParam; ADnEDDetPixelROISizeXParam; ADnEDDetPixelROIEnableParam;
    ADnEDDetTOFROIEnableParam; ADnEDDetTOFArrayResetParam].

(** [ADnED::writeFloat64]. *)
Definition writeFloat64_accesses : list (param_type * param) :=
  as_Float64 [ADnEDFrameUpdatePeriodParam].

(** [ADnED::writeOctet]. *)
Definition writeOctet_accesses : list (param_type * param) :=
  as_Octet [ADnEDDetPixelMapFileParam].

(** [matchTransFile] is called by [writeOctet], [matchTransInt] by [writeInt32] and
    [matchTransFloat] by [writeFloat64]. *)
Definition matchTransFile_accesses : list (param_type * param) :=
  as_Octet [ADnEDDetTOFTransFile0Param; ADnEDDetTOFTransFile1Param;
    ADnEDDetTOFTransFile2Param; ADnEDDetTOFTransFile3Param; ADnEDDetTOFTransFile4Param;
    ADnEDDetTOFTransFile5Param].

Definition matchTransInt_accesses : list (param_type * param) :=
  as_Int32 [ADnEDDetTOFTransInt0Param; ADnEDDetTOFTransInt1Param; ADnEDDetTOFTransInt2Param;
    ADnEDDetTOFTransInt3Param; ADnEDDetTOFTransInt4Param; ADnEDDetTOFTransInt5Param].

Definition matchTransFloat_accesses : list (param_type * param) :=
  as_Float64 [ADnEDDetTOFTransFloat0Param; ADnEDDetTOFTransFloat1Param;
    ADnEDDetTOFTransFloat2Param; ADnEDDetTOFTransFloat3Param; ADnEDDetTOFTransFloat4Param;
    ADnEDDetTOFTransFloat5Param].

(** [checkPixelMap] and [resetTOFArray]. *)
Definition checkPixelMap_accesses : list (param_type * param) :=
  as_Int32 [ADnEDDetPixelNumSizeParam].

Definition resetTOFArray_accesses : list (param_type * param) :=
  as_Int32 [ADnEDDetNDArrayTOFStartParam].

(** [eventHandler]. *)
Definition eventHandler_accesses : list (param_type * param) :=
  as_Int32 [ADnEDPauseParam; ADnEDNumChannelsParam; ADnEDNumDetParam; ADnEDEventDebugParam;
    ADnEDDetPixelNumStartParam; ADnEDDetPixelNumEndParam; ADnEDDetPixelNumSizeParam;
    ADnEDDetNDArrayStartParam; ADnEDDetNDArrayTOFStartParam; ADnEDDetTOFROIStartParam;
    ADnEDDetTOFROISizeParam; ADnEDDetTOFROIEnableParam; ADnEDDetPixelMapEnableParam;
    ADnEDDetTOFTransTypeParam; ADnEDDetPixelROIStartXParam; ADnEDDetPixelROIStartYParam;
    ADnEDDetPixelROISizeXParam; ADnEDDetPixelROISizeYParam; ADnEDDetPixelSizeXParam;
    ADnEDDetPixelROIEnableParam; ADnEDBadTimeStampParam; ADnEDSeqIDMissingParam;
    ADnEDSeqIDNumMissingParam; ADnEDDet2DTypeParam; ADnEDDetTOFNumBinsParam;
    ADnEDSeqCounterParam; ADnEDSeqIDParam; ADnEDPulseCounterParam; ADnEDEventRateParam;
    ADnEDDetEventRateParam] ++ as_Float64 [ADnEDEventUpdatePeriodParam;
    ADnEDDetTOFTransOffsetParam; ADnEDDetTOFTransScaleParam; ADnEDDetEventTotalParam;
    ADnEDPChargeParam; ADnEDPChargeIntParam].

(** [allocArray] and [clearParams]. *)
Definition allocArray_accesses : list (param_type * param) :=
  as_Int32 [ADnEDNumDetParam; ADnEDTOFMaxParam; ADnEDDetPixelNumStartParam;
    ADnEDDetPixelNumEndParam; ADnEDDetPixelNumSizeParam; ADnEDAllocSpaceStatusParam;
    ADnEDDetNDArrayStartParam; ADnEDDetNDArrayEndParam; ADnEDDetNDArraySizeParam;
    ADnEDDetNDArrayTOFStartParam; ADnEDDetNDArrayTOFEndParam].

Definition clearParams_accesses : list (param_type * param) :=
  as_Int32 [ADnEDPulseCounterParam; ADnEDSeqCounterParam; ADnEDSeqIDParam;
    ADnEDSeqIDMissingParam; ADnEDSeqIDNumMissingParam; ADnEDBadTimeStampParam] ++ as_Float64
    [ADnEDPChargeParam; ADnEDPChargeIntParam; ADnEDDetEventTotalParam].

(** The two threads. *)
Definition eventTask_accesses : list (param_type * param) :=
  as_Int32 [ADnEDNumChannelsParam; ADnEDStartParam; ADnEDNumDetParam; ADnEDEventRateParam;
    ADnEDDetEventRateParam; ADnEDStopParam] ++ as_Octet [ADnEDPVNameParam].

Definition frameTask_accesses : list (param_type * param) :=
  as_Float64 [ADnEDFrameUpdatePeriodParam].

(** The plug-ins. *)
Definition NDPluginMask_accesses : list (param_type * mask_param) :=
  as_Int32 [NDPluginMaskMaxSizeX; NDPluginMaskMaxSizeY; NDPluginMaskUse; NDPluginMaskPosX;
    NDPluginMaskSizeX; NDPluginMaskPosY; NDPluginMaskSizeY; NDPluginMaskVal;
    NDPluginMaskType].

Definition ADnEDPixelROI_accesses : list (param_type * roi_param) :=
  as_Int32 [ADnEDPixelROIDim0Min; ADnEDPixelROIDim1Min; ADnEDPixelROIDim2Min;
    ADnEDPixelROIDim0Size; ADnEDPixelROIDim1Size; ADnEDPixelROIDim2Size;
    ADnEDPixelROIDataType; ADnEDPixelROIDim0MaxSize; ADnEDPixelROIDim1MaxSize;
    ADnEDPixelROIDim2MaxSize].

Definition ADnED_accesses : list (param_type * param) :=
  constructor_accesses ++ writeInt32_accesses ++ writeFloat64_accesses ++ writeOctet_accesses ++
  matchTransFile_accesses ++ matchTransInt_accesses ++ matchTransFloat_accesses ++
  checkPixelMap_accesses ++ resetTOFArray_accesses ++ eventHandler_accesses ++
  allocArray_accesses ++ clearParams_accesses ++ eventTask_accesses ++ frameTask_accesses.

(** ** Theorems *)

(** A list of calls that gives every parameter its own name, and the type that it has
    in the model of the parameter library. *)
Definition well_created {P} `{ParamNames P} (cs : list (created P)) : Prop :=
  NoDup (cr_name <$> cs) ∧ NoDup (cr_param <$> cs) ∧
  Forall (λ c, cr_name c ≠ EmptyString ∧ param_type_of (cr_param c) = Some (cr_type c)) cs.

#[export] Instance well_created_dec {P} `{EqDecision P} `{ParamNames P} (cs : list (created P)) :
  Decision (well_created cs).
Proof. unfold well_created. apply _. Defined.

(** Every access is by the type with which its parameter was created. *)
Definition accessed_as_created {P} (cs : list (created P)) (accs : list (param_type * P)) : Prop :=
  ∀ ty p, (ty, p) ∈ accs → ∃ c, c ∈ cs ∧ cr_param c = p ∧ cr_type c = ty.

Lemma accessed_as_created_check {P} `{EqDecision P} (cs : list (created P)) accs :
  Forall (λ a, a ∈ (λ c, (cr_type c, cr_param c)) <$> cs) accs → accessed_as_created cs accs.
Proof.
  rewrite Forall_forall. intros Hall ty p Ha.
  apply Hall, list_elem_of_fmap in Ha as (c & [= -> ->] & Hc). eauto.
Qed.

(** The parameters that are created and never accessed. *)
Definition unaccessed {P} `{EqDecision P} (cs : list (created P)) (accs : list (param_type * P))
    : list P :=
  filter (λ p, p ∉ accs.*2) (cr_param <$> cs).

(** The numbers that asyn gives to the parameters: those of the base classes come
    first, and then they follow each other in the order of creation. *)
Definition numbered {P} (reason : P → Z) (first : Z) (cs : list (created P)) : Prop :=
  ∀ k c, cs !! k = Some c → reason (cr_param c) = first + Z.of_nat k.

Lemma all_created p : is_base_param p = false → p ∈ cr_param <$> ADnED_createParams.
Proof. destruct p; try discriminate; intros _; apply (bool_decide_unpack _); vm_compute; exact I. Qed.

Lemma first_created : ADnED_createParams !! 0%nat = Some (create asynParamInt32 ADnEDFirstParam).
Proof. done. Qed.

(** C10. The parameters are created as the code uses them.  Every call of [createParam] in
    the driver and in the two plug-ins has a name and a parameter of its own.  Every
    access to a parameter, by a call of [setIntegerParam] to [getStringParam] or in one of
    the write functions, is by the type with which the parameter was created, and every
    parameter that is created is accessed, but the first and the last, which only mark
    the range, and the names of the plug-ins.  The driver creates exactly its own
    parameters, as many as it announces to the base class, in the order of the members;
    and so, however many parameters the base classes have,
    [function < ADNED_FIRST_DRIVER_COMMAND] holds for the parameters of the base classes
    only, and no two parameters of the driver have the same number. *)
Theorem parameters_created (reason : param → Z) first :
  numbered reason first ADnED_createParams →
  (∀ p, is_base_param p = true → reason p < first) →
  (well_created ADnED_createParams ∧ well_created NDPluginMask_createParams ∧
   well_created ADnEDPixelROI_createParams) ∧
  (accessed_as_created ADnED_createParams ADnED_accesses ∧
   accessed_as_created NDPluginMask_createParams NDPluginMask_accesses ∧
   accessed_as_created ADnEDPixelROI_createParams ADnEDPixelROI_accesses) ∧
  (unaccessed ADnED_createParams ADnED_accesses = [ADnEDFirstParam; ADnEDLastParam] ∧
   unaccessed NDPluginMask_createParams NDPluginMask_accesses = [NDPluginMaskName] ∧
   unaccessed ADnEDPixelROI_createParams ADnEDPixelROI_accesses = [ADnEDPixelROIName]) ∧
  cr_param <$> ADnED_createParams = ADnED_members_of_params ∧
  NUM_DRIVER_PARAMS = Z.of_nat (length ADnED_createParams) ∧
  (∀ p, is_base_param p = true ↔ reason p < reason ADnEDFirstParam) ∧
  (∀ p q, is_base_param p = false → is_base_param q = false → reason p = reason q → p = q).
Proof.
  intros Hnum Hbase.
  assert (∀ p, is_base_param p = false → ∃ k, (cr_param <$> ADnED_createParams) !! k = Some p ∧
    reason p = first + Z.of_nat k) as Hown.
  { intros p Hp. apply all_created, list_elem_of_lookup in Hp as [k Hk]. exists k. split; [done|].
    rewrite list_lookup_fmap in Hk. destruct (ADnED_createParams !! k) as [c|] eqn:Hc; [|done].
    injection Hk as <-. by apply Hnum. }
  assert (reason ADnEDFirstParam = first) as Hfirst.
  { pose proof (Hnum _ _ first_created) as H. cbn in H. lia. }
  split_and!; try (apply (bool_decide_unpack _); vm_compute; exact I);
    try (apply accessed_as_created_check, (bool_decide_unpack _); vm_compute; exact I).
  - intros p. rewrite Hfirst. split; [apply Hbase|]. intros Hlt.
    destruct (is_base_param p) eqn:Hp; [done|]. destruct (Hown p Hp) as (k & _ & ?). lia.
  - intros p q Hp Hq Heq. destruct (Hown p Hp) as (k & Hk & E1), (Hown q Hq) as (j & Hj & E2).
    assert (k = j) as -> by lia. congruence.
Qed.

(** With 100 parameters in the base classes. *)
Definition sample_reason (p : param) : Z :=
  match param_code p with inl k => if decide (k < 72) then 100 + k else k - 72 | inr r => -1 end.

Lemma parameters_created_witness :
  (well_created ADnED_createParams ∧ well_created NDPluginMask_createParams ∧
   well_created ADnEDPixelROI_createParams) ∧
  (accessed_as_created ADnED_createParams ADnED_accesses ∧
   accessed_as_created NDPluginMask_createParams NDPluginMask_accesses ∧
   accessed_as_created ADnEDPixelROI_createParams ADnEDPixelROI_accesses) ∧
  (unaccessed ADnED_createParams ADnED_accesses = [ADnEDFirstParam; ADnEDLastParam] ∧
   unaccessed NDPluginMask_createParams NDPluginMask_accesses = [NDPluginMaskName] ∧
   unaccessed ADnEDPixelROI_createParams ADnEDPixelROI_accesses = [ADnEDPixelROIName]) ∧
  cr_param <$> ADnED_createParams = ADnED_members_of_params ∧
  NUM_DRIVER_PARAMS = Z.of_nat (length ADnED_createParams) ∧
  (∀ p, is_base_param p = true ↔ sample_reason p < sample_reason ADnEDFirstParam) ∧
  (∀ p q, is_base_param p = false → is_base_param q = false →
     sample_reason p = sample_reason q → p = q).
Proof.
  apply (parameters_created sample_reason 100).
  - intros k c Hk. assert (k < 72)%nat as Hlt by (by apply lookup_lt_Some in Hk).
    do 72 (destruct k as [|k]; [by injection Hk as <-|]). lia.
  - intros p Hp. destruct p; try discriminate Hp; reflexivity.
Defined.
