(* ===== verification/Axis.v ===== *)
(** * The axis record

    Models ADnEDAxis.c: the two functions of the aSub record that computes the
    scale of a plot axis.  [nova] is the number of elements of the output [vala],
    [a], [b] and [c] are the inputs start, size and bin size, and [dpvt] is the
    work array. *)

From stdpp Require Import base numbers list option strings.
From S2P Require Import Prelude Float64.

Local Open Scope Z_scope.

Record aSubRecord : Type := ASub {
  nova : Z;
  a : f64;
  b : Z;
  c : f64;
  dpvt : option (list f64);
  vala : list f64
}.

(** [callocMustSucceed] does not return without the memory. *)
Definition ADnEDAxisInit : M aSubRecord Z :=
  n ← gets nova;
  (if decide (n < 1) then modify (λ r, {| r with nova := 1 |}) else mret ()) ;;
  modify (λ r, {| r with dpvt := Some (replicate (Z.to_nat (nova r)) (f_of_Z 0)) |}) ;;
  mret 0.

(** [pData[i] = point] *)
Definition put_point (i : Z) (point : f64) : M aSubRecord () :=
  d ← gets dpvt;
  data ← checked NullDeref d;
  data' ← checked OutOfBounds (wr data i point);
  modify (λ r, {| r with dpvt := Some data' |}).

(** [memcpy(psub->vala, pData, n*sizeof(double))] *)
Definition copy_out (n : Z) : M aSubRecord () :=
  d ← gets dpvt;
  data ← checked NullDeref d;
  out ← gets vala;
  if decide (n <= Z.of_nat (length data) ∧ n <= Z.of_nat (length out)) then
    modify (λ r, {| r with vala := take (Z.to_nat n) data ++ drop (Z.to_nat n) out |})
  else undefined OutOfBounds.

Definition ADnEDAxisProcess : M aSubRecord Z :=
  n ← gets nova;
  let maxsize := i32 n in
  start ← gets a;
  size ← gets b;
  bin ← gets c;
  if decide (size > maxsize) then mret 1
  else
    let point := f_mul (f_of_Z size) bin in
    for_ (seqZ 0 maxsize) (λ i, put_point i point) ;;
    for_acc (seqZ 0 size) start (λ i point, put_point i point ;; mret (f_add point bin)) ;;
    copy_out maxsize ;;
    mret 0.

(** ** The scale *)

(** The point of index [i]: the bin size is added [i] times. *)
Definition axis_point (start bin : f64) (i : nat) : f64 := Nat.iter i (λ x, f_add x bin) start.

Definition axis_scale (r : aSubRecord) : list f64 :=
  (axis_point (a r) (c r) <$> seq 0 (Z.to_nat (b r)))
  ++ replicate (Z.to_nat (nova r) - Z.to_nat (b r)) (f_mul (f_of_Z (b r)) (c r)).

Definition with_data (r : aSubRecord) (l : list f64) : aSubRecord := {| r with dpvt := Some l |}.

Lemma put_point_run r l i p :
  in_bounds l i → put_point i p (with_data r l) = (Ok (), with_data r (upd l i p)).
Proof.
  intros Hi. unfold put_point, mbind, M_bind, gets, checked, lift, with_data. cbn.
  rewrite wr_Some by done. done.
Qed.

Lemma upd_app_r {A} (l k : list A) i x y :
  i = Z.of_nat (length l) → upd (l ++ x :: k) i y = (l ++ [y]) ++ k.
Proof.
  intros ->. unfold upd. rewrite Nat2Z.id. rewrite insert_app_r_alt by done.
  by rewrite Nat.sub_diag, <-app_assoc.
Qed.

(** The first loop fills the work array. *)
Lemma fill_loop r l p :
  wp_ok (for_ (seqZ 0 (Z.of_nat (length l))) (λ i, put_point i p))
    (λ _ r', r' = with_data r (replicate (length l) p)) (with_data r l).
Proof.
  eapply wp_mono; [eapply (wp_for_range 0 (Z.of_nat (length l)) _
    (λ i r', r' = with_data r (replicate (Z.to_nat i) p ++ drop (Z.to_nat i) l))
    (λ _ _, False))| |done].
  - lia.
  - done.
  - intros i r' Hi ->. unfold wp.
    destruct (drop (Z.to_nat i) l) as [|x k] eqn:E.
    { apply (f_equal length) in E. rewrite length_drop in E. cbn in E. lia. }
    assert (i = Z.of_nat (length (replicate (Z.to_nat i) p))) as Hlen
      by (rewrite length_replicate; lia).
    rewrite put_point_run by (unfold in_bounds; rewrite length_app; cbn; lia).
    f_equal. rewrite upd_app_r by done.
    replace (Z.to_nat (i + 1)) with (S (Z.to_nat i)) by lia.
    rewrite <-replicate_cons_app. f_equal.
    by rewrite <-Nat.add_1_r, <-drop_drop, E.
  - intros [] r' ->. rewrite Z.add_0_l, Nat2Z.id, drop_all, app_nil_r. done.
Qed.

Lemma seqZ_max n : seqZ 0 n = seqZ 0 (Z.max 0 n).
Proof. destruct (decide (0 <= n)); [by rewrite Z.max_r|]. by rewrite !seqZ_nil by lia. Qed.

(** The second loop writes the points. *)
Lemma point_loop r start bin n l :
  0 <= n <= Z.of_nat (length l) →
  wp_ok (for_acc (seqZ 0 n) start (λ i point, put_point i point ;; mret (f_add point bin)))
    (λ _ r', r' = with_data r ((axis_point start bin <$> seq 0 (Z.to_nat n)) ++ drop (Z.to_nat n) l))
    (with_data r l).
Proof.
  intros Hn. eapply wp_mono; [eapply (wp_for_acc_range 0 n _ _
    (λ i point r', point = axis_point start bin (Z.to_nat i) ∧
       r' = with_data r ((axis_point start bin <$> seq 0 (Z.to_nat i)) ++ drop (Z.to_nat i) l))
    (λ _ _, False))| |done].
  - lia.
  - done.
  - intros i point r' Hi [-> ->]. wp_step. unfold wp.
    destruct (drop (Z.to_nat i) l) as [|x k] eqn:E.
    { apply (f_equal length) in E. rewrite length_drop in E. cbn in E. lia. }
    assert (i = Z.of_nat (length (axis_point start bin <$> seq 0 (Z.to_nat i)))) as Hlen
      by (rewrite length_fmap, length_seq; lia).
    rewrite put_point_run by (unfold in_bounds; rewrite length_app; cbn [length]; lia).
    rewrite upd_app_r by done.
    replace (Z.to_nat (i + 1)) with (S (Z.to_nat i)) by lia. split; [done|]. f_equal.
    rewrite seq_S, fmap_app. f_equal. by rewrite <-Nat.add_1_r, <-drop_drop, E.
  - intros _ r' [_ ->]. by rewrite Z.add_0_l.
Qed.

(** C33. The scale of an axis. After [ADnEDAxisInit], for inputs that fit the
    output, [ADnEDAxisProcess] returns 0 and leaves in the output the points
    start, start + bin, (start + bin) + bin, ... for the requested size, followed by
    size * bin up to the end, whatever the start; a negative size gives no point.
    When the size exceeds the output it returns 1 and changes nothing. It never
    accesses memory outside its two arrays. *)
Theorem axis_process_scale (r : aSubRecord) :
  is_i32 (nova r) → Z.of_nat (length (vala r)) = Z.max 1 (nova r) →
  wp_ok (ADnEDAxisInit ;; ADnEDAxisProcess)
    (λ st r', nova r' = Z.max 1 (nova r) ∧
       if decide (b r > Z.max 1 (nova r)) then st = 1 ∧ vala r' = vala r
       else st = 0 ∧ vala r' = axis_scale {| r with nova := Z.max 1 (nova r) |}) r.
Proof.
  intros Hn Hv. unfold wp_ok, ADnEDAxisInit. wp_step. wp_step. wp_step. cbn beta.
  set (n := Z.max 1 (nova r)) in *. set (r1 := {| r with nova := n |}).
  wp_step. assert ((if decide (nova r < 1) then modify (λ r, {| r with nova := 1 |}) else mret ()) r
    = (Ok (), r1)) as Hnova.
  { unfold r1, n. case_decide; unfold modify; do 2 f_equal; destruct r; cbn in *; f_equal; lia. }
  unfold wp at 1. rewrite Hnova. wp_steps.
  change ({| r1 with dpvt := _ |}) with (with_data r1 (replicate (Z.to_nat n) (f_of_Z 0))).
  unfold ADnEDAxisProcess. do 8 wp_step. change (nova (with_data r1 _)) with n.
  change (a (with_data r1 _)) with (a r). change (b (with_data r1 _)) with (b r).
  change (c (with_data r1 _)) with (c r). rewrite (i32_id n) by (unfold n; mach_lia).
  assert (Z.of_nat (length (replicate (Z.to_nat n) (f_of_Z 0))) = n) as Hlen
    by (rewrite length_replicate; lia).
  destruct (decide (b r > n)) as [|Hb]; [by wp_step|]. wp_step. rewrite <-Hlen at 1.
  eapply wp_mono; [apply fill_loop| |done]. intros [] r2 ->. rewrite length_replicate.
  wp_step. rewrite seqZ_max.
  eapply wp_mono; [apply point_loop; rewrite length_replicate; lia| |done]. intros _ r2 ->.
  rewrite drop_replicate. wp_step. change (a r) with (a r1). change (b r) with (b r1).
  change (c r) with (c r1). replace (Z.to_nat (0 `max` b r1)) with (Z.to_nat (b r1)) by lia.
  change (Z.to_nat n) with (Z.to_nat (nova r1)).
  change (with_data r1 _) with (with_data r1 (axis_scale r1)).
  assert (length (axis_scale r1) = Z.to_nat n) as Hsc.
  { unfold axis_scale. rewrite length_app, length_fmap, length_seq, length_replicate.
    change (b r1) with (b r). change (nova r1) with n. lia. }
  unfold copy_out. wp_steps. cbn [with_data dpvt]. wp_steps.
  change (vala (with_data r1 _)) with (vala r). rewrite decide_True by lia. wp_steps.
  split_and!; [done..|]. cbn.
  rewrite take_ge, drop_ge, app_nil_r by lia. done.
Qed.

(** ** A concrete run *)

Definition sample_axis : aSubRecord :=
  ASub 4 (f_of_Z 10) 2 (f_of_Z 5) None (replicate 4 (f_of_Z 0)).

Lemma axis_process_scale_witness :
  wp_ok (ADnEDAxisInit ;; ADnEDAxisProcess)
    (λ st r', nova r' = 4 ∧ st = 0 ∧ vala r' = [f_of_Z 10; f_of_Z 15; f_of_Z 10; f_of_Z 10])
    sample_axis.
Proof.
  apply (axis_process_scale sample_axis).
  - split; vm_compute; congruence.
  - reflexivity.
Defined.
