(* ===== verification/Channel.v ===== *)
(** * PVAccess channels and monitors

    Models [ADnED::setupChannelMonitor] (ADnED.cpp) and the requesters of
    nEDChannel.cpp through which PVAccess reports connections.

    PVAccess is not part of this repository.  Its objects are handles into two
    tables, of the channels and of the monitors created so far; what it answers to the
    [n]-th of the calls that the driver makes to it is the argument [net]:
    - [has_provider n]: the registry knows the provider "pva";
    - [creates_channel n name], [creates_monitor n]: the object, a null pointer, or an
      exception, such as the one for an empty name;
    - [arrives n]: a connection is reported during the wait;
    - [isConnected n h]: the channel [h] is connected when it is asked.

    An [epicsEvent] is a flag that a wait clears. *)

From stdpp Require Import base numbers list option strings.
From S2P Require Import Prelude Float64 Params.

Local Open Scope Z_scope.

(** ** State *)

Record channel : Type := Chan { ch_name : string; ch_alive : bool }.

(** A monitor of the channel [mon_channel], reporting to the requester of
    channel [mon_requester]. *)
Record monitor : Type := Mon {
  mon_channel : nat;
  mon_requester : Z;
  mon_alive : bool;
  mon_started : bool
}.

Record pva : Type := Pva {
  p_ChannelRequester : bool;
  p_ChannelProvider : bool;
  p_Channel : list (option nat);
  p_Monitor : list (option nat);
  channels : list channel;
  monitors : list monitor;
  channel_event : bool;
  monitor_event : list bool;
  calls : nat
}.

(** What a call that creates an object gives. *)
Inductive creation : Type := Created | NullPtr | Refused (what : string).

Record network : Type := Net {
  has_provider : nat → bool;
  creates_channel : nat → string → creation;
  creates_monitor : nat → creation;
  arrives : nat → bool;
  isConnected : nat → nat → bool
}.

(** The state after the constructor of the driver. *)
Definition pva_new : pva :=
  Pva true false (replicate (Z.to_nat ADNED_MAX_CHANNELS) None)
    (replicate (Z.to_nat ADNED_MAX_CHANNELS) None) [] [] false
    (replicate (Z.to_nat ADNED_MAX_CHANNELS) false) 0.

(** ** The requesters *)

Inductive connection_state : Type := NEVER_CONNECTED | CONNECTED | DISCONNECTED | DESTROYED.

#[export] Instance connection_state_eq_dec : EqDecision connection_state.
Proof. solve_decision. Defined.

Definition channelStateChange (st : connection_state) : M pva () :=
  if decide (st = CONNECTED) then modify (λ s, {| s with channel_event := true |}) else mret ().

(** [userTag]: the structure has an integer field timeStamp.userTag. *)
Definition monitorConnect (chan : Z) (success userTag : bool) : M pva () :=
  if success then
    if userTag then modify (λ s, {| s with monitor_event := upd (monitor_event s) chan true |})
    else mret ()
  else mret ().

Section setup.
Context (net : network).

(** The number of a call. *)
Definition next_call : M pva nat :=
  n ← gets calls; modify (λ s, {| s with calls := S n |}) ;; mret n.

(** [nEDChannelRequester::waitUntilConnected] *)
Definition wait_channel : M pva bool :=
  e ← gets channel_event;
  n ← next_call;
  modify (λ s, {| s with channel_event := false |}) ;;
  mret (e || arrives net n).

(** [nEDMonitorRequester::waitUntilConnected] *)
Definition wait_monitor (chan : Z) : M pva bool :=
  e ← gets (λ s, default false (rd (monitor_event s) chan));
  n ← next_call;
  modify (λ s, {| s with monitor_event := upd (monitor_event s) chan false |}) ;;
  mret (e || arrives net n).

(** The pointer a creation gives: [alloc] enters the object in its table. *)
Definition pointer (c : creation) (alloc : M pva nat) : M pva (option nat) :=
  match c with
  | Created => h ← alloc; mret (Some h)
  | NullPtr => mret None
  | Refused what => throw what
  end.

Definition createChannel (pvName : string) : M pva (option nat) :=
  n ← next_call;
  pointer (creates_channel net n pvName)
    (h ← gets (λ s, length (channels s));
     modify (λ s, {| s with channels := channels s ++ [Chan pvName true] |}) ;;
     mret h).

Definition destroyChannel (h : nat) : M pva () :=
  modify (λ s, {| s with channels := alter (λ c, {| c with ch_alive := false |}) h (channels s) |}).

Definition createMonitor (h : nat) (chan : Z) : M pva (option nat) :=
  n ← next_call;
  pointer (creates_monitor net n)
    (m ← gets (λ s, length (monitors s));
     modify (λ s, {| s with monitors := monitors s ++ [Mon h chan true false] |}) ;;
     mret m).

Definition destroyMonitor (m : nat) : M pva () :=
  modify (λ s, {| s with
    monitors := alter (λ x, {| x with mon_alive := false |}) m (monitors s) |}).

Definition channel_name (h : nat) : M pva string :=
  gets (λ s, default EmptyString (ch_name <$> channels s !! h)).

(** Creates the channel [chan] anew and waits for it. *)
Definition open_channel (pvName : string) (chan : Z) : M pva bool :=
  c ← createChannel pvName;
  modify (λ s, {| s with p_Channel := upd (p_Channel s) chan c |}) ;;
  wait_channel.

(** The connection: the status and whether a new monitor is due. *)
Definition connect_channel (pvName : string) (chan : Z) : M pva (bool * bool) :=
  c ← gets (λ s, mjoin (rd (p_Channel s) chan));
  match c with
  | None => b ← open_channel pvName chan; mret (b, false)
  | Some h =>
      name ← channel_name h;
      newMonitor ←
        (if decide (name ≠ pvName) then
           destroyChannel h ;; open_channel pvName chan ;; mret true
         else mret false);
      c ← gets (λ s, mjoin (rd (p_Channel s) chan));
      h ← checked NullDeref c;
      n ← next_call;
      mret (isConnected net n h, newMonitor)
  end.

Definition connect_monitor (chan : Z) (newMonitor : bool) : M pva () :=
  m ← gets (λ s, mjoin (rd (p_Monitor s) chan));
  if decide (m = None ∨ newMonitor = true) then
    (match m with Some m => destroyMonitor m | None => mret () end) ;;
    c ← gets (λ s, mjoin (rd (p_Channel s) chan));
    h ← checked NullDeref c;
    m ← createMonitor h chan;
    modify (λ s, {| s with p_Monitor := upd (p_Monitor s) chan m |}) ;;
    wait_monitor chan ;;
    mret ()
  else mret ().

Definition setupChannelMonitor (pvName : string) (chan : Z) : M pva asynStatus :=
  if decide (ADNED_MAX_CHANNELS <= chan) then throw "channel >= s_ADNED_MAX_CHANNELS."
  else
    r ← gets p_ChannelRequester;
    if negb r then throw "No Channel or Monitor Requester."
    else
      p ← gets p_ChannelProvider;
      (if (p : bool) then mret ()
       else
         n ← next_call;
         if has_provider net n then modify (λ s, {| s with p_ChannelProvider := true |})
         else throw "No Channel Provider.") ;;
      '(connectStatus, newMonitor) ← connect_channel pvName chan;
      if negb connectStatus then throw "Timeout connecting to PV"
      else
        connect_monitor chan newMonitor ;;
        mret asynSuccess.
End setup.

(** [p_Monitor[chan]->start()] and [stop()] *)
Definition set_started (b : bool) (chan : Z) : M pva () :=
  m ← gets (λ s, mjoin (rd (p_Monitor s) chan));
  match m with
  | Some m => modify (λ s, {| s with
      monitors := alter (λ x, {| x with mon_started := b |}) m (monitors s) |})
  | None => mret ()
  end.

(** ** Theorems *)

(** The tables of the channel [chan] hold what they should: its channel exists,
    and its monitor is a live monitor of that channel. *)
Record chan_ok (s : pva) (chan : Z) : Prop := {
  co_channels : length (p_Channel s) = Z.to_nat ADNED_MAX_CHANNELS;
  co_monitors : length (p_Monitor s) = Z.to_nat ADNED_MAX_CHANNELS;
  co_requester : p_ChannelRequester s = true;
  co_alive h : rd (p_Channel s) chan = Some (Some h) →
    ∃ name, channels s !! h = Some (Chan name true);
  co_monitor m : rd (p_Monitor s) chan = Some (Some m) →
    ∃ h started, rd (p_Channel s) chan = Some (Some h) ∧
      monitors s !! m = Some (Mon h chan true started)
}.

(** The channel [chan] listens to [name]. *)
Definition listening (s : pva) (chan : Z) (name : string) : Prop :=
  ∃ h m started, rd (p_Channel s) chan = Some (Some h) ∧ channels s !! h = Some (Chan name true) ∧
    rd (p_Monitor s) chan = Some (Some m) ∧ monitors s !! m = Some (Mon h chan true started).

(** The channel [chan] has the handle [h] of a live channel of that name, and its monitor,
    if there is one, is a live monitor of it. *)
Record attached_to (s : pva) (chan : Z) (name : string) (h : nat) : Prop := {
  at_handle : rd (p_Channel s) chan = Some (Some h);
  at_channel : channels s !! h = Some (Chan name true);
  at_monitor m : rd (p_Monitor s) chan = Some (Some m) →
    ∃ started, monitors s !! m = Some (Mon h chan true started)
}.

(** All channels are consistent, and no two share a PVAccess channel. *)
Record pva_ok (s : pva) : Prop := {
  po_chan chan : 0 <= chan < ADNED_MAX_CHANNELS → chan_ok s chan;
  po_distinct j k h : rd (p_Channel s) j = Some (Some h) → rd (p_Channel s) k = Some (Some h) → j = k
}.

(** Only the entry [own] of a table may have changed. *)
Definition entries_kept {A} (tab tab' : list A) (own : option (option nat)) : Prop :=
  ∀ i x, own ≠ Some (Some i) → tab !! i = Some x → tab' !! i = Some x.

(** Nothing of another channel has changed. *)
Record others_kept (s s' : pva) (chan : Z) : Prop := {
  ok_handles k : k ≠ chan →
    rd (p_Channel s') k = rd (p_Channel s) k ∧ rd (p_Monitor s') k = rd (p_Monitor s) k;
  ok_channels : entries_kept (channels s) (channels s') (rd (p_Channel s) chan);
  ok_monitors : entries_kept (monitors s) (monitors s') (rd (p_Monitor s) chan)
}.

Lemma others_kept_refl s chan : others_kept s s chan.
Proof. split; [done|by intros i x..]. Qed.

(** The sizes of the tables, and the requester. *)
Record tables_kept (s s' : pva) : Prop := {
  tk_channels : length (p_Channel s') = length (p_Channel s);
  tk_monitors : length (p_Monitor s') = length (p_Monitor s);
  tk_requester : p_ChannelRequester s' = p_ChannelRequester s
}.

(** PVAccess connects channels of that name. *)
Record net_up (net : network) (pvName : string) : Prop := {
  up_provider n : has_provider net n = true;
  up_channel n : creates_channel net n pvName = Created;
  up_monitor n : creates_monitor net n = Created;
  up_arrives n : arrives net n = true;
  up_connected n h : isConnected net n h = true
}.

Section setup_theorems.
Context (net : network) (pvName : string) (chan : Z).
Hypothesis Hchan : 0 <= chan < ADNED_MAX_CHANNELS.

Lemma rd_fixed {A} (l : list A) : length l = Z.to_nat ADNED_MAX_CHANNELS → is_Some (rd l chan).
Proof. intros Hl. apply rd_Some. unfold in_bounds. unfold ADNED_MAX_CHANNELS in *. lia. Qed.

Lemma rd_upd_chan {A} (l : list A) x :
  length l = Z.to_nat ADNED_MAX_CHANNELS → rd (upd l chan x) chan = Some x.
Proof. intros Hl. apply rd_upd_eq, rd_Some. by apply rd_fixed. Qed.

Section returned.
(** PVAccess gives a channel of that name or throws. *)
Hypothesis Hnull : ∀ n, creates_channel net n pvName ≠ NullPtr.

(** Opening a channel: a new handle, or the state is left as it is. *)
Lemma wp_open_channel s :
  length (p_Channel s) = Z.to_nat ADNED_MAX_CHANNELS →
  wp (open_channel net pvName chan)
    (λ r s', (net_up net pvName → r = true) ∧
       p_Channel s' = upd (p_Channel s) chan (Some (length (channels s))) ∧
       channels s' = channels s ++ [Chan pvName true] ∧ p_Monitor s' = p_Monitor s ∧
       monitors s' = monitors s ∧ p_ChannelRequester s' = p_ChannelRequester s)
    (λ _ _, ¬ net_up net pvName) s.
Proof.
  intros Hl. destruct s as [req prov cs ms hs mons ce me w]. cbn in *.
  unfold open_channel, createChannel, next_call. wp_steps. cbn.
  destruct (creates_channel net w pvName) as [| |what] eqn:Ec; [|by apply Hnull in Ec|].
  - cbn [pointer]. unfold wait_channel, next_call. wp_steps. cbn. split_and!; [|done..].
    intros Hup. by rewrite (up_arrives _ _ Hup), orb_true_r.
  - cbn [pointer]. wp_step. intros Hup. by rewrite (up_channel _ _ Hup) in Ec.
Qed.

(** After [connect_channel] the channel exists under the name; the old monitor, if
    any, stays, and a new one is due when the channel is new. *)
Lemma wp_connect_channel s :
  chan_ok s chan →
  wp (connect_channel net pvName chan)
    (λ r s', let '(status, newMonitor) := r in
       (net_up net pvName → status = true) ∧ others_kept s s' chan ∧ tables_kept s s' ∧
       p_Monitor s' = p_Monitor s ∧ monitors s' = monitors s ∧
       ∃ h, rd (p_Channel s') chan = Some (Some h) ∧ channels s' !! h = Some (Chan pvName true) ∧
         (rd (p_Channel s) chan = Some (Some h) ∨ length (channels s) ≤ h)%nat ∧
         (newMonitor = false → rd (p_Monitor s) chan = Some None ∨
            rd (p_Channel s) chan = Some (Some h)))
    (λ _ _, ¬ net_up net pvName) s.
Proof.
  intros [H1 H2 H3 H4 H5]. destruct (rd_fixed (p_Channel s) H1) as [c Hc].
  unfold connect_channel. wp_steps. rewrite Hc. cbn [mjoin option_join id].
  destruct c as [h|]; cbn [id].
  2:{ wp_step. eapply wp_mono; [by apply wp_open_channel| |done].
    intros r s' (Hr & E1 & E2 & E3 & E4 & E5). wp_step. split_and!; try done.
    - split; [|rewrite E2; intros i x _; apply lookup_app_l_Some|rewrite E4; by intros i x].
      intros k Hk. by rewrite E1, E3, rd_upd_ne by lia.
    - split; [by rewrite E1, length_upd|by rewrite E3|done].
    - exists (length (channels s)). rewrite E1, E2. split; [by apply rd_upd_chan|].
      rewrite lookup_app_r, Nat.sub_diag by lia. split; [done|]. split; [by right|].
      intros _. left. destruct (rd_fixed (p_Monitor s) H2) as [[m|] Hm]; [|done].
      destruct (H5 m Hm) as (h & ? & Hh & _). congruence. }
  destruct (H4 h Hc) as [name Hname]. unfold channel_name. wp_steps. rewrite Hname.
  cbn [fmap option_fmap option_map default from_option ch_name id].
  destruct (decide (name ≠ pvName)) as [Hne|Heq].
  - unfold destroyChannel. wp_steps.
    eapply wp_mono; [by apply wp_open_channel| |done].
    intros r s' (Hr & E1 & E2 & E3 & E4 & E5). wp_steps. rewrite E1. cbn in E1, E2 |- *.
    rewrite rd_upd_chan by done. cbn. unfold next_call. wp_steps. cbn. split_and!; try done.
    + intros Hup. by rewrite (up_connected _ _ Hup).
    + split; cbn; [intros k Hk; by rewrite E1, E3, rd_upd_ne by lia| |rewrite E4; by intros i x].
      rewrite E2. intros i x Hi Hx. apply lookup_app_l_Some.
      rewrite list_lookup_alter_ne by congruence. done.
    + split; cbn; [by rewrite E1, length_upd|by rewrite E3|done].
    + rewrite E1, E2. eexists. split; [by apply rd_upd_chan|].
      rewrite length_alter. rewrite lookup_app_r by (rewrite length_alter; lia).
      rewrite length_alter, Nat.sub_diag. by split_and!; [|right|].
  - unfold next_call. wp_steps. rewrite Hc. cbn. wp_steps. split_and!; try done.
    + intros Hup. by rewrite (up_connected _ _ Hup).
    + split; [done|by intros i x..].
    + assert (name = pvName) as -> by (destruct (decide (name = pvName)); tauto).
      exists h. split_and!; try done; [by left|]. intros _. by right.
Qed.

Lemma wp_connect_monitor s h newMonitor :
  length (p_Monitor s) = Z.to_nat ADNED_MAX_CHANNELS →
  rd (p_Channel s) chan = Some (Some h) → channels s !! h = Some (Chan pvName true) →
  (newMonitor = false → ∀ m, rd (p_Monitor s) chan = Some (Some m) →
     ∃ started, monitors s !! m = Some (Mon h chan true started)) →
  wp (connect_monitor net chan newMonitor)
    (λ _ s', attached_to s' chan pvName h ∧
       ((∃ m, rd (p_Monitor s') chan = Some (Some m)) ∨
        rd (p_Monitor s') chan = Some None ∧ ∃ n, creates_monitor net n = NullPtr) ∧
       others_kept s s' chan ∧ tables_kept s s' ∧
       p_Channel s' = p_Channel s ∧ channels s' = channels s)
    (λ _ _, ¬ net_up net pvName) s.
Proof.
  intros H1 Hc Hh Hm. destruct s as [req prov cs ms hs mons ce me w]. cbn in *.
  destruct (rd_fixed ms H1) as [m Em]. unfold connect_monitor. wp_steps. cbn. rewrite Em. cbn.
  case_decide as Hnew.
  2:{ wp_steps. destruct m as [m|]; [|tauto].
    destruct (Hm ltac:(destruct newMonitor; tauto) m Em) as [started Hmon]. split_and!.
    - split; [done..|]. intros m' Em'. cbn in *. exists started. congruence.
    - left. by exists m.
    - apply others_kept_refl.
    - done.
    - done.
    - done. }
  wp_step. eapply (wp_mono _ (λ _ s', ∃ mons', s' = Pva req prov cs ms hs mons' ce me w ∧
    entries_kept mons mons' (Some m)) _ (λ _ _, False)); [| |done].
  { destruct m as [m|]; unfold destroyMonitor; wp_steps; eexists; (split; [done|]); [|by intros i x].
    intros i x Hi Hx. cbn. by rewrite list_lookup_alter_ne by congruence. }
  intros [] s' (mons' & -> & Hmons). wp_steps. cbn. rewrite Hc. cbn.
  unfold createMonitor, next_call. wp_steps. cbn.
  destruct (creates_monitor net w) as [| |what] eqn:Ec; cbn [pointer].
  - unfold wait_monitor, next_call. wp_steps. cbn. split_and!; try done.
    + split; cbn; [done..|]. rewrite rd_upd_chan by done. intros m' [= <-]. exists false.
      by rewrite lookup_app_r, Nat.sub_diag by lia.
    + left. exists (length mons'). by apply rd_upd_chan.
    + split; cbn; [intros k Hk; by rewrite rd_upd_ne by lia|by intros i x|].
      rewrite Em. intros i x Hi Hx. by apply lookup_app_l_Some, Hmons.
    + split; cbn; [done|by rewrite length_upd|done].
  - unfold wait_monitor, next_call. wp_steps. cbn. split_and!; try done.
    + split; cbn; [done..|]. rewrite rd_upd_chan by done. done.
    + right. split; [by apply rd_upd_chan|by exists w].
    + split; cbn; [intros k Hk; by rewrite rd_upd_ne by lia|by intros i x|by rewrite Em].
    + split; cbn; [done|by rewrite length_upd|done].
  - wp_step. intros Hup. by rewrite (up_monitor _ _ Hup) in Ec.
Qed.

(** The other channels listen as before, and the tables stay consistent. *)
Lemma listening_kept s s' k name :
  pva_ok s → others_kept s s' chan → 0 <= k < ADNED_MAX_CHANNELS → k ≠ chan →
  listening s k name → listening s' k name.
Proof.
  intros Hs [A1 A2 A3] Hk Hne (h & m & st & Hh & Hch & Hm & Hmon). destruct (A1 k Hne) as [E1 E2].
  exists h, m, st. rewrite E1, E2. split_and!; [done| |done|].
  - apply A2; [|done]. intros Hc. by apply Hne, (po_distinct _ Hs k chan h).
  - apply A3; [|done]. intros Hc.
    destruct (co_monitor _ _ (po_chan _ Hs chan Hchan) m Hc) as (h' & st' & _ & E). congruence.
Qed.

Lemma pva_ok_kept s s' h :
  pva_ok s → others_kept s s' chan → tables_kept s s' → attached_to s' chan pvName h →
  (rd (p_Channel s) chan = Some (Some h) ∨ length (channels s) ≤ h)%nat → pva_ok s'.
Proof.
  intros Hs Ho [T1 T2 T3] [Hh Hch Hmon] Hold. pose proof Ho as [A1 A2 A3].
  assert (∀ k h', k ≠ chan → rd (p_Channel s) k = Some (Some h') → h' ≠ h) as Hfresh.
  { intros k h' Hne Hk ->. destruct Hold as [Hold|Hold]; [by apply Hne, (po_distinct _ Hs k chan h)|].
    pose proof (po_chan _ Hs chan Hchan) as [Hlen _ _ _ _].
    assert (in_bounds (p_Channel s) k) as Hb by (apply rd_Some; eauto).
    unfold in_bounds in Hb. destruct (co_alive _ _ (po_chan _ Hs k ltac:(lia)) h Hk) as [nm E].
    apply lookup_lt_Some in E. lia. }
  split.
  - intros k Hk. pose proof (po_chan _ Hs k Hk) as Hck. pose proof Hck as [C1 C2 C3 C4 C5].
    split; [congruence..| |]; destruct (decide (k = chan)) as [-> |Hne].
    + intros h2 E. exists pvName. congruence.
    + destruct (A1 k Hne) as [-> _]. intros h' E. destruct (C4 h' E) as [nm Enm]. exists nm.
      apply A2; [|done]. intros Hc. by apply Hne, (po_distinct _ Hs k chan h').
    + intros m2 E. destruct (Hmon m2 E) as [st Est]. by exists h, st.
    + destruct (A1 k Hne) as [-> ->]. intros m E. destruct (C5 m E) as (h' & st & E1 & E2).
      exists h', st. split; [done|]. apply A3; [|done]. intros Hc.
      destruct (co_monitor _ _ (po_chan _ Hs chan Hchan) m Hc) as (? & ? & _ & E'). congruence.
  - intros j k h' Hj Hk. destruct (decide (j = chan)) as [-> |Hj'], (decide (k = chan)) as [-> |Hk'];
      [done|..].
    + destruct (A1 k Hk') as [E _]. rewrite E in Hk. exfalso. apply (Hfresh k h' Hk' Hk). congruence.
    + destruct (A1 j Hj') as [E _]. rewrite E in Hj. exfalso. apply (Hfresh j h' Hj' Hj). congruence.
    + destruct (A1 j Hj') as [Ej _], (A1 k Hk') as [Ek _]. rewrite Ej in Hj. rewrite Ek in Hk.
      by apply (po_distinct _ Hs j k h').
Qed.

(** Opening the provider changes none of the tables. *)
Lemma pva_ok_provider s p c :
  pva_ok s → pva_ok {| s with p_ChannelProvider := p; calls := c |}.
Proof. intros [H1 H2]. destruct s. split; [|done]. intros k Hk. destruct (H1 k Hk). by split. Qed.

(** The channel listens, or PVAccess has given no monitor. *)
Definition set_up (s : pva) : Prop :=
  listening s chan pvName ∨
  rd (p_Monitor s) chan = Some None ∧ ∃ n, creates_monitor net n = NullPtr.

Lemma setup_connected s :
  pva_ok s →
  wp ('(connectStatus, newMonitor) ← connect_channel net pvName chan;
      if negb connectStatus then throw "Timeout connecting to PV"
      else connect_monitor net chan newMonitor ;; mret asynSuccess)
    (λ st s', st = asynSuccess ∧ pva_ok s' ∧ set_up s' ∧ others_kept s s' chan)
    (λ _ _, ¬ net_up net pvName) s.
Proof.
  intros Hs. pose proof (po_chan _ Hs chan Hchan) as Hc. wp_step.
  eapply wp_mono; [by apply wp_connect_channel| |done].
  intros [status newMonitor] s2 (Hup & Hoth & Htab & R3 & R4 & h & Hh & Hname & Hfresh & Hold).
  destruct status; cbn [negb]; [|wp_step; intros Hn; by apply Hup in Hn]. wp_step.
  eapply wp_mono; [eapply (wp_connect_monitor s2 h newMonitor)| |done].
  - rewrite R3. apply Hc.
  - done.
  - done.
  - intros -> m Hm. rewrite R3 in Hm. rewrite R4. specialize (Hold eq_refl).
    destruct (co_monitor _ _ Hc m Hm) as (h' & started & E & Hmon).
    destruct Hold as [Hold|Hold]; [congruence|]. exists started. congruence.
  - intros [] s3 (Hat & Hl & Hoth' & Htab' & E1 & E2). wp_step.
    assert (others_kept s s3 chan) as Hk.
    { destruct Hoth as [A1 A2 A3], Hoth' as [B1 B2 B3]. rewrite R3, R4 in B3. split; [|by rewrite E2|done].
      intros k Hk. destruct (A1 k Hk), (B1 k Hk). split; congruence. }
    assert (tables_kept s s3) as Ht by (destruct Htab, Htab'; split; congruence).
    split_and!; try done; [by eapply pva_ok_kept|].
    destruct Hl as [[m Hm]|Hl]; [left|by right]. destruct Hat as [A1 A2 A3].
    destruct (A3 m Hm) as [st Hst]. by exists h, m, st.
Qed.

Lemma wp_setupChannelMonitor s :
  pva_ok s →
  wp (setupChannelMonitor net pvName chan)
    (λ st s', st = asynSuccess ∧ pva_ok s' ∧ set_up s' ∧
       ∀ k name, 0 <= k < ADNED_MAX_CHANNELS → k ≠ chan → listening s k name → listening s' k name)
    (λ _ _, ¬ net_up net pvName) s.
Proof.
  intros Hs. pose proof (co_requester _ _ (po_chan _ Hs chan Hchan)) as H3.
  unfold setupChannelMonitor. rewrite decide_False by lia. wp_steps. rewrite H3. cbn [negb]. wp_steps.
  eapply (wp_mono _ (λ _ s1, ∃ c, s1 = {| s with p_ChannelProvider := true; calls := c |}) _
    (λ _ _, ¬ net_up net pvName)).
  { destruct (p_ChannelProvider s) eqn:Ep; [wp_step; exists (calls s); destruct s; cbn in *; by subst|].
    unfold next_call. wp_steps. destruct (has_provider net (calls s)) eqn:E; wp_step.
    - by exists (S (calls s)).
    - intros Hup. by rewrite (up_provider _ _ Hup) in E. }
  2:done.
  intros [] s1 [c ->]. eapply wp_mono; [apply setup_connected; by apply pva_ok_provider| |done].
  intros st s' (-> & Hok & Hl & Hk). split_and!; try done. intros k name Hr Hne Hlis.
  apply (listening_kept _ _ _ _ (pva_ok_provider s true c Hs) Hk Hr Hne). by destruct s.
Qed.
End returned.

Lemma setup_keeps_ok s :
  net_up net pvName → pva_ok s → pva_ok (setupChannelMonitor net pvName chan s).2.
Proof.
  intros Hup Hs. assert (∀ n, creates_channel net n pvName ≠ NullPtr) as Hnull
    by (intros n; by rewrite (up_channel _ _ Hup)).
  pose proof (wp_setupChannelMonitor Hnull s Hs) as Hwp. unfold wp in Hwp.
  destruct (setupChannelMonitor _ _ _ s) as [[st|e|u] s']; [apply Hwp| |done]. by apply Hwp in Hup.
Qed.

(** A null channel is used without a test. *)
Lemma setup_null_channel s h old :
  p_ChannelRequester s = true → p_ChannelProvider s = true →
  length (p_Channel s) = Z.to_nat ADNED_MAX_CHANNELS →
  rd (p_Channel s) chan = Some (Some h) → channels s !! h = Some (Chan old true) → old ≠ pvName →
  creates_channel net (calls s) pvName = NullPtr →
  faults (setupChannelMonitor net pvName chan) NullDeref s.
Proof.
  intros Hr Hp Hl Hc Hh Hne Hnull. destruct s as [req prov cs ms hs mons ce me w]. cbn in *. subst.
  eexists. unfold setupChannelMonitor. rewrite decide_False by lia.
  unfold connect_channel, channel_name, destroyChannel, open_channel, createChannel, wait_channel,
    next_call, mbind, M_bind, gets, modify. cbn. rewrite Hc. cbn. rewrite Hh. cbn.
  rewrite decide_True by done. cbn. rewrite Hnull. cbn. by rewrite rd_upd_chan by done.
Qed.

(** C34. Connecting a channel.  From consistent tables, for any name, when PVAccess
    gives a channel of that name or throws, [setupChannelMonitor] has no undefined
    behaviour; if it returns, it returns [asynSuccess], the tables are consistent, and
    every other channel that was listening still listens to its own name; the channel
    [chan] is a live channel of the name, its monitor is a live monitor of this very
    channel reporting to the requester of [chan], unless PVAccess has given a null
    monitor, in which case there is none and the status is the same.  It throws only
    when PVAccess does not connect channels of that name.  When PVAccess gives a null
    channel for a changed name, the null pointer is used. *)
Theorem setupChannelMonitor_listens s :
  pva_ok s →
  ((∀ n, creates_channel net n pvName ≠ NullPtr) →
   wp (setupChannelMonitor net pvName chan)
    (λ st s', st = asynSuccess ∧ pva_ok s' ∧
       (listening s' chan pvName ∨
        rd (p_Monitor s') chan = Some None ∧ ∃ n, creates_monitor net n = NullPtr) ∧
       ∀ k name, 0 <= k < ADNED_MAX_CHANNELS → k ≠ chan → listening s k name → listening s' k name)
    (λ _ _, ¬ net_up net pvName) s) ∧
  (∀ h old, p_ChannelProvider s = true → rd (p_Channel s) chan = Some (Some h) →
     channels s !! h = Some (Chan old true) → old ≠ pvName →
     creates_channel net (calls s) pvName = NullPtr →
     ∃ s', setupChannelMonitor net pvName chan s = (UB NullDeref, s')).
Proof.
  intros Hs. split; [intros Hnull; by apply wp_setupChannelMonitor|].
  destruct (po_chan _ Hs chan Hchan). intros h old ?????. by eapply setup_null_channel.
Qed.

(** C35. A failed change of name leaves a stale monitor. When a listening channel
    gets a new name and the new channel does not connect in time,
    [setupChannelMonitor] throws; when it is called again and the channel is
    connected by then, it returns [asynSuccess], but the monitor is still the one
    of the destroyed channel of the old name: no event of the new name will
    arrive. *)
Theorem setupChannelMonitor_stale (net' : network) s h m started old :
  chan_ok s chan → rd (p_Channel s) chan = Some (Some h) → channels s !! h = Some (Chan old true) →
  rd (p_Monitor s) chan = Some (Some m) → monitors s !! m = Some (Mon h chan true started) →
  p_ChannelProvider s = true → old ≠ pvName → creates_channel net (calls s) pvName = Created →
  (∀ n, isConnected net n (length (channels s)) = false) →
  (∀ n, isConnected net' n (length (channels s)) = true) →
  let '(o1, s1) := setupChannelMonitor net pvName chan s in
  let '(o2, s2) := setupChannelMonitor net' pvName chan s1 in
  o1 = Throw "Timeout connecting to PV" ∧ o2 = Ok asynSuccess ∧
  rd (p_Channel s2) chan = Some (Some (length (channels s))) ∧
  channels s2 !! length (channels s) = Some (Chan pvName true) ∧
  rd (p_Monitor s2) chan = Some (Some m) ∧ monitors s2 !! m = Some (Mon h chan true started) ∧
  channels s2 !! h = Some (Chan old false).
Proof.
  intros [H1 H2 H3 _ _] Hc Hh Hm Hmon Hp Hne Hnew Hdown Hup.
  destruct s as [req prov cs ms hs mons ce me w]. cbn in *. subst req prov.
  assert (h < length hs)%nat as Hlt by (by eapply lookup_lt_Some).
  set (hs' := alter (λ c, {| c with ch_alive := false |}) h hs).
  assert (length hs' = length hs) as Hlen by (unfold hs'; apply length_alter).
  assert (setupChannelMonitor net pvName chan (Pva true true cs ms hs mons ce me w)
    = (Throw "Timeout connecting to PV",
       Pva true true (upd cs chan (Some (length hs))) ms (hs' ++ [Chan pvName true]) mons false me
         (S (S (S w))))) as ->.
  { unfold setupChannelMonitor. rewrite decide_False by lia.
    unfold connect_channel, channel_name, destroyChannel, open_channel, createChannel,
      pointer, wait_channel, next_call, mbind, M_bind, gets, modify. cbn. rewrite Hc. cbn. rewrite Hh. cbn.
    rewrite decide_True by done. cbn. rewrite Hnew. cbn. rewrite rd_upd_chan by done. cbn. fold hs'.
    rewrite Hlen, Hdown. done. }
  assert ((hs' ++ [Chan pvName true]) !! length hs = Some (Chan pvName true)) as Hlast
    by (rewrite lookup_app_r, Hlen, Nat.sub_diag by lia; done).
  assert (setupChannelMonitor net' pvName chan
      (Pva true true (upd cs chan (Some (length hs))) ms (hs' ++ [Chan pvName true]) mons false me
        (S (S (S w))))
    = (Ok asynSuccess,
       Pva true true (upd cs chan (Some (length hs))) ms (hs' ++ [Chan pvName true]) mons false me
         (S (S (S (S w)))))) as ->.
  { unfold setupChannelMonitor. rewrite decide_False by lia.
    unfold connect_channel, connect_monitor, channel_name, next_call, mbind, M_bind, gets, modify. cbn.
    rewrite rd_upd_chan by done. cbn. rewrite Hlast. cbn. rewrite decide_False by tauto. cbn.
    rewrite rd_upd_chan by done. cbn. rewrite Hup. cbn. rewrite Hm. cbn.
    rewrite decide_False by naive_solver. done. }
  cbn. split_and!; try done; [by apply rd_upd_chan|].
  rewrite lookup_app_l by lia. unfold hs'. by rewrite list_lookup_alter_eq, Hh.
Qed.
End setup_theorems.

(** ** Starting the monitors *)

(** The channel [chan] listens to [name] and its monitor is started. *)
Definition receiving (s : pva) (chan : Z) (name : string) : Prop :=
  ∃ h m, rd (p_Channel s) chan = Some (Some h) ∧ channels s !! h = Some (Chan name true) ∧
    rd (p_Monitor s) chan = Some (Some m) ∧ monitors s !! m = Some (Mon h chan true true).

Lemma wp_set_started s chan name :
  listening s chan name →
  wp_ok (set_started true chan)
    (λ _ s', receiving s' chan name ∧ ∀ k nm, k ≠ chan →
       (listening s k nm → listening s' k nm) ∧ (receiving s k nm → receiving s' k nm)) s.
Proof.
  intros (h & m & st & Hh & Hch & Hm & Hmon). destruct s. cbn in *. unfold wp_ok, set_started. wp_steps.
  cbn. rewrite Hm. cbn. wp_steps. cbn. split.
  - exists h, m. cbn. split_and!; try done. by rewrite list_lookup_alter_eq, Hmon.
  - intros k nm Hne. assert (∀ m' h' st', monitors0 !! m' = Some (Mon h' k true st') → m ≠ m') as Hd
      by (intros m' h' st' E ->; congruence).
    split; [intros (h' & m' & st' & E1 & E2 & E3 & E4)|intros (h' & m' & E1 & E2 & E3 & E4)];
      [exists h', m', st'|exists h', m']; cbn in *; split_and!; try done;
      rewrite list_lookup_alter_ne by eauto; done.
Qed.

(** ** Concrete runs *)

Definition sample_net (up : bool) : network :=
  Net (λ _, true) (λ _ _, Created) (λ _, Created) (λ _, up) (λ _ _, up).

Lemma sample_net_up name : net_up (sample_net true) name.
Proof. by split. Qed.

Lemma pva_new_ok : pva_ok pva_new.
Proof.
  assert (∀ k h, rd (p_Channel pva_new) k ≠ Some (Some h)) as Hnone.
  { intros k h. unfold rd. case_decide; [|done]. intros E%list_elem_of_lookup_2%elem_of_replicate.
    naive_solver. }
  split; [|intros j k h E; by apply Hnone in E]. intros chan Hc.
  assert (chan = 0 ∨ chan = 1 ∨ chan = 2 ∨ chan = 3) as Hk by (unfold ADNED_MAX_CHANNELS in Hc; lia).
  destruct Hk as [-> |[-> |[-> | ->]]]; by split.
Qed.

(** Channel 2 after a connection to BL1:A. *)
Definition sample_pva : pva := (setupChannelMonitor (sample_net true) "BL1:A" 2 pva_new).2.

Lemma sample_pva_ok : pva_ok sample_pva.
Proof.
  apply (setup_keeps_ok (sample_net true) "BL1:A" 2); [|apply sample_net_up|apply pva_new_ok].
  unfold ADNED_MAX_CHANNELS. lia.
Qed.

(** A network whose channels are null pointers. *)
Definition null_net : network :=
  Net (λ _, true) (λ _ _, NullPtr) (λ _, Created) (λ _, true) (λ _ _, true).

Lemma setupChannelMonitor_listens_witness :
  wp (setupChannelMonitor (sample_net true) "BL1:A" 2)
    (λ st s', st = asynSuccess ∧ pva_ok s' ∧
       (listening s' 2 "BL1:A" ∨
        rd (p_Monitor s') 2 = Some None ∧ ∃ n, creates_monitor (sample_net true) n = NullPtr) ∧
       ∀ k name, 0 <= k < ADNED_MAX_CHANNELS → k ≠ 2 → listening pva_new k name →
         listening s' k name)
    (λ _ _, ¬ net_up (sample_net true) "BL1:A") pva_new ∧
  ∃ s', setupChannelMonitor null_net "BL1:B" 2 sample_pva = (UB NullDeref, s').
Proof.
  assert (0 <= 2 < ADNED_MAX_CHANNELS) as Hc by (unfold ADNED_MAX_CHANNELS; lia). split.
  - by refine (proj1 (setupChannelMonitor_listens (sample_net true) "BL1:A" 2 Hc _ pva_new_ok) _).
  - refine (proj2 (setupChannelMonitor_listens null_net "BL1:B" 2 Hc _ sample_pva_ok) 0%nat "BL1:A"
      _ _ _ _ _); by vm_compute.
Defined.

Lemma setupChannelMonitor_stale_witness :
  let '(o1, s1) := setupChannelMonitor (sample_net false) "BL1:B" 2 sample_pva in
  let '(o2, s2) := setupChannelMonitor (sample_net true) "BL1:B" 2 s1 in
  o1 = Throw "Timeout connecting to PV" ∧ o2 = Ok asynSuccess ∧
  rd (p_Channel s2) 2 = Some (Some 1%nat) ∧
  channels s2 !! 1%nat = Some (Chan "BL1:B" true) ∧
  rd (p_Monitor s2) 2 = Some (Some 0%nat) ∧ monitors s2 !! 0%nat = Some (Mon 0 2 true false) ∧
  channels s2 !! 0%nat = Some (Chan "BL1:A" false).
Proof.
  apply (setupChannelMonitor_stale (sample_net false) "BL1:B" 2 ltac:(unfold ADNED_MAX_CHANNELS; lia)
    (sample_net true) sample_pva 0 0 false "BL1:A"); try reflexivity; try discriminate.
  split; try reflexivity.
  - intros h [= <-]. by eexists.
  - intros m [= <-]. exists 0%nat, false. done.
Defined.
