(* ===== verification/Tasks.v ===== *)
(** * The tasks

    Models the two threads of the driver (ADnED.cpp): [eventTask], which connects the
    channels and keeps the acquisition state, and [frameTask], which copies the
    buffer into arrays for the plug-ins.

    Each thread is a state machine: its control states are the places where it waits
    for an event, and a step is the code from one wait to the next.  [sig] says
    whether the wait ended with the event ([epicsEventWaitOK]) or not.  A thread's
    steps use the mutex through [lockDepth], the number of times that thread holds it.

    - [codes], [calloc_ok] and [net] are those of Write.v, Alloc.v and Channel.v.
    - [pool_alloc n] says whether the array pool has an array of [n] words. *)

From stdpp Require Import base numbers list option strings.
From Stdlib Require Import Ascii.
From S2P Require Import Prelude Float64 Params Transform Driver Alloc Write Event Channel.

Local Open Scope Z_scope.

(** ** State *)

Record world (L TS T : Type) : Type := World { w_drv : driver L TS T; w_pva : pva }.
Arguments World {L TS T}.
Arguments w_drv {L TS T}.
Arguments w_pva {L TS T}.

(** The waits of [eventTask]: for a stop left over, for a start, and for a stop
    during acquisition. *)
Inductive event_pc : Type := EvCatchStop | EvWaitStart | EvAcquire.

Record event_task : Type := EventTask {
  e_pc : event_pc;
  e_error : bool;
  e_numChannels : Z;
  e_pvName : list string
}.

(** The waits of [frameTask]. *)
Inductive frame_pc : Type := FrCatchStop | FrWaitStart | FrRun.

(** [f_frames] are the arrays published so far: the identifier and the data. *)
Record frame_task : Type := FrameTask {
  f_pc : frame_pc;
  f_arrayCounter : Z;
  f_arrayCallbacks : Z;
  f_frames : list (Z * list Z)
}.

#[export] Instance event_pc_eq_dec : EqDecision event_pc.
Proof. solve_decision. Defined.

#[export] Instance frame_pc_eq_dec : EqDecision frame_pc.
Proof. solve_decision. Defined.

Section tasks.
Context {L TS : Type} {PL : ParamLib param L} {TL : TimeStampLib TS}.
Context (codes : ADStatus_t) (calloc_ok : Z → Z → bool) (net : network) (pool_alloc : Z → bool).
Local Abbreviation D := (driver L TS transform).
Local Abbreviation W := (world L TS transform).

Definition on_drv {A} (m : M D A) : M W A := λ w,
  let '(o, d) := m (w_drv w) in (o, World d (w_pva w)).

Definition on_pva {A} (m : M pva A) : M W A := λ w,
  let '(o, p) := m (w_pva w) in (o, World (w_drv w) p).

(** ** [eventTask] *)

(** Line 1499 to the wait for a start. *)
Definition event_idle (error : bool) : M D () :=
  lock ;;
  setInt 0 ADAcquire 0 ;;
  (if error then mret () else setString 0 ADStatusMessage "Idle" ;; mret ()) ;;
  unlock.

(** The PV names of the channels in use: what fits the rows of the local array, with
    the NUL that ends it. *)
Definition read_names (numChannels : Z) (names : list string) : M D (list string) :=
  for_acc (seqZ 0 numChannels) names (λ chan names,
    s ← getString chan ADnEDPVNameParam (default EmptyString (rd names chan));
    mret (upd names chan (String.substring 0 (Z.to_nat (ADNED_MAX_STRING_SIZE - 1)) s))).

(** [pvName[channel][0] != '0'] *)
Definition name_wanted (name : string) : bool :=
  match name with
  | String c _ => negb (bool_decide (c = "0"%char))
  | EmptyString => true
  end.

(** The [try] block: [true] when an exception was caught. *)
Definition connect_all (numChannels : Z) (names : list string) : M W bool :=
  catch
    (for_ (seqZ 0 numChannels) (λ chan,
       let name := default EmptyString (rd names chan) in
       if name_wanted name then
         st ← on_pva (setupChannelMonitor net name chan);
         if decide (st ≠ asynSuccess) then throw "Unknown error from setupChannelMonitor."
         else mret ()
       else mret ()) ;;
     mret false)
    (λ _,
       on_drv (setString 0 ADStatusMessage "Failed To Connect To PV.") ;;
       on_drv (setInt 0 ADStatus (ADStatusError codes)) ;;
       mret true).

(** After a start, with the mutex held: the new value of [error]. *)
Definition event_setup (numChannels : Z) (names : list string) : M W (bool * list string) :=
  st ← on_drv (allocArray calloc_ok);
  if decide (st ≠ asynSuccess) then
    on_drv (setString 0 ADStatusMessage "allocArray Error") ;;
    mret (true, names)
  else
    on_drv clear_data ;;
    on_drv (setInt 0 ADStatus (ADStatusAcquire codes)) ;;
    on_drv (setString 0 ADStatusMessage "Acquiring Events") ;;
    on_drv (modify (on_m_startFrame (λ _, true))) ;;
    names ← on_drv (read_names numChannels names);
    error ← connect_all numChannels names;
    (if (error : bool) then on_drv (modify (on_m_stopFrame (λ _, true)))
     else for_ (seqZ 0 numChannels) (λ chan, on_pva (set_started true chan))) ;;
    mret (error, names).

(** The end of the outer loop. *)
Definition event_finish (numChannels : Z) : M W () :=
  for_ (seqZ 0 numChannels) (λ chan, on_pva (set_started false chan)) ;;
  numDet ← on_drv (getInt 0 ADnEDNumDetParam 0);
  on_drv (setInt 0 ADnEDEventRateParam 0) ;;
  for_ (seqZ 1 numDet) (λ det, on_drv (setInt det ADnEDDetEventRateParam 0) ;; mret ()) ;;
  on_drv (setInt 0 ADnEDStopParam 0) ;;
  on_drv unlock.

Definition event_step (t : event_task) (sig : bool) : M W event_task :=
  match e_pc t with
  | EvCatchStop =>
      on_drv (event_idle (e_error t)) ;;
      mret {| t with e_pc := EvWaitStart |}
  | EvWaitStart =>
      r ←
        (if sig then
           on_drv lock ;;
           numChannels ← on_drv (getInt 0 ADnEDNumChannelsParam 0);
           let numChannels := Z.min numChannels ADNED_MAX_CHANNELS in
           '(error, names) ← event_setup numChannels (e_pvName t);
           mret (negb error, error, numChannels, names)
         else mret (false, e_error t, e_numChannels t, e_pvName t));
      let '(acquire, error, numChannels, names) := r in
      (if (error : bool) then on_drv (setInt 0 ADStatus (ADStatusError codes)) ;; mret ()
       else mret ()) ;;
      on_drv (setInt 0 ADnEDStartParam 0) ;;
      on_drv unlock ;;
      if (acquire : bool) then mret (EventTask EvAcquire error numChannels names)
      else
        event_finish numChannels ;;
        mret (EventTask EvCatchStop error numChannels names)
  | EvAcquire =>
      if sig then
        on_drv lock ;;
        on_drv (setInt 0 ADStatus (ADStatusIdle codes)) ;;
        on_drv (modify (on_m_stopFrame (λ _, true))) ;;
        event_finish (e_numChannels t) ;;
        mret {| t with e_pc := EvCatchStop |}
      else mret t
  end.

(** ** [frameTask] *)

(** One array: the buffer is copied with the mutex taken once more. *)
Definition publish_frame (counter : Z) : M D (Z * list Z) :=
  n ← gets m_bufferMaxSize;
  if pool_alloc n then
    lock ;;
    d ← gets p_Data;
    data ← checked NullDeref d;
    frame ← checked OutOfBounds (memcpy_from data n);
    mret (counter, frame)
  else undefined NullDeref.

Definition frame_step (t : frame_task) (sig : bool) : M D frame_task :=
  lock ;;
  r ←
    match f_pc t with
    | FrCatchStop => mret {| t with f_pc := FrWaitStart |}
    | FrWaitStart =>
        if sig then
          setInt 0 NDArrayCounter 0 ;;
          mret {| t with f_pc := FrRun; f_arrayCounter := 0 |}
        else mret {| t with f_pc := FrCatchStop |}
    | FrRun =>
        if sig then mret {| t with f_pc := FrCatchStop |}
        else
          callbacks ← getInt 0 NDArrayCallbacks (f_arrayCallbacks t);
          if decide (callbacks ≠ 0) then
            counter ← int_result (f_arrayCounter t + 1);
            frame ← publish_frame counter;
            setInt 0 NDArrayCounter counter ;;
            mret {| f_pc := FrRun; f_arrayCounter := counter; f_arrayCallbacks := callbacks;
                    f_frames := f_frames t ++ [frame] |}
          else mret {| t with f_arrayCallbacks := callbacks |}
    end;
  unlock ;;
  mret r.

End tasks.
