(* ===== verification/System.v ===== *)
(** * The whole driver

    Puts the threads of the driver together in one step relation: the two tasks of
    Tasks.v, the clients that call the write handlers of Write.v, and the PVAccess
    thread that calls [eventHandler] of Event.v.  The last section makes the relation
    executable. *)

From stdpp Require Import base numbers list option strings.
From Stdlib Require Import Ascii.
From S2P Require Import Prelude Float64 Params Transform File Driver Alloc Write Event Channel.
From S2P Require Import Tasks.

Local Open Scope Z_scope.

(** ** The threads

    The threads are the two tasks, the asyn clients, each of whose requests
    runs with the mutex held, and the PVAccess thread that delivers a structure.  A task
    makes two kinds of steps: one ends a wait, which takes the event but not the
    mutex; the next is the code up to the next wait, which begins when the task gets the
    mutex and so when no other thread holds it.  Between the two the other threads
    run. *)

(** What the driver is given from outside. *)
Record environment (L : Type) : Type := Environment {
  en_codes : ADStatus_t;
  en_net : network;
  en_pool : Z → bool;
  en_fs : string → open_result;
  en_strtod : list ascii → converted f64;
  en_base_write : Z → param → string → L → asynStatus * L
}.
Arguments Environment {L}.
Arguments en_codes {L}.
Arguments en_net {L}.
Arguments en_pool {L}.
Arguments en_fs {L}.
Arguments en_strtod {L}.
Arguments en_base_write {L}.

(** The requests of a client; [errno] is that of the calling thread. *)
Inductive request : Type :=
  | WriteInt32 (function : param) (value : Z)
  | WriteFloat64 (function : param) (value : f64)
  | WriteOctet (function : param) (value : string) (nChars : Z) (errno : bool).

Section system.
Context {L TS : Type} {PL : ParamLib param L} {TL : TimeStampLib TS} {TR : Transformer transform}.
Context (E : environment L).
Local Abbreviation D := (driver L TS transform).
Local Abbreviation W := (world L TS transform).

Definition serve (mem : memory) (address : asynStatus * Z) (r : request) : M D asynStatus :=
  match r with
  | WriteInt32 function value => writeInt32 (en_codes E) (mem 0%nat) address function value
  | WriteFloat64 function value => writeFloat64 address function value
  | WriteOctet function value nChars errno =>
      '(status, _, _) ← writeOctet mem (en_fs E) (en_strtod E) (en_base_write E)
                          address function value nChars errno;
      mret status
  end.

(** [getAddress] gives an error or an address of the port.  Clients do not write
    ADStatus, whose records are read-only. *)
Definition request_ok (address : asynStatus * Z) (r : request) : Prop :=
  (address.1 = asynSuccess → 0 <= address.2 <= ADNED_MAX_DETS) ∧
  match r with WriteInt32 function _ => function ≠ ADStatus | _ => True end.

(** [sy_evWoken] is [Some sig] when the wait of [eventTask] has ended, with the event
    or not, and the task has not gone on yet. *)
Record system : Type := Sys {
  sy_world : W;
  sy_ev : event_task;
  sy_fr : frame_task;
  sy_evWoken : option bool;
  sy_frWoken : option bool;
  sy_evDepth : Z;
  sy_frDepth : Z
}.

(** The steps that allocate are labelled with the answers of [calloc], and that of a
    client with the status it gets. *)
Inductive label : Type :=
  | LEventWait (sig : bool)
  | LEvent (sig : bool) (mem : memory)
  | LFrameWait (sig : bool)
  | LFrame (sig : bool)
  | LClient (address : asynStatus * Z) (r : request) (mem : memory) (status : asynStatus)
  | LMonitor (pv : pv_struct TS) (channelID nowSecs nowNsecs : Z).

(** A wait with a timeout on the event [e]: it ends with the event exactly when
    the event was signalled, and clears it. *)
Definition timed_wait (e sig : bool) : Prop := e = sig.

(** What [eventTask] waits for, and the driver after the wait. *)
Definition event_wait (pc : event_pc) (sig : bool) (d : D) : Prop :=
  match pc with
  | EvWaitStart => m_startEvent d = true ∧ sig = true
  | EvCatchStop | EvAcquire => timed_wait (m_stopEvent d) sig
  end.

Definition event_waited (pc : event_pc) (d : D) : D :=
  match pc with
  | EvWaitStart => on_m_startEvent (λ _, false) d
  | EvCatchStop | EvAcquire => on_m_stopEvent (λ _, false) d
  end.

Definition frame_wait (pc : frame_pc) (sig : bool) (d : D) : Prop :=
  match pc with
  | FrWaitStart => m_startFrame d = true ∧ sig = true
  | FrCatchStop | FrRun => timed_wait (m_stopFrame d) sig
  end.

Definition frame_waited (pc : frame_pc) (d : D) : D :=
  match pc with
  | FrWaitStart => on_m_startFrame (λ _, false) d
  | FrCatchStop | FrRun => on_m_stopFrame (λ _, false) d
  end.

Definition at_depth (k : Z) (d : D) : D := on_lockDepth (λ _, k) d.

(** The poll of the acquisition loop takes no mutex when it ends without the event. *)
Definition takes_lock (pc : event_pc) (sig : bool) : bool :=
  match pc with EvAcquire => sig | EvCatchStop | EvWaitStart => true end.

Inductive step : label → system → system → Prop :=
  | step_event_wait sig w t f fw ke kf :
      event_wait (e_pc t) sig (w_drv w) →
      step (LEventWait sig) (Sys w t f None fw ke kf)
        (Sys (World (event_waited (e_pc t) (w_drv w)) (w_pva w)) t f (Some sig) fw ke kf)
  | step_event sig mem w t f fw ke kf t' w' :
      (takes_lock (e_pc t) sig = true → kf <= 0) →
      event_step (en_codes E) (mem 0%nat) (en_net E) t sig
          (World (at_depth ke (w_drv w)) (w_pva w))
        = (Ok t', w') →
      step (LEvent sig mem) (Sys w t f (Some sig) fw ke kf)
        (Sys w' t' f None fw (lockDepth (w_drv w')) kf)
  | step_frame_wait sig w t f ew ke kf :
      frame_wait (f_pc f) sig (w_drv w) →
      step (LFrameWait sig) (Sys w t f ew None ke kf)
        (Sys (World (frame_waited (f_pc f) (w_drv w)) (w_pva w)) t f ew (Some sig) ke kf)
  | step_frame sig w t f ew ke kf f' d' :
      ke <= 0 →
      frame_step (en_pool E) f sig (at_depth kf (w_drv w)) = (Ok f', d') →
      step (LFrame sig) (Sys w t f ew (Some sig) ke kf)
        (Sys (World d' (w_pva w)) t f' ew None ke (lockDepth d'))
  | step_client address r mem w t f ew fw ke kf st d' :
      ke <= 0 → kf <= 0 → request_ok address r →
      serve mem address r (at_depth 1 (w_drv w)) = (Ok st, d') →
      step (LClient address r mem st) (Sys w t f ew fw ke kf)
        (Sys (World d' (w_pva w)) t f ew fw ke kf)
  | step_monitor pv channelID nowSecs nowNsecs w t f ew fw ke kf d' :
      ke <= 0 → kf <= 0 →
      eventHandler pv channelID nowSecs nowNsecs (at_depth 0 (w_drv w)) = (Ok (), d') →
      step (LMonitor pv channelID nowSecs nowNsecs) (Sys w t f ew fw ke kf)
        (Sys (World d' (w_pva w)) t f ew fw ke kf).

(** A run of the driver and the labels of its steps. *)
Inductive run : list label → system → system → Prop :=
  | run_nil x : run [] x x
  | run_step ls l x y z : run ls x y → step l y z → run (ls ++ [l]) x z.

Definition steps (x y : system) : Prop := ∃ ls, run ls x y.

(** The threads at their first waits. *)
Definition event_task_new : event_task :=
  EventTask EvCatchStop true 0 (replicate (Z.to_nat ADNED_MAX_CHANNELS) EmptyString).

Definition frame_task_new : frame_task := FrameTask FrCatchStop 0 0 [].

Definition sys_new (d : D) : system :=
  Sys (World d pva_new) event_task_new frame_task_new None None 0 0.
End system.

(** ** Executable steps *)

#[export] Instance event_wait_dec {L TS} pc sig (d : driver L TS transform) :
  Decision (event_wait pc sig d).
Proof. destruct pc; cbn; unfold timed_wait; apply _. Defined.

#[export] Instance frame_wait_dec {L TS} pc sig (d : driver L TS transform) :
  Decision (frame_wait pc sig d).
Proof. destruct pc; cbn; unfold timed_wait; apply _. Defined.

#[export] Instance request_ok_dec address r : Decision (request_ok address r).
Proof. unfold request_ok. destruct r; apply _. Defined.

Section exec.
Context {L TS : Type} {PL : ParamLib param L} {TL : TimeStampLib TS} {TR : Transformer transform}.
Context (E : environment L).
Local Abbreviation X := (@system L TS).

(** The state after a step, when the step is possible. *)
Definition exec (l : label) (x : X) : option X :=
  let '(Sys w t f ew fw ke kf) := x in
  match l with
  | LEventWait sig =>
      if decide (ew = None ∧ event_wait (e_pc t) sig (w_drv w)) then
        Some (Sys (World (event_waited (e_pc t) (w_drv w)) (w_pva w)) t f (Some sig) fw ke kf)
      else None
  | LEvent sig mem =>
      if decide (ew = Some sig ∧ (takes_lock (e_pc t) sig = true → kf <= 0)) then
        match event_step (en_codes E) (mem 0%nat) (en_net E) t sig
                (World (at_depth ke (w_drv w)) (w_pva w)) with
        | (Ok t', w') => Some (Sys w' t' f None fw (lockDepth (w_drv w')) kf)
        | _ => None
        end
      else None
  | LFrameWait sig =>
      if decide (fw = None ∧ frame_wait (f_pc f) sig (w_drv w)) then
        Some (Sys (World (frame_waited (f_pc f) (w_drv w)) (w_pva w)) t f ew (Some sig) ke kf)
      else None
  | LFrame sig =>
      if decide (fw = Some sig ∧ ke <= 0) then
        match frame_step (en_pool E) f sig (at_depth kf (w_drv w)) with
        | (Ok f', d') => Some (Sys (World d' (w_pva w)) t f' ew None ke (lockDepth d'))
        | _ => None
        end
      else None
  | LClient address r mem status =>
      if decide (ke <= 0 ∧ kf <= 0 ∧ request_ok address r) then
        match serve E mem address r (at_depth 1 (w_drv w)) with
        | (Ok st, d') =>
            if decide (st = status) then Some (Sys (World d' (w_pva w)) t f ew fw ke kf) else None
        | _ => None
        end
      else None
  | LMonitor pv channelID nowSecs nowNsecs =>
      if decide (ke <= 0 ∧ kf <= 0) then
        match eventHandler pv channelID nowSecs nowNsecs (at_depth 0 (w_drv w)) with
        | (Ok _, d') => Some (Sys (World d' (w_pva w)) t f ew fw ke kf)
        | _ => None
        end
      else None
  end.

Lemma exec_step l x y : exec l x = Some y → step E l x y.
Proof.
  destruct x as [w t f ew fw ke kf]. destruct l; cbn; case_decide as Hd; try done.
  - destruct Hd as [-> ?]. intros [= <-]. by constructor.
  - destruct (event_step _ _ _ _ _ _) as [[t'|e|u] w'] eqn:Es; [|done..].
    destruct Hd as [-> ?]. intros [= <-]. by econstructor.
  - destruct Hd as [-> ?]. intros [= <-]. by constructor.
  - destruct (frame_step _ _ _ _) as [[f'|e|u] d'] eqn:Es; [|done..].
    destruct Hd as [-> ?]. intros [= <-]. by econstructor.
  - destruct (serve _ _ _ _ _) as [[st|e|u] d'] eqn:Es; [|done..]. case_decide; [|done]. subst st.
    intros [= <-]. destruct Hd as (? & ? & ?). by econstructor.
  - destruct (eventHandler _ _ _ _ _) as [[[]|e|u] d'] eqn:Es; [|done..].
    intros [= <-]. destruct Hd. by econstructor.
Qed.

Fixpoint exec_all (ls : list label) (x : X) : option X :=
  match ls with
  | [] => Some x
  | l :: ls => y ← exec l x; exec_all ls y
  end.

Lemma run_cons l ls (x y z : X) : step E l x y → run E ls y z → run E (l :: ls) x z.
Proof.
  intros Hl. induction 1 as [y|ls l' y z1 z2 _ IH Hl']; [by apply (run_step E [] l x x y); [constructor|]|].
  change (l :: ls ++ [l']) with ((l :: ls) ++ [l']). econstructor; [by apply IH|done].
Qed.

Lemma run_uncons l ls (x z : X) : run E (l :: ls) x z → ∃ y, step E l x y ∧ run E ls y z.
Proof.
  intros Hrun. remember (l :: ls) as ls' eqn:Els. revert l ls Els.
  induction Hrun as [x|ls' l' x y z Hrun IH Hl']; intros l ls Els; [done|].
  destruct ls' as [|l0 ls']; cbn in Els; injection Els as -> <-.
  - inversion Hrun as [|ls'' l'' ? ? ? ? ? E0]; subst; [by eexists; split; [|constructor]|].
    by destruct ls''.
  - destruct (IH l ls' eq_refl) as (y' & Hy & Hr). exists y'. split; [done|]. by econstructor.
Qed.

Lemma exec_all_run ls x y : exec_all ls x = Some y → run E ls x y.
Proof.
  revert x. induction ls as [|l ls IH]; intros x; cbn; [intros [= <-]; constructor|].
  intros (z & Hz & Hy)%bind_Some. eapply run_cons; [by apply exec_step|by apply IH].
Qed.

(** What a step keeps holds in every state of a run. *)
Lemma run_invariant (P : X → Prop) ls x y :
  (∀ l x y, step E l x y → P x → P y) → run E ls x y → P x → P y.
Proof. intros Hstep. induction 1; [done|]. eauto. Qed.
End exec.
