(* ===== verification/TaskTheorems.v ===== *)
(** * Theorems about the tasks: the acquisition protocol, the mutex, the start of
    an acquisition and the published arrays. *)

From stdpp Require Import base numbers list option strings.
From S2P Require Import Prelude Float64 Params Transform Driver Sample Alloc Ops Write.
From S2P Require Import WriteTheorems Event Channel Tasks System.

Local Open Scope Z_scope.

(** ** Relations on the driver, over the steps of the tasks *)

Section lifted.
Context {L TS : Type}.
Local Abbreviation D := (driver L TS transform).
Local Abbreviation W := (world L TS transform).
Context (R : D → D → Prop) `{!PreOrder R}.

Definition on_world (w w' : W) : Prop := R (w_drv w) (w_drv w').

#[global] Instance on_world_preorder : PreOrder on_world.
Proof. split; unfold on_world; [by intros w|]. intros w1 w2 w3 H12 H23. by rewrite H12. Qed.

Lemma stable_on_drv {A} (m : M D A) : stable R m → stable on_world (on_drv m).
Proof.
  intros Hm w a w'. unfold on_drv. destruct (m (w_drv w)) as [o d] eqn:E.
  intros [= -> <-]. by eapply Hm.
Qed.

Lemma stable_on_pva {A} (m : M pva A) : stable on_world (on_pva m : M W A).
Proof. apply stable_pure. intros w. unfold on_pva, on_world. by destruct (m (w_pva w)). Qed.
End lifted.

(** ** What leaves the acquisition state alone *)

(** The pending events alone. *)
Definition same_events {L TS T} (d d' : driver L TS T) : Prop :=
  m_startEvent d' = m_startEvent d ∧ m_stopEvent d' = m_stopEvent d.

#[export] Instance same_events_preorder {L TS T} : PreOrder (same_events (L := L) (TS := TS) (T := T)).
Proof. split; [by intros d|]. intros d1 d2 d3 [A1 A2] [B1 B2]. split; congruence. Qed.


Section control.
Context {L TS T : Type} {PL : ParamLib param L} {DL : DriverLib L} {TL : TimeStampLib TS}.
Local Abbreviation D := (driver L TS T).

Definition ad_status (d : D) : Z := getIntegerParam (params d) 0 ADStatus 0.

Record same_control (d d' : D) : Prop := {
  sc_status : ad_status d' = ad_status d;
  sc_start : m_startEvent d' = m_startEvent d;
  sc_stop : m_stopEvent d' = m_stopEvent d
}.

#[global] Instance same_control_preorder : PreOrder same_control.
Proof.
  split; [by split|]. intros d1 d2 d3 [A1 A2 A3] [B1 B2 B3]. split; congruence.
Qed.

Lemma control_setInt a p v : p ≠ ADStatus → stable same_control (setInt a p v).
Proof.
  intros Hp s x s' [= _ <-]. destruct s; split; try done. unfold ad_status. cbn.
  apply get_set_int_ne. congruence.
Qed.

Lemma control_setDouble a p v : stable same_control (setDouble a p v).
Proof.
  intros s x s' [= _ <-]. destruct s; split; try done. unfold ad_status. cbn.
  by apply get_int_set_double_typed.
Qed.

Lemma control_setString a p v : stable same_control (setString a p v).
Proof.
  intros s x s' [= _ <-]. destruct s; split; try done. unfold ad_status. cbn.
  by apply get_int_set_string_typed.
Qed.

Lemma control_other {A} (m : M D A) :
  (∀ s, params (m s).2 = params s ∧ m_startEvent (m s).2 = m_startEvent s ∧
        m_stopEvent (m s).2 = m_stopEvent s) → stable same_control m.
Proof.
  intros Hm. apply stable_pure. intros s. destruct (Hm s) as (E & ? & ?).
  split; try done. unfold ad_status. by rewrite E.
Qed.
End control.

Ltac control_leaf :=
  idtac; lazymatch goal with
  | |- stable _ (set_all _) => apply stable_set_all; [exact _|];
      repeat first [apply Forall_nil_2 | apply Forall_cons_2; [control_leaf|]]
  | |- stable _ (setInt _ _ _) => apply control_setInt; done
  | |- stable _ (setDouble _ _ _) => apply control_setDouble
  | |- stable _ (setString _ _ _) => apply control_setString
  | |- stable _ _ => apply control_other; intros []; done
  end.

Ltac control_split := stable_split control_leaf.

Section control_lemmas.
Context {L TS : Type} {PL : ParamLib param L} {DL : DriverLib L} {TL : TimeStampLib TS}.
Context {TR : Transformer transform} (codes : ADStatus_t) (calloc_ok : Z → Z → bool) (mem : memory).
Local Abbreviation D := (driver L TS transform).

Lemma control_clearParams : stable same_control (clearParams : M D _).
Proof. unfold clearParams, clear_data, clear_channel, clear_det. control_split. Qed.

Lemma control_allocArray : stable same_control (allocArray calloc_ok : M D _).
Proof.
  unfold allocArray, alloc_det, det_size, publish_pix, alloc_tof, alloc_buffer. control_split.
Qed.

Lemma control_with_transform {A} addr (m : M transform A) :
  stable same_control (with_transform addr m : M D A).
Proof.
  apply control_other. intros s. unfold with_transform. destruct (mjoin _); [|done].
  destruct (m _). by destruct s.
Qed.

Lemma control_write_finish f addr v :
  f ≠ ADStatus → stable same_control (write_finish f addr v : M D _).
Proof.
  intros Hf. unfold write_finish. apply stable_bind; [exact _| |].
  - control_split; apply control_with_transform.
  - control_split.
Qed.

Lemma control_integrate_events numDet events :
  stable same_control (integrate_events numDet events : M D _).
Proof.
  apply stable_for_acc; [exact _|]. intros [pixel tofRaw] lc. unfold integrate_event, event_tof,
    map_pixel, integrate_pixel, plot_index, integrate_tof, in_pixel_roi, tof_bin, int_rem, int_quot,
    count. control_split.
Qed.

Lemma control_eventHandler pv ch secs nsecs :
  stable same_control (eventHandler pv ch secs nsecs : M D _).
Proof.
  unfold eventHandler, update_timer, fetch_detector, check_timestamp, check_seq, handle_data,
    integrate_pulse, post_updates, post_channel, post_detector, event_rate.
  control_split; apply control_integrate_events.
Qed.

Lemma control_writeFloat64 address f v : stable same_control (writeFloat64 address f v : M D _).
Proof.
  apply stable_writeFloat64; [exact _|intros; apply control_with_transform|].
  intros. apply control_setDouble.
Qed.

Lemma control_writeOctet fs strtod base_write address f v n errno :
  base_ok base_write →
  stable same_control (writeOctet mem fs strtod base_write address f v n errno : M D _).
Proof.
  intros Hbase. apply stable_writeOctet; [exact _|by intros ? []..|
    intros; apply control_with_transform| |intros; apply control_setString].
  intros addr f' v' s st s' Hrun. unfold base_writeOctet, mbind, M_bind, gets in Hrun.
  destruct (base_write addr f' v' (params s)) as [st' l'] eqn:E. injection Hrun as _ <-.
  replace l' with (snd (base_write addr f' v' (params s))) by (by rewrite E).
  destruct s. split; try done. by apply Hbase.
Qed.
End control_lemmas.

(** ** The acquisition protocol *)

Section protocol.
Context {L TS : Type} {PL : ParamLib param L} {DL : DriverLib L} {TL : TimeStampLib TS}.
Context {TR : Transformer transform} (codes : ADStatus_t) (calloc_ok : Z → Z → bool).
Context (net : network) (pool_alloc : Z → bool).
Local Abbreviation D := (driver L TS transform).
Local Abbreviation W := (world L TS transform).

(** The acquisition states are different numbers. *)
Definition codes_ok : Prop :=
  ADStatusIdle codes ≠ ADStatusAcquire codes ∧ ADStatusError codes ≠ ADStatusAcquire codes ∧
  ADStatusAborted codes ≠ ADStatusAcquire codes.

(** The acquisition state agrees with where [eventTask] is ([woken] says that its wait
    has ended): the status is Acquire exactly while it is in its acquisition loop, and
    a stop is pending only there or before the wait that discards it. *)
Record protocol (pc : event_pc) (woken : option bool) (d : D) : Prop := {
  pr_status : ad_status d = ADStatusAcquire codes ↔ pc = EvAcquire;
  pr_stop : m_stopEvent d = true → pc = EvAcquire ∨ (pc = EvCatchStop ∧ woken = None);
  pr_woken : pc = EvWaitStart → woken ≠ Some false
}.

Lemma protocol_same pc wk d d' : same_control d d' → protocol pc wk d → protocol pc wk d'.
Proof. intros [E0 E1 E2] [H1 H2 H3]. split; [by rewrite E0|by rewrite E2|done]. Qed.

Lemma protocol_depth pc wk k d : protocol pc wk d → protocol pc wk (at_depth k d).
Proof. apply protocol_same. by destruct d. Qed.

Lemma set_status (d d' : D) v st :
  setInt 0 ADStatus v d = (Ok st, d') →
  ad_status d' = v ∧ m_startEvent d' = m_startEvent d ∧ m_stopEvent d' = m_stopEvent d.
Proof.
  intros [= _ <-]. destruct d. unfold ad_status. cbn. split; [|done].
  by rewrite driver_get_set_int, decide_True by done.
Qed.

(** Steps that keep the protocol. *)
Definition keeps_protocol (pc : event_pc) (wk : option bool) (d d' : D) : Prop :=
  protocol pc wk d → protocol pc wk d'.

#[local] Instance keeps_protocol_preorder pc wk : PreOrder (keeps_protocol pc wk).
Proof. split; unfold keeps_protocol; [by intros d|]. intros d1 d2 d3. auto. Qed.

Lemma keeps_same {A} pc wk (m : M D A) :
  stable same_control m → stable (keeps_protocol pc wk) m.
Proof. intros Hm s a s' E Hp. eapply protocol_same; [by eapply Hm|done]. Qed.

Lemma keeps_start pc wk :
  stable (keeps_protocol pc wk) (modify (on_m_startEvent (λ _, true)) : M D ()).
Proof. apply stable_modify. intros d [H1 H2 H3]. by destruct d. Qed.

Lemma keeps_stop pc wk :
  pc = EvAcquire → stable (keeps_protocol pc wk) (modify (on_m_stopEvent (λ _, true)) : M D ()).
Proof. intros Hpc. apply stable_modify. intros d [H1 H2 H3]. destruct d. by split; [|left|]. Qed.

Lemma keeps_status pc wk v :
  pc ≠ EvAcquire → v ≠ ADStatusAcquire codes →
  stable (keeps_protocol pc wk) (setInt 0 ADStatus v : M D _).
Proof.
  intros Hpc Hv s a s' (E0 & E1 & E2)%set_status [H1 H2 H3]. split; [|by rewrite E2|done].
  rewrite E0. tauto.
Qed.

Ltac protocol_leaf :=
  idtac; lazymatch goal with
  | |- stable _ clearParams => apply keeps_same, control_clearParams
  | |- stable _ (allocArray _) => apply keeps_same, control_allocArray
  | |- stable _ (with_transform _ _) => apply keeps_same, control_with_transform
  | |- stable _ (modify (on_m_startEvent _)) => apply keeps_start
  | |- stable _ (modify (on_m_stopEvent _)) => apply keeps_stop; naive_solver
  | |- stable _ (setInt 0 ADStatus _) => apply keeps_status; naive_solver
  | |- stable _ _ => apply keeps_same; control_leaf
  end.

Hypothesis Hcodes : codes_ok.

Lemma keeps_write_action pc wk f addr v st :
  (st = ADStatusAcquire codes ↔ pc = EvAcquire) →
  stable (keeps_protocol pc wk) (write_action codes calloc_ok f addr v st : M D _).
Proof.
  intros Hst. destruct Hcodes as (Hidle & Herr & Hab).
  destruct f; cbn [write_action]; unfold write_start, write_stop, write_alloc, configure, limit,
    printTofTrans, resetTOFArray, printPixelMap; stable_split protocol_leaf.
Qed.

Lemma keeps_writeInt32 pc wk addr f v (d d' : D) st :
  f ≠ ADStatus → protocol pc wk d →
  writeInt32 codes calloc_ok (asynSuccess, addr) f v d = (Ok st, d') → protocol pc wk d'.
Proof.
  intros Hf Hp. unfold writeInt32. cbn [fst snd]. rewrite decide_False by tauto.
  intros (adStatus & d1 & [= <- <-] & (r & d2 & E1 & E2)%bind_Ok)%bind_Ok.
  apply (keeps_write_action pc wk) in E1; [|apply Hp]. specialize (E1 Hp).
  destruct r as [st'|v']; [by apply ret_Ok in E2 as [-> ->]|].
  eapply protocol_same; [|done]. by eapply control_write_finish.
Qed.

(** The same for the tasks, which also see the channels. *)
Local Abbreviation same_control_w := (on_world (L := L) (TS := TS) same_control).

Ltac world_leaf :=
  idtac; lazymatch goal with
  | |- stable _ (on_pva _) => apply stable_on_pva; exact _
  | |- stable _ (on_drv (allocArray _)) => apply stable_on_drv, control_allocArray
  | |- stable _ (on_drv _) => apply stable_on_drv; unfold event_idle, read_names, clear_data;
      control_split
  end.

Ltac world_split := stable_split world_leaf.

Lemma control_event_finish n : stable same_control_w (event_finish n : M W ()).
Proof. unfold event_finish. world_split. Qed.

(** Programs that do not touch the driver, even when they throw. *)
Definition drv_fixed {A} (m : M W A) : Prop := ∀ w, w_drv (m w).2 = w_drv w.

Lemma drv_fixed_bind {A B} (m : M W A) (k : A → M W B) :
  drv_fixed m → (∀ a, drv_fixed (k a)) → drv_fixed (m ≫= k).
Proof.
  intros Hm Hk w. unfold mbind, M_bind. specialize (Hm w). destruct (m w) as [[a|e|u] w1]; [|done..].
  by rewrite Hk.
Qed.

Lemma drv_fixed_for {A} (l : list A) (body : A → M W ()) :
  (∀ x, drv_fixed (body x)) → drv_fixed (for_ l body).
Proof.
  intros Hb. induction l as [|x l IH]; cbn; [by intros w|]. by apply drv_fixed_bind.
Qed.

(** The [try] block of [connect_all]. *)
Lemma connect_all_cases n names (w w' : W) error :
  connect_all codes net n names w = (Ok error, w') →
  if error then
    ∃ w1, w_drv w1 = w_drv w ∧
      (on_drv (setString 0 ADStatusMessage "Failed To Connect To PV.") ;;
       on_drv (setInt 0 ADStatus (ADStatusError codes)) ;; mret true) w1 = (Ok true, w')
  else w_drv w' = w_drv w.
Proof.
  unfold connect_all, catch. set (m := (for_ _ _ ≫= _)).
  assert (drv_fixed m) as Hm.
  { apply drv_fixed_bind; [|by intros _ w0]. apply drv_fixed_for. intros chan.
    destruct (name_wanted _); [|by intros w0]. apply drv_fixed_bind.
    - intros w0. unfold on_pva. by destruct (setupChannelMonitor _ _ _ _).
    - intros st w0. by case_decide. }
  specialize (Hm w). destruct (m w) as [[b|e|u] w1] eqn:E; [| |done].
  - assert (b = false) as -> by (by apply bind_Ok in E as (? & ? & _ & [= <- _])).
    by intros [= <- <-].
  - intros E'. assert (error = true) as -> by
      (by apply bind_Ok in E' as (? & ? & _ & (? & ? & _ & [= <- _])%bind_Ok)). eauto.
Qed.

Local Abbreviation same_events_w := (on_world (L := L) (TS := TS) same_events).

Lemma run_status v (w w' : W) st :
  on_drv (setInt 0 ADStatus v) w = (Ok st, w') → ad_status (w_drv w') = v ∧ same_events_w w w'.
Proof.
  unfold on_drv. destruct (setInt _ _ _ _) as [o d] eqn:Ed. intros [= -> <-].
  apply set_status in Ed as (? & ? & ?). by split.
Qed.

Lemma events_control {A} (m : M W A) : stable same_control_w m → stable same_events_w m.
Proof. intros Hm w a w' [_ E1 E2]%Hm. by split. Qed.

Lemma events_status v : stable same_events_w (on_drv (setInt 0 ADStatus v) : M W _).
Proof. by intros w a w' [_ ?]%run_status. Qed.

Ltac events_leaf :=
  idtac; lazymatch goal with
  | |- stable _ (on_drv (setInt 0 ADStatus _)) => apply events_status
  | |- stable _ (event_finish _) => apply events_control, control_event_finish
  | |- stable _ _ => apply events_control; world_leaf
  end.

Lemma events_connect_all n names : stable same_events_w (connect_all codes net n names : M W bool).
Proof.
  intros w error w' E. apply connect_all_cases in E. destruct error; [|by split; rewrite E].
  destruct E as (w1 & Hw & E). unfold on_world. rewrite <-Hw.
  apply (stable_run same_events_w _ _ _ _ E). stable_split events_leaf.
Qed.

(** The outcome of a start. *)
Lemma event_setup_status n names (w w' : W) error names' :
  event_setup codes calloc_ok net n names w = (Ok (error, names'), w') →
  same_events_w w w' ∧ (error = false → ad_status (w_drv w') = ADStatusAcquire codes).
Proof.
  intros E. split.
  { apply (stable_run same_events_w _ _ _ _ E). unfold event_setup. stable_split events_leaf.
    apply events_connect_all. }
  intros ->. unfold event_setup in E. apply bind_Ok in E as (st & w1 & _ & E).
  case_decide; [by apply bind_Ok in E as (? & ? & _ & [=])|].
  apply bind_Ok in E as (_ & w2 & _ & E). apply bind_Ok in E as (? & w3 & Est & E).
  apply run_status in Est as [<- _].
  apply bind_Ok in E as (? & w4 & E4 & E). apply bind_Ok in E as ([] & w5 & E5 & E).
  apply bind_Ok in E as (names1 & w6 & E6 & E). apply bind_Ok in E as (error & w7 & E7 & E).
  apply bind_Ok in E as ([] & w8 & E8 & [= -> _ <-]). apply connect_all_cases in E7.
  assert (same_control_w w3 w6) as [<- _ _].
  { transitivity w4; [apply (stable_run _ _ _ _ _ E4); world_split|].
    transitivity w5; [apply (stable_run _ _ _ _ _ E5)|apply (stable_run _ _ _ _ _ E6)]; world_split. }
  rewrite <-E7. apply (stable_run same_control_w _ _ _ _ E8). world_split.
Qed.

(** The code after a start, up to the next wait. *)
Lemma event_start_protocol t (w : W) t' w' :
  e_pc t = EvWaitStart → m_stopEvent (w_drv w) = false →
  event_step codes calloc_ok net t true w = (Ok t', w') → protocol (e_pc t') None (w_drv w').
Proof.
  intros Hpc Hf2 E. destruct Hcodes as (_ & Herr & _). unfold event_step in E. rewrite Hpc in E.
  apply bind_Ok in E as (r & w4 & Er & E).
  apply bind_Ok in Er as ([] & w1 & E1 & Er). apply bind_Ok in Er as (numChan & w2 & E2 & Er).
  apply bind_Ok in Er as ([error' names'] & w3 & E3 & [= <- <-]).
  apply (stable_run same_events_w) in E1 as [A1 A2]; [|stable_split events_leaf].
  apply (stable_run same_events_w) in E2 as [B1 B2]; [|stable_split events_leaf].
  apply event_setup_status in E3 as [[C1 C2] Hacq].
  apply bind_Ok in E as ([] & w5 & E5 & E). apply bind_Ok in E as (? & w6 & E6 & E).
  apply bind_Ok in E as ([] & w7 & E7 & E).
  assert (same_control_w w5 w7) as [D0 D1 D2].
  { transitivity w6; [apply (stable_run _ _ _ _ _ E6)|apply (stable_run _ _ _ _ _ E7)]; world_split. }
  destruct error'; cbn [negb] in E.
  - apply bind_Ok in E5 as (? & w5' & E5 & [_ <-]%ret_Ok).
    apply run_status in E5 as [F0 [F1 F2]].
    apply bind_Ok in E as ([] & w8 & E8 & [= <- <-]).
    apply (stable_run same_control_w) in E8 as [G0 G1 G2]; [|apply control_event_finish].
    cbn. split; [rewrite G0, D0, F0; split; [tauto|discriminate]| |done].
    rewrite G2, D2, F2, C2, B2, A2, Hf2. done.
  - apply ret_Ok in E5 as [_ ->]. apply ret_Ok in E as [-> ->]. cbn.
    split; [rewrite D0, Hacq by done; tauto|by left|done].
Qed.

(** The end of a wait keeps the protocol. *)
Lemma event_wait_protocol pc sig (d : D) :
  protocol pc None d → event_wait pc sig d → protocol pc (Some sig) (event_waited pc d).
Proof.
  intros [Hst Hstop _] Hw. assert (ad_status (event_waited pc d) = ad_status d) as E0
    by (by destruct d, pc).
  split; [by rewrite E0| |].
  - destruct pc; [by destruct d| |by left]. intros Hf.
    assert (m_stopEvent d = true) as Hf' by (by destruct d).
    by destruct (Hstop Hf') as [|[? _]].
  - intros ->. destruct Hw as [_ ->]. done.
Qed.

(** A step of [eventTask] keeps the protocol. *)
Lemma event_step_protocol t sig ke (w : W) t' w' :
  protocol (e_pc t) (Some sig) (w_drv w) →
  event_step codes calloc_ok net t sig (World (at_depth ke (w_drv w)) (w_pva w)) = (Ok t', w') →
  protocol (e_pc t') None (w_drv w').
Proof.
  intros Hp E. destruct Hcodes as (Hidle & _). apply (protocol_depth _ _ ke) in Hp.
  set (w0 := World _ _) in E. change (protocol (e_pc t) (Some sig) (w_drv w0)) in Hp. clearbody w0.
  destruct Hp as [Hst Hstop Hwoken].
  assert (e_pc t ≠ EvAcquire → m_stopEvent (w_drv w0) = false) as Hf.
  { intros Hpc. destruct (m_stopEvent (w_drv w0)); [|done]. by destruct Hstop as [|[_ ?]]. }
  destruct (e_pc t) eqn:Epc.
  - unfold event_step in E. rewrite Epc in E. apply bind_Ok in E as ([] & w1 & E & [= <- <-]). cbn.
    apply (stable_run same_control_w) in E as [E0 E1 E2]; [|world_split].
    split; [rewrite E0, Hst; split; discriminate| |done]. by rewrite E2, Hf.
  - destruct sig; [|by destruct Hwoken]. eapply event_start_protocol; [done|by apply Hf|exact E].
  - unfold event_step in E. rewrite Epc in E. destruct sig.
    + apply bind_Ok in E as ([] & w1 & E1 & E). apply bind_Ok in E as (? & w2 & E2 & E).
      apply bind_Ok in E as ([] & w3 & E3 & E). apply bind_Ok in E as ([] & w4 & E4 & [= <- <-]).
      apply run_status in E2 as [F0 [F1 F2]].
      assert (same_control_w w2 w4) as [D0 D1 D2].
      { transitivity w3; [apply (stable_run _ _ _ _ _ E3); world_split|].
        apply (stable_run _ _ _ _ _ E4). apply control_event_finish. }
      cbn. split; [rewrite D0, F0; split; [tauto|discriminate]|by right|done].
    + apply ret_Ok in E as [-> ->]. rewrite Epc. split; [done|by left|done].
Qed.

Lemma control_frame_step t sig : stable same_control (frame_step pool_alloc t sig : M D _).
Proof. unfold frame_step, publish_frame. control_split. Qed.

End protocol.

Section protocol_runs.
Context {L TS : Type} {PL : ParamLib param L} {DL : DriverLib L} {TL : TimeStampLib TS}.
Context {TR : Transformer transform} (E : environment L).
Local Abbreviation D := (driver L TS transform).

(** What the driver relies on from outside: the acquisition states are different
    numbers, and the base class keeps to its own parameters. *)
Record env_ok : Prop := {
  env_codes : codes_ok (en_codes E);
  env_base : base_ok (en_base_write E)
}.

Hypothesis HE : env_ok.

Lemma serve_protocol pc wk mem address r (d d' : D) st :
  request_ok address r → protocol (en_codes E) pc wk d → serve E mem address r d = (Ok st, d') →
  protocol (en_codes E) pc wk d'.
Proof.
  intros [_ Hr] Hp Es. destruct r as [f v|f v|f v n errno]; cbn in Es.
  - destruct address as [s addr]. destruct (decide (s = asynSuccess)) as [->|Hs].
    + by eapply (keeps_writeInt32 _ (mem 0%nat) (en_pool E) (env_codes HE)).
    + unfold writeInt32 in Es. rewrite decide_True in Es by done. by injection Es as _ <-.
  - eapply protocol_same; [by eapply control_writeFloat64|done].
  - apply bind_Ok in Es as ([[st' e'] m] & d1 & E1 & [_ ->]%ret_Ok).
    apply control_writeOctet in E1; [|apply HE]. by eapply protocol_same.
Qed.

(** The protocol in a state of the system. *)
Definition in_protocol (x : system (L := L) (TS := TS)) : Prop :=
  protocol (en_codes E) (e_pc (sy_ev x)) (sy_evWoken x) (w_drv (sy_world x)).

Lemma step_protocol l (x y : system) : step E l x y → in_protocol x → in_protocol y.
Proof.
  unfold in_protocol. intros Hstep Hp.
  destruct Hstep as [sig w t f fw ke kf Hw|sig mem w t f fw ke kf t' w' _ Es
    |sig w t f ew ke kf Hw|sig w t f ew ke kf f' d' _ Es
    |address r mem w t f ew fw ke kf st d' _ _ Hr Es
    |pv ch secs nsecs w t f ew fw ke kf d' _ _ Es]; cbn in *.
  - by apply event_wait_protocol.
  - by eapply (event_step_protocol _ _ _ (en_pool E) (env_codes HE)).
  - eapply protocol_same; [|exact Hp]. by destruct (w_drv w), (f_pc f).
  - apply control_frame_step in Es. eapply protocol_same; [exact Es|]. by apply protocol_depth.
  - eapply serve_protocol; [done| |done]. by apply protocol_depth.
  - apply control_eventHandler in Es. eapply protocol_same; [exact Es|]. by apply protocol_depth.
Qed.

Lemma run_protocol (d : D) ls (x : system) :
  ad_status d ≠ ADStatusAcquire (en_codes E) → m_stopEvent d = false →
  run E ls (sys_new d) x → in_protocol x.
Proof.
  intros Hst Hstop Hrun.
  apply (run_invariant E in_protocol ls (sys_new d) x); [apply step_protocol|done|].
  split; cbn; [naive_solver|by rewrite Hstop|done].
Qed.

(** C36: the acquisition protocol.  Whatever the two tasks, the clients and the
    PVAccess thread do and in whichever order, the status is Acquire exactly while the
    event task is in its acquisition loop, and a stop is pending only in that loop or
    before the wait that discards it: when the event task waits for a start no stop is
    left over for the next acquisition.  (A second start can be pending inside an
    acquisition: C21.) *)
Theorem acquisition_protocol (d : D) (x : system) :
  ad_status d ≠ ADStatusAcquire (en_codes E) → m_stopEvent d = false →
  steps E (sys_new d) x →
  (ad_status (w_drv (sy_world x)) = ADStatusAcquire (en_codes E) ↔ e_pc (sy_ev x) = EvAcquire) ∧
  (m_stopEvent (w_drv (sy_world x)) = true →
     e_pc (sy_ev x) = EvAcquire ∨ (e_pc (sy_ev x) = EvCatchStop ∧ sy_evWoken x = None)).
Proof. intros ?? [ls Hrun]. by apply run_protocol in Hrun as []. Qed.
End protocol_runs.

(** ** What the tasks change *)

(** The integer parameters the tasks write, but for the status. *)
Definition task_writes (p : param) : bool :=
  match p with
  | ADAcquire | ADnEDStartParam | ADnEDStopParam | ADnEDEventRateParam
  | ADnEDDetEventRateParam | NDArrayCounter => true
  | _ => false
  end.

(** The values of the status they write. *)
Definition known_status (codes : ADStatus_t) (v : Z) : Prop :=
  v = ADStatusIdle codes ∨ v = ADStatusAcquire codes ∨ v = ADStatusError codes.

(** A relation that the writes of the tasks respect is respected by their steps. *)
Section task_frames.
Context {L TS : Type} {PL : ParamLib param L} {TL : TimeStampLib TS}.
Context (codes : ADStatus_t) (calloc_ok : Z → Z → bool) (net : network) (pool_alloc : Z → bool).
Local Abbreviation D := (driver L TS transform).
Context (R : D → D → Prop) `{!PreOrder R}.
Hypothesis on_int : ∀ a p v, task_writes p = true → stable R (setInt a p v).
Hypothesis on_status : ∀ v, known_status codes v → stable R (setInt 0 ADStatus v).
Hypothesis on_string : ∀ a p v, stable R (setString a p v).
Hypothesis on_depth : ∀ g s, R s (on_lockDepth g s).
Hypothesis on_start : ∀ g s, R s (on_m_startFrame g s).
Hypothesis on_stop : ∀ g s, R s (on_m_stopFrame g s).
Hypothesis on_alloc : stable R (allocArray calloc_ok).
Hypothesis on_clear : stable R clear_data.

Ltac task_leaf :=
  idtac; lazymatch goal with
  | |- stable _ (on_pva _) => apply stable_on_pva; exact _
  | |- stable _ (on_drv _) => apply stable_on_drv; unfold event_idle, read_names; stable_split task_leaf
  | |- stable _ (allocArray _) => apply on_alloc
  | |- stable _ clear_data => apply on_clear
  | |- stable _ (getInt _ _ _) => apply stable_pure; reflexivity
  | |- stable _ (getString _ _ _) => apply stable_pure; reflexivity
  | |- stable _ (setInt 0 ADStatus _) => apply on_status; unfold known_status; auto
  | |- stable _ (setInt _ _ _) => by apply on_int
  | |- stable _ (setString _ _ _) => apply on_string
  | |- stable _ lock => apply stable_modify; intros; apply on_depth
  | |- stable _ unlock => apply stable_modify; intros; apply on_depth
  | |- stable _ (modify (on_m_startFrame _)) => apply stable_modify; intros; apply on_start
  | |- stable _ (modify (on_m_stopFrame _)) => apply stable_modify; intros; apply on_stop
  end.

Lemma stable_connect_all n names : stable (on_world R) (connect_all codes net n names).
Proof.
  intros w error w' E. apply connect_all_cases in E. unfold on_world.
  destruct error; [|by rewrite E]. destruct E as (w1 & <- & E).
  apply (stable_run (on_world R) _ _ _ _ E). stable_split task_leaf.
Qed.

Lemma stable_event_step t sig : stable (on_world R) (event_step codes calloc_ok net t sig).
Proof.
  unfold event_step, event_setup, event_finish.
  stable_split ltac:(idtac; first [apply stable_connect_all | task_leaf]).
Qed.

Lemma stable_frame_step t sig : stable R (frame_step pool_alloc t sig).
Proof. unfold frame_step, publish_frame. stable_split task_leaf. Qed.
End task_frames.

(** ** The mutex *)

Section depth.
Context {L TS : Type} {PL : ParamLib param L} {DL : DriverLib L} {TL : TimeStampLib TS}.
Context {TR : Transformer transform} (codes : ADStatus_t) (calloc_ok : Z → Z → bool).
Context (net : network) (pool_alloc : Z → bool).
Local Abbreviation D := (driver L TS transform).
Local Abbreviation W := (world L TS transform).

Definition depth (w : W) : Z := lockDepth (w_drv w).

Definition same_lock (d d' : D) : Prop := lockDepth d' = lockDepth d.

#[local] Instance same_lock_preorder : PreOrder same_lock.
Proof. split; unfold same_lock; [by intros d|]. intros d1 d2 d3. congruence. Qed.

Local Abbreviation same_depth := (on_world (L := L) (TS := TS) same_lock).

Ltac depth_drv_leaf :=
  idtac; apply stable_pure; intros []; done.

Lemma depth_allocArray : stable same_lock (allocArray calloc_ok : M D _).
Proof.
  unfold allocArray, alloc_det, det_size, publish_pix, alloc_tof, alloc_buffer.
  stable_split depth_drv_leaf.
Qed.

Ltac depth_leaf :=
  idtac; lazymatch goal with
  | |- stable _ (on_pva _) => apply stable_on_pva; exact _
  | |- stable _ (on_drv (allocArray _)) => apply stable_on_drv, depth_allocArray
  | |- stable _ (on_drv _) => apply stable_on_drv; unfold read_names, clear_data;
      stable_split depth_drv_leaf
  end.

Lemma depth_run {A} (m : M W A) w a w' : m w = (Ok a, w') → stable same_depth m → depth w' = depth w.
Proof. intros E Hm. exact (stable_run same_depth _ _ _ _ E Hm). Qed.

Lemma depth_lock (w w' : W) u : on_drv lock w = (Ok u, w') → depth w' = depth w + 1.
Proof. intros [= _ <-]. unfold depth. cbn. by destruct (w_drv w). Qed.

Lemma depth_unlock (w w' : W) u : on_drv unlock w = (Ok u, w') → depth w' = depth w - 1.
Proof. intros [= _ <-]. unfold depth. cbn. by destruct (w_drv w). Qed.

Lemma depth_connect_all n names : stable same_depth (connect_all codes net n names : M W bool).
Proof.
  intros w error w' E. apply connect_all_cases in E. unfold on_world, same_lock.
  destruct error; [|by rewrite E]. destruct E as (w1 & <- & E).
  apply (depth_run _ _ _ _ E). stable_split depth_leaf.
Qed.

Lemma depth_event_setup n names :
  stable same_depth (event_setup codes calloc_ok net n names : M W _).
Proof.
  unfold event_setup. stable_split depth_leaf. apply depth_connect_all.
Qed.

Lemma depth_event_finish n (w w' : W) u :
  event_finish n w = (Ok u, w') → depth w' = depth w - 1.
Proof.
  unfold event_finish. intros ([] & w1 & E1 & E)%bind_Ok.
  apply bind_Ok in E as (k & w2 & E2 & E). apply bind_Ok in E as (? & w3 & E3 & E).
  apply bind_Ok in E as ([] & w4 & E4 & E). apply bind_Ok in E as (? & w5 & E5 & E).
  apply depth_unlock in E. apply depth_run in E1, E2, E3, E4, E5; [lia|stable_split depth_leaf..].
Qed.

(** A start that did not lead to an acquisition. *)
Definition failed_start (t t' : event_task) : bool :=
  bool_decide (e_pc t = EvWaitStart) && bool_decide (e_pc t' = EvCatchStop).

Lemma event_step_depth t sig (w w' : W) t' :
  (e_pc t = EvWaitStart → sig = true) →
  event_step codes calloc_ok net t sig w = (Ok t', w') →
  depth w' = depth w - (if failed_start t t' then 1 else 0).
Proof.
  intros Hwait E. unfold failed_start. destruct t as [pc error n names].
  destruct pc; cbn [event_step e_pc] in *.
  - apply bind_Ok in E as ([] & w1 & E & [_ ->]%ret_Ok). rewrite bool_decide_eq_false_2 by done.
    unfold event_idle in E. cbn [andb]. rewrite Z.sub_0_r.
    apply (depth_run _ _ _ _ E), stable_on_drv. intros d a d' Ed.
    apply bind_Ok in Ed as (? & d1 & [= _ <-] & Ed). apply bind_Ok in Ed as (? & d2 & [= _ <-] & Ed).
    apply bind_Ok in Ed as ([] & d3 & E3 & [= _ <-]).
    destruct error; [injection E3 as <-|apply bind_Ok in E3 as (? & ? & [= _ <-] & [= <-])];
      unfold same_lock; destruct d; cbn; lia.
  - rewrite (Hwait eq_refl) in E.
    apply bind_Ok in E as (r & w4 & Er & E).
    apply bind_Ok in Er as ([] & w1 & E1 & Er). apply bind_Ok in Er as (numChan & w2 & E2 & Er).
    apply bind_Ok in Er as ([error' names'] & w3 & E3 & [= <- <-]).
    apply bind_Ok in E as ([] & w5 & E5 & E). apply bind_Ok in E as (? & w6 & E6 & E).
    apply bind_Ok in E as ([] & w7 & E7 & E).
    apply depth_lock in E1. apply depth_unlock in E7.
    apply depth_run in E2, E3, E5, E6;
      [|stable_split depth_leaf|stable_split depth_leaf|apply depth_event_setup|stable_split depth_leaf].
    destruct error'; cbn [negb] in E.
    + apply bind_Ok in E as ([] & w8 & E8 & [-> ->]%ret_Ok). apply depth_event_finish in E8.
      rewrite !bool_decide_eq_true_2 by done. cbn. lia.
    + apply ret_Ok in E as [-> ->]. rewrite (bool_decide_eq_false_2 (_ = EvCatchStop)) by done.
      rewrite andb_false_r. lia.
  - rewrite bool_decide_eq_false_2 by done. cbn [andb]. destruct sig.
    + apply bind_Ok in E as ([] & w1 & E1 & E). apply bind_Ok in E as (? & w2 & E2 & E).
      apply bind_Ok in E as ([] & w3 & E3 & E). apply bind_Ok in E as ([] & w4 & E4 & [_ ->]%ret_Ok).
      apply depth_lock in E1. apply depth_event_finish in E4.
      apply depth_run in E2, E3; [lia|stable_split depth_leaf..].
    + apply ret_Ok in E as [_ ->]. lia.
Qed.

(** What a step of [frameTask] does in each of its waits. *)
Lemma frame_step_depth t sig (d d' : D) t' :
  frame_step pool_alloc t sig d = (Ok t', d') →
  lockDepth d' = lockDepth d + (Z.of_nat (length (f_frames t')) - Z.of_nat (length (f_frames t))).
Proof.
  unfold frame_step. destruct t as [pc c cb fs]. intros (? & d1 & [= _ <-] & E)%bind_Ok.
  apply bind_Ok in E as (r & d2 & Er & E). apply bind_Ok in E as (? & d3 & [= _ <-] & [-> ->]%ret_Ok).
  destruct pc, sig; cbn [f_pc] in Er;
    try (apply ret_Ok in Er as [-> ->]; destruct d; cbn; lia).
  apply bind_Ok in Er as (cb' & d3 & [= _ <-] & Er). case_decide.
  2:{ apply ret_Ok in Er as [-> ->]. destruct d; cbn; lia. }
  apply bind_Ok in Er as (c' & d3 & Ec & Er). unfold int_result in Ec. case_decide; [|done].
  apply ret_Ok in Ec as [-> ->]. apply bind_Ok in Er as (frame & d3 & Ep & Er).
  apply bind_Ok in Er as (? & d4 & [= _ <-] & [-> ->]%ret_Ok).
  unfold publish_frame in Ep. apply bind_Ok in Ep as (n & d5 & [= _ <-] & Ep).
  destruct (pool_alloc n); [|done]. apply bind_Ok in Ep as (? & d5 & [= _ <-] & Ep).
  apply bind_Ok in Ep as (p & d5 & [= _ <-] & Ep). apply bind_Ok in Ep as (data & d5 & [= _ <-] & Ep).
  apply bind_Ok in Ep as (fr & d5 & [= _ <-] & [-> ->]%ret_Ok).
  cbn [f_frames]. rewrite length_app. destruct d; cbn. lia.
Qed.

(** C37: publishing an array.  When the wait of an acquisition ends without a stop,
    callbacks are on, the pool has an array and the buffer has its declared size, the
    frame task publishes exactly the words of the buffer under the next identifier,
    stores that identifier in NDArrayCounter, changes no word of the buffer and goes
    on waiting. *)
Theorem frame_publishes t (d : D) data :
  f_pc t = FrRun → getIntegerParam (params d) 0 NDArrayCallbacks (f_arrayCallbacks t) ≠ 0 →
  is_i32 (f_arrayCounter t + 1) → pool_alloc (m_bufferMaxSize d) = true →
  p_Data d = Some data → Z.of_nat (length data) = m_bufferMaxSize d →
  ∃ d', frame_step pool_alloc t false d
    = (Ok (FrameTask FrRun (f_arrayCounter t + 1)
             (getIntegerParam (params d) 0 NDArrayCallbacks (f_arrayCallbacks t))
             (f_frames t ++ [(f_arrayCounter t + 1, data)])), d') ∧
    p_Data d' = Some data ∧ getIntegerParam (params d') 0 NDArrayCounter 0 = f_arrayCounter t + 1.
Proof.
  intros Hpc Hcb Hc Hpool Hdata Hlen. unfold frame_step. rewrite Hpc.
  destruct d; cbn in *. subst p_Data. unfold mbind, M_bind, gets, getInt, modify. cbn.
  rewrite decide_True by done. unfold int_result. rewrite (decide_True _ _ Hc). cbn.
  unfold publish_frame, mbind, M_bind, gets, checked, lift. cbn. rewrite Hpool. cbn.
  unfold memcpy_from. rewrite <-Hlen, Nat2Z.id, firstn_all. rewrite decide_True by lia. cbn.
  eexists. split; [done|]. cbn. split; [done|].
  by rewrite driver_get_set_int, decide_True by done.
Qed.

End depth.

Section depth_runs.
Context {L TS : Type} {PL : ParamLib param L} {DL : DriverLib L} {TL : TimeStampLib TS}.
Context {TR : Transformer transform} (E : environment L).
Local Abbreviation D := (driver L TS transform).

Lemma depth_at k (d : D) : lockDepth (at_depth k d) = k.
Proof. by destruct d. Qed.

(** The steps that go on while the frame task keeps the mutex: its own, the end of a wait
    of the event task, which changes its event only, and a poll of its acquisition loop
    that ends without a stop, which changes nothing. *)
Definition idle_beside (l : label (TS := TS)) (x y : system (L := L) (TS := TS)) : Prop :=
  match l with
  | LFrameWait _ | LFrame _ => True
  | LEventWait _ =>
      sy_ev y = sy_ev x ∧
      w_drv (sy_world y) = event_waited (e_pc (sy_ev x)) (w_drv (sy_world x))
  | LEvent sig _ =>
      e_pc (sy_ev x) = EvAcquire ∧ sig = false ∧ sy_ev y = sy_ev x ∧
      w_drv (sy_world y) = at_depth (sy_evDepth x) (w_drv (sy_world x))
  | LClient _ _ _ _ | LMonitor _ _ _ _ => False
  end.

(** How often each task holds the mutex, over one step of the system. *)
Lemma step_depths l (x y : system) :
  step E l x y →
  (e_pc (sy_ev x) = EvWaitStart → sy_evWoken x ≠ Some false) →
  sy_evDepth y = sy_evDepth x - (if failed_start (sy_ev x) (sy_ev y) then 1 else 0) ∧
  sy_frDepth y = sy_frDepth x
    + (Z.of_nat (length (f_frames (sy_fr y))) - Z.of_nat (length (f_frames (sy_fr x)))) ∧
  (0 < sy_frDepth x → idle_beside l x y).
Proof.
  assert (∀ t, failed_start t t = false) as Hself.
  { intros []. unfold failed_start. cbn. by destruct e_pc. }
  destruct 1 as [sig w t f fw ke kf Hw|sig mem w t f fw ke kf t' w' Hk Es
    |sig w t f ew ke kf Hw|sig w t f ew ke kf f' d' Hk Es
    |address r mem w t f ew fw ke kf st d' Hk1 Hk2 Hr Es
    |pv ch secs nsecs w t f ew fw ke kf d' Hk1 Hk2 Es]; cbn; intros Hwoken; rewrite ?Hself.
  - split_and!; [lia|lia|done].
  - pose proof Es as Ed. apply event_step_depth in Ed; [|intros Hpc; by destruct sig; [|destruct Hwoken]].
    unfold depth in Ed. rewrite Ed. cbn. rewrite depth_at. split_and!; [lia|lia|]. intros Hkf.
    destruct (e_pc t) eqn:Hpc; cbn in Hk; [specialize (Hk eq_refl); lia..|].
    destruct sig; [specialize (Hk eq_refl); lia|]. unfold event_step in Es. rewrite Hpc in Es.
    by injection Es as <- <-.
  - split_and!; [lia|lia|done].
  - apply frame_step_depth in Es. rewrite Es, depth_at. split_and!; [lia|done|done].
  - split_and!; lia.
  - split_and!; lia.
Qed.

(** The wait for a start has no timeout. *)
Lemma step_woken l (x y : system) :
  step E l x y → (e_pc (sy_ev x) = EvWaitStart → sy_evWoken x ≠ Some false) →
  e_pc (sy_ev y) = EvWaitStart → sy_evWoken y ≠ Some false.
Proof.
  destruct 1 as [sig w t f fw ke kf Hw| | | | |]; cbn; try done.
  intros _ Hpc. rewrite Hpc in Hw. destruct Hw as [_ ->]. done.
Qed.

(** C38: the mutex over a whole run.  In every state the driver can reach, the frame
    task still holds the mutex once for every array it has published.  After the first
    array no client and no PVAccess thread runs again: every further step is one of the
    frame task, or the event task waits: a wait ends and clears its event, or a poll of
    the acquisition loop ends without a stop and changes nothing.  The event task holds
    the mutex between two waits only, except that every start that fails releases it
    once too often. *)
Theorem mutex_depths (d : D) (x y : system) l :
  steps E (sys_new d) x → step E l x y →
  sy_frDepth x = Z.of_nat (length (f_frames (sy_fr x))) ∧
  (f_frames (sy_fr x) ≠ [] → idle_beside l x y) ∧
  sy_evDepth x <= 0 ∧
  sy_evDepth y = sy_evDepth x - (if failed_start (sy_ev x) (sy_ev y) then 1 else 0).
Proof.
  intros [ls Hrun] Hl.
  assert (sy_frDepth x = Z.of_nat (length (f_frames (sy_fr x))) ∧ sy_evDepth x <= 0 ∧
    (e_pc (sy_ev x) = EvWaitStart → sy_evWoken x ≠ Some false)) as (Hfr & Hev & Hwoken).
  { refine (run_invariant E (λ x, sy_frDepth x = Z.of_nat (length (f_frames (sy_fr x))) ∧
      sy_evDepth x <= 0 ∧ (e_pc (sy_ev x) = EvWaitStart → sy_evWoken x ≠ Some false)) ls _ x _ Hrun _);
      [|by split].
    intros l' x0 y0 Hstep (IH1 & IH2 & IH3).
    destruct (step_depths _ _ _ Hstep IH3) as (E1 & E2 & _). rewrite E1, E2, IH1.
    split; [lia|]. split; [destruct (failed_start _ _); lia|by eapply step_woken]. }
  destruct (step_depths _ _ _ Hl Hwoken) as (H1 & H2 & H3). split_and!; try done.
  intros Hne. apply H3. rewrite Hfr. destruct (f_frames _); [done|cbn; lia].
Qed.
End depth_runs.

(** ** Concrete runs *)

(** An idle driver with one channel and array callbacks on. *)
Definition sample_idle : sample_driver :=
  on_params (λ l, (setStringParam (set_ints l [(0, ADnEDNumChannelsParam, 1); (0, NDArrayCallbacks, 1)])
    0 ADnEDPVNameParam "BL1:A").2) (in_state 0 sample_ready).

(** A client starts an acquisition, both tasks see the start, an array is published. *)
Definition sample_labels : list (label (TS := stamp)) :=
  [LEventWait false; LEvent false memory_always;
   LClient (asynSuccess, 0) (WriteInt32 ADnEDStartParam 1) memory_always asynSuccess;
   LEventWait true; LEvent true memory_always;
   LFrameWait false; LFrame false; LFrameWait true; LFrame true; LFrameWait false; LFrame false;
   LEventWait false].

Definition sample_pool (n : Z) : bool := true.

Definition sample_env : environment (map_lib param) :=
  Environment sample_codes (sample_net true) sample_pool sample_fs sample_strtod
    sample_base.

Lemma sample_env_ok : env_ok sample_env.
Proof.
  split; [by split_and!|]. split; intros.
  - by apply get_int_set_string_typed.
  - by apply get_double_set_string_typed.
Qed.

Definition sample_run (n : nat) : system :=
  default (sys_new sample_idle)
    (exec_all sample_env (take n sample_labels) (sys_new sample_idle)).

Lemma sample_run_run n :
  (n <= 12)%nat → run sample_env (take n sample_labels) (sys_new sample_idle) (sample_run n).
Proof.
  intros Hn. apply exec_all_run.
  assert (is_Some (exec_all sample_env (take n sample_labels) (sys_new sample_idle))) as [x Hx].
  { apply (bool_decide_unpack _).
    do 13 (destruct n as [|n]; [vm_compute; exact I|]). lia. }
  unfold sample_run. by rewrite Hx.
Qed.

Lemma sample_run_steps n : (n <= 12)%nat → steps sample_env (sys_new sample_idle) (sample_run n).
Proof. intros Hn. eexists. by apply sample_run_run. Qed.

Lemma acquisition_protocol_witness :
  let x := sample_run 11 in
  e_pc (sy_ev x) = EvAcquire ∧
  (ad_status (w_drv (sy_world x)) = ADStatusAcquire sample_codes ↔ e_pc (sy_ev x) = EvAcquire) ∧
  (m_stopEvent (w_drv (sy_world x)) = true →
     e_pc (sy_ev x) = EvAcquire ∨ (e_pc (sy_ev x) = EvCatchStop ∧ sy_evWoken x = None)).
Proof.
  split; [vm_compute; reflexivity|].
  apply (acquisition_protocol sample_env sample_env_ok sample_idle (sample_run 11));
    [by vm_compute|by vm_compute|].
  apply sample_run_steps. lia.
Defined.

(** The frame task after the start, and the driver it then sees. *)
Definition sample_frame : frame_task := FrameTask FrRun 0 0 [].

Definition sample_buffer : sample_driver :=
  on_params (λ l, set_ints l [(0, NDArrayCallbacks, 1)]) sample_alloc.

Lemma frame_publishes_witness :
  ∃ d', frame_step sample_pool sample_frame false sample_buffer
    = (Ok (FrameTask FrRun 1 (getIntegerParam (params sample_buffer) 0 NDArrayCallbacks 0)
             [(1, replicate 18 0)]), d') ∧
    p_Data d' = Some (replicate 18 0) ∧ getIntegerParam (params d') 0 NDArrayCounter 0 = 1.
Proof.
  apply (frame_publishes sample_pool sample_frame sample_buffer (replicate 18 0));
    [reflexivity|by vm_compute|by vm_compute|reflexivity|by vm_compute..].
Defined.

(** The poll of the event task after the first array. *)
Lemma mutex_depths_witness :
  let x := sample_run 12 in
  let l := LEvent (TS := stamp) false memory_always in
  let y := default x (exec sample_env l x) in
  f_frames (sy_fr x) = [(1, replicate 18 0)] ∧
  sy_frDepth x = Z.of_nat (length (f_frames (sy_fr x))) ∧
  (f_frames (sy_fr x) ≠ [] → idle_beside l x y) ∧
  sy_evDepth x <= 0 ∧
  sy_evDepth y = sy_evDepth x - (if failed_start (sy_ev x) (sy_ev y) then 1 else 0).
Proof.
  intros x l y. split; [vm_compute; reflexivity|].
  apply (mutex_depths sample_env sample_idle x y l); [apply sample_run_steps; lia|].
  apply exec_step. by vm_compute.
Defined.
