(* ===== verification/Init.v ===== *)
(** * The constructor

    Proves that the constructor of the driver ([ADnED_members] and [ctor_params] of
    Driver.v) sets every parameter it means to and leaves a state from which the
    invariants of the other files hold. *)

From stdpp Require Import base numbers list option strings.
From S2P Require Import Prelude Float64 Params Transform Driver Sample Alloc Ops Write.
From S2P Require Import WriteTheorems Event Channel Tasks TaskTheorems.

Local Open Scope Z_scope.

Section writes.
Context {L TS T : Type} {PL : ParamLib param L} {DL : DriverLib L} {TL : TimeStampLib TS}.
Local Abbreviation D := (driver L TS T).

(** Writes that keep the value of a parameter, and writes that set it. *)
Definition keeps_value (a : Z) (p : param) (v : Z) (d d' : D) : Prop :=
  int_is (params d) a p v → int_is (params d') a p v.

#[local] Instance keeps_value_preorder a p v : PreOrder (keeps_value a p v).
Proof. split; unfold keeps_value; [by intros d|]. intros d1 d2 d3. auto. Qed.

Lemma keeps_setInt a p v a' p' v' :
  0 <= a' <= ADNED_MAX_DETS → adned_param_type p' = Some asynParamInt32 → (p' = p → v' = v) →
  stable (keeps_value a p v) (setInt a' p' v' : M D _).
Proof.
  intros Ha Hp Hv s x s' [= _ <-] Hs old. destruct s; cbn in *.
  rewrite driver_get_set_int by done. case_decide; [naive_solver|]. apply Hs.
Qed.

Lemma keeps_setDouble a p v a' p' v' :
  p' ≠ p → stable (keeps_value a p v) (setDouble a' p' v' : M D _).
Proof.
  intros Hp s x s' [= _ <-] Hs old. destruct s; cbn in *.
  rewrite get_int_set_double by congruence. apply Hs.
Qed.

Lemma keeps_setString a p v a' p' v' :
  p' ≠ p → stable (keeps_value a p v) (setString a' p' v' : M D _).
Proof.
  intros Hp s x s' [= _ <-] Hs old. destruct s; cbn in *.
  rewrite get_int_set_string by congruence. apply Hs.
Qed.

(** A parameter that a list of writes sets, and to one value only, has that value
    in the end. *)
Lemma set_all_value ws a p v (d d' : D) b :
  0 <= a <= ADNED_MAX_DETS → adned_param_type p = Some asynParamInt32 →
  Forall accepted ws → setInt a p v ∈ ws → Forall (stable (keeps_value a p v)) ws →
  set_all ws d = (Ok b, d') → int_is (params d') a p v.
Proof.
  intros Ha Hp Hacc. revert d. induction Hacc as [|w ws Hw Hacc IH]; intros d Hin Hall.
  { by apply elem_of_nil in Hin. }
  apply Forall_cons in Hall as [_ Hall]. destruct (Hw d) as [l El]. rewrite (set_all_cons _ _ _ _ El).
  apply elem_of_cons in Hin as [<-|Hin]; [|by apply IH].
  intros E. apply (stable_set_all (keeps_value a p v)) in E; [|done]. apply E. intros old.
  injection El as _ <-. destruct d; cbn. by rewrite driver_get_set_int, decide_True.
Qed.

Lemma accepted_setString a p v :
  0 <= a <= ADNED_MAX_DETS → adned_param_type p = Some asynParamOctet →
  accepted (setString a p v : M D _).
Proof.
  intros Ha Hp s. exists (snd (setStringParam (params s) a p v)). unfold setString.
  rewrite setStringParam_success by (done || by apply driver_valid_addr). by destruct s.
Qed.
End writes.

(** [each_write leaf] proves a property of every write of a list. *)
Ltac each_write leaf :=
  repeat first [apply Forall_nil_2 | apply Forall_cons_2; [leaf|]].

Section ctor.
Context {L TS T : Type} {PL : ParamLib param L} {DL : DriverLib L} {TL : TimeStampLib TS}.
Local Abbreviation D := (driver L TS T).


(** Takes the writes of the constructor apart. *)
Ltac ctor_split leaf :=
  unfold ctor_writes, ADNED_MAX_DETS; apply Forall_app_2; [each_write leaf|apply Forall_app_2];
  [|each_write leaf];
  apply Forall_concat, Forall_fmap, Forall_forall; intros det Hdet%elem_of_seqZ; cbn; each_write leaf.

Lemma ctor_accepted : Forall accepted (ctor_writes : list (M D asynStatus)).
Proof.
  ctor_split ltac:(idtac;
    first [apply accepted_setInt|apply accepted_setDouble|apply accepted_setString];
    [unfold ADNED_MAX_DETS; lia|done]).
Qed.

(** The integer parameters of the configuration, and their first values. *)
Definition ctor_value (p : param) : option Z :=
  match p with
  | ADnEDNumDetParam | ADnEDNumChannelsParam | ADnEDTOFMaxParam | ADnEDDetPixelROISizeXParam
  | ADnEDDetTOFROIEnableParam | ADnEDDetPixelROIEnableParam | ADnEDDetPixelMapEnableParam
  | ADnEDDetTOFTransTypeParam => Some 0
  | ADnEDDetPixelSizeXParam => Some 1
  | _ => None
  end.

Lemma ctor_keeps a p v :
  ctor_value p = Some v → Forall (stable (keeps_value a p v)) (ctor_writes : list (M D asynStatus)).
Proof.
  intros Hp. ctor_split ltac:(idtac; first
    [ apply keeps_setInt; [unfold ADNED_MAX_DETS; lia|done|intros <-; cbn in Hp; congruence]
    | apply keeps_setDouble; by intros <- | apply keeps_setString; by intros <-]).
Qed.

(** The parameters that exist once, at address 0. *)
Definition ctor_global (p : param) : bool :=
  match p with ADnEDNumDetParam | ADnEDNumChannelsParam | ADnEDTOFMaxParam => true | _ => false end.

Ltac find_write := repeat first [by left | right].

Lemma elem_of_turn a w :
  0 <= a <= ADNED_MAX_DETS → w ∈ (ctor_det_params a : list (M D asynStatus)) →
  w ∈ concat (ctor_det_params <$> seqZ 0 (ADNED_MAX_DETS + 1)).
Proof.
  intros Ha Hw. apply list_elem_of_In, in_concat. exists (ctor_det_params a).
  split; [|by apply list_elem_of_In]. apply list_elem_of_In, list_elem_of_fmap. exists a.
  split; [done|]. apply elem_of_seqZ. lia.
Qed.

Lemma ctor_sets a p v :
  ctor_value p = Some v → 0 <= a <= ADNED_MAX_DETS → (ctor_global p = true → a = 0) →
  setInt a p v ∈ (ctor_writes : list (M D asynStatus)).
Proof.
  intros Hp Ha Hg. unfold ctor_writes. rewrite !elem_of_app.
  destruct p; try discriminate Hp; injection Hp as <-;
    try (rewrite Hg by done; first [left; find_write; fail|right; right; find_write; fail]);
    (right; left; apply (elem_of_turn a); [done|find_write]).
Qed.
End ctor.

Section constructor.
Context {L TS : Type} {PL : ParamLib param L} {DL : DriverLib L} {TL : TimeStampLib TS}.
Local Abbreviation D := (driver L TS transform).

Lemma ctor_run (d : D) :
  ∃ l, ctor_params d = (Ok true, on_params (λ _, l) d) ∧
    ∀ a p v, ctor_value p = Some v → 0 <= a <= ADNED_MAX_DETS → (ctor_global p = true → a = 0) →
      int_is l a p v.
Proof.
  destruct (set_all_accepted ctor_writes d ctor_accepted) as [l El]. exists l. split; [done|].
  intros a p v Hp Ha Hg.
  pose proof (set_all_value ctor_writes a p v d _ true Ha ltac:(by destruct p) ctor_accepted
    (ctor_sets a p v Hp Ha Hg) (ctor_keeps a p v Hp) El) as Hv.
  by destruct d.
Qed.

Lemma members_tables (l : L) ts0 events0 det_events0 t :
  let d := ADnED_members l ts0 events0 det_events0 t : D in tables_ok d ∧ pixel_maps_ok d.
Proof.
  split; [by split|]. split_and!; [done..|]. intros det m Hm _. exfalso. cbn in Hm. unfold rd in Hm.
  case_decide; [|done]. apply list_elem_of_lookup_2, elem_of_replicate in Hm. naive_solver.
Qed.

(** The state after the constructor. *)
Lemma constructor_run (l : L) ts0 events0 det_events0 t :
  ∃ d, ctor_params (ADnED_members l ts0 events0 det_events0 t : D) = (Ok true, d) ∧
    (∀ a p v, ctor_value p = Some v → 0 <= a <= ADNED_MAX_DETS → (ctor_global p = true → a = 0) →
       int_is (params d) a p v) ∧
    tables_ok d ∧ pixel_maps_ok d ∧ config_ok (params d) ∧ p_Data d = None ∧ m_dataAlloc d = true ∧
    m_startEvent d = false ∧ m_stopEvent d = false.
Proof.
  destruct (ctor_run (ADnED_members l ts0 events0 det_events0 t)) as (l' & El & Hv).
  exists (on_params (λ _, l') (ADnED_members l ts0 events0 det_events0 t)).
  destruct (members_tables l' ts0 events0 det_events0 t) as [Htab Hmaps].
  assert (0 <= 0 <= ADNED_MAX_DETS ∧ 0 <= ADNED_MAX_CHANNELS) as [H0 Hmax]
    by (unfold ADNED_MAX_DETS, ADNED_MAX_CHANNELS; lia).
  split_and!; [done..| |done|done|done|done]. split; cbn.
  - rewrite (Hv 0 ADnEDNumDetParam 0 eq_refl H0 (λ _, eq_refl)). apply H0.
  - rewrite (Hv 0 ADnEDNumChannelsParam 0 eq_refl H0 (λ _, eq_refl)). apply Hmax.
  - intros det Hdet. by rewrite (Hv det ADnEDDetPixelROISizeXParam 0).
  - intros det Hdet. rewrite (Hv det ADnEDDetTOFROIEnableParam 0) by done. by intros [? _].
Qed.

(** C40: the constructor.  Whatever the parameter library and the two members that
    are not initialised held before, every write of the constructor succeeds, the
    configuration starts from its documented values, and all invariants hold: the tables
    have their sizes, no pixel map and no buffer is in use, the configuration is valid,
    no event is pending; every layout is still to be computed, so the first
    [allocArray] allocates. *)
Theorem constructor_establishes (l : L) ts0 events0 det_events0 t :
  ∃ d, ctor_params (ADnED_members l ts0 events0 det_events0 t : D) = (Ok true, d) ∧
    (∀ a p v, ctor_value p = Some v → 0 <= a <= ADNED_MAX_DETS → (ctor_global p = true → a = 0) →
       int_is (params d) a p v) ∧
    tables_ok d ∧ pixel_maps_ok d ∧ config_ok (params d) ∧ p_Data d = None ∧ m_dataAlloc d = true ∧
    m_startEvent d = false ∧ m_stopEvent d = false.
Proof. apply constructor_run. Qed.
End constructor.

(** The constructor over the association lists. *)
Lemma constructor_establishes_witness :
  ∃ d : sample_driver, ctor_params sample_new = (Ok true, d) ∧
    (∀ a p v, ctor_value p = Some v → 0 <= a <= ADNED_MAX_DETS → (ctor_global p = true → a = 0) →
       int_is (params d) a p v) ∧
    tables_ok d ∧ pixel_maps_ok d ∧ config_ok (params d) ∧ p_Data d = None ∧ m_dataAlloc d = true ∧
    m_startEvent d = false ∧ m_stopEvent d = false.
Proof.
  apply (constructor_establishes map_lib_empty (Stamp 0 0 0) 0 (replicate n_dets1 0)
    ADnEDTransformBase).
Defined.
