(* ===== verification/Invariant.v ===== *)
(** * The invariant of the driver

    The tables of the driver keep their sizes, every 32-bit member holds a 32-bit
    word, the recorded sizes are those of the blocks they describe, and the objects
    for the transformations are consistent.  Every operation keeps this, so it holds
    in every state of the whole driver that can be reached from the constructor. *)

From stdpp Require Import base numbers list option strings.
From Stdlib Require Import Ascii.
From S2P Require Import Prelude Float64 Params Transform File FileTheorems Driver Sample Alloc.
From S2P Require Import Ops Write WriteTheorems Event Monitor Channel Tasks System TaskTheorems.
From S2P Require Import Init.

Local Open Scope Z_scope.

(** A table of [n] words. *)
Definition words (n : nat) (l : list Z) : Prop := length l = n ∧ Forall is_u32 l.

Create HintDb memory.

Lemma words_upd n l i x : words n l → is_u32 x → words n (upd l i x).
Proof. intros [Hl Hw] Hx. split; [by rewrite length_upd|]. by apply Forall_insert. Qed.

Lemma words_alter n l i f : words n l → (∀ x, is_u32 (f x)) → words n (alter f i l).
Proof. intros [Hl Hw] Hf. split; [by rewrite length_alter|]. apply Forall_alter; auto. Qed.

Lemma words_replicate n x : is_u32 x → words n (replicate n x).
Proof. intros Hx. split; [apply length_replicate|]. by apply Forall_replicate. Qed.

Lemma is_u32_0 : is_u32 0.
Proof. done. Qed.

Lemma words_default n l i : words n l → is_u32 (default 0 (rd l i)).
Proof.
  intros [_ Hw]. unfold rd. case_decide; [|done]. destruct (l !! _) eqn:E; [|done].
  by apply (Forall_lookup_1 _ _ _ _ Hw) in E.
Qed.

Lemma zero_words_words n l start k l' :
  zero_words l start k = Some l' → words n l → words n l'.
Proof.
  unfold zero_words. case_decide as Hc; [|done]. intros [= <-] [Hl Hw]. split.
  - rewrite !length_app, length_take, length_replicate, length_drop. lia.
  - apply Forall_app; split; [by apply Forall_take|].
    apply Forall_app; split; [by apply Forall_replicate|by apply Forall_drop].
Qed.

#[export] Hint Resolve words_upd words_alter is_u32_0 words_default u32_range : memory.
#[export] Hint Extern 1 (length (upd _ _ _) = _) => rewrite length_upd : memory.
#[export] Hint Extern 1 (length (alter _ _ _) = _) => rewrite length_alter : memory.

(** The pointers to the transformation objects: only the one at index 0 is not set. *)
Definition transforms_ok (l : list (option transform)) : Prop :=
  length l = n_dets1 ∧
  ∀ det o, rd l det = Some o → match o with None => det = 0 | Some t => transform_wf t end.

Ltac memory_fields :=
  split; unfold pixel_maps_ok in *; cbn in *; auto with memory; try done.

Section memory.
Context {L TS : Type} {PL : ParamLib param L} {DL : DriverLib L} {TL : TimeStampLib TS}.
Local Abbreviation D := (driver L TS transform).

Record memory_ok (s : D) : Prop := {
  mo_seqCounter : words n_channels (m_seqCounter s);
  mo_seqID : words n_channels (m_seqID s);
  mo_lastSeqID : words n_channels (m_lastSeqID s);
  mo_TimeStamp : length (m_TimeStamp s) = n_channels;
  mo_TimeStampLast : length (m_TimeStampLast s) = n_channels;
  mo_det : length (m_det s) = n_dets1;
  mo_events : words n_dets1 (m_detEventsSinceLastUpdate s);
  mo_total : length (m_detTotalEvents s) = n_dets1;
  mo_pulse : is_u32 (m_pulseCounter s);
  mo_dataMax : is_u32 (m_dataMaxSize s);
  mo_bufferMax : is_u32 (m_bufferMaxSize s);
  mo_tofMax : is_u32 (m_tofMax s);
  mo_allEvents : is_u32 (m_eventsSinceLastUpdate s);
  mo_data data : p_Data s = Some data → words (Z.to_nat (m_bufferMaxSize s)) data;
  mo_maps : pixel_maps_ok s;
  mo_mapSizes : Forall is_u32 (m_PixelMapSize s);
  mo_mapWords det m : rd (p_PixelMap s) det = Some (Some m) → Forall is_u32 m;
  mo_transforms : transforms_ok (p_Transform s)
}.

Definition keeps_memory (s s' : D) : Prop := memory_ok s → memory_ok s'.

#[global] Instance keeps_memory_preorder : PreOrder keeps_memory.
Proof. split; unfold keeps_memory; [by intros s|]. intros s1 s2 s3. auto. Qed.

(** Members of no concern here. *)
Definition same_memory (s s' : D) : Prop :=
  ∃ l depth q now last alloc e1 e2 e3 e4,
    s' = on_params (λ _, l) (on_lockDepth (λ _, depth) (on_m_pChargeInt (λ _, q)
      (on_m_nowTimeSecs (λ _, now) (on_m_lastTimeSecs (λ _, last) (on_m_dataAlloc (λ _, alloc)
        (on_m_startEvent (λ _, e1) (on_m_stopEvent (λ _, e2) (on_m_startFrame (λ _, e3)
          (on_m_stopFrame (λ _, e4) s))))))))).

Lemma same_memory_keeps s s' : same_memory s s' → keeps_memory s s'.
Proof.
  intros (l & k & q & now & last & al & e1 & e2 & e3 & e4 & ->) []. destruct s. memory_fields.
Qed.

Lemma memory_other {A} (m : M D A) : (∀ s, same_memory s (m s).2) → stable keeps_memory m.
Proof. intros Hm. apply stable_pure. intros s. apply same_memory_keeps, Hm. Qed.
End memory.

Ltac memory_member :=
  apply stable_modify; intros s Hs; destruct Hs, s; memory_fields.

Ltac memory_leaf :=
  idtac; lazymatch goal with
  | |- stable _ (set_all _) => apply stable_set_all; [exact _|];
      repeat first [apply Forall_nil_2 | apply Forall_cons_2; [memory_leaf|]]
  | |- stable _ (getInt _ _ _) => apply stable_pure; reflexivity
  | |- stable _ (getDouble _ _ _) => apply stable_pure; reflexivity
  | |- stable _ (getString _ _ _) => apply stable_pure; reflexivity
  | |- stable _ (setInt _ _ _) => apply memory_other; intros []; by repeat eexists
  | |- stable _ (setDouble _ _ _) => apply memory_other; intros []; by repeat eexists
  | |- stable _ (setString _ _ _) => apply memory_other; intros []; by repeat eexists
  | |- stable _ lock => apply memory_other; intros []; by repeat eexists
  | |- stable _ unlock => apply memory_other; intros []; by repeat eexists
  | |- stable _ (modify _) => first
      [ apply memory_other; intros []; by repeat eexists
      | solve [memory_member] ]
  end.

Ltac memory_split := stable_split memory_leaf.

(** ** The shared operations *)

Section operations.
Context {L TS : Type} {PL : ParamLib param L} {DL : DriverLib L} {TL : TimeStampLib TS}.
Context (codes : ADStatus_t) (calloc_ok : Z → Z → bool).
Local Abbreviation D := (driver L TS transform).

(** A new buffer contents of the same length. *)
Lemma memory_data (s : D) data l' :
  p_Data s = Some data → (∀ n, words n data → words n l') →
  keeps_memory s (on_p_Data (λ _, Some l') s).
Proof.
  intros Hd Hl []. destruct s; cbn in *. subst. memory_fields. intros d [= <-]. auto.
Qed.

Lemma memory_clear_data : stable keeps_memory (clear_data : M D ()).
Proof.
  intros s u s'. unfold clear_data, mbind, M_bind, gets, checked, lift, modify.
  destruct (p_Data s) as [l|] eqn:E; cbn; [|by intros [= _ <-]].
  destruct (zero_words _ _ _) as [l'|] eqn:Ez; [|done]. cbn. intros [= _ <-].
  eapply memory_data; [done|]. intros n. by eapply zero_words_words.
Qed.

Lemma memory_resetTOFArray det : stable keeps_memory (resetTOFArray det : M D ()).
Proof.
  intros s u s'. unfold resetTOFArray, getInt, mbind, M_bind, gets, checked, lift, modify. cbn.
  case_decide; [|by intros [= _ <-]].
  destruct (p_Data s) as [l|] eqn:E; cbn; [|by intros [= _ <-]].
  case_decide; [|by intros [= _ <-]].
  destruct (zero_words _ _ _) as [l'|] eqn:Ez; [|done]. cbn. intros [= _ <-].
  eapply memory_data; [done|]. intros n. by eapply zero_words_words.
Qed.

Lemma memory_clearParams : stable keeps_memory (clearParams : M D _).
Proof.
  unfold clearParams, clear_channel, clear_det.
  stable_split ltac:(idtac; first [apply memory_clear_data | memory_leaf]).
Qed.

Lemma memory_alloc_buffer n : stable keeps_memory (alloc_buffer calloc_ok n : M D _).
Proof.
  unfold alloc_buffer. apply stable_bind; [exact _|memory_split|]. intros [].
  apply stable_bind; [exact _|memory_split|]. intros m.
  apply stable_bind; [exact _|case_decide; [|memory_split]|memory_split].
  intros s st s'. unfold mbind, M_bind, modify. intros [= _ <-] []. destruct s.
  memory_fields. intros data. destruct (calloc_ok _ _); [|done].
  intros [= <-]. by apply words_replicate.
Qed.

Lemma memory_allocArray : stable keeps_memory (allocArray calloc_ok : M D _).
Proof.
  unfold allocArray, alloc_det, det_size, publish_pix, alloc_tof.
  stable_split ltac:(idtac; first [apply memory_alloc_buffer | memory_leaf]).
Qed.
End operations.

(** ** The write handlers *)

Section writes.
Context {L TS : Type} {PL : ParamLib param L} {DL : DriverLib L} {TL : TimeStampLib TS}.
Context (codes : ADStatus_t) (calloc_ok : Z → Z → bool).
Local Abbreviation D := (driver L TS transform).

(** What a call of a transformation object keeps. *)
Definition keeps_transform (t t' : transform) : Prop := transform_wf t → transform_wf t'.

#[local] Instance keeps_transform_preorder : PreOrder keeps_transform.
Proof. split; unfold keeps_transform; [by intros t|]. intros t1 t2 t3. auto. Qed.

Ltac transform_leaf :=
  idtac; apply stable_modify; intros t []; split; cbn; rewrite ?length_upd; done.

Lemma keeps_setIntParam i v : stable keeps_transform (setIntParam i v).
Proof. unfold setIntParam. stable_split transform_leaf. Qed.

Lemma keeps_setTransDoubleParam i v : stable keeps_transform (setTransDoubleParam i v).
Proof. unfold setTransDoubleParam. stable_split transform_leaf. Qed.

Lemma keeps_setDebug b : stable keeps_transform (setDebug b).
Proof. unfold setDebug. stable_split transform_leaf. Qed.

Lemma keeps_printParams : stable keeps_transform printParams.
Proof. intros t a t' Es. apply printParams_same in Es as ->. by intros ?. Qed.

Lemma keeps_setDoubleArray i src n : stable keeps_transform (setDoubleArray calloc_ok i src n).
Proof.
  intros t st t' E Hwf. unfold setDoubleArray in E.
  destruct (bad_index i) eqn:Hi; [by injection E as _ <-|].
  destruct (bool_decide (n <= 0)) eqn:Hn; [by injection E as _ <-|].
  apply bool_decide_eq_false in Hn.
  destruct src as [src|]; [|by injection E as _ <-].
  unfold mbind, M_bind, modify, checked, lift in E. cbn in E.
  destruct (calloc_ok n 8) eqn:Hc; [|done]. cbn in E. unfold memcpy_from in E.
  case_decide as Hlen; [|done]. cbn in E.
  apply bad_index_false in Hi.
  pose proof (setDoubleArray_wf calloc_ok i src n t Hwf ltac:(lia) Hc) as Hw.
  unfold wp_ok, wp in Hw. rewrite (setDoubleArray_run calloc_ok i src n t Hi ltac:(lia) Hc) in Hw.
  injection E as _ <-. destruct (rd (p_Array t) i) as [[a|]|]; cbn in *; by rewrite ?upd_upd.
Qed.

Lemma memory_with_transform {A} addr (m : M transform A) :
  stable keeps_transform m → stable keeps_memory (with_transform addr m : M D A).
Proof.
  intros Hm s a s'. unfold with_transform.
  destruct (rd (p_Transform s) addr) as [[t|]|] eqn:Hr; cbn; [|done..].
  destruct (m t) as [o t'] eqn:Em. intros [= -> <-] []. apply Hm in Em.
  pose proof (rd_in_bounds _ _ _ Hr) as Hb.
  destruct s; memory_fields. destruct mo_transforms0 as [Hlen Ht]. split; [by rewrite length_upd|].
  intros det o. rewrite rd_upd by done. case_decide; [|apply Ht]. intros [= <-].
  apply Em. by apply (Ht addr (Some t)).
Qed.

Lemma memory_write_action f addr v st :
  stable keeps_memory (write_action codes calloc_ok f addr v st : M D _).
Proof.
  destruct f; cbn [write_action]; unfold write_start, write_stop, write_alloc, configure, limit,
    printTofTrans, printPixelMap;
    stable_split ltac:(idtac; first
      [ apply memory_clearParams | apply memory_allocArray | apply memory_resetTOFArray
      | apply memory_with_transform, keeps_setDebug
      | apply memory_with_transform, keeps_printParams | memory_leaf ]).
Qed.

Lemma memory_writeInt32 address f v :
  stable keeps_memory (writeInt32 codes calloc_ok address f v : M D _).
Proof.
  unfold writeInt32, write_finish.
  stable_split ltac:(idtac; first
    [ apply memory_write_action | apply memory_with_transform, keeps_setIntParam | memory_leaf ]).
Qed.

Lemma memory_writeFloat64 address f v : stable keeps_memory (writeFloat64 address f v : M D _).
Proof.
  unfold writeFloat64.
  stable_split ltac:(idtac; first
    [ apply memory_with_transform, keeps_setTransDoubleParam | memory_leaf ]).
Qed.
End writes.

(** ** Files *)

Section files.
Context {L TS : Type} {PL : ParamLib param L} {DL : DriverLib L} {TL : TimeStampLib TS}.
Context (mem : memory) (fs : string → open_result).
Context (strtod : list ascii → converted f64).
Context (base_write : Z → param → string → L → asynStatus * L).
Local Abbreviation D := (driver L TS transform).

Lemma memory_with_map (s : D) det m size size' :
  0 <= det <= ADNED_MAX_DETS → is_u32 size → map_entry size m size' → memory_ok s →
  memory_ok (with_map s det m size').
Proof.
  intros Hd Hs Hm Hok. assert (is_u32 size') as Hs'
    by (destruct m; [apply Hm|by destruct Hm as [-> |]]).
  pose proof (mo_maps _ Hok) as Hmaps. pose proof Hmaps as (H1 & _).
  assert (pixel_maps_ok (with_map s det m size')) as Hmaps'.
  { apply pixel_maps_ok_with; [done..|]. intros l -> _. apply Hm. }
  destruct Hok. unfold with_map in *. destruct s; split; cbn in *; auto.
  - by apply Forall_insert.
  - intros det' m'. assert (Z.of_nat n_dets1 = ADNED_MAX_DETS + 1) by done.
    rewrite rd_upd by (unfold in_bounds; lia). case_decide; [|by apply mo_mapWords0].
    intros [= ->]. apply Hm.
Qed.

Lemma memory_map_file (s : D) det value errno r s' :
  0 <= det <= ADNED_MAX_DETS → memory_ok s →
  write_file mem fs strtod base_write ADnEDDetPixelMapFileParam det value errno s = (Ok r, s') →
  memory_ok s'.
Proof.
  intros Hd Hok. pose proof (mo_maps _ Hok) as (H1 & H2 & _).
  destruct (write_map_file mem fs strtod base_write s det value errno Hd H1 H2)
    as (size & Hsize & ->). intros E.
  pose proof (load_pixel_map_cases mem fs s det size value errno Hd H1 H2) as Hl.
  rewrite E in Hl. destruct Hl as (m & size' & -> & Hm). eapply memory_with_map; [done| |done..].
  destruct Hsize as [-> |Hr]; [done|].
  unfold rd in Hr. case_decide; [|done]. by apply (Forall_lookup_1 _ _ _ _ (mo_mapSizes _ Hok)) in Hr.
Qed.

Lemma memory_load_transform addr i value errno :
  stable keeps_memory (load_transform mem fs strtod addr i value errno : M D _).
Proof.
  unfold load_transform.
  stable_split ltac:(idtac; apply memory_with_transform, keeps_setDoubleArray).
Qed.

Lemma memory_base addr f v : stable keeps_memory (base_writeOctet base_write addr f v : M D _).
Proof.
  apply memory_other. intros s. unfold base_writeOctet, mbind, M_bind, gets. cbn.
  destruct (base_write _ _ _ _). destruct s. by repeat eexists.
Qed.

Lemma memory_writeOctet address f v n errno (s s' : D) r :
  (address.1 = asynSuccess → 0 <= address.2 <= ADNED_MAX_DETS) → memory_ok s →
  writeOctet mem fs strtod base_write address f v n errno s = (Ok r, s') → memory_ok s'.
Proof.
  intros Ha Hok. unfold writeOctet. case_decide as Hd; [by intros [= _ <-]|].
  intros ([st e] & s1 & E1 & E2)%bind_Ok. assert (memory_ok s1) as Hok1.
  { destruct (decide (f = ADnEDDetPixelMapFileParam)) as [->|Hf].
    - eapply memory_map_file; [|exact Hok|exact E1]. apply Ha.
      destruct (decide (address.1 = asynSuccess)); tauto.
    - eapply (stable_run keeps_memory); [exact E1| |exact Hok]. unfold write_file.
      rewrite (decide_False (P := f = _)) by done.
      stable_split ltac:(idtac; first [apply memory_load_transform | apply memory_base]). }
  eapply (stable_run keeps_memory); [exact E2| |exact Hok1]. memory_split.
Qed.
End files.

(** ** The event handler *)

Section handler.
Context {L TS : Type} {PL : ParamLib param L} {DL : DriverLib L} {TL : TimeStampLib TS}.
Context {TR : Transformer transform}.
Local Abbreviation D := (driver L TS transform).

Lemma memory_count idx : stable keeps_memory (count idx : M D ()).
Proof.
  intros s u s'. unfold count, mbind, M_bind, gets, checked, lift, modify.
  destruct (p_Data s) as [data|] eqn:E; [|done]. cbn.
  destruct (rd data idx) as [v|]; [|done]. cbn. intros [= _ <-].
  eapply memory_data; [done|]. intros n Hn. apply words_upd; [done|apply u32_range].
Qed.

Lemma memory_check_seq ch : stable keeps_memory (check_seq ch : M D ()).
Proof.
  intros s u s' E Hok. unfold check_seq in E.
  apply bind_Ok in E as (seqID & s1 & [= <- <-] & E). apply bind_Ok in E as (last & s1 & [= <- <-] & E).
  apply bind_Ok in E as ([] & s1 & E1 & [= _ <-]).
  assert (is_u32 (default 0 (rd (m_seqID s) ch))) as Hu by (eapply words_default, Hok).
  apply (stable_run keeps_memory) in E1; [|memory_split]. apply E1 in Hok as [].
  destruct s1; memory_fields.
Qed.

Lemma memory_integrate_events numDet events :
  stable keeps_memory (integrate_events numDet events : M D _).
Proof.
  apply stable_for_acc; [exact _|]. intros [pixel tofRaw] lc. unfold integrate_event, event_tof,
    map_pixel, integrate_pixel, plot_index, integrate_tof, in_pixel_roi, tof_bin, int_rem, int_quot.
  stable_split ltac:(idtac; first [apply memory_count | memory_leaf]).
Qed.

Lemma memory_eventHandler pv ch secs nsecs :
  stable keeps_memory (eventHandler pv ch secs nsecs : M D _).
Proof.
  unfold eventHandler, update_timer, fetch_detector, check_timestamp, handle_data,
    integrate_pulse, post_updates, post_channel, post_detector, event_rate.
  stable_split ltac:(idtac; first
    [apply memory_check_seq | apply memory_integrate_events | memory_leaf]).
Qed.
End handler.

(** ** The system *)

Section system_invariant.
Context {L TS : Type} {PL : ParamLib param L} {DL : DriverLib L} {TL : TimeStampLib TS}.
Context {TR : Transformer transform} (E : environment L).
Hypothesis HE : env_ok E.
Local Abbreviation D := (driver L TS transform).

Lemma memory_serve mem address r (d d' : D) st :
  request_ok address r → memory_ok d → serve E mem address r d = (Ok st, d') → memory_ok d'.
Proof.
  intros [Ha _] Hok. destruct r as [f v|f v|f v n errno]; cbn.
  - intros Es. by apply memory_writeInt32 in Es; apply Es.
  - intros Es. by apply memory_writeFloat64 in Es; apply Es.
  - intros ([[st' e'] k] & d1 & E1 & [_ ->]%ret_Ok)%bind_Ok. by eapply memory_writeOctet.
Qed.

Lemma config_serve mem address r (d d' : D) st :
  request_ok address r → config_ok (params d) → serve E mem address r d = (Ok st, d') →
  config_ok (params d').
Proof.
  intros [Ha _] Hok. destruct r as [f v|f v|f v n errno]; cbn.
  - destruct address as [s addr]. destruct (decide (s = asynSuccess)) as [->|Hs].
    + apply writeInt32_config_ok; [by apply Ha|done].
    + unfold writeInt32. rewrite decide_True by done. by intros [= _ <-].
  - intros Es. by eapply config_ok_frames; [apply frames_writeFloat64|exact Es|].
  - intros ([[st' e'] k] & d1 & E1 & [_ ->]%ret_Ok)%bind_Ok.
    by eapply config_ok_frames; [apply frames_writeOctet, HE|exact E1|].
Qed.

(** Shows that the writes of the tasks keep the memory. *)
Ltac task_writes_memory := intros; first
  [ apply memory_allocArray | apply memory_clear_data | memory_leaf
  | match goal with s : driver _ _ _ |- _ => apply same_memory_keeps; destruct s; by repeat eexists end ].

Ltac task_writes_config := intros; first
  [ apply frames_allocArray | apply frames_clear_data
  | apply frames_setInt; match goal with p : param |- _ => by destruct p end
  | frames_leaf | match goal with s : driver _ _ _ |- _ => by destruct s end ].

Lemma memory_event_step calloc_ok t sig :
  stable (on_world keeps_memory) (event_step (en_codes E) calloc_ok (en_net E) t sig
    : M (world L TS transform) _).
Proof. apply stable_event_step; [exact _|task_writes_memory..]. Qed.

Lemma memory_frame_step t sig :
  stable keeps_memory (frame_step (en_pool E) t sig : M D _).
Proof. apply stable_frame_step; [exact _|task_writes_memory..]. Qed.

Lemma config_event_step calloc_ok t sig :
  stable (on_world (same_ints guarded)) (event_step (en_codes E) calloc_ok (en_net E) t sig
    : M (world L TS transform) _).
Proof. apply stable_event_step; [exact _|task_writes_config..]. Qed.

Lemma config_frame_step t sig :
  stable (same_ints guarded) (frame_step (en_pool E) t sig : M D _).
Proof. apply stable_frame_step; [exact _|task_writes_config..]. Qed.

Lemma config_eventHandler pv ch secs nsecs :
  stable (same_ints guarded) (eventHandler pv ch secs nsecs : M D _).
Proof.
  intros s u s' Es a p old Hp. apply kept_eventHandler in Es. apply Es. by destruct p.
Qed.

(** What holds in every state of the driver. *)
Record driver_ok (d : D) : Prop := { ok_memory : memory_ok d; ok_config : config_ok (params d) }.

Lemma driver_ok_rel (d d' : D) :
  keeps_memory d d' → same_ints guarded d d' → driver_ok d → driver_ok d'.
Proof.
  intros Hm Hc [H1 H2]. split; [auto|]. eapply config_ok_agree; [|exact H2].
  intros a p old Hp. by apply Hc.
Qed.

Lemma driver_ok_depth (d : D) k : driver_ok d → driver_ok (at_depth k d).
Proof.
  apply driver_ok_rel; [|destruct d; by intros ???].
  apply same_memory_keeps. destruct d. by repeat eexists.
Qed.

Lemma driver_ok_waited (d : D) pc pc' :
  driver_ok d → driver_ok (event_waited pc d) ∧ driver_ok (frame_waited pc' d).
Proof.
  intros Hd. split; [destruct pc|destruct pc']; (apply (driver_ok_rel d); [|destruct d; by intros ???|done]);
    apply same_memory_keeps; destruct d; by repeat eexists.
Qed.

Lemma step_driver_ok l (x y : system) :
  step E l x y → driver_ok (w_drv (sy_world x)) → driver_ok (w_drv (sy_world y)).
Proof.
  intros Hstep Hok.
  destruct Hstep as [sig w t f fw ke kf Hw|sig mem w t f fw ke kf t' w' _ Es
    |sig w t f ew ke kf Hw|sig w t f ew ke kf f' d' _ Es
    |address r mem w t f ew fw ke kf st d' _ _ Hr Es
    |pv ch secs nsecs w t f ew fw ke kf d' _ _ Es]; cbn in *.
  - by apply (driver_ok_waited _ _ FrRun).
  - eapply driver_ok_rel; [by apply memory_event_step in Es|by apply config_event_step in Es|].
    by apply driver_ok_depth.
  - by apply (driver_ok_waited _ EvAcquire).
  - eapply driver_ok_rel; [by apply memory_frame_step in Es|by apply config_frame_step in Es|].
    by apply driver_ok_depth.
  - destruct (driver_ok_depth _ 1 Hok). split; [by eapply memory_serve|by eapply config_serve].
  - eapply driver_ok_rel; [by apply memory_eventHandler in Es|by apply config_eventHandler in Es|].
    by apply driver_ok_depth.
Qed.

Lemma run_driver_ok (d : D) ls (x : system) :
  driver_ok d → run E ls (sys_new d) x → driver_ok (w_drv (sy_world x)).
Proof.
  intros Hd Hrun.
  by apply (run_invariant E (λ x, driver_ok (w_drv (sy_world x))) ls (sys_new d) x);
    [apply step_driver_ok|..].
Qed.

(** The state after the constructor; the memory of the two members that are not
    initialised holds machine words. *)
Lemma constructor_driver_ok (l : L) ts0 events0 det_events0 b (d : D) :
  is_u32 events0 → words n_dets1 det_events0 →
  ctor_params (ADnED_members l ts0 events0 det_events0 ADnEDTransformBase) = (Ok b, d) →
  driver_ok d.
Proof.
  intros Hev Hdet Ec. destruct (ctor_run (ADnED_members l ts0 events0 det_events0 ADnEDTransformBase))
    as (l' & El & _).
  destruct (constructor_run l ts0 events0 det_events0 ADnEDTransformBase)
    as (d' & Ed & _ & _ & Hmaps & Hcfg & _).
  set (members := ADnED_members _ _ _ _ _) in *.
  assert (d' = on_params (λ _, l') members) as -> by congruence.
  assert (d = on_params (λ _, l') members) as -> by congruence. split; [|done].
  clear Hcfg El Ed Ec. unfold members.
  split; try exact Hmaps; cbn [ADnED_members on_params m_seqCounter m_seqID m_lastSeqID
    m_TimeStamp m_TimeStampLast m_det m_detEventsSinceLastUpdate m_detTotalEvents m_pulseCounter
    m_dataMaxSize m_bufferMaxSize m_tofMax m_eventsSinceLastUpdate p_Data m_PixelMapSize p_PixelMap
    p_Transform]; try (apply words_replicate; apply is_u32_0 || apply u32_range);
    try apply length_replicate; try apply is_u32_0; try assumption.
  - discriminate.
  - intros det m Hm. unfold rd in Hm. case_decide; [|done].
    apply list_elem_of_lookup_2, elem_of_replicate in Hm. naive_solver.
  - split; [reflexivity|]. intros det o Ho. unfold rd in Ho. case_decide as Hd; [|done].
    destruct (Z.to_nat det) as [|k] eqn:Ek; [injection Ho as <-; lia|].
    apply lookup_replicate_1 in Ho as [-> _]. apply base_wf.
Qed.

(** C23. Invariant of the driver: in every state that the whole driver can reach from
    its constructor, whatever the clients write, the server sends and the files hold,
    every table has its size and holds machine words, the buffer and every pixel map
    have the recorded lengths, the transformation objects are consistent, and the
    configuration is valid: no more detectors or channels than there are tables for,
    no negative region-of-interest width, and no detector with both its filters set. *)
Theorem driver_invariant (l : L) ts0 events0 det_events0 b (d : D) (x : system) :
  is_u32 events0 → words n_dets1 det_events0 →
  ctor_params (ADnED_members l ts0 events0 det_events0 ADnEDTransformBase) = (Ok b, d) →
  steps E (sys_new d) x →
  memory_ok (w_drv (sy_world x)) ∧ config_ok (params (w_drv (sy_world x))).
Proof.
  intros Hev Hdet Ec [ls Hrun].
  pose proof (constructor_driver_ok _ _ _ _ _ _ Hev Hdet Ec) as Hok.
  by destruct (run_driver_ok _ _ _ Hok Hrun).
Qed.
End system_invariant.

(** ** A concrete run

    From the constructor: a client configures one detector and one channel and starts
    an acquisition, a structure with three events arrives, and a client stops. *)

Definition sample_ctor : sample_driver := (ctor_params sample_new).2.

Lemma sample_ctor_run : ctor_params sample_new = (Ok true, sample_ctor).
Proof.
  unfold sample_ctor. destruct (constructor_run (TS := stamp) map_lib_empty (Stamp 0 0 0) 0
    (replicate n_dets1 0) ADnEDTransformBase) as (d & Ed & _).
  unfold sample_new in *. rewrite Ed. reflexivity.
Qed.

Definition sample_pv : pv_struct stamp :=
  PvStruct (Attached (Stamp 1 0 0)) (Some (f_of_Z 1)) (Some [10; 11; 11]) (Some [1; 2; 3]).

Definition accepted_write (addr : Z) (r : request) : label (TS := stamp) :=
  LClient (asynSuccess, addr) r memory_always asynSuccess.

Definition session : list (label (TS := stamp)) :=
  [accepted_write 0 (WriteInt32 ADnEDNumDetParam 1);
   accepted_write 1 (WriteInt32 ADnEDDetPixelNumStartParam 10);
   accepted_write 1 (WriteInt32 ADnEDDetPixelNumEndParam 13);
   accepted_write 1 (WriteInt32 ADnEDDetPixelROISizeXParam 1);
   accepted_write 1 (WriteFloat64 ADnEDDetTOFTransScaleParam (f_of_Z 1));
   accepted_write 0 (WriteInt32 ADnEDTOFMaxParam 5);
   accepted_write 0 (WriteInt32 ADnEDNumChannelsParam 1);
   accepted_write 0 (WriteOctet ADnEDPVNameParam "BL1:A" 5 false);
   LEventWait false; LEvent false memory_always;
   accepted_write 0 (WriteInt32 ADnEDStartParam 1);
   LEventWait true; LEvent true memory_always;
   LFrameWait false; LFrame false; LFrameWait true; LFrame true;
   LMonitor sample_pv 0 2 0;
   LClient (asynSuccess, 0) (WriteInt32 ADnEDTOFMaxParam 6) memory_always asynError;
   accepted_write 0 (WriteInt32 ADnEDStopParam 1);
   LEventWait true; LEvent true memory_always].

Definition session_state (n : nat) : system :=
  default (sys_new sample_ctor) (exec_all sample_env (take n session) (sys_new sample_ctor)).

Lemma session_run n : (n <= 22)%nat → run sample_env (take n session) (sys_new sample_ctor) (session_state n).
Proof.
  intros Hn. apply exec_all_run.
  assert (is_Some (exec_all sample_env (take n session) (sys_new sample_ctor))) as [x Hx].
  { apply (bool_decide_unpack _).
    do 23 (destruct n as [|n]; [vm_compute; exact I|]). lia. }
  unfold session_state. by rewrite Hx.
Qed.

Lemma driver_invariant_witness :
  let d := w_drv (sy_world (session_state 18)) in
  p_Data d = Some [1; 2; 0; 0; 0; 1; 1; 1; 0; 0] ∧ memory_ok d ∧ config_ok (params d).
Proof.
  split; [vm_compute; reflexivity|].
  apply (driver_invariant sample_env sample_env_ok map_lib_empty (Stamp 0 0 0) 0
    (replicate n_dets1 0) true sample_ctor (session_state 18)).
  - done.
  - by apply words_replicate.
  - exact sample_ctor_run.
  - eexists. apply session_run. lia.
Defined.
