(* ===== verification/Acquisition.v ===== *)
(** * The acquisition automaton

    The contract of the start and stop commands, as an automaton, and the proof that the
    whole driver refines it: every step of the driver from a reachable state is a step of
    the automaton.  START is accepted exactly when no acquisition runs and STOP exactly
    when one runs.  An accepted command sets an event, and a wait of the event task takes
    it later: an acquisition begins only after a wait has taken a start, and ends only
    after a wait has taken a stop.

    Between the end of a wait and the code that follows it a client can send one more
    command.  A START that is accepted there stays pending during the acquisition that is
    about to begin, and begins another one when that is stopped. *)

From stdpp Require Import base numbers list option strings.
From S2P Require Import Prelude Float64 Params Transform Driver Sample Alloc Ops Write.
From S2P Require Import WriteTheorems Event Channel Tasks System TaskTheorems Init Invariant.

Local Open Scope Z_scope.

(** ** The specification *)

(** Whether an acquisition runs: a start that has been taken launches one, and a stop
    that has been taken halts it. *)
Inductive mode : Type := Off | Launching | On | Halting.

(** The mode and the pending commands. *)
Record phase : Type := Phase { ph_mode : mode; ph_start : bool; ph_stop : bool }.

(** [Wait] is the end of a wait of the event task and [Go] the code that follows it. *)
Inductive action : Type :=
  | Start (accepted : bool)
  | Stop (accepted : bool)
  | Wait
  | Go
  | Other.

#[export] Instance action_eq_dec : EqDecision action.
Proof. solve_decision. Defined.

Definition running (m : mode) : bool :=
  match m with On | Halting => true | Off | Launching => false end.

(** The last argument of [acq_step] is the number of acquisitions that begin. *)
Inductive acq_step : action → phase → phase → nat → Prop :=
  | acq_start m a b :
      acq_step (Start (negb (running m))) (Phase m a b) (Phase m (a || negb (running m)) b) 0
  | acq_stop m a b :
      acq_step (Stop (running m)) (Phase m a b) (Phase m a (b || running m)) 0
  | acq_take_start : acq_step Wait (Phase Off true false) (Phase Launching false false) 0
  | acq_take_stop a : acq_step Wait (Phase On a true) (Phase Halting a false) 0
  | acq_discard a b : acq_step Wait (Phase Off a b) (Phase Off a false) 0
  | acq_poll a : acq_step Wait (Phase On a false) (Phase On a false) 0
  | acq_begin a : acq_step Go (Phase Launching a false) (Phase On a false) 1
  | acq_fail a : acq_step Go (Phase Launching a false) (Phase Off a false) 0
  | acq_end a b : acq_step Go (Phase Halting a b) (Phase Off a b) 0
  | acq_idle m a b : m = Off ∨ m = On → acq_step Go (Phase m a b) (Phase m a b) 0
  | acq_other p : acq_step Other p p 0.

Inductive acq_run : list action → phase → phase → nat → Prop :=
  | acq_run_nil p : acq_run [] p p 0
  | acq_run_step ls a p q r n k :
      acq_run ls p q n → acq_step a q r k → acq_run (ls ++ [a]) p r (n + k).

(** The accepted starts of a run. *)
Definition accepted_starts (ls : list action) : nat := length (filter (λ a, a = Start true) ls).

(** The starts that have not begun an acquisition yet. *)
Definition waiting_starts (p : phase) : nat :=
  (if ph_start p then 1 else 0) + match ph_mode p with Launching => 1 | _ => 0 end.

Lemma acq_step_starts a p q k :
  acq_step a p q k → (k + waiting_starts q <= waiting_starts p + accepted_starts [a])%nat.
Proof.
  unfold waiting_starts, accepted_starts.
  destruct 1 as [[] [] b|[] a b| | | | | | | | |]; cbn; repeat case_decide; cbn; try lia; done.
Qed.

(** Every acquisition has an accepted start of its own. *)
Lemma acq_run_starts ls p q n :
  acq_run ls p q n → (n + waiting_starts q <= waiting_starts p + accepted_starts ls)%nat.
Proof.
  induction 1 as [|ls a p q r n k _ IH Hs]; [unfold accepted_starts; cbn; lia|].
  apply acq_step_starts in Hs. unfold accepted_starts in *. rewrite filter_app, length_app. lia.
Qed.

(** ** The abstraction *)

Section abstraction.
Context {L TS : Type}.

Definition mode_of (pc : event_pc) (woken : option bool) : mode :=
  match pc with
  | EvCatchStop => Off
  | EvWaitStart => match woken with Some _ => Launching | None => Off end
  | EvAcquire => match woken with Some true => Halting | _ => On end
  end.

Definition phase_of (x : system (L := L) (TS := TS)) : phase :=
  let d := w_drv (sy_world x) in
  Phase (mode_of (e_pc (sy_ev x)) (sy_evWoken x)) (m_startEvent d) (m_stopEvent d).

(** The commands: a value other than 0 for START or STOP at an address of the port. *)
Definition command (address : asynStatus * Z) (r : request) : option param :=
  match r with
  | WriteInt32 f v =>
      if decide (address.1 = asynSuccess ∧ v ≠ 0 ∧ (f = ADnEDStartParam ∨ f = ADnEDStopParam))
      then Some f else None
  | _ => None
  end.

Definition action_of (l : label (TS := TS)) : action :=
  match l with
  | LEventWait _ => Wait
  | LEvent _ _ => Go
  | LClient address r _ status =>
      match command address r with
      | Some ADnEDStartParam => Start (bool_decide (status = asynSuccess))
      | Some _ => Stop (bool_decide (status = asynSuccess))
      | None => Other
      end
  | LFrameWait _ | LFrame _ | LMonitor _ _ _ _ => Other
  end.
End abstraction.

(** ** The values of the status *)

Section status.
Context {L TS : Type} {PL : ParamLib param L} {DL : DriverLib L} {TL : TimeStampLib TS}.
Context {TR : Transformer transform} (codes : ADStatus_t).
Local Abbreviation D := (driver L TS transform).
Local Abbreviation known := (known_status codes).

Definition keeps_known (d d' : D) : Prop := known (ad_status d) → known (ad_status d').

#[global] Instance keeps_known_preorder : PreOrder keeps_known.
Proof. split; unfold keeps_known; [by intros d|]. intros d1 d2 d3. auto. Qed.

Lemma known_control {A} (m : M D A) : stable same_control m → stable keeps_known m.
Proof. intros Hm s a s' [Es _ _]%Hm. unfold keeps_known. by rewrite Es. Qed.

Lemma known_set v : known v → stable keeps_known (setInt 0 ADStatus v : M D _).
Proof. intros Hv s a s' [E _]%set_status _. by rewrite E. Qed.

Lemma known_modify g : (∀ s : D, params (g s) = params s) → stable keeps_known (modify g).
Proof. intros Hg. apply stable_modify. intros s. unfold keeps_known, ad_status. by rewrite Hg. Qed.
End status.

Ltac known_leaf :=
  idtac; lazymatch goal with
  | |- stable _ (setInt 0 ADStatus _) => apply known_set; unfold known_status; auto
  | |- stable _ (modify _) => apply known_modify; by intros []
  | |- stable _ clearParams => apply known_control, control_clearParams
  | |- stable _ clear_data => apply known_control; unfold clear_data; control_split
  | |- stable _ (allocArray _) => apply known_control, control_allocArray
  | |- stable _ (with_transform _ _) => apply known_control, control_with_transform
  | |- stable _ _ => apply known_control; control_leaf
  end.

(** ** The steps *)

Section steps.
Context {L TS : Type} {PL : ParamLib param L} {DL : DriverLib L} {TL : TimeStampLib TS}.
Context {TR : Transformer transform} (E : environment L).
Local Abbreviation D := (driver L TS transform).
Local Abbreviation W := (world L TS transform).
Hypothesis HE : env_ok E.
Local Abbreviation codes := (en_codes E).
Local Abbreviation keeps := (keeps_known (L := L) (TS := TS) codes).

Lemma known_writeInt32 calloc_ok address f v :
  f ≠ ADStatus → stable keeps (writeInt32 codes calloc_ok address f v).
Proof.
  intros Hf. unfold writeInt32. stable_split ltac:(idtac; lazymatch goal with
    | |- stable _ (write_finish _ _ _) => by apply known_control, control_write_finish
    | |- stable _ (getInt _ _ _) => apply stable_pure; reflexivity
    end).
  destruct f; cbn [write_action]; unfold write_start, write_stop, write_alloc, configure, limit,
    printTofTrans, resetTOFArray, printPixelMap; stable_split known_leaf.
Qed.

Lemma known_serve mem address r (d d' : D) st :
  request_ok address r → serve E mem address r d = (Ok st, d') → keeps d d'.
Proof.
  intros [_ Hr] Es. destruct r as [f v|f v|f v n errno]; cbn in Es.
  - by eapply known_writeInt32.
  - eapply known_control; [|exact Es]. apply control_writeFloat64.
  - apply bind_Ok in Es as ([[st' e'] k] & d1 & E1 & [_ ->]%ret_Ok).
    eapply known_control; [|exact E1]. apply control_writeOctet, HE.
Qed.

Lemma known_event_step calloc_ok t sig :
  stable (on_world keeps) (event_step codes calloc_ok (en_net E) t sig).
Proof.
  apply stable_event_step; [exact _|..]; intros;
    first [by apply known_set | apply known_control, control_setInt; by intros ->
      | match goal with s : driver _ _ _ |- _ => destruct s; exact id end | known_leaf].
Qed.

(** ** The commands *)

Lemma events_of_control {A} (m : M D A) : stable same_control m → stable same_events m.
Proof. intros Hm s a s' [_ E1 E2]%Hm. by split. Qed.

Lemma events_set_status v : stable same_events (setInt 0 ADStatus v : M D _).
Proof. intros s a s' Es. by apply set_status in Es as [_ ?]. Qed.

Ltac events_leaf :=
  idtac; lazymatch goal with
  | |- stable _ (setInt 0 ADStatus _) => apply events_set_status
  | |- stable _ clearParams => apply events_of_control, control_clearParams
  | |- stable _ clear_data => apply events_of_control; unfold clear_data; control_split
  | |- stable _ (allocArray _) => apply events_of_control, control_allocArray
  | |- stable _ (with_transform _ _) => apply events_of_control, control_with_transform
  | |- stable _ (getInt _ _ _) => apply stable_pure; reflexivity
  | |- stable _ _ => apply events_of_control; control_leaf
  end.

(** The end of a write of a command. *)
Lemma finish_command f addr v (d d' : D) st :
  f = ADnEDStartParam ∨ f = ADnEDStopParam → 0 <= addr <= ADNED_MAX_DETS →
  write_finish f addr v d = (Ok st, d') → st = asynSuccess ∧ same_events d d'.
Proof.
  intros Hf Ha Ef. split.
  - rewrite write_finish_run in Ef by by destruct Hf as [-> | ->]. injection Ef as <- _.
    apply setIntegerParam_success; [by apply driver_valid_addr|by destruct Hf as [-> | ->]].
  - eapply (stable_run same_events); [exact Ef|]. apply events_of_control, control_write_finish.
    by destruct Hf as [-> | ->].
Qed.

Lemma start_command calloc_ok addr v (d d' : D) st :
  v ≠ 0 → 0 <= addr <= ADNED_MAX_DETS → known_status codes (ad_status d) →
  writeInt32 codes calloc_ok (asynSuccess, addr) ADnEDStartParam v d = (Ok st, d') →
  if decide (ad_status d = ADStatusAcquire codes) then st = asynError ∧ same_events d d'
  else st = asynSuccess ∧ m_startEvent d' = true ∧ m_stopEvent d' = m_stopEvent d.
Proof.
  intros Hv Ha Hk. destruct (env_codes E HE) as (Hidle & Herr & Hab).
  unfold writeInt32. cbn [fst snd]. rewrite decide_False by tauto.
  intros (st0 & d0 & [= <- <-] & (r & d1 & E1 & E2)%bind_Ok)%bind_Ok.
  change (getIntegerParam (params d) 0 ADStatus 0) with (ad_status d) in E1.
  cbn [write_action] in E1. unfold write_start in E1. rewrite decide_True in E1 by done.
  destruct (decide (ad_status d = ADStatusAcquire codes)) as [Hst|Hst].
  - rewrite decide_False in E1 by (intros [E0|[E0|E0]]; congruence).
    apply bind_Ok in E1 as (? & d2 & E1 & [-> ->]%ret_Ok). apply ret_Ok in E2 as [-> ->].
    split; [done|]. eapply (stable_run same_events); [exact E1|]. events_leaf.
  - rewrite decide_True in E1 by (unfold known_status in Hk; tauto).
    apply bind_Ok in E1 as (? & d2 & Ec & E1). apply bind_Ok in E1 as (? & d3 & Ep & E1).
    apply bind_Ok in E1 as ([] & d4 & [= <-] & [-> ->]%ret_Ok).
    assert (same_events d d3) as [A1 A2].
    { transitivity d2; [apply (stable_run _ _ _ _ _ Ec)|apply (stable_run _ _ _ _ _ Ep)]; events_leaf. }
    apply finish_command in E2 as [-> [B1 B2]]; [|by left|done]. destruct d3; cbn in *.
    by rewrite B1, B2.
Qed.

Lemma stop_command calloc_ok addr v (d d' : D) st :
  v ≠ 0 → 0 <= addr <= ADNED_MAX_DETS →
  writeInt32 codes calloc_ok (asynSuccess, addr) ADnEDStopParam v d = (Ok st, d') →
  if decide (ad_status d = ADStatusAcquire codes)
  then st = asynSuccess ∧ m_stopEvent d' = true ∧ m_startEvent d' = m_startEvent d
  else st = asynError ∧ same_events d d'.
Proof.
  intros Hv Ha. unfold writeInt32. cbn [fst snd]. rewrite decide_False by tauto.
  intros (st0 & d0 & [= <- <-] & (r & d1 & E1 & E2)%bind_Ok)%bind_Ok.
  change (getIntegerParam (params d) 0 ADStatus 0) with (ad_status d) in E1.
  cbn [write_action] in E1. unfold write_stop in E1. rewrite decide_True in E1 by done.
  destruct (decide (ad_status d = ADStatusAcquire codes)) as [Hst|Hst].
  - apply bind_Ok in E1 as (? & d2 & Ep & E1). apply bind_Ok in E1 as ([] & d4 & [= <-] & [-> ->]%ret_Ok).
    assert (same_events d d2) as [A1 A2] by (apply (stable_run _ _ _ _ _ Ep); events_leaf).
    apply finish_command in E2 as [-> [B1 B2]]; [|by right|done]. destruct d2; cbn in *.
    by rewrite B1, B2.
  - apply bind_Ok in E1 as (? & d2 & E1 & [-> ->]%ret_Ok). apply ret_Ok in E2 as [-> ->].
    split; [done|]. eapply (stable_run same_events); [exact E1|]. events_leaf.
Qed.

Lemma write_action_events calloc_ok f addr v st :
  v = 0 ∨ (f ≠ ADnEDStartParam ∧ f ≠ ADnEDStopParam) →
  stable same_events (write_action codes calloc_ok f addr v st : M D _).
Proof.
  intros Hf. destruct (decide (v = 0)) as [->|Hv].
  - destruct f; cbn [write_action]; unfold write_start, write_stop, write_alloc, configure, limit,
      printTofTrans, resetTOFArray, printPixelMap;
      rewrite ?(decide_False (P := 0 ≠ 0)) by tauto; stable_split events_leaf.
  - destruct Hf as [|[H1 H2]]; [done|].
    destruct f; cbn [write_action]; try done; unfold write_alloc, configure, limit,
      printTofTrans, resetTOFArray, printPixelMap; stable_split events_leaf.
Qed.

Lemma other_request mem address r (d d' : D) st :
  command address r = None → request_ok address r → serve E mem address r d = (Ok st, d') →
  same_events d d'.
Proof.
  intros Hc [_ Hr]. destruct r as [f v|f v|f v n errno]; cbn in *.
  - intros Es. eapply (stable_run same_events); [exact Es|]. unfold writeInt32.
    destruct (decide (address.1 = asynSuccess)) as [Ha|Ha];
      [rewrite decide_False by tauto|rewrite decide_True by done; apply stable_ret; exact _].
    apply stable_bind; [exact _|events_leaf|]. intros ad. apply stable_bind; [exact _| |].
    + apply write_action_events. case_decide as Hd; [done|].
      destruct (decide (v = 0)); [by left|]. right. tauto.
    + intros [st'|v']; [apply stable_ret; exact _|]. by apply events_of_control, control_write_finish.
  - intros Es. eapply (stable_run same_events); [exact Es|].
    apply events_of_control, control_writeFloat64.
  - intros ([[st' e'] k] & d1 & E1 & [_ ->]%ret_Ok)%bind_Ok.
    eapply (stable_run same_events); [exact E1|]. apply events_of_control, control_writeOctet, HE.
Qed.
End steps.

(** ** The refinement *)

Section refinement.
Context {L TS : Type} {PL : ParamLib param L} {DL : DriverLib L} {TL : TimeStampLib TS}.
Context {TR : Transformer transform} (E : environment L).
Local Abbreviation D := (driver L TS transform).
Local Abbreviation W := (world L TS transform).
Hypothesis HE : env_ok E.
Local Abbreviation codes := (en_codes E).

(** What relates the driver to the automaton. *)
Record related (x : system (L := L) (TS := TS)) : Prop := {
  re_protocol : in_protocol E x;
  re_known : known_status codes (ad_status (w_drv (sy_world x)))
}.

Lemma running_mode x :
  related x →
  running (ph_mode (phase_of x)) = bool_decide (ad_status (w_drv (sy_world x)) = ADStatusAcquire codes).
Proof.
  intros [[Hst _ _] _]. cbn. destruct (decide (e_pc (sy_ev x) = EvAcquire)) as [Hpc|Hpc].
  - rewrite bool_decide_eq_true_2 by tauto. rewrite Hpc. by destruct (sy_evWoken x) as [[]|].
  - rewrite bool_decide_eq_false_2 by tauto. by destruct (e_pc (sy_ev x)), (sy_evWoken x).
Qed.

(** The phase depends on the control state and the pending events only. *)
Lemma phase_same (x y : system (L := L) (TS := TS)) :
  e_pc (sy_ev y) = e_pc (sy_ev x) → sy_evWoken y = sy_evWoken x →
  same_events (w_drv (sy_world x)) (w_drv (sy_world y)) → phase_of y = phase_of x.
Proof. intros E1 E2 [E3 E4]. unfold phase_of. by rewrite E1, E2, E3, E4. Qed.

(** Where a step of [eventTask] waits next. *)
Lemma event_step_pc calloc_ok t sig (w w' : W) t' :
  (e_pc t = EvWaitStart → sig = true) →
  event_step codes calloc_ok (en_net E) t sig w = (Ok t', w') →
  match e_pc t with
  | EvCatchStop => e_pc t' = EvWaitStart
  | EvWaitStart => e_pc t' = EvAcquire ∨ e_pc t' = EvCatchStop
  | EvAcquire => e_pc t' = if sig then EvCatchStop else EvAcquire
  end.
Proof.
  intros Hwait Es. unfold event_step in Es. destruct (e_pc t) eqn:Hpc.
  - by apply bind_Ok in Es as ([] & w1 & _ & [= <- _]).
  - apply bind_Ok in Es as ([[[acq err] n] names] & w1 & _ & Es).
    apply bind_Ok in Es as ([] & w2 & _ & Es). apply bind_Ok in Es as (? & w3 & _ & Es).
    apply bind_Ok in Es as ([] & w4 & _ & Es). destruct acq.
    + injection Es as <- _. by left.
    + apply bind_Ok in Es as ([] & w5 & _ & [= <- _]). by right.
  - destruct sig; [|by injection Es as <- _].
    apply bind_Ok in Es as ([] & w1 & _ & Es). apply bind_Ok in Es as (? & w2 & _ & Es).
    apply bind_Ok in Es as ([] & w3 & _ & Es). by apply bind_Ok in Es as ([] & w4 & _ & [= <- _]).
Qed.

Lemma event_step_events calloc_ok t sig :
  stable (on_world same_events) (event_step codes calloc_ok (en_net E) t sig : M W _).
Proof.
  apply stable_event_step; [exact _|..]; intros;
    first [ apply events_set_status
      | apply events_of_control; first [apply control_allocArray
          | apply control_setInt; by intros -> | control_leaf | unfold clear_data; control_split]
      | match goal with s : driver _ _ _ |- _ => by destruct s end ].
Qed.

(** The end of a wait. *)
Lemma wait_refines sig (w : W) t f fw ke kf :
  let x := Sys w t f None fw ke kf in
  let y := Sys (World (event_waited (e_pc t) (w_drv w)) (w_pva w)) t f (Some sig) fw ke kf in
  related x → event_wait (e_pc t) sig (w_drv w) → acq_step Wait (phase_of x) (phase_of y) 0.
Proof.
  intros x y [[_ Hstop _] _] Hw. cbn in Hstop. unfold phase_of, x, y. cbn.
  destruct (w_drv w) as []. cbn in *. destruct (e_pc t) eqn:Hpc; cbn in *; unfold timed_wait in Hw.
  - constructor.
  - destruct Hw as [-> ->]. destruct m_stopEvent; [|constructor].
    by destruct (Hstop eq_refl) as [|[? _]].
  - subst m_stopEvent. destruct sig; constructor.
Qed.

(** The code after a wait; an acquisition begins when its loop is entered. *)
Definition begins (t t' : event_task) : nat :=
  match e_pc t, e_pc t' with EvWaitStart, EvAcquire => 1 | _, _ => 0 end.

Lemma event_refines calloc_ok t sig ke (w : W) t' w' f fw kf :
  let x := Sys w t f (Some sig) fw ke kf in
  let y := Sys w' t' f None fw (lockDepth (w_drv w')) kf in
  related x →
  event_step codes calloc_ok (en_net E) t sig (World (at_depth ke (w_drv w)) (w_pva w)) = (Ok t', w') →
  acq_step Go (phase_of x) (phase_of y) (begins t t').
Proof.
  intros x y [[_ Hstop Hwoken] _] Es. cbn in Hstop, Hwoken.
  assert (e_pc t = EvWaitStart → sig = true) as Hsig
    by (intros Hpc; destruct sig; [done|by destruct (Hwoken Hpc)]).
  pose proof (event_step_pc _ _ _ _ _ _ Hsig Es) as Hpc'.
  pose proof (event_step_events _ _ _ _ _ _ Es) as [E1 E2]. cbn in E1, E2.
  assert (m_startEvent (w_drv w') = m_startEvent (w_drv w) ∧ m_stopEvent (w_drv w') = m_stopEvent (w_drv w))
    as [F1 F2] by (rewrite E1, E2; by destruct (w_drv w)).
  unfold phase_of, begins, x, y. cbn. rewrite F1, F2. destruct (e_pc t) eqn:Hpc; cbn.
  - rewrite Hpc'. apply acq_idle. by left.
  - assert (m_stopEvent (w_drv w) = false) as ->
      by (destruct (m_stopEvent (w_drv w)); [by destruct (Hstop eq_refl) as [|[? _]]|done]).
    destruct Hpc' as [-> | ->]; constructor.
  - destruct sig; rewrite Hpc'; [constructor|]. apply acq_idle. by right.
Qed.

Lemma client_refines mem address r st (w : W) t f ew fw ke kf d' :
  let x := Sys w t f ew fw ke kf in
  let y := Sys (World d' (w_pva w)) t f ew fw ke kf in
  related x → request_ok address r → serve E mem address r (at_depth 1 (w_drv w)) = (Ok st, d') →
  acq_step (action_of (TS := TS) (LClient address r mem st)) (phase_of x) (phase_of y) 0.
Proof.
  intros x y Hrel Hok Es. pose proof (running_mode _ Hrel) as Hrun.
  assert (same_control (w_drv w) (at_depth 1 (w_drv w))) as Hc by (by destruct (w_drv w)).
  pose proof Hc as [Hs Ha Hp].
  cbn [action_of]. destruct (command address r) as [p|] eqn:Hcmd.
  2:{ assert (phase_of y = phase_of x) as ->; [|constructor]. apply phase_same; [done..|]. cbn.
      transitivity (at_depth 1 (w_drv w)); [by split|by eapply other_request]. }
  destruct r as [fn v|fn v|fn v n errno]; try done. cbn in Hcmd, Es.
  case_decide as Hd; [|done]. injection Hcmd as <-. destruct Hd as (Haddr & Hv & Hfn).
  destruct address as [s addr]. cbn in Haddr. subst s.
  assert (0 <= addr <= ADNED_MAX_DETS) as Hr by by apply Hok. cbn in Hrun.
  unfold phase_of, x, y. cbn. destruct Hfn as [-> | ->].
  - apply (start_command E HE) in Es; [|done..|rewrite Hs; apply Hrel]. rewrite Hs in Es.
    pose proof (acq_start (mode_of (e_pc t) ew) (m_startEvent (w_drv w)) (m_stopEvent (w_drv w))) as H.
    rewrite Hrun in H. case_decide as Hst.
    + destruct Es as (-> & -> & ->). rewrite Ha, Hp. rewrite (bool_decide_eq_true_2 _ Hst) in H.
      cbn in H. by rewrite orb_false_r in H.
    + destruct Es as (-> & -> & ->). rewrite Hp. rewrite (bool_decide_eq_false_2 _ Hst) in H.
      cbn in H. by rewrite orb_true_r in H.
  - apply (stop_command E) in Es; [|done..]. rewrite Hs in Es.
    pose proof (acq_stop (mode_of (e_pc t) ew) (m_startEvent (w_drv w)) (m_stopEvent (w_drv w))) as H.
    rewrite Hrun in H. case_decide as Hst.
    + destruct Es as (-> & -> & ->). rewrite Ha. rewrite (bool_decide_eq_true_2 _ Hst) in H.
      by rewrite orb_true_r in H.
    + destruct Es as (-> & -> & ->). rewrite Ha, Hp. rewrite (bool_decide_eq_false_2 _ Hst) in H.
      by rewrite orb_false_r in H.
Qed.

(** The number of acquisitions that a step begins. *)
Definition begun (l : label (TS := TS)) (x y : system (L := L) (TS := TS)) : nat :=
  match l with LEvent _ _ => begins (sy_ev x) (sy_ev y) | _ => 0 end.

(** A step of the driver is a step of the automaton. *)
Lemma step_refines l x y :
  step E l x y → related x →
  acq_step (action_of l) (phase_of x) (phase_of y) (begun l x y) ∧ related y.
Proof.
  intros Hstep Hrel. pose proof Hrel as [Hp Hk]. pose proof (step_protocol E HE l x y Hstep Hp) as Hp'.
  enough (acq_step (action_of l) (phase_of x) (phase_of y) (begun l x y) ∧
    known_status codes (ad_status (w_drv (sy_world y)))) as [? ?] by (by split).
  destruct Hstep as [sig w t f fw ke kf Hw|sig mem w t f fw ke kf t' w' _ Es
    |sig w t f ew ke kf Hw|sig w t f ew ke kf f' d' _ Es
    |address r mem w t f ew fw ke kf st d' _ _ Hr Es
    |pv ch secs nsecs w t f ew fw ke kf d' _ _ Es]; cbn in *.
  - split; [by apply wait_refines|]. by destruct (w_drv w), (e_pc t).
  - split; [by eapply event_refines|]. apply known_event_step in Es. apply Es. cbn. by destruct (w_drv w).
  - split; [|by destruct (w_drv w), (f_pc f)].
    replace (phase_of (Sys (World _ _) _ _ _ _ _ _)) with (phase_of (Sys w t f ew None ke kf));
      [constructor|]. symmetry. apply phase_same; [done..|]. cbn. by destruct (w_drv w), (f_pc f).
  - apply control_frame_step in Es as [E0 E1 E2].
    assert (same_control (w_drv w) d') as [F0 F1 F2] by (destruct (w_drv w); by split).
    split; [|by rewrite F0].
    replace (phase_of (Sys (World d' _) _ _ _ _ _ _)) with (phase_of (Sys w t f ew (Some sig) ke kf));
      [constructor|]. symmetry. by apply phase_same.
  - split; [by eapply client_refines|]. apply (known_serve E HE) in Es; [|done]. apply Es.
    by destruct (w_drv w).
  - apply control_eventHandler in Es as [E0 E1 E2].
    assert (same_control (w_drv w) d') as [F0 F1 F2] by (destruct (w_drv w); by split).
    split; [|by rewrite F0].
    replace (phase_of (Sys (World d' _) _ _ _ _ _ _)) with (phase_of (Sys w t f ew fw ke kf));
      [constructor|]. symmetry. by apply phase_same.
Qed.

Lemma related_new (d : D) :
  ad_status d = ADStatusIdle codes ∨ ad_status d = ADStatusError codes →
  m_stopEvent d = false → related (sys_new d).
Proof.
  intros Hst Hs. destruct (env_codes E HE) as (Hidle & Herr & _).
  split; [|unfold known_status; cbn; tauto]. split; cbn; [|by rewrite Hs|done].
  split; [|done]. intros E0. destruct Hst; congruence.
Qed.

(** The acquisitions begun in a run are those of the steps that begin one. *)
Lemma run_refines ls x y :
  run E ls x y → related x →
  related y ∧ ∃ n, acq_run (action_of <$> ls) (phase_of x) (phase_of y) n.
Proof.
  induction 1 as [x|ls l x y z _ IH Hl]; intros Hx.
  { split; [done|]. exists 0%nat. constructor. }
  destruct (IH Hx) as (Hy & n & Hn). destruct (step_refines l y z Hl Hy) as [Hstep Hz].
  split; [done|]. exists (n + begun l y z)%nat. rewrite fmap_app. by econstructor.
Qed.

(** C21. The driver refines the acquisition automaton.  From a driver that is idle or in
    error, with no event pending, the labels of every run are a run of the automaton,
    and every further step is a step of the automaton between the phases of its two
    states, which begins an acquisition exactly when the event task enters its
    acquisition loop.  So a START is accepted exactly when no acquisition runs and a STOP
    exactly when one runs; an acquisition begins only after a wait has taken a start and
    ends only after a wait has taken a stop, no other action of any thread does either;
    and at most as many acquisitions begin as STARTs have been accepted.  A START that is
    accepted between the wait that takes the previous one and the acquisition is pending
    during that acquisition and begins the next one without a further command. *)
Theorem acquisition_refines (d : D) ls (x : system) :
  ad_status d = ADStatusIdle codes ∨ ad_status d = ADStatusError codes →
  m_startEvent d = false → m_stopEvent d = false →
  run E ls (sys_new d) x →
  (∃ n, acq_run (action_of <$> ls) (Phase Off false false) (phase_of x) n ∧
     (n <= accepted_starts (action_of <$> ls))%nat) ∧
  ∀ l y, step E l x y → acq_step (action_of l) (phase_of x) (phase_of y) (begun l x y).
Proof.
  intros Hst Hs1 Hs2 Hrun.
  destruct (run_refines _ _ _ Hrun (related_new d Hst Hs2)) as (Hx & n & Hn).
  assert (phase_of (sys_new d) = Phase Off false false) as Hph
    by (unfold phase_of; cbn; by rewrite Hs1, Hs2). rewrite Hph in Hn.
  split; [|intros l y Hl; by apply step_refines].
  exists n. split; [done|]. apply acq_run_starts in Hn. unfold waiting_starts in Hn. cbn in Hn. lia.
Qed.
End refinement.

(** A session of two commands to start and one to stop.  The second START is accepted
    after the wait has taken the first; the STOP ends the acquisition, and the event task
    begins another one. *)
Definition restarted : list (label (TS := stamp)) :=
  take 12 session ++
  [accepted_write 0 (WriteInt32 ADnEDStartParam 1);
   LEvent true memory_always;
   accepted_write 0 (WriteInt32 ADnEDStopParam 1);
   LEventWait true; LEvent true memory_always;
   LEventWait false; LEvent false memory_always;
   LEventWait true; LEvent true memory_always].

Definition restarted_state (n : nat) : system :=
  default (sys_new sample_ctor) (exec_all sample_env (take n restarted) (sys_new sample_ctor)).

Lemma restarted_run n :
  (n <= 21)%nat → run sample_env (take n restarted) (sys_new sample_ctor) (restarted_state n).
Proof.
  intros Hn. apply exec_all_run.
  assert (is_Some (exec_all sample_env (take n restarted) (sys_new sample_ctor))) as [x Hx].
  { apply (bool_decide_unpack _).
    do 22 (destruct n as [|n]; [vm_compute; exact I|]). lia. }
  unfold restarted_state. by rewrite Hx.
Qed.

Lemma acquisition_refines_witness :
  phase_of (restarted_state 11) = Phase Off true false ∧
  phase_of (restarted_state 12) = Phase Launching false false ∧
  phase_of (restarted_state 13) = Phase Launching true false ∧
  phase_of (restarted_state 14) = Phase On true false ∧
  phase_of (restarted_state 16) = Phase Halting true false ∧
  phase_of (restarted_state 17) = Phase Off true false ∧
  phase_of (restarted_state 21) = Phase On false false ∧
  (∃ n, acq_run (action_of <$> restarted) (Phase Off false false) (phase_of (restarted_state 21)) n ∧
     (n <= 2)%nat).
Proof.
  do 7 (split; [vm_compute; reflexivity|]).
  refine (proj1 (acquisition_refines sample_env sample_env_ok sample_ctor restarted (restarted_state 21)
    _ _ _ _)).
  - left. vm_compute. reflexivity.
  - vm_compute. reflexivity.
  - vm_compute. reflexivity.
  - apply (restarted_run 21). lia.
Defined.
