(* ===== verification/Requests.v ===== *)
(** * The clients' requests are safe

    Proves that in every state the whole driver can reach, a request of a client is
    served: the write handler returns a status, without undefined behaviour and
    without an exception.  Two commands are left out, because the configuration they
    use may not fit the buffer ([allocArray], [resetTOFArray]: Alloc.v and Ops.v say
    when they are safe), and so are the transformations of address 0, where there is
    no object. *)

From stdpp Require Import base numbers list option strings.
From Stdlib Require Import Ascii.
From S2P Require Import Prelude Float64 Params Transform File FileTheorems Driver Sample Alloc.
From S2P Require Import Ops Write WriteTheorems Loading Event Monitor Channel Tasks System.
From S2P Require Import TaskTheorems Init Invariant.

Local Open Scope Z_scope.

(** The requests that use the transformation object of their address. *)
Definition uses_transform (r : request) : bool :=
  match r with
  | WriteInt32 f _ =>
      bool_decide (f = ADnEDDetTOFTransPrintParam ∨ f = ADnEDDetTOFTransDebugParam) ||
      bool_decide (is_Some (matchTransInt f))
  | WriteFloat64 f _ => bool_decide (is_Some (matchTransFloat f))
  | WriteOctet f _ _ _ => bool_decide (is_Some (matchTransFile f))
  end.

(** The block that a transformation allocates for its copy of an array is the second of
    the request. *)
Definition request_safe (mem : memory) (addr : Z) (r : request) : Prop :=
  (uses_transform r = true → addr ≠ 0) ∧
  match r with
  | WriteInt32 f _ => f ≠ ADnEDAllocSpaceParam ∧ f ≠ ADnEDDetTOFArrayResetParam
  | WriteOctet f name _ _ =>
      (String.length name < 255)%nat ∧
      (is_Some (matchTransFile f) → ∀ n, mem 1%nat n 8 = true)
  | WriteFloat64 _ _ => True
  end.

Section total.
Context {L TS : Type} {PL : ParamLib param L} {DL : DriverLib L} {TL : TimeStampLib TS}.
Local Abbreviation D := (driver L TS transform).
Local Abbreviation I := (memory_ok (L := L) (TS := TS)).

Lemma memory_tables (d : D) : memory_ok d → tables_ok d.
Proof.
  intros H. split; [apply H..|].
  intros data Hd. destruct (mo_data _ H data Hd) as [-> _]. pose proof (mo_bufferMax _ H).
  mach_lia.
Qed.

(** A step that always returns. *)
Lemma safe_total {A} (m : M D A) :
  (∀ s, ∃ a, (m s).1 = Ok a) → stable keeps_memory m → safe I m.
Proof.
  intros Hm. apply safe_stable. intros s _. destruct (Hm s) as [a Ha]. unfold wp_ok, wp.
  destruct (m s) as [o s']. cbn in Ha. by subst.
Qed.

End total.

Ltac safe_leaf :=
  idtac; lazymatch goal with
  | |- safe _ (setInt _ _ _) => apply safe_total; [by eexists|memory_leaf]
  | |- safe _ (setDouble _ _ _) => apply safe_total; [by eexists|memory_leaf]
  | |- safe _ (setString _ _ _) => apply safe_total; [by eexists|memory_leaf]
  | |- safe _ (getInt _ _ _) => apply safe_gets
  | |- safe _ (modify _) => apply safe_total; [by eexists|memory_leaf]
  end.

Section safety.
Context {L TS : Type} {PL : ParamLib param L} {DL : DriverLib L} {TL : TimeStampLib TS}.
Context (codes : ADStatus_t) (calloc_ok : Z → Z → bool).
Local Abbreviation D := (driver L TS transform).
Local Abbreviation I := (memory_ok (L := L) (TS := TS)).

Lemma safe_clearParams : safe I (clearParams : M D _).
Proof.
  apply safe_stable; [|apply memory_clearParams]. intros s Hs.
  eapply wp_mono; [by apply wp_clearParams, memory_tables|done..].
Qed.

Lemma safe_with_transform {A} addr (m : M transform A) :
  1 <= addr <= ADNED_MAX_DETS → safe transform_wf m → safe I (with_transform addr m : M D A).
Proof.
  intros Ha Hm. apply safe_stable.
  - intros s Hs. destruct (mo_transforms _ Hs) as [Hlen Ht].
    assert (Z.of_nat n_dets1 = ADNED_MAX_DETS + 1) by done.
    assert (is_Some (rd (p_Transform s) addr)) as [o Ho] by (apply rd_Some; unfold in_bounds; lia).
    pose proof (Ht addr o Ho) as Hw. unfold wp_ok, wp, with_transform. rewrite Ho. cbn.
    destruct o as [t|]; [|lia]. destruct (safe_run _ _ t Hm Hw) as (a & t' & -> & _). done.
  - apply memory_with_transform. intros t a t' E Hw.
    destruct (safe_run _ _ t Hm Hw) as (a' & t'' & E' & ?). rewrite E in E'. by simplify_eq.
Qed.

Lemma safe_setIntParam i v : safe transform_wf (setIntParam i v).
Proof.
  apply safe_stable; [|apply keeps_setIntParam]. intros t _. unfold setIntParam, wp_ok.
  destruct (bad_index i); by wp_steps.
Qed.

Lemma safe_setTransDoubleParam i v : safe transform_wf (setTransDoubleParam i v).
Proof.
  apply safe_stable; [|apply keeps_setTransDoubleParam]. intros t _.
  unfold setTransDoubleParam, wp_ok. destruct (bad_index i); by wp_steps.
Qed.

Lemma safe_setDebug b : safe transform_wf (setDebug b).
Proof. apply safe_stable; [|apply keeps_setDebug]. intros t _. by unfold setDebug, wp_ok; wp_steps. Qed.

Lemma safe_printParams : safe transform_wf printParams.
Proof.
  apply safe_stable; [|apply keeps_printParams]. intros t Ht.
  eapply wp_mono; [by apply wp_printParams|done..].
Qed.

Lemma safe_printPixelMap det : safe I (printPixelMap det : M D ()).
Proof.
  intros s Hs. unfold printPixelMap, wp_ok. wp_steps.
  destruct (rd (p_PixelMap s) det) as [[m|]|] eqn:Hm; cbn; [|done..].
  case_decide as Hsize; [|done]. wp_step.
  destruct (mo_maps _ Hs) as (_ & _ & Hused). rewrite (Hused det m Hm) by lia. cbn.
  rewrite decide_True by lia. by wp_steps.
Qed.

Lemma safe_write_action mem f addr v st :
  0 <= addr <= ADNED_MAX_DETS → request_safe mem addr (WriteInt32 f v) →
  safe I (write_action codes calloc_ok f addr v st : M D _).
Proof.
  intros Ha [Ht [H1 H2]]. destruct f; try done; cbn [write_action];
    unfold write_start, write_stop, configure, limit, printTofTrans;
    safe_split ltac:(idtac; first
      [ apply safe_clearParams | apply safe_printPixelMap
      | apply safe_with_transform; [specialize (Ht eq_refl); lia|first [apply safe_setDebug|apply safe_printParams]]
      | safe_leaf ]).
Qed.

Lemma safe_writeInt32 mem addr f v :
  0 <= addr <= ADNED_MAX_DETS → request_safe mem addr (WriteInt32 f v) →
  safe I (writeInt32 codes calloc_ok (asynSuccess, addr) f v : M D _).
Proof.
  intros Ha Hr. unfold writeInt32. cbn [fst snd]. rewrite decide_False by tauto.
  apply safe_bind; [apply safe_gets|]. intros st. apply safe_bind; [by eapply safe_write_action|].
  destruct Hr as [Ht _]. unfold write_finish. cbn [uses_transform] in Ht.
  destruct (matchTransInt f) as [i|];
    safe_split ltac:(idtac; first
      [ apply safe_with_transform; [rewrite orb_true_r in Ht; specialize (Ht eq_refl); lia
        |apply safe_setIntParam]
      | safe_leaf ]).
Qed.

Lemma safe_writeFloat64 mem addr f v :
  0 <= addr <= ADNED_MAX_DETS → request_safe mem addr (WriteFloat64 f v) →
  safe I (writeFloat64 (asynSuccess, addr) f v : M D _).
Proof.
  intros Ha [Ht _]. unfold writeFloat64. cbn [fst snd]. rewrite decide_False by tauto.
  cbn [uses_transform] in Ht.
  destruct (matchTransFloat f) as [i|];
    safe_split ltac:(idtac; first
      [ apply safe_with_transform; [specialize (Ht eq_refl); lia|apply safe_setTransDoubleParam]
      | safe_leaf ]).
Qed.
End safety.

(** ** Files *)

Section file_safety.
Context {L TS : Type} {PL : ParamLib param L} {DL : DriverLib L} {TL : TimeStampLib TS}.
Context (mem : memory) (fs : string → open_result).
Context (strtod : list ascii → converted f64).
Context (base_write : Z → param → string → L → asynStatus * L).
Local Abbreviation D := (driver L TS transform).
Local Abbreviation I := (memory_ok (L := L) (TS := TS)).

Lemma calloc_length {A} k (z : A) n size b :
  is_u32 n → calloc mem k z n size = Some b → Z.of_nat (length b) = n.
Proof.
  intros Hn. unfold calloc. destruct (mem k n size); [|done]. intros [= <-].
  rewrite length_replicate. mach_lia.
Qed.

Lemma safe_load_transform addr i value errno :
  1 <= addr <= ADNED_MAX_DETS → text_files fs → (String.length value < 255)%nat →
  (∀ n, mem 1%nat n 8 = true) →
  safe I (load_transform mem fs strtod addr i value errno : M D _).
Proof.
  intros Ha Htext Hname Hcopy. unfold load_transform.
  pose proof (newADnEDFile_safe fs value errno Htext Hname) as Hnew.
  destruct (newADnEDFile fs value errno) as [[f|e|u] errno']; [|apply safe_ret|done].
  destruct Hnew as [Hu Hf]. case_decide as Hz; [|apply safe_ret]. cbv zeta.
  unfold readDataIntoDoubleArray.
  pose proof (readData_outcome strtod "Could not convert line to double." f errno'
    (calloc mem 0%nat (f_of_Z 0) (getSize f) 8) (Hf Hz)) as Hread.
  specialize (Hread ltac:(intros b ?%calloc_length; [lia|done])).
  destruct (readData _ _ _ _ _) as [[[]|e|u] r]; [|apply safe_ret|done].
  destruct Hread as (b & Hb%calloc_length & Hlen); [|done].
  apply safe_bind; [|intros; apply safe_ret]. apply safe_with_transform; [done|].
  intros t Hw. apply setDoubleArray_wf; [done|mach_lia|apply Hcopy].
Qed.

Lemma safe_map_file det value errno :
  0 <= det <= ADNED_MAX_DETS → text_files fs → (String.length value < 255)%nat →
  safe I (write_file mem fs strtod base_write ADnEDDetPixelMapFileParam det value errno : M D _).
Proof.
  intros Hd Htext Hname s Hs. pose proof (mo_maps _ Hs) as Hm. pose proof Hm as (H1 & H2 & _).
  unfold wp_ok, wp. destruct (write_file _ _ _ _ _ _ _ _ s) as [o s'] eqn:E.
  destruct (write_map_file mem fs strtod base_write s det value errno Hd H1 H2)
    as (size & _ & E'). rewrite E' in E.
  pose proof (wp_load_pixel_map mem fs s det size value errno Hd Hm Htext Hname) as Hl.
  unfold wp_ok, wp in Hl. rewrite E in Hl. destruct o as [r|e|u]; [|done..].
  eapply memory_map_file; [done..|]. by rewrite E'.
Qed.

Lemma safe_writeOctet addr f v n errno :
  0 <= addr <= ADNED_MAX_DETS → text_files fs → request_safe mem addr (WriteOctet f v n errno) →
  safe I (writeOctet mem fs strtod base_write (asynSuccess, addr) f v n errno : M D _).
Proof.
  intros Ha Htext [Ht [Hname Hcopy]]. unfold writeOctet. cbn [fst snd]. rewrite decide_False by tauto.
  apply safe_bind; [|safe_split safe_leaf].
  destruct (decide (f = ADnEDDetPixelMapFileParam)) as [->|Hf]; [by apply safe_map_file|].
  unfold write_file. rewrite (decide_False (P := f = _)) by done. cbn [uses_transform] in Ht.
  destruct (matchTransFile f) as [i|].
  - apply safe_load_transform; [specialize (Ht eq_refl); lia|done|done|by apply Hcopy].
  - destruct (is_base_param f); [|apply safe_ret]. apply safe_bind; [|intros; apply safe_ret].
    apply safe_total; [|apply memory_base]. intros s.
    unfold base_writeOctet, mbind, M_bind, gets. cbn. destruct (base_write _ _ _ _). by eexists.
Qed.
End file_safety.

Section requests.
Context {L TS : Type} {PL : ParamLib param L} {DL : DriverLib L} {TL : TimeStampLib TS}.
Context {TR : Transformer transform} (E : environment L).
Local Abbreviation D := (driver L TS transform).

(** The same for every request of the system. *)
Lemma serve_served (l : L) ts0 events0 det_events0 b (d : D) (x : system) mem addr r :
  env_ok E → text_files (en_fs E) → is_u32 events0 → words n_dets1 det_events0 →
  ctor_params (ADnED_members l ts0 events0 det_events0 ADnEDTransformBase) = (Ok b, d) →
  steps E (sys_new d) x → request_ok (asynSuccess, addr) r → request_safe mem addr r →
  ∃ st d', serve E mem (asynSuccess, addr) r (at_depth 1 (w_drv (sy_world x))) = (Ok st, d') ∧
    memory_ok d' ∧ config_ok (params d').
Proof.
  intros HE Htext Hev Hdet Ec [ls Hrun] Hr Hs.
  pose proof (constructor_driver_ok _ _ _ _ _ _ Hev Hdet Ec) as Hok.
  pose proof (driver_ok_depth _ 1 (run_driver_ok E HE _ _ _ Hok Hrun)) as [Hm Hc].
  assert (0 <= addr <= ADNED_MAX_DETS) as Ha by by apply Hr.
  assert (safe memory_ok (serve E mem (asynSuccess, addr) r : M D _)) as Hsafe.
  { destruct r as [f v|f v|f v n errno]; cbn [serve].
    - by eapply safe_writeInt32.
    - by eapply safe_writeFloat64.
    - apply safe_bind; [by apply safe_writeOctet|]. intros [[st e] k]. apply safe_ret. }
  destruct (safe_run _ _ _ Hsafe Hm) as (st & d' & Hserve & Hm'). exists st, d'.
  split_and!; [done..|]. by eapply config_serve.
Qed.

(** A transformation file whose copy gets no memory. *)
Lemma serve_no_memory (d : D) mem addr f i name nChars ls factors :
  memory_ok d → 1 <= addr <= ADNED_MAX_DETS → matchTransFile f = Some i →
  (0 < String.length name < 255)%nat → en_fs E name = Opened (double_file ls) →
  Forall2 (line_value (en_strtod E)) ls factors → factors ≠ [] → is_u32 (Z.of_nat (length factors)) →
  (∀ n, mem 0%nat n 8 = true) → mem 1%nat (Z.of_nat (length factors)) 8 = false →
  faults (serve E mem (asynSuccess, addr) (WriteOctet f name nChars false)) NullDeref d.
Proof.
  intros Hm Ha Hf Hname Hfs Hvs Hne Hlen Hc Hbad. cbn [serve]. apply faults_bind.
  destruct (mo_transforms _ Hm) as [Hl Ht].
  assert (Z.of_nat n_dets1 = ADNED_MAX_DETS + 1) by done.
  assert (is_Some (rd (p_Transform d) addr)) as [o Ho] by (apply rd_Some; unfold in_bounds; lia).
  pose proof (Ht addr o Ho) as Hw. destruct o as [t|]; [|lia].
  by eapply writeOctet_no_memory.
Qed.

(** C28. The clients' requests are safe.  In every state that the whole driver can
    reach from its constructor, and for files that hold no NUL character, a client's
    request is served: the write handler returns a status, with no undefined behaviour
    and no exception, and leaves a state in which the invariant of the driver holds.
    Left out are the commands to allocate the buffer and to reset a time-of-flight array,
    which need a consistent configuration (C1, C12), the transformations of address 0,
    where there is no object, file names that do not fit the buffer of 256 characters of
    the file reader, and the files of transformations when the second [calloc] of the
    request, for the copy that the transformation keeps, gives no block.  That last
    condition is needed: when a transformation file has been read and there is no memory
    for the copy, the copy goes to a null pointer. *)
Theorem requests_served (l : L) ts0 events0 det_events0 b (d : D) (x : system) :
  env_ok E → text_files (en_fs E) → is_u32 events0 → words n_dets1 det_events0 →
  ctor_params (ADnED_members l ts0 events0 det_events0 ADnEDTransformBase) = (Ok b, d) →
  steps E (sys_new d) x →
  (∀ mem addr r, request_ok (asynSuccess, addr) r → request_safe mem addr r →
     ∃ st d', serve E mem (asynSuccess, addr) r (at_depth 1 (w_drv (sy_world x))) = (Ok st, d') ∧
       memory_ok d' ∧ config_ok (params d')) ∧
  (∀ mem addr f i name nChars ls factors,
     1 <= addr <= ADNED_MAX_DETS → matchTransFile f = Some i →
     (0 < String.length name < 255)%nat → en_fs E name = Opened (double_file ls) →
     Forall2 (line_value (en_strtod E)) ls factors → factors ≠ [] →
     is_u32 (Z.of_nat (length factors)) →
     (∀ n, mem 0%nat n 8 = true) → mem 1%nat (Z.of_nat (length factors)) 8 = false →
     ∃ d', serve E mem (asynSuccess, addr) (WriteOctet f name nChars false)
             (at_depth 1 (w_drv (sy_world x))) = (UB NullDeref, d')).
Proof.
  intros HE Htext Hev Hdet Ec Hx. split.
  - intros mem addr r Hr Hs. by eapply serve_served.
  - intros. destruct Hx as [ls' Hrun].
    pose proof (constructor_driver_ok _ _ _ _ _ _ Hev Hdet Ec) as Hok.
    pose proof (driver_ok_depth _ 1 (run_driver_ok E HE _ _ _ Hok Hrun)) as [Hm _].
    by eapply serve_no_memory.
Qed.
End requests.

(** Files of transformations, beside those of the session. *)
Definition request_env : environment (map_lib param) :=
  Environment sample_codes (sample_net true) sample_pool
    (λ name, if decide (name = "det1.dspace") then factor_fs name else sample_fs name)
    line_length sample_base.

Definition copy_fails : memory := λ k _ _, bool_decide (k = 0%nat).

(** A file name in a driver that has just been constructed, and the name of a
    transformation file for whose copy there is no memory. *)
Lemma requests_served_witness :
  (∃ st d', serve request_env copy_fails (asynSuccess, 1)
      (WriteOctet ADnEDDetPixelMapFileParam "det1.map" 8 false)
      (at_depth 1 (w_drv (sy_world (sys_new sample_ctor)))) = (Ok st, d') ∧
    memory_ok d' ∧ config_ok (params d')) ∧
  ∃ d', serve request_env copy_fails (asynSuccess, 1)
      (WriteOctet ADnEDDetTOFTransFile0Param "det1.dspace" 11 false)
      (at_depth 1 (w_drv (sy_world (sys_new sample_ctor)))) = (UB NullDeref, d').
Proof.
  destruct (requests_served request_env map_lib_empty (Stamp 0 0 0) 0 (replicate n_dets1 0) true
    sample_ctor (sys_new sample_ctor)) as [Hserved Hfault].
  - split; [apply sample_env_ok|apply sample_env_ok].
  - intros name stream. unfold request_env. cbn. case_decide; [|apply sample_text].
    unfold factor_fs. rewrite decide_True by done. intros [= <-].
    refine (bool_decide_unpack _ _). vm_compute. exact I.
  - done.
  - by apply words_replicate.
  - exact sample_ctor_run.
  - exists []. constructor.
  - split.
    + apply Hserved; [split; [intros _; cbn; unfold ADNED_MAX_DETS; lia|done]|].
      split; [done|]. split; [cbn; lia|]. by intros [? ?].
    + apply (Hfault copy_fails 1 _ 0 "det1.dspace" 11 sample_factors [f_of_Z 3; f_of_Z 1]); try done.
      * cbn. lia.
      * repeat constructor; apply (bool_decide_unpack _); vm_compute; exact I.
Defined.
