(* ===== verification/Start.v ===== *)
(** * The start of an acquisition

    Proves that a start leads to an acquisition when the configuration, the memory
    and the network allow it: the buffer is laid out and cleared, every channel
    listens to its process variable, and the frame task is told to start. *)

From stdpp Require Import base numbers list option strings.
From S2P Require Import Prelude Float64 Params Transform Driver Sample Alloc Ops Write.
From S2P Require Import WriteTheorems Event Channel Tasks System TaskTheorems.

Local Open Scope Z_scope.

Section start.
Context {L TS : Type} {PL : ParamLib param L} {DL : DriverLib L} {TL : TimeStampLib TS}.
Context (codes : ADStatus_t) (calloc_ok : Z → Z → bool) (net : network).
Local Abbreviation D := (driver L TS transform).
Local Abbreviation W := (world L TS transform).

Lemma wp_on_drv {A} (m : M D A) Q E (w : W) :
  wp m (λ a d, Q a (World d (w_pva w))) (λ e d, E e (World d (w_pva w))) (w_drv w) →
  wp (on_drv m) Q E w.
Proof. unfold wp, on_drv. by destruct (m (w_drv w)) as [[] ?]. Qed.

Lemma wp_on_pva {A} (m : M pva A) Q E (w : W) :
  wp m (λ a p, Q a (World (w_drv w) p)) (λ e p, E e (World (w_drv w) p)) (w_pva w) →
  wp (on_pva m) Q E w.
Proof. unfold wp, on_pva. by destruct (m (w_pva w)) as [[] ?]. Qed.

(** A call of the driver whose outcome is known. *)
Lemma wp_drv_run {A B} (m : M D A) (k : A → M W B) a d d' p Q E :
  m d = (Ok a, d') → wp (k a) Q E (World d' p) → wp (on_drv m ≫= k) Q E (World d p).
Proof. intros Em Hk. wp_step. apply wp_on_drv. unfold wp at 1. cbn [w_drv]. by rewrite Em. Qed.

(** ** What a start needs *)

(** A buffer of the declared size. *)
Definition buffered (d : D) : Prop :=
  ∃ data, p_Data d = Some data ∧ Z.of_nat (length data) = m_bufferMaxSize d.

Definition cleared (d : D) : Prop :=
  p_Data d = Some (replicate (Z.to_nat (m_bufferMaxSize d)) 0).

(** The buffer is there, or it can be allocated. *)
Definition alloc_ready (d : D) : Prop :=
  (m_dataAlloc d = false ∧ buffered d) ∨
  (m_dataAlloc d = true ∧ (∀ n, calloc_ok n 4 = true) ∧
   ∃ numDet tofMax pstart pend psize, alloc_pre (params d) numDet tofMax pstart pend psize).

(** The name of the channel [chan] is [name]. *)
Definition name_is (d : D) (chan : Z) (name : string) : Prop :=
  ∀ old, getStringParam (params d) chan ADnEDPVNameParam old = name.

(** A name for which a channel is connected, and which fits the array of names. *)
Definition name_used (name : string) : Prop :=
  name_wanted name = true ∧ (String.length name < Z.to_nat ADNED_MAX_STRING_SIZE)%nat.

Lemma substring_all s : ∀ n, (String.length s <= n)%nat → String.substring 0 n s = s.
Proof.
  induction s as [|c s IH]; intros [|n] Hn; cbn in *; try done; [lia|]. rewrite IH; [done|lia].
Qed.

#[export] Instance name_used_dec name : Decision (name_used name).
Proof. unfold name_used. apply _. Defined.

Record start_ready (d : D) (n : Z) (name : Z → string) : Prop := {
  sr_alloc : alloc_ready d;
  sr_range : 0 <= n <= ADNED_MAX_CHANNELS;
  sr_channels : int_is (params d) 0 ADnEDNumChannelsParam n;
  sr_names chan : 0 <= chan < n → name_is d chan (name chan);
  sr_wanted chan : 0 <= chan < n → name_used (name chan)
}.

(** Nothing in a start changes the names. *)
Definition same_names (d d' : D) : Prop := ∀ chan name, name_is d chan name → name_is d' chan name.

#[local] Instance same_names_preorder : PreOrder same_names.
Proof. split; [by intros d chan name|]. intros d1 d2 d3 H1 H2 chan name ?. by apply H2, H1. Qed.

Lemma names_setInt a p v : p ≠ ADnEDPVNameParam → stable same_names (setInt a p v : M D _).
Proof.
  intros Hp s x s' [= _ <-] chan name Hn old. destruct s; cbn in *.
  destruct (setIntegerParam_frame params a p v chan ADnEDPVNameParam ltac:(congruence)) as (_ & _ & ->).
  apply Hn.
Qed.

Lemma names_setString a p v : p ≠ ADnEDPVNameParam → stable same_names (setString a p v : M D _).
Proof.
  intros Hp s x s' [= _ <-] chan name Hn old. destruct s; cbn in *.
  destruct (setStringParam_frame params a p v chan ADnEDPVNameParam ltac:(congruence)) as (_ & _ & ->).
  apply Hn.
Qed.

Lemma names_allocArray : stable same_names (allocArray calloc_ok : M D _).
Proof.
  unfold allocArray, alloc_det, det_size, publish_pix, alloc_tof, alloc_buffer.
  stable_split ltac:(idtac; lazymatch goal with
    | |- stable _ (setInt _ _ _) => by apply names_setInt
    | |- stable _ _ => apply stable_pure; intros []; by intros chan name Hn old
    end).
Qed.

Lemma wp_allocated (d : D) :
  alloc_ready d → wp_ok (allocArray calloc_ok) (λ st d', st = asynSuccess ∧ buffered d') d.
Proof.
  intros [[Hda Hb]|(Hda & Hc & numDet & tofMax & pstart & pend & psize & Hpre)].
  - unfold wp_ok, allocArray. wp_steps. rewrite Hda. cbn [negb]. by wp_steps.
  - eapply wp_mono; [by eapply allocArray_layout| |done].
    intros st d' (-> & Hlay & _). split; [done|]. apply (lay_data _ _ _ _ Hlay).
Qed.

(** ** The parts of a start *)

Lemma clear_data_buffered (d : D) :
  buffered d →
  clear_data d = (Ok (), on_p_Data (λ _, Some (replicate (Z.to_nat (m_bufferMaxSize d)) 0)) d).
Proof.
  intros (data & Hd & Hlen). unfold clear_data, mbind, M_bind, gets. cbn. rewrite Hd.
  unfold zero_words. rewrite decide_True by lia. cbn. rewrite <-Hlen, Nat2Z.id, Z.add_0_l, Nat2Z.id.
  by rewrite drop_all, app_nil_r.
Qed.

Lemma wp_read_names (d : D) n names name :
  0 <= n <= ADNED_MAX_CHANNELS → length names = Z.to_nat ADNED_MAX_CHANNELS →
  (∀ chan, 0 <= chan < n → name_is d chan (name chan)) →
  (∀ chan, 0 <= chan < n → name_used (name chan)) →
  wp_ok (read_names n names)
    (λ names' d', d' = d ∧ ∀ chan, 0 <= chan < n → rd names' chan = Some (name chan)) d.
Proof.
  intros Hn Hlen Hname Hused.
  eapply wp_mono; [apply (wp_for_acc_range 0 n names _ (λ i names' d', d' = d ∧
    length names' = Z.to_nat ADNED_MAX_CHANNELS ∧
    ∀ chan, 0 <= chan < i → rd names' chan = Some (name chan)) (λ _ _, False))| |done].
  - lia.
  - split_and!; [done..|lia].
  - intros i names' d' Hi (-> & Hl & Hr). unfold getString. wp_steps.
    rewrite (Hname i ltac:(lia) (default EmptyString (rd names' i))).
    split_and!; [done|by rewrite length_upd|]. intros chan Hc.
    destruct (decide (chan = i)) as [-> |]; [|by rewrite rd_upd_ne by lia; apply Hr; lia].
    destruct (Hused i ltac:(lia)) as [_ Hfit].
    rewrite substring_all by (unfold ADNED_MAX_STRING_SIZE in *; lia).
    apply rd_upd_eq. unfold in_bounds. unfold ADNED_MAX_CHANNELS in *. lia.
  - cbn beta. intros names' d' (-> & _ & Hr). split; [done|]. intros chan Hc. by apply Hr.
Qed.

Lemma wp_connect_all (w : W) n names name :
  (∀ chan, 0 <= chan < n → net_up net (name chan)) → 0 <= n <= ADNED_MAX_CHANNELS → pva_ok (w_pva w) →
  (∀ chan, 0 <= chan < n → rd names chan = Some (name chan) ∧ name_used (name chan)) →
  wp_ok (connect_all codes net n names)
    (λ error w', error = false ∧ w_drv w' = w_drv w ∧
       ∀ chan, 0 <= chan < n → listening (w_pva w') chan (name chan)) w.
Proof.
  intros Hnet Hn Hok Hname. unfold wp_ok, connect_all. wp_steps.
  eapply wp_mono; [apply (wp_for_range 0 n _ (λ i w', w_drv w' = w_drv w ∧ pva_ok (w_pva w') ∧
    ∀ chan, 0 <= chan < i → listening (w_pva w') chan (name chan)) (λ _ _, False))| |done].
  - lia.
  - split_and!; [done..|lia].
  - intros i w1 Hi (Hw & Hok1 & Hl). destruct (Hname i ltac:(lia)) as [Hrd [Hw' _]]. pose proof (Hnet i ltac:(lia)) as Hup.
    rewrite Hrd. cbn [from_option id]. rewrite Hw'. wp_step. apply wp_on_pva.
    eapply wp_mono; [apply wp_setupChannelMonitor; [lia| |done]| |by intros ?? Hdown; apply Hdown].
    { intros k. by rewrite (up_channel _ _ Hup). }
    intros st p (-> & Hok2 & [Hl2|(_ & k & Hk)] & Hkeep); [|by rewrite (up_monitor _ _ Hup) in Hk]. rewrite decide_False by tauto. wp_step.
    split_and!; [done..|]. intros chan Hc.
    destruct (decide (chan = i)) as [-> |]; [done|]. apply Hkeep; [lia|done|]. apply Hl. lia.
  - intros [] w1 (Hw & _ & Hl). wp_step. by split_and!.
Qed.

Lemma wp_start_all (w : W) n name :
  0 <= n → (∀ chan, 0 <= chan < n → listening (w_pva w) chan (name chan)) →
  wp_ok (for_ (seqZ 0 n) (λ chan, on_pva (set_started true chan)))
    (λ _ w', w_drv w' = w_drv w ∧
       ∀ chan, 0 <= chan < n → receiving (w_pva w') chan (name chan)) w.
Proof.
  intros Hn Hl.
  eapply wp_mono; [apply (wp_for_range 0 n _ (λ i w', w_drv w' = w_drv w ∧
    (∀ chan, 0 <= chan < i → receiving (w_pva w') chan (name chan)) ∧
    (∀ chan, i <= chan < n → listening (w_pva w') chan (name chan))) (λ _ _, False))| |done].
  - lia.
  - split_and!; [done|lia|done].
  - intros i w1 Hi (Hw & Hr & Hl1). apply wp_on_pva.
    eapply wp_mono; [apply wp_set_started, Hl1; lia| |done].
    intros [] p [Hi' Hk]. split_and!; [done| |].
    + intros chan Hc. destruct (decide (chan = i)) as [-> |]; [done|].
      apply (Hk chan); [done|]. apply Hr. lia.
    + intros chan Hc. apply (Hk chan); [lia|]. apply Hl1. lia.
  - intros [] w1 (Hw & Hr & _). split; [done|]. intros chan Hc. apply Hr. lia.
Qed.

(** The driver after the status and the signal to the frame task. *)
Lemma setup_state (d : D) :
  let d1 := on_p_Data (λ _, Some (replicate (Z.to_nat (m_bufferMaxSize d)) 0)) d in
  let d2 := on_params (λ l, (setIntegerParam l 0 ADStatus (ADStatusAcquire codes)).2) d1 in
  let d3 := on_params (λ l, (setStringParam l 0 ADStatusMessage "Acquiring Events").2) d2 in
  let d4 := on_m_startFrame (λ _, true) d3 in
  cleared d4 ∧ ad_status d4 = ADStatusAcquire codes ∧ m_startFrame d4 = true ∧ same_names d d4.
Proof.
  destruct d. cbn. unfold cleared, ad_status. cbn. split_and!; try done.
  - rewrite get_int_set_string by congruence. by rewrite driver_get_set_int, decide_True.
  - intros chan name Hn old. cbn.
    edestruct (setStringParam_frame (P := param) (L := L)) as (_ & _ & ->); [congruence|].
    edestruct (setIntegerParam_frame (P := param) (L := L)) as (_ & _ & ->); [congruence|]. apply Hn.
Qed.

(** After a successful allocation the start cannot fail. *)
Lemma wp_event_setup (d : D) p n names name :
  start_ready d n name → length names = Z.to_nat ADNED_MAX_CHANNELS → pva_ok p →
  (∀ chan, 0 <= chan < n → net_up net (name chan)) →
  wp_ok (event_setup codes calloc_ok net n names)
    (λ r w', r.1 = false ∧ cleared (w_drv w') ∧ ad_status (w_drv w') = ADStatusAcquire codes ∧
       m_startFrame (w_drv w') = true ∧
       ∀ chan, 0 <= chan < n → receiving (w_pva w') chan (name chan)) (World d p).
Proof.
  intros [Halloc Hn Hch Hname Hwanted] Hlen Hok Hnet. unfold wp_ok, event_setup. wp_step.
  apply wp_on_drv. eapply wp_mono; [apply wp_stable; [apply names_allocArray|by apply wp_allocated]| |done].
  intros st d1 [[-> Hb] Hsame1]. rewrite decide_False by tauto. cbn [w_pva].
  eapply wp_drv_run; [by apply clear_data_buffered|].
  do 3 (eapply wp_drv_run; [reflexivity|]).
  set (d3 := on_m_startFrame _ _).
  assert (cleared d3 ∧ ad_status d3 = ADStatusAcquire codes ∧ m_startFrame d3 = true ∧
    same_names d1 d3) as (Hc3 & Hs3 & Hf3 & Hn3) by (unfold d3; apply setup_state).
  wp_step. apply wp_on_drv. eapply wp_mono; [apply (wp_read_names d3 n names name); try done| |done].
  { intros chan Hc. by apply Hn3, Hsame1, Hname. }
  intros names' d4 [-> Hnames]. wp_step. cbn [w_pva].
  eapply wp_mono; [apply (wp_connect_all (World d3 p) n names' name); auto| |done].
  intros error w1 (-> & Hw1 & Hl). wp_step. eapply wp_mono; [apply (wp_start_all w1 n name); [lia|done]| |done].
  intros [] w2 [Hw2 Hr]. wp_step. by rewrite Hw2, Hw1.
Qed.

Lemma wp_start t (d : D) p n name :
  e_pc t = EvWaitStart → length (e_pvName t) = Z.to_nat ADNED_MAX_CHANNELS →
  start_ready d n name → pva_ok p →
  (∀ chan, 0 <= chan < n → net_up net (name chan)) →
  wp_ok (event_step codes calloc_ok net t true)
    (λ t' w', e_pc t' = EvAcquire ∧ e_error t' = false ∧ e_numChannels t' = n ∧
       ad_status (w_drv w') = ADStatusAcquire codes ∧ cleared (w_drv w') ∧
       m_startFrame (w_drv w') = true ∧ int_is (params (w_drv w')) 0 ADnEDStartParam 0 ∧
       ∀ chan, 0 <= chan < n → receiving (w_pva w') chan (name chan)) (World d p).
Proof.
  intros Hpc Hlen Hready Hok Hnet. unfold wp_ok, event_step. rewrite Hpc. wp_step.
  eapply wp_drv_run; [reflexivity|]. eapply wp_drv_run; [reflexivity|].
  replace (getIntegerParam _ _ _ _) with n by (destruct d; symmetry; apply (sr_channels _ _ _ Hready)).
  rewrite Z.min_l by apply Hready. wp_step.
  eapply wp_mono; [apply (wp_event_setup _ p n (e_pvName t) name); [destruct d, Hready; by split|done..]| |done].
  intros [error names'] [d1 p1] (Herr & Hc & Hs & Hf & Hr). cbn in Herr. subst error. wp_steps. cbn.
  destruct d1; cbn in *.
  split_and!; try done.
  - unfold ad_status in *. cbn in *. by rewrite get_set_int_ne by congruence.
  - intros old. cbn. by rewrite driver_get_set_int, decide_True.
Qed.

(** C39: a start succeeds.  When the buffer is there or can be allocated for the
    configuration, every channel in use has a name that fits and that PVAccess connects, the step
    of the event task after a start signal ends in the acquisition loop: the status is
    Acquire, the buffer holds zeros, the frame task is told to start, the start command
    is complete, and every channel receives from the process variable of its name. *)
Theorem start_succeeds t (d : D) p n name :
  e_pc t = EvWaitStart → length (e_pvName t) = Z.to_nat ADNED_MAX_CHANNELS →
  start_ready d n name → pva_ok p →
  (∀ chan, 0 <= chan < n → net_up net (name chan)) →
  wp_ok (event_step codes calloc_ok net t true)
    (λ t' w', e_pc t' = EvAcquire ∧ e_error t' = false ∧ e_numChannels t' = n ∧
       ad_status (w_drv w') = ADStatusAcquire codes ∧ cleared (w_drv w') ∧
       m_startFrame (w_drv w') = true ∧ int_is (params (w_drv w')) 0 ADnEDStartParam 0 ∧
       ∀ chan, 0 <= chan < n → receiving (w_pva w') chan (name chan)) (World d p).
Proof. apply wp_start. Qed.
End start.

(** ** A concrete start *)

Lemma sample_start_ready : start_ready calloc_always sample_idle 1 (λ _, "BL1:A").
Proof.
  split.
  - right. split; [done|]. split; [done|]. exists 2, 5, (λ d, if decide (d = 1) then 10 else 20),
      (λ d, if decide (d = 1) then 13 else 21), (λ _, 0).
    split; try done.
    1-3: intros d Hd old; assert (d = 1 ∨ d = 2) as [-> | ->] by lia; by vm_compute.
    intros d Hd. case_decide; lia.
  - unfold ADNED_MAX_CHANNELS. lia.
  - done.
  - intros chan Hc old. assert (chan = 0) as -> by lia. done.
  - intros chan Hc. apply (bool_decide_unpack _). vm_compute. exact I.
Qed.

Lemma start_succeeds_witness :
  wp_ok (event_step sample_codes calloc_always (sample_net true)
           {| event_task_new with e_pc := EvWaitStart |} true)
    (λ t' w', e_pc t' = EvAcquire ∧ e_error t' = false ∧ e_numChannels t' = 1 ∧
       ad_status (w_drv w') = ADStatusAcquire sample_codes ∧ cleared (w_drv w') ∧
       m_startFrame (w_drv w') = true ∧ int_is (params (w_drv w')) 0 ADnEDStartParam 0 ∧
       ∀ chan, 0 <= chan < 1 → receiving (w_pva w') chan "BL1:A") (World sample_idle pva_new).
Proof.
  apply (start_succeeds sample_codes calloc_always (sample_net true) _ sample_idle pva_new 1
    (λ _, "BL1:A")); [reflexivity|reflexivity|apply sample_start_ready|apply pva_new_ok|intros; apply sample_net_up].
Defined.
