(* ===== verification/Ioc.v ===== *)
(** * The start of the IOC

    The commands of the IOC shell (ADnED.cpp, ADnEDPluginMask.cpp and
    ADnEDPixelROI.cpp), and the constructor of ADnED as a whole: the base class, the
    events, the members, the two threads, the requesters of nEDChannel.h, the initial
    parameters and the transformation objects, with its early returns.

    The shell, the threads and the memory are not part of this repository: [host] says
    what they answer.  [new] either succeeds or throws. *)

From stdpp Require Import base numbers list option strings.
From S2P Require Import Prelude Float64 Params Transform Driver Sample Ops Write Names.
From S2P Require Import Mask PixelROI Channel Tasks System TaskTheorems Init Invariant.

Local Open Scope Z_scope.

(** ** The requesters of nEDChannel.h

    An [Event] is a flag, as in Channel.v, where [channel_event] and [monitor_event]
    are the [m_connectEvent] of the requesters. *)

Record nEDChannelRequester : Type := ChannelRequester {
  cr_requesterName : string;
  cr_connectEvent : bool
}.

Record nEDMonitorRequester : Type := MonitorRequester {
  mr_connectEvent : bool;
  mr_requesterName : string;
  mr_doneEvent : bool;
  mr_channelID : Z
}.

Definition nEDChannelRequester_new (requester_name : string) : nEDChannelRequester :=
  ChannelRequester requester_name false.

Definition nEDMonitorRequester_new (requester_name : string) (channelID : Z) : nEDMonitorRequester :=
  MonitorRequester false requester_name false (u32 channelID).

Definition getRequesterName (r : nEDChannelRequester) : string := cr_requesterName r.

Definition monitor_getRequesterName (r : nEDMonitorRequester) : string := mr_requesterName r.

(** A wait without a timeout; [None] when it never ends.  Nothing in the sources signals
    [m_doneEvent], and nothing calls this. *)
Definition waitUntilDone (r : nEDMonitorRequester) : option bool :=
  if mr_doneEvent r then Some true else None.

(** ** What the host answers *)

Record host (L : Type) : Type := Host {
  (** The constructor of ADDriver with the parameters of the driver created, from
      portName, maxAddr, numParams, maxBuffers and maxMemory; [None]: it throws. *)
  ho_ADDriver : string → Z → Z → Z → Z → option L;
  (** The [n]-th event and the [n]-th thread are created. *)
  ho_event : Z → bool;
  ho_thread : Z → bool;
  (** The [n]-th object is allocated, or [new] throws. *)
  ho_new : nat → bool
}.
Arguments Host {L}.
Arguments ho_ADDriver {L}.
Arguments ho_event {L}.
Arguments ho_thread {L}.
Arguments ho_new {L}.

(** ** The constructor *)

Record made (L TS : Type) : Type := Made {
  md_drv : driver L TS transform;
  md_pva : pva;
  md_debug : Z;
  md_channelRequester : option nEDChannelRequester;
  md_monitorRequesters : list (option nEDMonitorRequester);
  md_eventTask : bool;
  md_frameTask : bool;
  md_news : nat
}.
Arguments Made {L TS}.
Arguments md_drv {L TS}.
Arguments md_pva {L TS}.
Arguments md_debug {L TS}.
Arguments md_channelRequester {L TS}.
Arguments md_monitorRequesters {L TS}.
Arguments md_eventTask {L TS}.
Arguments md_frameTask {L TS}.
Arguments md_news {L TS}.

Section constructor.
Context {L TS : Type} {PL : ParamLib param L} {TL : TimeStampLib TS}.
Context (H : host L) (ts0 : TS) (events0 : Z) (det_events0 : list Z).
Local Abbreviation D := (driver L TS transform).
Local Abbreviation made := (made L TS).

(** The object before the body of the constructor: the pointers to the transformations
    are not set.  The other members get their values after the events are created; they
    stand here from the start, as nothing reads them before. *)
Definition ADnED_raw (l : L) (debug : Z) : made :=
  Made (on_p_Transform (λ _, replicate n_dets1 None)
          (ADnED_members l ts0 events0 det_events0 ADnEDTransformBase))
    {| pva_new with p_ChannelRequester := false |} (u32 debug) None
    (replicate (Z.to_nat ADNED_MAX_CHANNELS) None) false false 0.

Definition create_event (n : Z) : M made bool := mret (ho_event H n).

Definition alloc_new : M made () :=
  n ← gets md_news;
  modify (λ m, {| m with md_news := S n |}) ;;
  if ho_new H n then mret () else throw "std::bad_alloc".

Definition new_channel_requester : M made () :=
  alloc_new ;;
  modify (λ m, {| m with md_channelRequester := Some (nEDChannelRequester_new "ADnED Channel");
                         md_pva := {| (md_pva m) with p_ChannelRequester := true |} |}).

Definition new_monitor_requester (channel : Z) : M made () :=
  alloc_new ;;
  modify (λ m, {| m with md_monitorRequesters :=
    upd (md_monitorRequesters m) channel (Some (nEDMonitorRequester_new "ADnED Monitor" channel)) |}).

Definition new_transform (det : Z) : M made () :=
  alloc_new ;;
  modify (λ m, {| m with md_drv := on_p_Transform (λ l, upd l det (Some ADnEDTransformBase)) (md_drv m) |}).

Definition on_made {A} (m : M D A) : M made A := λ s,
  let '(o, d) := m (md_drv s) in (o, {| s with md_drv := d |}).

(** The body; [mret ()] in a branch is a [return]. *)
Definition ADnED_body : M made () :=
  events ← for_return (seqZ 0 4) create_event;
  if negb events then mret ()
  else if negb (ho_thread H 0) then mret ()
  else
    modify (λ m, {| m with md_eventTask := true |}) ;;
    if negb (ho_thread H 1) then mret ()
    else
      modify (λ m, {| m with md_frameTask := true |}) ;;
      new_channel_requester ;;
      for_ (seqZ 0 ADNED_MAX_CHANNELS) new_monitor_requester ;;
      on_made ctor_params ;;
      for_ (seqZ 1 ADNED_MAX_DETS) new_transform.

(** [new ADnED(...)] *)
Definition ADnED (portName : string) (maxBuffers maxMemory debug : Z) : outcome made :=
  match ho_ADDriver H portName (ADNED_MAX_DETS + 1) NUM_DRIVER_PARAMS maxBuffers maxMemory with
  | None => Throw "ADDriver"
  | Some l =>
      match ADnED_body (ADnED_raw l debug) with
      | (Ok _, m) => Ok m
      | (Throw e, _) => Throw e
      | (UB f, _) => UB f
      end
  end.

(** ** The shell commands *)

(** The status and the object, when there is one. *)
Definition ADnEDConfig (portName : string) (maxBuffers maxMemory debug : Z)
    : outcome (asynStatus * option made) :=
  match ADnED portName maxBuffers maxMemory debug with
  | Ok m => Ok (asynSuccess, Some m)
  | Throw _ => Ok (asynError, None)
  | UB f => UB f
  end.
End constructor.

(** How [ClientFactory::start] ends. *)
Inductive start_result : Type := Started | StdException | OtherException.

(** Only exceptions of [std::exception] are caught. *)
Definition createFactory (start : start_result) : outcome asynStatus :=
  match start with
  | Started => Ok asynSuccess
  | StdException => Ok asynError
  | OtherException => Throw "ClientFactory::start"
  end.

Definition ADnEDCreateFactory (start : start_result) : outcome asynStatus := createFactory start.

Inductive iocshArgType : Type := iocshArgString | iocshArgInt.

Record iocshFuncDef : Type := FuncDef { fd_name : string; fd_args : list (string * iocshArgType) }.

Definition configADnED : iocshFuncDef :=
  FuncDef "ADnEDConfig"
    [("Port name", iocshArgString); ("Max Buffers", iocshArgInt); ("Max Memory", iocshArgInt);
     ("Debug", iocshArgInt)].

Definition configADnEDCreateFactory : iocshFuncDef := FuncDef "ADnEDCreateFactory" [].

Definition mask_initFuncDef : iocshFuncDef :=
  FuncDef "NDMaskConfigure"
    [("portName", iocshArgString); ("frame queue size", iocshArgInt);
     ("blocking callbacks", iocshArgInt); ("NDArrayPort", iocshArgString);
     ("NDArrayAddr", iocshArgInt); ("maxMasks", iocshArgInt); ("maxBuffers", iocshArgInt);
     ("maxMemory", iocshArgInt); ("priority", iocshArgInt); ("stackSize", iocshArgInt)].

Definition roi_initFuncDef : iocshFuncDef :=
  FuncDef "ADnEDPixelROIConfig"
    [("portName", iocshArgString); ("frame queue size", iocshArgInt);
     ("blocking callbacks", iocshArgInt); ("NDArrayPort", iocshArgString);
     ("NDArrayAddr", iocshArgInt); ("maxBuffers", iocshArgInt); ("maxMemory", iocshArgInt);
     ("priority", iocshArgInt); ("stackSize", iocshArgInt)].

(** An element of [iocshArgBuf]; the shell converts each argument to its declared type. *)
Inductive shell_value : Type := SVal (s : string) | IVal (i : Z).

Definition has_type (v : shell_value) (a : string * iocshArgType) : Prop :=
  match v, a.2 with SVal _, iocshArgString => True | IVal i, iocshArgInt => is_i32 i | _, _ => False end.

(** Reading another member of the union than the one the shell stored, or past the
    declared arguments. *)
Definition sval (args : list shell_value) (k : Z) : outcome string :=
  match rd args k with Some (SVal s) => Ok s | _ => UB OutOfBounds end.

Definition ival (args : list shell_value) (k : Z) : outcome Z :=
  match rd args k with Some (IVal i) => Ok i | _ => UB OutOfBounds end.

Section commands.
Context {L TS : Type} {PL : ParamLib param L} {TL : TimeStampLib TS}.
Context (H : host L) (ts0 : TS) (events0 : Z) (det_events0 : list Z).

(** [maxMemory] is a [size_t]. *)
Definition configADnEDCallFunc (args : list shell_value)
    : outcome (asynStatus * option (made L TS)) :=
  portName ← sval args 0; maxBuffers ← ival args 1; maxMemory ← ival args 2; debug ← ival args 3;
  ADnEDConfig H ts0 events0 det_events0 portName maxBuffers (u64 maxMemory) debug.
End commands.

(** The arguments of the two plug-in commands, and the constructor of NDPluginDriver. *)
Record plugin_args : Type := PluginArgs {
  pa_portName : string; pa_queueSize : Z; pa_blockingCallbacks : Z;
  pa_NDArrayPort : string; pa_NDArrayAddr : Z; pa_maxAddr : Z;
  pa_maxBuffers : Z; pa_maxMemory : Z; pa_priority : Z; pa_stackSize : Z
}.

Section plugins.
Context {L : Type} {ML : ParamLib mask_param L} {RL : ParamLib roi_param L}.
Context (NDPluginDriver : plugin_args → option L).

Definition NDMaskConfigure (a : plugin_args) : outcome (asynStatus * mask_plugin L) :=
  match NDPluginDriver a with
  | Some l => Ok (asynSuccess, NDPluginMask_new l (pa_maxAddr a))
  | None => Throw "NDPluginDriver"
  end.

Definition mask_initCallFunc (args : list shell_value) : outcome (asynStatus * mask_plugin L) :=
  portName ← sval args 0; queueSize ← ival args 1; blocking ← ival args 2;
  arrayPort ← sval args 3; arrayAddr ← ival args 4; maxMasks ← ival args 5;
  maxBuffers ← ival args 6; maxMemory ← ival args 7; priority ← ival args 8; stackSize ← ival args 9;
  NDMaskConfigure (PluginArgs portName queueSize blocking arrayPort arrayAddr maxMasks maxBuffers
    (u64 maxMemory) priority stackSize).

Definition ADnEDPixelROIConfig (a : plugin_args) : outcome (asynStatus * roi_plugin L) :=
  match NDPluginDriver a with
  | Some l => Ok (asynSuccess, ADnEDPixelROI_new l)
  | None => Throw "NDPluginDriver"
  end.

(** One address. *)
Definition roi_initCallFunc (args : list shell_value) : outcome (asynStatus * roi_plugin L) :=
  portName ← sval args 0; queueSize ← ival args 1; blocking ← ival args 2;
  arrayPort ← sval args 3; arrayAddr ← ival args 4; maxBuffers ← ival args 5;
  maxMemory ← ival args 6; priority ← ival args 7; stackSize ← ival args 8;
  ADnEDPixelROIConfig (PluginArgs portName queueSize blocking arrayPort arrayAddr 1 maxBuffers
    (u64 maxMemory) priority stackSize).
End plugins.

(** ADnEDMain.cpp *)
Inductive ioc_action : Type := IocShell (script : option string) | IocSleep | IocExit (code : Z).

Definition main (argv : list string) : list ioc_action :=
  (match argv !! 1%nat with Some script => [IocShell (Some script); IocSleep] | None => [] end)
  ++ [IocShell None; IocExit 0].

(** ** Theorems *)

Section outcome.
Context {L TS : Type} {PL : ParamLib param L} {DL : DriverLib L} {TL : TimeStampLib TS}.
Local Abbreviation D := (driver L TS transform).

(** A write of the constructor does not depend on the transformation objects. *)
Definition commutes {A} (m : M D A) : Prop :=
  ∀ g s, m (on_p_Transform g s) = ((m s).1, on_p_Transform g (m s).2).

Lemma commutes_set_all ws : Forall commutes ws → commutes (set_all ws : M D bool).
Proof.
  unfold set_all. generalize true. intros b Hws g s. revert b s.
  induction Hws as [|w ws Hw _ IH]; intros b s; [done|].
  cbn [for_acc]. unfold mbind, M_bind. rewrite Hw. destruct (w s) as [[st|e|u] s1]; cbn; [|done..].
  apply IH.
Qed.

Lemma commutes_ctor : commutes (ctor_params : M D bool).
Proof.
  apply commutes_set_all. unfold ctor_writes.
  apply Forall_app_2; [each_write ltac:(by intros g [])|apply Forall_app_2];
    [|each_write ltac:(by intros g [])].
  apply Forall_concat, Forall_fmap, Forall_forall. intros det _. cbn.
  each_write ltac:(by intros g []).
Qed.
End outcome.

(** The arguments a command declares are the ones it reads. *)
Ltac typed_arguments HF :=
  cbn in HF;
  repeat (apply Forall2_cons_inv_r in HF as ([] & ? & ? & HF & ->); cbn in *; [try done..|try done]);
  apply Forall2_nil_inv_r in HF as ->.

Section plugin_commands.
Context {L : Type} {ML : ParamLib mask_param L} {RL : ParamLib roi_param L}.
Context (NDPluginDriver : plugin_args → option L).

Lemma mask_command args :
  Forall2 has_type args (fd_args mask_initFuncDef) →
  ∃ a, mask_initCallFunc NDPluginDriver args = NDMaskConfigure NDPluginDriver a ∧ is_i32 (pa_maxAddr a).
Proof. intros HF. typed_arguments HF. by eexists. Qed.

Lemma roi_command args :
  Forall2 has_type args (fd_args roi_initFuncDef) →
  ∃ a, roi_initCallFunc NDPluginDriver args = ADnEDPixelROIConfig NDPluginDriver a ∧ pa_maxAddr a = 1.
Proof. intros HF. typed_arguments HF. by eexists. Qed.
End plugin_commands.

Section ioc.
Context {L TS : Type} {PL : ParamLib param L} {DL : DriverLib L} {TL : TimeStampLib TS}.
Context (H : host L) (ts0 : TS) (events0 : Z) (det_events0 : list Z).
Local Abbreviation D := (driver L TS transform).
Local Abbreviation made := (made L TS).

(** Everything the body of the constructor asks of the host before the objects. *)
Definition threads_ok : Prop :=
  (∀ n, 0 <= n < 4 → ho_event H n = true) ∧ ho_thread H 0 = true ∧ ho_thread H 1 = true.

Lemma events_created (m : made) :
  for_return (seqZ 0 4) (create_event H) m
  = (Ok (ho_event H 0 && ho_event H 1 && ho_event H 2 && ho_event H 3), m).
Proof.
  change (seqZ 0 4) with [0; 1; 2; 3]. unfold create_event. cbn.
  by destruct (ho_event H 0), (ho_event H 1), (ho_event H 2), (ho_event H 3).
Qed.

(** Every object of the constructor is allocated. *)
Definition memory_there : Prop := ∀ n, (n < 9)%nat → ho_new H n = true.

(** One allocation of the constructor: it is the [n]-th. *)
Lemma wp_alloc (Q : () → made → Prop) d pv dbg cr mr et ft n :
  (n < 9)%nat → (ho_new H n = true → Q () (Made d pv dbg cr mr et ft (S n))) →
  wp (alloc_new H) Q (λ _ _, ¬ memory_there) (Made d pv dbg cr mr et ft n).
Proof.
  intros Hlt HQ. unfold wp, alloc_new, mbind, M_bind, gets, modify. cbn.
  destruct (ho_new H n) eqn:En; [by apply HQ|]. intros Hall. by rewrite Hall in En.
Qed.

Lemma wp_new_channel (Q : () → made → Prop) d pv dbg cr mr et ft n :
  (n < 9)%nat →
  (ho_new H n = true → Q () (Made d {| pv with p_ChannelRequester := true |} dbg
          (Some (nEDChannelRequester_new "ADnED Channel")) mr et ft (S n))) →
  wp (new_channel_requester H) Q (λ _ _, ¬ memory_there) (Made d pv dbg cr mr et ft n).
Proof. intros Hlt HQ. apply wp_bind_2. by apply wp_alloc. Qed.

Lemma wp_new_monitor (Q : () → made → Prop) d pv dbg cr mr et ft n channel :
  (n < 9)%nat →
  (ho_new H n = true → Q () (Made d pv dbg cr
          (upd mr channel (Some (nEDMonitorRequester_new "ADnED Monitor" channel))) et ft (S n))) →
  wp (new_monitor_requester H channel) Q (λ _ _, ¬ memory_there) (Made d pv dbg cr mr et ft n).
Proof. intros Hlt HQ. apply wp_bind_2. by apply wp_alloc. Qed.

Lemma wp_new_transform (Q : () → made → Prop) d pv dbg cr mr et ft n det :
  (n < 9)%nat →
  (ho_new H n = true → Q () (Made (on_p_Transform (λ l, upd l det (Some ADnEDTransformBase)) d) pv dbg cr mr et ft (S n))) →
  wp (new_transform H det) Q (λ _ _, ¬ memory_there) (Made d pv dbg cr mr et ft n).
Proof. intros Hlt HQ. apply wp_bind_2. by apply wp_alloc. Qed.

Lemma wp_on_made {A} (k : M D A) (Q : A → made → Prop) Ex d pv dbg cr mr et ft n a d' :
  k d = (Ok a, d') → Q a (Made d' pv dbg cr mr et ft n) →
  wp (on_made k) Q Ex (Made d pv dbg cr mr et ft n).
Proof. intros Ek HQ. unfold wp, on_made. cbn. by rewrite Ek. Qed.

(** The body, when nothing it asks for before the objects is missing. *)
Lemma ADnED_body_run l debug (d : D) :
  threads_ok → ctor_params (ADnED_members l ts0 events0 det_events0 ADnEDTransformBase) = (Ok true, d) →
  p_Transform d = None :: replicate 4 (Some ADnEDTransformBase) →
  wp (ADnED_body H)
    (λ _ m, memory_there ∧ ∃ n, m = Made d pva_new (u32 debug)
       (Some (nEDChannelRequester_new "ADnED Channel"))
       ((λ ch, Some (nEDMonitorRequester_new "ADnED Monitor" ch)) <$> seqZ 0 ADNED_MAX_CHANNELS)
       true true n)
    (λ _ _, ¬ memory_there)
    (ADnED_raw ts0 events0 det_events0 l debug).
Proof.
  intros (Hev & Ht0 & Ht1) Ed Htr. unfold ADnED_body. apply wp_bind_2. unfold wp at 1.
  rewrite events_created, !Hev, Ht0, Ht1 by lia. cbn [andb negb].
  change (seqZ 0 ADNED_MAX_CHANNELS) with [0; 1; 2; 3].
  change (seqZ 1 ADNED_MAX_DETS) with [1; 2; 3; 4]. cbn [for_].
  unfold ADnED_raw. set (raw := on_p_Transform (λ _, replicate n_dets1 None)
    (ADnED_members l ts0 events0 det_events0 ADnEDTransformBase)).
  assert (ctor_params raw = (Ok true, on_p_Transform (λ _, replicate n_dets1 None) d)) as Eraw
    by (unfold raw; by rewrite commutes_ctor, Ed).
  clearbody raw.
  do 2 (apply wp_bind_2, wp_modify;
    cbn [md_drv md_pva md_debug md_channelRequester md_monitorRequesters md_frameTask md_news]).
  apply wp_bind_2, wp_new_channel; [lia|intros N0].
  apply wp_bind_2.
  do 4 (apply wp_bind_2, wp_new_monitor; [lia|intros ?]). apply wp_ret.
  apply wp_bind_2. eapply wp_on_made; [exact Eraw|].
  do 4 (apply wp_bind_2, wp_new_transform; [lia|intros ?]). apply wp_ret. split.
  { intros k Hk. by do 9 (destruct k as [|k]; [done|]); lia. }
  eexists. f_equal. destruct d; cbn in *. by rewrite Htr.
Qed.

(** The body, when an event or a thread is missing: it returns early. *)
Lemma ADnED_body_early l debug :
  ¬ threads_ok →
  ∃ et, ADnED_body H (ADnED_raw ts0 events0 det_events0 l debug)
    = (Ok (), {| (ADnED_raw ts0 events0 det_events0 l debug) with md_eventTask := et |}).
Proof.
  intros Hno. unfold ADnED_body, mbind, M_bind. rewrite events_created.
  destruct (ho_event H 0 && ho_event H 1 && ho_event H 2 && ho_event H 3) eqn:He; cbn;
    [|by exists false].
  destruct (ho_thread H 0) eqn:Ht0; cbn; [|by exists false].
  destruct (ho_thread H 1) eqn:Ht1; cbn; [|by exists true].
  rewrite !andb_true_iff in He. destruct He as (((? & ?) & ?) & ?).
  destruct Hno. split; [|done]. intros n Hn.
  by assert (n = 0 ∨ n = 1 ∨ n = 2 ∨ n = 3) as [-> |[-> |[-> | ->]]] by lia.
Qed.

(** No transformation of the object before the body is set. *)
Lemma raw_no_transform {A} (k : M transform A) (l : L) debug det :
  0 <= det <= ADNED_MAX_DETS →
  (with_transform det k (md_drv (ADnED_raw ts0 events0 det_events0 l debug) : D)).1
    = UB Uninitialised.
Proof.
  intros Hdet. unfold ADNED_MAX_DETS in Hdet.
  by assert (det = 0 ∨ det = 1 ∨ det = 2 ∨ det = 3 ∨ det = 4) as [-> |[-> |[-> |[-> | ->]]]] by lia.
Qed.

Lemma shell_arguments args :
  Forall2 has_type args (fd_args configADnED) →
  ∃ portName maxBuffers maxMemory debug,
    args = [SVal portName; IVal maxBuffers; IVal maxMemory; IVal debug].
Proof. intros HF. typed_arguments HF. naive_solver. Qed.
(** C16: the command ADnEDConfig of the shell, for arguments of its declared types.
    When the base class throws, or an object cannot be allocated, the command answers
    asynError.  When nothing fails it answers asynSuccess, with both tasks running, one
    monitor requester per channel that carries the number of its channel, the object
    the constructor's initial writes give (all accepted) and a transformation object
    per detector.  When an event or a thread is missing the constructor returns early,
    and the command still answers asynSuccess: there is no frame task and no requester,
    and any use of a transformation reads a pointer nothing has set. *)
Theorem ADnEDConfig_outcome args :
  Forall2 has_type args (fd_args configADnED) →
  ∃ portName maxBuffers maxMemory debug,
    args = [SVal portName; IVal maxBuffers; IVal maxMemory; IVal debug] ∧
    let r := configADnEDCallFunc H ts0 events0 det_events0 args in
    match ho_ADDriver H portName 5 NUM_DRIVER_PARAMS maxBuffers (u64 maxMemory) with
    | None => r = Ok (asynError, None)
    | Some l =>
        (threads_ok → memory_there →
         ∃ d n, ctor_params (ADnED_members l ts0 events0 det_events0 ADnEDTransformBase) = (Ok true, d) ∧
           r = Ok (asynSuccess, Some (Made d pva_new (u32 debug)
             (Some (nEDChannelRequester_new "ADnED Channel"))
             ((λ ch, Some (nEDMonitorRequester_new "ADnED Monitor" ch)) <$> seqZ 0 ADNED_MAX_CHANNELS)
             true true n))) ∧
        (threads_ok → ¬ memory_there → r = Ok (asynError, None)) ∧
        (¬ threads_ok → ∃ m, r = Ok (asynSuccess, Some m) ∧ md_frameTask m = false ∧
           md_channelRequester m = None ∧
           ∀ det A (k : M transform A), 0 <= det <= ADNED_MAX_DETS →
             (with_transform det k (md_drv m)).1 = UB Uninitialised)
    end.
Proof.
  intros (name & buffers & memory & debug & ->)%shell_arguments.
  exists name, buffers, memory, debug. split; [done|]. cbn zeta.
  change (configADnEDCallFunc H ts0 events0 det_events0 _)
    with (ADnEDConfig H ts0 events0 det_events0 name buffers (u64 memory) debug).
  unfold ADnEDConfig, ADnED.
  change (ADNED_MAX_DETS + 1) with 5.
  destruct (ho_ADDriver _ _ _ _ _ _) as [l|]; [|done].
  destruct (ctor_run (ADnED_members l ts0 events0 det_events0 ADnEDTransformBase)) as (l' & Ed & _).
  set (d := on_params (λ _, l') (ADnED_members l ts0 events0 det_events0 ADnEDTransformBase)) in Ed.
  pose proof (λ T, ADnED_body_run l debug d T Ed eq_refl) as Hrun. unfold wp in Hrun.
  pose proof (ADnED_body_early l debug) as Hearly.
  pose proof (λ A k det, @raw_no_transform A k l debug det) as Hraw.
  assert (md_frameTask (ADnED_raw ts0 events0 det_events0 l debug : made) = false ∧
    md_channelRequester (ADnED_raw ts0 events0 det_events0 l debug : made) = None) as Hnone
    by (split; reflexivity).
  revert Hrun Hearly Hraw Hnone. generalize (ADnED_raw ts0 events0 det_events0 l debug : made).
  intros raw. generalize (ADnED_body H raw). clearbody d.
  intros [o m] Hrun Hearly Hraw [Hf Hc]. split_and!.
  - intros HT Hm. specialize (Hrun HT). destruct o as [[]|e|f]; [|by clear Ed; destruct Hrun..].
    destruct Hrun as (_ & n & ->). exists d, n. exact (conj Ed eq_refl).
  - clear Ed. intros HT Hm. specialize (Hrun HT). destruct o as [[]|e|f]; [by destruct Hrun|done|done].
  - clear Ed. intros HT. destruct (Hearly HT) as (et & [= -> ->]).
    eexists. split_and!; [done..|]. intros det A k. apply Hraw.
Qed.
End ioc.

(** A host where everything is there, and one where the second thread is not created. *)
Definition sample_host (frame_thread : bool) : host (map_lib param) :=
  Host (λ _ _ _ _ _, Some map_lib_empty) (λ _, true) (λ n, if n =? 1 then frame_thread else true)
    (λ _, true).

Definition sample_args : list shell_value := [SVal "BL1"; IVal (-1); IVal (-1); IVal 0].

Definition sample_start (frame_thread : bool) : outcome (asynStatus * option (made (map_lib param) stamp)) :=
  configADnEDCallFunc (sample_host frame_thread) (Stamp 0 0 0) 0 (replicate n_dets1 0) sample_args.

Lemma ADnEDConfig_outcome_witness :
  (∃ m, sample_start true = Ok (asynSuccess, Some m) ∧ md_frameTask m = true ∧
     mr_channelID <$> omap id (md_monitorRequesters m) = [0; 1; 2; 3]) ∧
  (∃ m, sample_start false = Ok (asynSuccess, Some m) ∧ md_frameTask m = false ∧
     ∀ det A (k : M transform A), 0 <= det <= ADNED_MAX_DETS →
       (with_transform det k (md_drv m)).1 = UB Uninitialised).
Proof.
  assert (Forall2 has_type sample_args (fd_args configADnED)) as Hargs
    by (repeat constructor; unfold has_type; cbn; unfold is_i32; lia).
  split.
  - destruct (ADnEDConfig_outcome (sample_host true) (Stamp 0 0 0) 0 (replicate n_dets1 0) _ Hargs)
      as (p & b & m & g & [= <- <- <- <-] & Hok & _).
    destruct Hok as (d & n & _ & E); [by split_and!; [intros ?| |]|by intros ?|].
    eexists. split; [exact E|by split].
  - destruct (ADnEDConfig_outcome (sample_host false) (Stamp 0 0 0) 0 (replicate n_dets1 0) _ Hargs)
      as (p & b & m & g & _ & _ & _ & Hno).
    destruct Hno as (m' & E & Hf & _ & Htr); [by intros (_ & _ & Ht)|].
    by exists m'.
Defined.
