(* ===== verification/Steady.v ===== *)
(** * What the other threads leave alone

    The event handler reads parameters and tables that the other threads could change
    between two structures.  This file says which of them a request of a client or a
    step of the frame task leaves alone during an acquisition, and that the driver then
    still takes the next structure. *)

From stdpp Require Import base numbers list option strings.
From S2P Require Import Prelude Float64 Params Transform File Driver Sample Alloc Ops Write.
From S2P Require Import WriteTheorems Event Histogram Counts Handler Monitor Channel Tasks.
From S2P Require Import System TaskTheorems.

Local Open Scope Z_scope.

(** ** What the handler reads *)

(** The parameters the event handler reads, but for the pause. *)
Definition used (p : param) : bool :=
  match p with
  | ADnEDNumDetParam | ADnEDEventUpdatePeriodParam
  | ADnEDDetPixelNumStartParam | ADnEDDetPixelNumEndParam | ADnEDDetPixelNumSizeParam
  | ADnEDDetNDArrayStartParam | ADnEDDetNDArrayTOFStartParam
  | ADnEDDetTOFROIStartParam | ADnEDDetTOFROISizeParam | ADnEDDetTOFROIEnableParam
  | ADnEDDetPixelMapEnableParam | ADnEDDetTOFTransTypeParam | ADnEDDetTOFTransOffsetParam
  | ADnEDDetTOFTransScaleParam | ADnEDDetPixelROIStartXParam | ADnEDDetPixelROIStartYParam
  | ADnEDDetPixelROISizeXParam | ADnEDDetPixelROISizeYParam | ADnEDDetPixelSizeXParam
  | ADnEDDetPixelROIEnableParam | ADnEDDet2DTypeParam | ADnEDDetTOFNumBinsParam => true
  | _ => false
  end.

(** Of these, the ones that are configured, not published by [allocArray]. *)
Definition configured (p : param) : bool := used p && negb (is_layout_param p).

Definition not_paused {L TS T} {PL : ParamLib param L} (d : driver L TS T) : Prop :=
  getIntegerParam (params d) 0 ADnEDPauseParam 0 = 0.

Section steady.
Context {L TS T : Type} {PL : ParamLib param L} {DL : DriverLib L} {TL : TimeStampLib TS}.
Local Abbreviation D := (driver L TS T).

(** From [s] to [s'] the parameters of [keep] and the tables of the handler stay, and
    with [sizes] and [data] the sizes of the buffer and the buffer. *)
Context (keep : param → bool) (sizes data : bool).

Record steady (s s' : D) : Prop := {
  sd_int a p old : keep p = true → adned_param_type p = Some asynParamInt32 →
    getIntegerParam (params s') a p old = getIntegerParam (params s) a p old;
  sd_double a p old : keep p = true → adned_param_type p = Some asynParamFloat64 →
    getDoubleParam (params s') a p old = getDoubleParam (params s) a p old;
  sd_pause : not_paused s → not_paused s';
  sd_det : m_det s' = m_det s;
  sd_map : p_PixelMap s' = p_PixelMap s;
  sd_mapSize : m_PixelMapSize s' = m_PixelMapSize s;
  sd_trans : p_Transform s' = p_Transform s;
  sd_seqs : m_seqID s' = m_seqID s ∧ m_lastSeqID s' = m_lastSeqID s;
  sd_stamps : m_TimeStampLast s' = m_TimeStampLast s;
  sd_time : m_lastTimeSecs s' = m_lastTimeSecs s;
  sd_pulses : m_pulseCounter s' = m_pulseCounter s;
  sd_events : m_detEventsSinceLastUpdate s' = m_detEventsSinceLastUpdate s;
  sd_sizes : sizes = true → m_tofMax s' = m_tofMax s ∧ m_dataMaxSize s' = m_dataMaxSize s ∧
    m_bufferMaxSize s' = m_bufferMaxSize s;
  sd_data : data = true → p_Data s' = p_Data s
}.

#[global] Instance steady_preorder : PreOrder steady.
Proof.
  split; [intros s; by split|].
  intros s1 s2 s3 [A1 A2 A3 A4 A5 A6 A7 A8 A9 A10 A11 A12 A13 A14]
    [B1 B2 B3 B4 B5 B6 B7 B8 B9 B10 B11 B12 B13 B14]. split; intros; try congruence.
  - etrans; [by apply B1|by apply A1].
  - etrans; [by apply B2|by apply A2].
  - auto.
  - destruct A8, B8. split; congruence.
  - destruct A13, B13; [done..|]. naive_solver congruence.
  - etrans; [by apply B14|by apply A14].
Qed.

Lemma steady_params (s : D) g :
  (∀ a p old, keep p = true → adned_param_type p = Some asynParamInt32 →
     getIntegerParam (g (params s)) a p old = getIntegerParam (params s) a p old) →
  (∀ a p old, keep p = true → adned_param_type p = Some asynParamFloat64 →
     getDoubleParam (g (params s)) a p old = getDoubleParam (params s) a p old) →
  (not_paused s → getIntegerParam (g (params s)) 0 ADnEDPauseParam 0 = 0) →
  steady s (on_params g s).
Proof. destruct s. by split. Qed.

Lemma steady_setInt a p v :
  keep p = false → (p = ADnEDPauseParam → v = 0) → stable steady (setInt a p v : M D _).
Proof.
  intros Hk Hp s x s' [= _ <-]. apply steady_params.
  - intros a' p' old Hp' _. apply get_set_int_ne. congruence.
  - intros a' p' old _ Hty. by apply get_double_set_int_typed.
  - intros Hs. destruct (decide (p = ADnEDPauseParam)) as [->|Hne].
    + destruct (decide (a = 0)) as [->|]; [|rewrite get_set_int_ne; [done|congruence]].
      rewrite driver_get_set_int by (by unfold ADNED_MAX_DETS). case_decide; auto.
    + rewrite get_set_int_ne; [done|congruence].
Qed.

Lemma steady_setDouble a p v : keep p = false → stable steady (setDouble a p v : M D _).
Proof.
  intros Hk s x s' [= _ <-]. apply steady_params.
  - intros a' p' old _ Hty. by apply get_int_set_double_typed.
  - intros a' p' old Hp' _. apply (setDoubleParam_frame (params s) a p v). congruence.
  - intros Hs. by rewrite get_int_set_double_typed.
Qed.

Lemma steady_setString a p v : stable steady (setString a p v : M D _).
Proof.
  intros s x s' [= _ <-]. apply steady_params.
  - intros a' p' old _ Hty. by apply get_int_set_string_typed.
  - intros a' p' old _ Hty. by apply get_double_set_string_typed.
  - intros Hs. by rewrite get_int_set_string_typed.
Qed.
End steady.

Ltac steady_leaf :=
  idtac; lazymatch goal with
  | |- stable _ (set_all _) => apply stable_set_all; [exact _|];
      repeat first [apply Forall_nil_2 | apply Forall_cons_2; [steady_leaf|]]
  | |- stable _ (setInt _ _ _) => apply steady_setInt; done
  | |- stable _ (setDouble _ _ _) => apply steady_setDouble; done
  | |- stable _ (setString _ _ _) => apply steady_setString
  | |- stable _ (getInt _ _ _) => apply stable_pure; reflexivity
  | |- stable _ (modify _) => apply stable_modify; intros []; by split
  end.

Ltac steady_split := stable_split steady_leaf.

(** ** The clients *)

(** The writes that change what an acquisition counts: they clear data, pause it, or
    switch a transformation object. *)
Definition disturbing (p : param) : bool :=
  match p with
  | ADnEDResetParam | ADnEDPauseParam | ADnEDDetTOFArrayResetParam
  | ADnEDDetTOFTransDebugParam => true
  | _ => bool_decide (is_Some (matchTransInt p))
  end.

(** The other requests leave an acquisition alone: the driver refuses them while it
    acquires, or the handler does not read what they write. *)
Definition quiet (r : request) : bool :=
  match r with
  | WriteInt32 f _ => is_setup_param f || negb (used f || disturbing f)
  | WriteFloat64 f _ => negb (used f || bool_decide (is_Some (matchTransFloat f)))
  | WriteOctet f _ _ _ =>
      negb (bool_decide (is_Some (matchTransFile f)) || bool_decide (f = ADnEDDetPixelMapFileParam))
  end.

Section clients.
Context {L TS : Type} {PL : ParamLib param L} {DL : DriverLib L} {TL : TimeStampLib TS}.
Context (codes : ADStatus_t) (calloc_ok : Z → Z → bool) (mem : memory).
Local Abbreviation D := (driver L TS transform).
Local Abbreviation still := (steady used true true).

Lemma steady_printTofTrans addr : stable still (printTofTrans addr : M D ()).
Proof.
  intros s u s'. unfold printTofTrans, with_transform.
  destruct (rd (p_Transform s) addr) as [[t|]|] eqn:Hr; cbn; [|done..].
  destruct (printParams t) as [o t'] eqn:Et. intros [= -> <-]. apply printParams_same in Et as <-.
  assert (on_p_Transform (λ l, upd l addr (Some t)) s = s) as ->; [|done].
  destruct s; cbn in *. by rewrite upd_self.
Qed.

Lemma steady_write_action f addr v :
  codes_ok codes → is_setup_param f = false → quiet (WriteInt32 f v) = true →
  stable still (write_action codes calloc_ok f addr v (ADStatusAcquire codes) : M D _).
Proof.
  intros Hc Hf Hq. unfold codes_ok in Hc. cbn in Hq. rewrite Hf in Hq. cbn in Hq.
  destruct f; try discriminate Hf; try discriminate Hq; cbn [write_action];
    unfold write_start, write_stop, printPixelMap;
    try (rewrite (decide_False (P := _ = _ ∨ _)) by naive_solver);
    stable_split ltac:(idtac; first [apply steady_printTofTrans | steady_leaf]).
Qed.

Lemma steady_writeInt32 address f v (d d' : D) st :
  codes_ok codes → ad_status d = ADStatusAcquire codes → quiet (WriteInt32 f v) = true →
  writeInt32 codes calloc_ok address f v d = (Ok st, d') → still d d'.
Proof.
  intros Hc Hst Hq Es. destruct address as [s addr]. destruct (decide (s = asynSuccess)) as [->|Hs].
  2:{ unfold writeInt32 in Es. rewrite decide_True in Es by done. by injection Es as _ <-. }
  destruct (is_setup_param f) eqn:Hf.
  { rewrite write_setup_frozen in Es by done. by injection Es as _ <-. }
  unfold writeInt32 in Es. cbn [fst snd] in Es. rewrite decide_False in Es by tauto.
  apply bind_Ok in Es as (v0 & d0 & [= <- <-] & Es). unfold ad_status in Hst. rewrite Hst in Es.
  eapply (stable_run still); [exact Es|]. apply stable_bind; [exact _|by apply steady_write_action|].
  intros [|w]; [steady_split|]. cbn in Hq. rewrite Hf in Hq. cbn in Hq.
  apply negb_true_iff, orb_false_iff in Hq as [Hu Hd].
  unfold write_finish. destruct (matchTransInt f) eqn:Hm; [|].
  { exfalso. destruct f; discriminate. }
  stable_split ltac:(idtac; first [steady_leaf | apply steady_setInt; [done|by intros ->]]).
Qed.

Lemma steady_writeFloat64 address f v :
  quiet (WriteFloat64 f v) = true → stable still (writeFloat64 address f v : M D _).
Proof.
  cbn. intros [Hu Hm%bool_decide_eq_false]%negb_true_iff%orb_false_iff. unfold writeFloat64.
  destruct (matchTransFloat f); [exfalso; eauto|].
  stable_split ltac:(idtac; first [steady_leaf | by apply steady_setDouble]).
Qed.

Lemma steady_base_writeOctet base_write addr f v :
  base_ok base_write → stable still (base_writeOctet base_write addr f v : M D _).
Proof.
  intros Hbase s st s' Es. unfold base_writeOctet, mbind, M_bind, gets in Es.
  pose proof (Hbase : base_ok base_write) as [Hi Hd].
  specialize (Hi addr f v (params s)). specialize (Hd addr f v (params s)).
  destruct (base_write addr f v (params s)) as [st' l']. injection Es as _ <-.
  apply steady_params; cbn in *.
  - intros a p old Hp Hty. apply Hi; [by destruct p|done].
  - intros. by apply Hd.
  - intros Hs. by rewrite Hi.
Qed.

Lemma steady_writeOctet fs strtod base_write address f v n errno :
  base_ok base_write → quiet (WriteOctet f v n errno) = true →
  stable still (writeOctet mem fs strtod base_write address f v n errno : M D _).
Proof.
  cbn. intros Hbase [Hm%bool_decide_eq_false Hf%bool_decide_eq_false]%negb_true_iff%orb_false_iff.
  unfold writeOctet, write_file. destruct (matchTransFile f); [exfalso; eauto|].
  rewrite (decide_False (P := f = _)) by done.
  stable_split ltac:(idtac; first [by apply steady_base_writeOctet | steady_leaf]).
Qed.
End clients.

(** ** The frame task, and the handler on the other channels *)

Section threads.
Context {L TS : Type} {PL : ParamLib param L} {DL : DriverLib L} {TL : TimeStampLib TS}.
Context {TR : Transformer transform} (E : environment L).
Local Abbreviation D := (driver L TS transform).
Local Abbreviation still := (steady used true true).

Lemma steady_frame_step t sig : stable still (frame_step (en_pool E) t sig : M D _).
Proof.
  apply stable_frame_step; [exact _|..].
  - intros a p v Hp. apply steady_setInt; [by destruct p|by intros ->].
  - intros g s. destruct s; by split.
Qed.

Lemma steady_serve mem address r (d d' : D) st :
  env_ok E → ad_status d = ADStatusAcquire (en_codes E) → quiet r = true →
  serve E mem address r d = (Ok st, d') → still d d'.
Proof.
  intros HE Hst Hq. destruct r as [f v|f v|f v n errno]; cbn [serve].
  - apply steady_writeInt32; [apply HE|done..].
  - by apply steady_writeFloat64.
  - intros ([[st' e'] k] & d1 & E1 & [_ ->]%ret_Ok)%bind_Ok.
    by eapply steady_writeOctet; [apply HE|..].
Qed.

(** The handler keeps the last time stamps of the other channels. *)
Definition other_stamps (ch : Z) (d d' : D) : Prop :=
  length (m_TimeStampLast d') = length (m_TimeStampLast d) ∧
  ∀ c, 0 <= ch → c ≠ ch → rd (m_TimeStampLast d') c = rd (m_TimeStampLast d) c.

#[local] Instance other_stamps_preorder ch : PreOrder (other_stamps ch).
Proof.
  split; [by intros d|]. intros d1 d2 d3 [A1 A2] [B1 B2].
  split; [congruence|]. intros c ??. by rewrite B2, A2.
Qed.

Ltac stamps_leaf :=
  idtac; lazymatch goal with
  | |- stable _ (modify (on_m_TimeStampLast _)) =>
      apply stable_modify; intros []; split; cbn; [by rewrite length_upd|];
      intros; by rewrite rd_upd_ne by done
  | |- stable _ _ => apply stable_pure; intros []; by split
  end.

Lemma stamps_integrate_events ch numDet events :
  stable (other_stamps ch) (integrate_events numDet events : M D _).
Proof.
  apply stable_for_acc; [exact _|]. intros [pixel tofRaw] lc. unfold integrate_event, event_tof,
    map_pixel, integrate_pixel, plot_index, integrate_tof, in_pixel_roi, tof_bin, int_rem, int_quot,
    count. stable_split stamps_leaf.
Qed.

Lemma stamps_eventHandler pv ch secs nsecs :
  stable (other_stamps ch) (eventHandler pv ch secs nsecs : M D _).
Proof.
  unfold eventHandler, update_timer, fetch_detector, check_timestamp, check_seq, handle_data,
    integrate_pulse, post_updates, post_channel, post_detector, event_rate.
  stable_split ltac:(idtac; first [apply stamps_integrate_events | stamps_leaf]).
Qed.

Lemma stamps_after ch (d d' : D) last :
  0 <= ch → other_stamps ch d d' → rd (m_TimeStampLast d') ch = Some last →
  m_TimeStampLast d' = upd (m_TimeStampLast d) ch last.
Proof.
  intros Hch [Hlen Hother] Hlast. apply list_eq. intros k. pose proof (rd_in_bounds _ _ _ Hlast) as Hb.
  unfold upd, in_bounds in *. destruct (decide (k = Z.to_nat ch)) as [->|Hk].
  - rewrite list_lookup_insert_eq by lia. unfold rd in Hlast. by rewrite decide_True in Hlast.
  - rewrite list_lookup_insert_ne by done. specialize (Hother (Z.of_nat k) Hch ltac:(lia)).
    unfold rd in Hother. by rewrite !decide_True, !Nat2Z.id in Hother by lia.
Qed.

(** ** Delivering, while the other threads run *)

Lemma still_read (s s' : D) det d :
  still s s' → read_detector (params s') det d = read_detector (params s) det d.
Proof. intros Hs. unfold read_detector. by rewrite !(sd_int _ _ _ _ _ Hs), !(sd_double _ _ _ _ _ Hs). Qed.

Lemma fetch_dets_ext (l l' : L) dets ds :
  (∀ det d, read_detector l' det d = read_detector l det d) → fetch_dets l' dets ds = fetch_dets l dets ds.
Proof.
  intros Hr. unfold fetch_dets. revert ds. induction dets as [|det dets IH]; intros ds; cbn; [done|].
  by rewrite Hr, IH.
Qed.

Lemma still_setup (s s' : D) numDet : still s s' → same_setup (fetched s numDet) (fetched s' numDet).
Proof.
  intros Hs. pose proof (sd_int _ _ _ _ _ Hs) as Hi. pose proof (sd_sizes _ _ _ _ _ Hs eq_refl) as (E1 & _).
  pose proof (fetch_dets_ext (params s) (params s') (seqZ 1 numDet) (m_det s)
    (λ det d, still_read s s' det d Hs)) as Hf.
  destruct Hs. destruct s, s'. cbn in *. subst. split; cbn; try done; intros; by apply Hi.
Qed.

Lemma still_delivering (s s' : D) ch numDet data :
  still s s' → delivering s ch numDet data → delivering s' ch numDet data.
Proof.
  intros Hs [H1 H2 H3 H4 H5 H6 H7 H8 H9]. pose proof (still_setup s s' numDet Hs) as Hf.
  pose proof (sd_int _ _ _ _ _ Hs) as Hi. pose proof (sd_sizes _ _ _ _ _ Hs eq_refl) as (_ & E2 & _).
  pose proof (sd_data _ _ _ _ _ Hs eq_refl) as E3. pose proof (sd_seqs _ _ _ _ _ Hs) as [E4 E5]. split.
  - done.
  - by rewrite Hi.
  - intros det old Hdet. rewrite Hi by done. by apply H3.
  - intros det d d' Hdet. rewrite !(still_read s s') by done. by apply H4.
  - by rewrite (sd_det _ _ _ _ _ Hs).
  - by rewrite E4, E5.
  - by rewrite E3, E2.
  - by rewrite (sd_events _ _ _ _ _ Hs).
  - intros det Hdet. rewrite (proj2 (proj2 (proj2 (proj2 (same_setup_ref _ _ Hf))))).
    by eapply same_setup_det_ok; [|apply H9].
Qed.
End threads.
