(* ===== verification/Setup.v ===== *)
(** * From the configuration to an acquisition

    The conditions under which the event handler can count the events of a detector
    ([det_ok] of Histogram.v) speak about the buffer as it is laid out.  This file
    derives them from the configuration alone: what clients set before a start, and the
    layout that [allocArray] computes from it. *)

From stdpp Require Import base numbers list option strings.
From stdpp Require Import sets.
From S2P Require Import Prelude Float64 Params Transform File Driver Sample Alloc Ops Write.
From S2P Require Import WriteTheorems Event Histogram Counts Handler Monitor Channel Tasks.
From S2P Require Import System TaskTheorems Init Invariant Steady.

Local Open Scope Z_scope.

(** The configured parameters that belong to a detector. *)
Definition detector_param (p : param) : bool :=
  configured p && negb (bool_decide (p = ADnEDNumDetParam ∨ p = ADnEDEventUpdatePeriodParam)).

Section setup.
Context {L TS : Type} {PL : ParamLib param L} {DL : DriverLib L} {TL : TimeStampLib TS}.
Context {TR : Transformer transform} {TRL : TransformerLaws transform}.
Local Abbreviation D := (driver L TS transform).
Implicit Types (s d : D).

(** The configuration of the detector [det] that is to get [size] pixel counters. *)
Record detector_config d (tofMax size det : Z) (r : detvals) : Prop := {
  dc_values : r = read_detector (params d) det detvals_zero;
  dc_int p old : detector_param p = true → adned_param_type p = Some asynParamInt32 →
    getIntegerParam (params d) det p old = getIntegerParam (params d) det p 0;
  dc_double p old : detector_param p = true → adned_param_type p = Some asynParamFloat64 →
    getDoubleParam (params d) det p old = getDoubleParam (params d) det p (f_of_Z 0);
  dc_range : 0 <= m_detStartValues r <= m_detEndValues r ∧ m_detEndValues r < 2 ^ 31;
  dc_roi : 0 < m_detPixelROISizeX r;
  dc_pixel k : 0 <= k <= m_detEndValues r - m_detStartValues r →
    ∃ v, ref_pixel d det r k = Some v ∧ 0 <= v < size;
  dc_trans : m_detTOFTransType r ≠ 0 →
    ∃ t, mjoin (rd (p_Transform d) det) = Some t ∧
      tr_covers t (m_detEndValues r - m_detStartValues r + 1);
  dc_bins : is_i32 (getIntegerParam (params d) det ADnEDDetTOFNumBinsParam 0);
  dc_plots : ref_plot d det = s_ADNED_2D_PLOT_XY ∨
    (s_ADNED_2D_PLOT_XTOF <= ref_plot d det <= s_ADNED_2D_PLOT_PIXELIDTOF ∧
     0 < m_detPixelSizeX r < 2 ^ 31 ∧ 0 < tofMax < 2 ^ 30 ∧
     size * clip_bins (getIntegerParam (params d) det ADnEDDetTOFNumBinsParam 0) tofMax <= 2 ^ 30);
  dc_tof_roi : is_i32 (m_detTOFROIStartValues r + m_detTOFROISizeValues r);
  dc_pixel_roi : m_detPixelROIEnable r ≠ 0 →
    is_i32 (m_detPixelROIStartX r + m_detPixelROISizeX r) ∧
    is_i32 (m_detPixelROIStartY r * m_detPixelSizeX r) ∧
    is_i32 (m_detPixelROIStartY r + m_detPixelROISizeY r) ∧
    is_i32 ((m_detPixelROIStartY r + m_detPixelROISizeY r) * m_detPixelSizeX r)
}.

Section laid_out.
Context (d d1 d2 : D) (numDet tofMax : Z) (size : Z → Z) (r : Z → detvals).
Hypothesis Hmem : memory_ok d.
Hypothesis Hcfg : ∀ det, 1 <= det <= numDet → detector_config d tofMax (size det) det (r det).
Hypothesis Hlay : layout d1 numDet tofMax size.
Hypothesis Halloc : steady configured false false d d1.
Hypothesis Hrest : steady used true false d1 d2.

Lemma configured_used p : configured p = true → used p = true.
Proof. unfold configured. by destruct (used p). Qed.

Lemma config_int a p old :
  configured p = true → adned_param_type p = Some asynParamInt32 →
  getIntegerParam (params d2) a p old = getIntegerParam (params d) a p old.
Proof.
  intros Hp Hty. rewrite (sd_int _ _ _ _ _ Hrest) by (done || by apply configured_used).
  by rewrite (sd_int _ _ _ _ _ Halloc).
Qed.

Lemma config_double a p old :
  configured p = true → adned_param_type p = Some asynParamFloat64 →
  getDoubleParam (params d2) a p old = getDoubleParam (params d) a p old.
Proof.
  intros Hp Hty. rewrite (sd_double _ _ _ _ _ Hrest) by (done || by apply configured_used).
  by rewrite (sd_double _ _ _ _ _ Halloc).
Qed.

Lemma laid_int a p v old : used p = true → adned_param_type p = Some asynParamInt32 →
  int_is (params d1) a p v → getIntegerParam (params d2) a p old = v.
Proof. intros Hp Hty Hv. by rewrite (sd_int _ _ _ _ _ Hrest). Qed.

(** What the handler reads of a detector. *)
Definition laid_out_detector (det : Z) : detvals :=
  {| (r det) with m_detSizeValues := size det;
                  m_NDArrayStartValues := pix_offset size det;
                  m_NDArrayTOFStartValues := tof_offset size numDet tofMax det |}.

Lemma read_laid_out det dv :
  1 <= det <= numDet → read_detector (params d2) det dv = laid_out_detector det.
Proof.
  intros Hdet. destruct (Hcfg det Hdet) as [Hr Hi Hd _ _ _ _ _ _ _ _]. unfold laid_out_detector.
  rewrite Hr. destruct (lay_pix _ _ _ _ Hlay det Hdet) as [P1 P2 _ _].
  destruct (lay_tofs _ _ _ _ Hlay det Hdet) as [P3 _].
  unfold read_detector. cbn. f_equal;
    first [ by apply laid_int
          | by rewrite config_int, Hi
          | by rewrite config_double, Hd ].
Qed.

Lemma fetched_laid_out det :
  1 <= det <= numDet → rd (m_det (fetched d2 numDet)) det = Some (laid_out_detector det).
Proof.
  intros Hdet. pose proof (lay_dets _ _ _ _ Hlay) as Hn.
  assert (length (m_det d2) = n_dets1) as Hl
    by (rewrite (sd_det _ _ _ _ _ Hrest), (sd_det _ _ _ _ _ Halloc); apply Hmem).
  assert (Z.of_nat n_dets1 = ADNED_MAX_DETS + 1) as Hn1 by done.
  assert (m_det (fetched d2 numDet) = fetch_dets (params d2) (seqZ 1 numDet) (m_det d2)) as ->
    by (by destruct d2).
  unfold rd. rewrite decide_True by lia. rewrite fetch_dets_lookup.
  - rewrite Z2Nat.id, decide_True by (rewrite ?elem_of_seqZ; lia).
    destruct (lookup_lt_is_Some_2 (m_det d2) (Z.to_nat det) ltac:(lia)) as [dv ->]. cbn.
    by rewrite read_laid_out.
  - apply Forall_forall. intros k ?%elem_of_seqZ. lia.
  - intros k dv dv' ?%elem_of_seqZ. by rewrite !read_laid_out by lia.
Qed.

(** With a buffer of the declared size the handler can count. *)
Context (data : list Z).
Hypothesis Hdata : p_Data d2 = Some data.
Hypothesis Hlen : Z.of_nat (length data) = m_bufferMaxSize d2.

Lemma ref_plot_config det :
  1 <= det <= numDet → ∀ old, getIntegerParam (params d2) det ADnEDDet2DTypeParam old = ref_plot d det.
Proof. intros Hdet old. rewrite config_int by done. by apply (Hcfg det Hdet). Qed.

Lemma bins_config det :
  1 <= det <= numDet → ∀ old, getIntegerParam (params d2) det ADnEDDetTOFNumBinsParam old
    = getIntegerParam (params d) det ADnEDDetTOFNumBinsParam 0.
Proof. intros Hdet old. rewrite config_int by done. by apply (Hcfg det Hdet). Qed.

Lemma layout_det_ok det :
  1 <= det <= numDet →
  det_ok (fetched d2 numDet) (Z.of_nat (length data)) det (laid_out_detector det).
Proof.
  intros Hdet. pose proof (Hcfg det Hdet) as Hc. pose proof Hlay as [L1 L2 L3 L4 _ _ _ L8 L9 L10 _].
  destruct (sd_sizes _ _ _ _ _ Hrest eq_refl) as (E1 & E2 & E3).
  assert (params (fetched d2 numDet) = params d2 ∧ m_tofMax (fetched d2 numDet) = tofMax) as [Hp Ht]
    by (split; [|rewrite <-L8, <-E1]; by destruct d2).
  assert (ref_plot (fetched d2 numDet) det = ref_plot d det) as Hplot
    by (unfold ref_plot at 1; rewrite Hp; by apply ref_plot_config).
  assert (Z.of_nat (length data) = sum_to size numDet + numDet * (tofMax + 1)) as Hn by congruence.
  assert (0 <= sum_to size (det - 1) ∧ sum_to size (det - 1) + size det <= sum_to size numDet) as [Hs1 Hs2].
  { rewrite <-(sum_to_pred size det) by lia. split.
    - rewrite <-(sum_to_0 size). apply sum_to_mono; [|lia]. intros k Hk. pose proof (L3 k). lia.
    - apply sum_to_mono; [|lia]. intros k Hk. pose proof (L3 k). lia. }
  assert (0 <= (det - 1) * (tofMax + 1) ∧ (det - 1) * (tofMax + 1) + (tofMax + 1) <= numDet * (tofMax + 1))
    as [Hm1 Hm2] by nia.
  pose proof (L3 det Hdet) as Hsize.
  split; try (apply Hc; done).
  - by apply fetched_laid_out.
  - rewrite Ht. unfold is_u32. nia.
  - done.
  - lia.
  - cbn. unfold pix_offset. nia.
  - rewrite Ht. cbn. unfold tof_offset. nia.
  - intros k Hk. destruct (dc_pixel _ _ _ _ _ Hc k Hk) as (v & Hv & Hvs). exists v. split; [|done].
    rewrite <-Hv. unfold ref_pixel. cbn.
    assert (p_PixelMap (fetched d2 numDet) = p_PixelMap d ∧ m_PixelMapSize (fetched d2 numDet) = m_PixelMapSize d)
      as [-> ->]; [|done].
    split; [transitivity (p_PixelMap d2)|transitivity (m_PixelMapSize d2)]; try (by destruct d2);
      (etrans; [apply Hrest|apply Halloc]).
  - cbn. intros Hty. destruct (dc_trans _ _ _ _ _ Hc Hty) as (t & Ht0 & Hcov). exists t. split; [|done].
    rewrite <-Ht0. do 2 f_equal. transitivity (p_Transform d2); [by destruct d2|].
    etrans; [apply Hrest|apply Halloc].
  - intros old. rewrite Hp, Hplot. by apply ref_plot_config.
  - intros old. rewrite Hp, !bins_config by done. done.
  - rewrite Hp, bins_config by done. apply Hc.
  - rewrite Hplot. unfold ref_bins. rewrite Hp, Ht, bins_config by done. apply Hc.
Qed.

Lemma layout_delivering : delivering d2 0 numDet data.
Proof.
  destruct Hmem. pose proof Hlay as [L1 L2 L3 L4 L5 _ _ _ L9 _ _].
  destruct (sd_sizes _ _ _ _ _ Hrest eq_refl) as (_ & E2 & _).
  destruct (sd_seqs _ _ _ _ _ Hrest) as [S1 S2], (sd_seqs _ _ _ _ _ Halloc) as [S3 S4].
  split.
  - done.
  - split; [lia|]. rewrite (laid_int 0 ADnEDNumDetParam numDet 0) by done. lia.
  - intros det old Hdet. pose proof (Hcfg det Hdet) as Hc. pose proof (dc_roi _ _ _ _ _ Hc) as Hroi.
    rewrite (dc_values _ _ _ _ _ Hc) in Hroi. cbn in Hroi.
    rewrite config_int, (dc_int _ _ _ _ _ Hc) by done. done.
  - intros det dv dv' Hdet. by rewrite !read_laid_out.
  - by rewrite (sd_det _ _ _ _ _ Hrest), (sd_det _ _ _ _ _ Halloc).
  - rewrite S1, S2, S3, S4. split; [apply mo_seqID|apply mo_lastSeqID].
  - split; [done|]. rewrite E2, L9. pose proof (sum_to_mono size 1 numDet) as Hmono.
    assert (sum_to size 1 = size 1) as Hone by (by rewrite (sum_to_pred size 1), sum_to_0 by lia).
    pose proof (L3 1 ltac:(lia)). specialize (Hmono ltac:(intros k Hk; specialize (L3 k); lia) ltac:(lia)). lia.
  - rewrite (sd_events _ _ _ _ _ Hrest), (sd_events _ _ _ _ _ Halloc). apply mo_events.
  - intros det Hdet. unfold det_at. rewrite fetched_laid_out by done. cbn [default from_option id].
    by apply layout_det_ok.
Qed.
End laid_out.
End setup.
