(* ===== verification/Recording.v ===== *)
(** * A whole acquisition

    Follows the buffer through an acquisition in which all threads of the driver run:
    the clients write parameters, the frame task publishes, and structures arrive on all
    channels, in any order.  From the step that starts the acquisition on, the buffer
    holds exactly the counts of the events that have arrived. *)

From stdpp Require Import base numbers list option strings.
From S2P Require Import Prelude Float64 Params Transform File Driver Sample Alloc Ops Write.
From S2P Require Import WriteTheorems Event Histogram Counts Handler Monitor Channel Tasks.
From S2P Require Import System TaskTheorems Init Invariant Start Steady Setup.

Local Open Scope Z_scope.

(** ** A run of the acquisition *)

Section recording.
Context {L TS : Type} {PL : ParamLib param L} {DL : DriverLib L} {TL : TimeStampLib TS}.
Context {TR : Transformer transform} {TRL : TransformerLaws transform} (E : environment L).
Hypothesis HE : env_ok E.
Local Abbreviation D := (driver L TS transform).
Local Abbreviation still := (steady used true true).
Local Abbreviation system := (system (L := L) (TS := TS)).
Local Abbreviation label := (label (TS := TS)).
Implicit Types (x y : system) (l : label) (ls : list label).

Definition drv x : D := w_drv (sy_world x).

(** The driver is in the acquisition loop, not paused, and set up for the structures of
    all channels; the buffer holds [data]. *)
Record collecting x (numDet : Z) (data : list Z) : Prop := {
  cl_pc : e_pc (sy_ev x) = EvAcquire;
  cl_protocol : in_protocol E x;
  cl_pause : not_paused (drv x);
  cl_delivering : delivering (drv x) 0 numDet data;
  cl_pulses : is_u32 (m_pulseCounter (drv x))
}.

(** No stop ends the acquisition, and the clients leave it alone. *)
Definition goes_on l : Prop :=
  match l with
  | LEvent sig _ => sig = false
  | LClient _ r _ _ => quiet r = true
  | LEventWait _ | LFrameWait _ | LFrame _ | LMonitor _ _ _ _ => True
  end.

(** The structures are complete, the time stamps of a channel do not go backwards, and
    the parameters are posted at most once a second. *)
Fixpoint arriving (period lastTime : f64) (lasts : list TS) ls : Prop :=
  match ls with
  | [] => True
  | LMonitor pv ch nowSecs nowNsecs :: ls =>
      ∃ last now pixels tofs, 0 <= ch < ADNED_MAX_CHANNELS ∧ rd lasts ch = Some last ∧
        pv_timeStamp pv = Attached now ∧ is_Some (pv_pcharge pv) ∧
        pv_pixels pv = Some pixels ∧ pv_tof pv = Some tofs ∧ length pixels = length tofs ∧
        ts_gt last now = false ∧ one_second (due_at period lastTime nowSecs nowNsecs) ∧
        arriving period (next_update period lastTime nowSecs nowNsecs)
          (upd lasts ch (stamped last now)) ls
  | _ :: ls => arriving period lastTime lasts ls
  end.

Definition arriving_at x ls : Prop :=
  arriving (period_of (drv x)) (m_lastTimeSecs (drv x)) (m_TimeStampLast (drv x)) ls.

(** The events of a run, and the structures of one channel. *)
Definition label_events l : list (Z * Z) :=
  match l with LMonitor pv _ _ _ => pv_events pv | _ => [] end.

Definition arrived ls : list (Z * Z) := ls ≫= label_events.

Definition channel_queue (ch : Z) ls : list (@update TS) :=
  ls ≫= λ l, match l with
             | LMonitor pv c secs nsecs => if decide (c = ch) then [(pv, (secs, nsecs))] else []
             | _ => []
             end.

(** What a run from [x] to [y] with the labels [ls] has counted. *)
Record recorded ls x y (numDet : Z) (data : list Z) : Prop := {
  rc_collecting : collecting y numDet
    (foldl bump data (all_cells (fetched (drv x) numDet) numDet (arrived ls)));
  rc_setup : same_setup (fetched (drv x) numDet) (fetched (drv y) numDet);
  rc_period : period_of (drv y) = period_of (drv x);
  rc_pulses last : rd (m_TimeStampLast (drv x)) 0 = Some last →
    m_pulseCounter (drv y) = u32 (m_pulseCounter (drv x) + new_pulses 0 last (channel_queue 0 ls));
  rc_last last : rd (m_TimeStampLast (drv x)) 0 = Some last →
    ∃ last', rd (m_TimeStampLast (drv y)) 0 = Some last' ∧
      ∀ q, new_pulses 0 last (channel_queue 0 ls ++ q)
        = new_pulses 0 last (channel_queue 0 ls) + new_pulses 0 last' q
}.

Lemma wp_result {S A} (m : M S A) Q s a s' : wp_ok m Q s → m s = (Ok a, s') → Q a s'.
Proof. unfold wp_ok, wp. intros Hm Es. by rewrite Es in Hm. Qed.

Lemma still_depth k (d : D) : still d (at_depth k d).
Proof. destruct d; by split. Qed.

Lemma still_waited pc pc' (d : D) : still d (event_waited pc d) ∧ still d (frame_waited pc' d).
Proof. split; [destruct d, pc|destruct d, pc']; by split. Qed.

Lemma delivering_channel (s : D) ch ch' numDet data :
  0 <= ch' < ADNED_MAX_CHANNELS → delivering s ch numDet data → delivering s ch' numDet data.
Proof. intros Hch []. by split. Qed.

(** The steps of the other threads. *)
Lemma still_step l x y :
  step E l x y → e_pc (sy_ev x) = EvAcquire → ad_status (drv x) = ADStatusAcquire (en_codes E) →
  goes_on l →
  match l with LMonitor _ _ _ _ => True | _ => still (drv x) (drv y) end ∧ sy_ev y = sy_ev x.
Proof.
  intros Hstep Hpc Hst Hl.
  destruct Hstep as [sig w t f fw ke kf Hw|sig mem w t f fw ke kf t' w' _ Es
    |sig w t f ew ke kf Hw|sig w t f ew ke kf f' d' _ Es
    |address r mem w t f ew fw ke kf st d' _ _ Hr Es
    |pv ch secs nsecs w t f ew fw ke kf d' _ _ Es]; cbn in *.
  - split; [|done]. unfold drv. cbn. apply (proj1 (still_waited (e_pc t) FrRun (w_drv w))).
  - subst sig. unfold event_step in Es. rewrite Hpc in *. injection Es as <- <-. split; [|done].
    unfold drv. cbn. apply still_depth.
  - split; [|done]. unfold drv. cbn. apply (proj2 (still_waited EvAcquire (f_pc f) (w_drv w))).
  - split; [|done]. apply steady_frame_step in Es. etrans; [|exact Es]. unfold drv. cbn.
    apply still_depth.
  - split; [|done]. etrans; [apply (still_depth 1)|].
    eapply steady_serve; [done| |done|exact Es].
    transitivity (ad_status (w_drv w)); [unfold drv; cbn; by destruct (w_drv w)|done].
  - done.
Qed.

(** An arriving structure. *)
Lemma wp_arrival pv ch secs nsecs x numDet data ls :
  collecting x numDet data → arriving_at x (LMonitor pv ch secs nsecs :: ls) →
  all_convert (fetched (drv x) numDet) numDet (pv_events pv) →
  ∃ last now, rd (m_TimeStampLast (drv x)) ch = Some last ∧ pv_timeStamp pv = Attached now ∧
  wp_ok (eventHandler pv ch secs nsecs)
    (λ _ d', delivering d' 0 numDet
        (foldl bump data (all_cells (fetched (drv x) numDet) numDet (pv_events pv))) ∧
      same_setup (fetched (drv x) numDet) (fetched d' numDet) ∧ period_of d' = period_of (drv x) ∧
      not_paused d' ∧
      m_pulseCounter d' = pulsed (drv x) (bool_decide (ch = 0) && ts_ne last now) ∧
      m_TimeStampLast d' = upd (m_TimeStampLast (drv x)) ch (stamped last now) ∧
      m_lastTimeSecs d' = next_update (period_of (drv x)) (m_lastTimeSecs (drv x)) secs nsecs)
    (at_depth 0 (drv x)).
Proof.
  intros [_ _ Hpause Hdl Hpu] (last & now & pixels & tofs & Hch & Hlast & Hts & Hc & Hpx & Htf & Hlen
    & Hgt & Hone & _) Hconv.
  exists last, now. split; [done|]. split; [done|]. set (d0 := at_depth 0 (drv x)).
  pose proof (still_depth 0 (drv x)) as Hd0. fold d0 in Hd0.
  pose proof (still_setup _ _ numDet Hd0) as Hf0.
  assert (delivering d0 ch numDet data) as Hdl0
    by (by eapply still_delivering, delivering_channel).
  assert (m_TimeStampLast d0 = m_TimeStampLast (drv x)) as Hs0 by apply Hd0.
  assert (period_of d0 = period_of (drv x) ∧ m_lastTimeSecs d0 = m_lastTimeSecs (drv x)) as [Hp0 Ht0]
    by (split; [by apply (sd_double _ _ _ _ _ Hd0)|apply Hd0]).
  assert (zip pixels tofs = pv_events pv) as Hz by (unfold pv_events; by rewrite Hpx, Htf).
  assert (ready d0 pv ch numDet data pixels tofs now last) as Hready.
  { eapply delivering_ready; try done; [by rewrite Hs0|]. rewrite Hz. by eapply same_setup_converts. }
  assert (one_second (timer_due d0 secs nsecs)) as Hone0.
  { change (one_second (due_at (period_of d0) (m_lastTimeSecs d0) secs nsecs)). by rewrite Hp0, Ht0. }
  eapply wp_mono; [apply (wp_stable (λ s s', kept s s' ∧ other_stamps ch s s'));
    [|by apply (wp_eventHandler d0 pv ch numDet data pixels tofs now last)]| |done].
  { intros s a s' Es. split; [by eapply kept_eventHandler|by eapply stamps_eventHandler]. }
  intros [] d' [((_ & _ & Hres) & Hss & Hlast' & Htime) [Hk Hot]].
  assert (getIntegerParam (params d0) 0 ADnEDPauseParam 0 = 0) as Hpause0 by by apply Hd0.
  rewrite decide_True in Hres by done. destruct Hres as [Ed Ep].
  rewrite (same_setup_cells _ _ _ _ Hf0) in Ed.
  rewrite Hz in Ed. pose proof (fetched_again d0 d' numDet Hk (dl_reads _ _ _ _ Hdl0) Hss) as Hf.
  split_and!.
  - eapply delivering_channel; [|eapply (delivering_next d0)]; try done. apply length_bumps.
  - by etrans.
  - rewrite <-Hp0. by apply Hk.
  - unfold not_paused. by rewrite (kp_int _ _ Hk).
  - rewrite Ep. unfold pulsed. by rewrite (sd_pulses _ _ _ _ _ Hd0).
  - rewrite <-Hs0. apply stamps_after; [lia|done..].
  - by rewrite Htime, timer_next, Hp0, Ht0.
Qed.

(** One step. *)
Lemma recorded_step l x y numDet data :
  collecting x numDet data → goes_on l → arriving_at x [l] →
  all_convert (fetched (drv x) numDet) numDet (label_events l) → step E l x y →
  recorded [l] x y numDet data ∧ ∀ ls, arriving_at x (l :: ls) → arriving_at y ls.
Proof.
  intros Hc Hl Ha Hconv Hstep. pose proof Hc as [Hpc Hp Hpause Hdl Hpu].
  pose proof (step_protocol E HE l x y Hstep Hp) as Hp'.
  destruct (still_step l x y Hstep Hpc ltac:(by apply Hp) Hl) as [Hs Hev].
  assert (match l with LMonitor _ _ _ _ => False | _ => True end → recorded [l] x y numDet data ∧
    ∀ ls, arriving_at x (l :: ls) → arriving_at y ls) as Hother.
  { intros Hm. assert (still (drv x) (drv y)) as Hs' by (by destruct l).
    assert (period_of (drv y) = period_of (drv x)) as Hper by (by apply (sd_double _ _ _ _ _ Hs')).
    assert (m_pulseCounter (drv y) = m_pulseCounter (drv x)) as Hpul by apply Hs'.
    assert (arrived [l] = [] ∧ channel_queue 0 [l] = []) as [Hev0 Hq0] by (by destruct l).
    split.
    - split; [|by apply still_setup|done|..].
      + rewrite Hev0. split; [by rewrite Hev|done|by apply Hs'| |by rewrite Hpul].
        by eapply still_delivering.
      + intros last _. by rewrite Hq0, Hpul, Z.add_0_r, u32_id.
      + intros last Hlast. exists last. rewrite Hq0. by rewrite (sd_stamps _ _ _ _ _ Hs').
    - intros ls. unfold arriving_at. rewrite Hper, (sd_stamps _ _ _ _ _ Hs'), (sd_time _ _ _ _ _ Hs').
      by destruct l. }
  destruct l as [sig|sig mem|sig|sig|address r mem st|pv ch secs nsecs]; try (by apply Hother).
  clear Hother Hs.
  destruct (wp_arrival pv ch secs nsecs x numDet data [] Hc Ha Hconv) as (last & now & Hlast & Hts & Hwp).
  inversion Hstep as [| | | | |? ? ? ? w t f ew fw ke kf d' _ _ Es]; subst.
  apply (wp_result _ _ _ _ _ Hwp) in Es as (Hdl' & Hss & Hper & Hpause' & Hpul & Hst & Hti).
  assert (arrived [LMonitor pv ch secs nsecs] = pv_events pv) as Harr
    by (unfold arrived; cbn; apply app_nil_r).
  split.
  - split; [rewrite Harr; split; try done|done|done|..].
    + unfold drv at 1. cbn. rewrite Hpul. unfold pulsed. case_match; [apply u32_range|done].
    + intros last0 Hlast0. unfold drv at 1. cbn [w_drv sy_world]. rewrite Hpul. unfold pulsed, channel_queue. cbn.
      destruct (decide (ch = 0)) as [->|Hne].
      * rewrite Hlast in Hlast0. injection Hlast0 as ->. cbn. rewrite Hts, Z.add_0_r.
        destruct (ts_ne _ _); cbn; rewrite ?Z.add_0_r; [done|]. symmetry. by apply u32_id.
      * rewrite bool_decide_eq_false_2 by done. cbn. rewrite Z.add_0_r. symmetry. by apply u32_id.
    + intros last0 Hlast0. unfold drv at 1, channel_queue. cbn. rewrite Hst.
      destruct (decide (ch = 0)) as [->|Hne].
      * rewrite Hlast in Hlast0. injection Hlast0 as ->. exists (stamped last0 now).
        split; [by apply rd_upd_eq, (rd_in_bounds _ _ last0)|]. intros q. cbn. rewrite Hts. lia.
      * exists last0. split; [|done]. destruct Ha as (? & ? & ? & ? & Hch & _). by rewrite rd_upd_ne by lia.
  - intros ls (last' & now' & pixels & tofs & _ & Hlast' & Hts' & _ & _ & _ & _ & _ & _ & Hls).
    rewrite Hlast in Hlast'. rewrite Hts in Hts'. injection Hlast' as <-. injection Hts' as <-.
    unfold arriving_at, drv. cbn. by rewrite Hper, Hst, Hti.
Qed.

Lemma recorded_nil x numDet data : collecting x numDet data → recorded [] x x numDet data.
Proof.
  intros Hc. split; [done|done|done|..]; intros last Hlast; cbn.
  - rewrite Z.add_0_r, u32_id; [done|apply Hc].
  - by exists last.
Qed.

Lemma recorded_cons l ls x y z numDet data :
  recorded [l] x y numDet data →
  recorded ls y z numDet (foldl bump data (all_cells (fetched (drv x) numDet) numDet (arrived [l]))) →
  recorded (l :: ls) x z numDet data.
Proof.
  intros [C1 S1 P1 N1 T1] [C2 S2 P2 N2 T2].
  assert (∀ k, arrived (l :: k) = arrived [l] ++ arrived k) as Ha
    by (intros k; unfold arrived; cbn; by rewrite app_nil_r).
  assert (channel_queue 0 (l :: ls) = channel_queue 0 [l] ++ channel_queue 0 ls) as Hq
    by (unfold channel_queue; cbn; by rewrite app_nil_r).
  split.
  - rewrite Ha, all_cells_app, foldl_app. by rewrite (same_setup_cells _ _ _ _ S1) in C2.
  - by etrans.
  - by etrans.
  - intros last Hlast. destruct (T1 last Hlast) as (last' & Hlast' & Hadd).
    rewrite (N2 last' Hlast'), (N1 last Hlast), Hq, Hadd, u32_add_l. f_equal. lia.
  - intros last Hlast. destruct (T1 last Hlast) as (last' & Hlast' & Hadd).
    destruct (T2 last' Hlast') as (last2 & Hlast2 & Hadd2). exists last2. split; [done|].
    intros q. rewrite Hq, <-app_assoc, !Hadd, Hadd2. lia.
Qed.

Lemma arriving_head x l ls : arriving_at x (l :: ls) → arriving_at x [l].
Proof. destruct l; cbn; [done..|]. unfold arriving_at. cbn. naive_solver. Qed.

Lemma recorded_run ls x y numDet data :
  collecting x numDet data → Forall goes_on ls → arriving_at x ls →
  all_convert (fetched (drv x) numDet) numDet (arrived ls) → run E ls x y →
  recorded ls x y numDet data.
Proof.
  revert x data. induction ls as [|l ls IH]; intros x data Hc Hls Ha Hconv Hrun.
  { inversion Hrun as [|ls' l' ? ? ? ? ? E0]; subst; [by apply recorded_nil|by destruct ls']. }
  apply run_uncons in Hrun as (x1 & Hstep & Hrun). apply Forall_cons in Hls as [Hl Hls].
  unfold arrived in Hconv. cbn [mbind list_bind] in Hconv. apply Forall_app in Hconv as [Hconv1 Hconv].
  destruct (recorded_step l x x1 numDet data Hc Hl (arriving_head _ _ _ Ha) Hconv1 Hstep) as [H1 Hnext].
  eapply recorded_cons; [exact H1|]. apply IH; [apply H1|done|by apply Hnext| |done].
  eapply same_setup_converts; [apply H1|exact Hconv].
Qed.

(** The next structure is taken. *)
Lemma arrival_step x numDet data pv ch secs nsecs :
  collecting x numDet data → arriving_at x [LMonitor pv ch secs nsecs] →
  all_convert (fetched (drv x) numDet) numDet (pv_events pv) →
  sy_evDepth x <= 0 → sy_frDepth x <= 0 → ∃ z, step E (LMonitor pv ch secs nsecs) x z.
Proof.
  intros Hc Ha Hconv He Hf.
  destruct (wp_arrival pv ch secs nsecs x numDet data [] Hc Ha Hconv) as (? & ? & _ & _ & Hwp).
  unfold wp_ok, wp in Hwp. destruct x as [w t f ew fw ke kf]. unfold drv in Hwp. cbn in *.
  destruct (eventHandler _ _ _ _ _) as [[[]|e|u] d'] eqn:Es; [|done..]. eexists. by econstructor.
Qed.
End recording.

(** ** The start *)

Section starting.
Context {L TS : Type} {PL : ParamLib param L} {DL : DriverLib L} {TL : TimeStampLib TS}.
Context (codes : ADStatus_t) (calloc_ok : Z → Z → bool) (net : network).
Local Abbreviation D := (driver L TS transform).
Local Abbreviation W := (world L TS transform).

(** The buffer is laid out, or it can be. *)
Definition buffer_ready (d : D) (numDet tofMax : Z) (size : Z → Z) : Prop :=
  (m_dataAlloc d = false ∧ layout d numDet tofMax size) ∨
  (m_dataAlloc d = true ∧ (∀ n, calloc_ok n 4 = true) ∧
   ∃ pstart pend psize, size = esize pstart pend psize ∧
     alloc_pre (params d) numDet tofMax pstart pend psize).

Lemma buffer_alloc_ready d numDet tofMax size :
  buffer_ready d numDet tofMax size → alloc_ready calloc_ok d.
Proof.
  intros [[Ha Hl]|(Ha & Hc & pstart & pend & psize & _ & Hpre)]; [left|right].
  - split; [done|apply (lay_data _ _ _ _ Hl)].
  - split; [done|]. split; [done|]. by exists numDet, tofMax, pstart, pend, psize.
Qed.

Lemma wp_laid_out d numDet tofMax size :
  buffer_ready d numDet tofMax size →
  wp_ok (allocArray calloc_ok) (λ st d', st = asynSuccess ∧ layout d' numDet tofMax size) d.
Proof.
  intros [[Ha Hl]|(Ha & Hc & pstart & pend & psize & -> & Hpre)].
  - unfold wp_ok, allocArray. wp_steps. rewrite Ha. cbn [negb]. by wp_steps.
  - eapply wp_mono; [by eapply allocArray_layout| |done]. intros st d' (? & ? & _). done.
Qed.

Lemma steady_allocArray : stable (steady configured false false) (allocArray calloc_ok : M D _).
Proof.
  unfold allocArray, alloc_det, det_size, publish_pix, alloc_tof, alloc_buffer. steady_split.
Qed.

(** What a start does after the buffer is laid out. *)
Ltac started_leaf :=
  idtac; lazymatch goal with
  | |- stable _ (on_pva _) => apply stable_on_pva; exact _
  | |- stable _ (on_drv _) => apply stable_on_drv; unfold read_names, getString, clear_data, unlock; steady_split
  end.

Lemma steady_connect_all n names :
  stable (on_world (steady used true false)) (connect_all codes net n names : M W bool).
Proof.
  apply stable_connect_all; [exact _|..]; intros; [|by apply steady_setString].
  by apply steady_setInt.
Qed.

Lemma event_started t (w w' : W) t' :
  e_pc t = EvWaitStart → event_step codes calloc_ok net t true w = (Ok t', w') →
  e_pc t' = EvAcquire →
  ∃ d1, allocArray calloc_ok (on_lockDepth (λ n, n + 1) (w_drv w)) = (Ok asynSuccess, d1) ∧
    steady used true false d1 (w_drv w').
Proof.
  intros Hpc Es Hpc'. unfold event_step in Es. rewrite Hpc in Es.
  apply bind_Ok in Es as ([[[acquire error] n] names] & w4 & Er & Es).
  apply bind_Ok in Er as ([] & w1 & [= <-] & Er). apply bind_Ok in Er as (n0 & w2 & [= <- <-] & Er).
  apply bind_Ok in Er as ([error' names'] & w3 & E3 & [= <- <- <- <- <-]).
  apply bind_Ok in Es as ([] & w5 & E5 & Es). apply bind_Ok in Es as (? & w6 & E6 & Es).
  apply bind_Ok in Es as ([] & w7 & E7 & Es).
  destruct error'; cbn [negb] in Es; [by apply bind_Ok in Es as (? & ? & _ & [= <- _])|].
  injection E5 as <-. injection Es as <- <-.
  unfold event_setup in E3. apply bind_Ok in E3 as (st & wa & Ea & E3). unfold on_drv in Ea. cbn in Ea.
  destruct (allocArray calloc_ok _) as [o d1] eqn:Ea1. injection Ea as -> <-.
  case_decide as Hst; [by apply bind_Ok in E3 as (? & ? & _ & [=])|].
  assert (st = asynSuccess) as -> by (by destruct (decide (st = asynSuccess)); [|tauto]).
  exists d1. split; [done|].
  transitivity (w_drv w3); [|transitivity (w_drv w6)].
  - apply (stable_run (on_world (steady used true false))) in E3; [exact E3|].
    stable_split ltac:(idtac; first [apply steady_connect_all | started_leaf]).
  - apply (stable_run (on_world (steady used true false))) in E6; [exact E6|]. stable_split started_leaf.
  - apply (stable_run (on_world (steady used true false))) in E7; [exact E7|]. stable_split started_leaf.
Qed.
End starting.

(** ** From a start to the end of a run *)

Section acquisition.
Context {L TS : Type} {PL : ParamLib param L} {DL : DriverLib L} {TL : TimeStampLib TS}.
Context {TR : Transformer transform} {TRL : TransformerLaws transform} (E : environment L).
Hypothesis HE : env_ok E.
Local Abbreviation D := (driver L TS transform).
Local Abbreviation system := (system (L := L) (TS := TS)).

(** The event task has taken a start; [n] channels with the given names, [numDet]
    detectors and the buffer are configured, and the driver is not paused. *)
Record starting (mem : memory) (x : system) (n : Z) (name : Z → string) (numDet tofMax : Z) (size : Z → Z)
    (r : Z → detvals) : Prop := {
  sg_pc : e_pc (sy_ev x) = EvWaitStart ∧ sy_evWoken x = Some true;
  sg_length : length (e_pvName (sy_ev x)) = Z.to_nat ADNED_MAX_CHANNELS;
  sg_pva : pva_ok (w_pva (sy_world x));
  sg_range : 0 <= n <= ADNED_MAX_CHANNELS;
  sg_channels : int_is (params (drv x)) 0 ADnEDNumChannelsParam n;
  sg_names chan : 0 <= chan < n → name_is (drv x) chan (name chan);
  sg_wanted chan : 0 <= chan < n → name_used (name chan);
  sg_pause : not_paused (drv x);
  sg_buffer : buffer_ready (mem 0%nat) (drv x) numDet tofMax size;
  sg_config det : 1 <= det <= numDet → detector_config (drv x) tofMax (size det) det (r det)
}.

Lemma start_ready_lock mem (d : D) n name numDet tofMax size k ke :
  0 <= n <= ADNED_MAX_CHANNELS → int_is (params d) 0 ADnEDNumChannelsParam n →
  (∀ chan, 0 <= chan < n → name_is d chan (name chan)) →
  (∀ chan, 0 <= chan < n → name_used (name chan)) →
  buffer_ready (mem 0%nat) d numDet tofMax size →
  start_ready (mem 0%nat) (at_depth ke d) n name ∧
  buffer_ready (mem 0%nat) (on_lockDepth k (at_depth ke d)) numDet tofMax size.
Proof.
  intros Hn Hch Hname Hw Hb.
  assert (∀ k', buffer_ready (mem 0%nat) (on_lockDepth k' (at_depth ke d))
    numDet tofMax size) as Hb'.
  { intros k'. destruct Hb as [[Ha []]|Hb]; [left|right]; destruct d; [by split|done]. }
  split; [|apply Hb'].
  split; [|done|by destruct d|by destruct d|done].
  apply (buffer_alloc_ready _ _ numDet tofMax size). specialize (Hb' id). by destruct d.
Qed.

(** The state after the start. *)
Lemma start_collects mem x y n name numDet tofMax size r :
  starting mem x n name numDet tofMax size r →
  (∀ chan, 0 <= chan < n → net_up (en_net E) (name chan)) →
  memory_ok (drv x) → in_protocol E x → step E (LEvent true mem) x y →
  collecting E y numDet (replicate (Z.to_nat (sum_to size numDet + numDet * (tofMax + 1))) 0) ∧
  (∀ det, 1 <= det <= numDet →
     rd (m_det (fetched (drv y) numDet)) det = Some (laid_out_detector numDet tofMax size r det)) ∧
  period_of (drv y) = period_of (drv x) ∧ m_lastTimeSecs (drv y) = m_lastTimeSecs (drv x) ∧
  m_TimeStampLast (drv y) = m_TimeStampLast (drv x) ∧ m_pulseCounter (drv y) = m_pulseCounter (drv x).
Proof.
  intros [[Hpc _] Hlen Hpva Hn Hch Hname Hwant Hpause Hbuf Hcfg] Hnet Hmem Hp Hstep.
  pose proof (step_protocol E HE _ _ _ Hstep Hp) as Hp'.
  inversion Hstep as [|sig mem' w t f fw ke kf t' w' _ Es| | | |]; subst. unfold drv in *. cbn in *.
  set (d0 := at_depth ke (w_drv w)) in *.
  destruct (start_ready_lock mem (w_drv w) n name numDet tofMax size (λ k, k + 1) ke Hn Hch Hname Hwant Hbuf)
    as [Hready Hbuf']. fold d0 in Hready, Hbuf'.
  pose proof (wp_start (en_codes E) (mem 0%nat) (en_net E) t d0 (w_pva w) n name Hpc Hlen Hready
    Hpva Hnet) as Hwp.
  pose proof (wp_result _ _ _ _ _ Hwp Es) as (Hpc' & _ & _ & _ & Hclear & _).
  destruct (event_started _ _ _ t _ _ t' Hpc Es Hpc') as (d1 & Ea & Hrest).
  pose proof (wp_result _ _ _ _ _ (wp_laid_out _ _ _ _ _ Hbuf') Ea) as [_ Hlay].
  pose proof (steady_allocArray _ _ _ _ Ea) as Halloc. cbn in Ea, Halloc.
  assert (steady configured false false (w_drv w) (on_lockDepth (λ k, k + 1) d0)) as Hd0
    by (unfold d0; destruct (w_drv w); by split).
  assert (steady configured false false (w_drv w) d1) as Halloc' by by etrans.
  destruct (sd_sizes _ _ _ _ _ Hrest eq_refl) as (_ & _ & Eb).
  assert (m_bufferMaxSize (w_drv w') = sum_to size numDet + numDet * (tofMax + 1)) as Esize
    by (rewrite Eb; apply Hlay).
  unfold cleared in Hclear. rewrite Esize in Hclear.
  assert (0 <= sum_to size numDet + numDet * (tofMax + 1)) as Hpos.
  { destruct (lay_data _ _ _ _ Hlay) as (data & _ & Hl). rewrite <-Eb, Esize in Hl. lia. }
  assert (Z.of_nat (length (replicate (Z.to_nat (sum_to size numDet + numDet * (tofMax + 1))) 0))
    = m_bufferMaxSize (w_drv w')) as Hl by (rewrite length_replicate; lia).
  split_and!.
  - split; unfold drv; cbn; [done|done|by apply Hrest, Halloc'| |].
    + by eapply (layout_delivering (w_drv w) d1 (w_drv w') numDet tofMax size r).
    + rewrite (sd_pulses _ _ _ _ _ Hrest), (sd_pulses _ _ _ _ _ Halloc'). apply Hmem.
  - by apply (fetched_laid_out (w_drv w) d1 (w_drv w') numDet tofMax size r).
  - unfold period_of. rewrite (sd_double _ _ _ _ _ Hrest), (sd_double _ _ _ _ _ Halloc'); done.
  - by rewrite (sd_time _ _ _ _ _ Hrest), (sd_time _ _ _ _ _ Halloc').
  - by rewrite (sd_stamps _ _ _ _ _ Hrest), (sd_stamps _ _ _ _ _ Halloc').
  - by rewrite (sd_pulses _ _ _ _ _ Hrest), (sd_pulses _ _ _ _ _ Halloc').
Qed.

End acquisition.

(** ** A concrete acquisition *)

(** After the session's configuration, its START and the end of the wait for it: two
    structures on channel 0 and one on channel 1, between steps of the frame task, a
    refused and an accepted request, and a STOP whose event the event task has taken
    without going on yet. *)
Definition sample_run_labels : list (label (TS := stamp)) :=
  [LMonitor sample_pv 0 2 0; LFrameWait false; LFrame false;
   LMonitor (PvStruct (Attached (Stamp 1 5 0)) (Some (f_of_Z 1)) (Some [13; 99]) (Some [0; 1])) 1 4 0;
   LClient (asynSuccess, 0) (WriteInt32 ADnEDTOFMaxParam 6) memory_always asynError;
   LEventWait false; LFrameWait true; LEvent false memory_always; LFrame true;
   accepted_write 1 (WriteOctet ADnEDPVNameParam "BL1:B" 5 false);
   LMonitor (PvStruct (Attached (Stamp 2 0 1)) (Some (f_of_Z 1)) (Some [12]) (Some [5])) 0 6 0;
   accepted_write 0 (WriteInt32 ADnEDStopParam 1);
   LEventWait true].

Definition sample_wait : system := Eval vm_compute in session_state 12.

Lemma sample_wait_eq : session_state 12 = sample_wait.
Proof. vm_compute. reflexivity. Qed.

Definition sample_started : system :=
  default (sys_new sample_ctor) (exec sample_env (LEvent true memory_always) sample_wait).

Definition sample_end : system :=
  default (sys_new sample_ctor) (exec_all sample_env sample_run_labels sample_started).

Lemma sample_start_step : step sample_env (LEvent true memory_always) sample_wait sample_started.
Proof. apply exec_step. vm_compute. reflexivity. Qed.

Lemma sample_end_run : run sample_env sample_run_labels sample_started sample_end.
Proof. apply exec_all_run. vm_compute. reflexivity. Qed.

Definition sample_det1 : detvals :=
  read_detector (params (drv sample_wait)) 1 detvals_zero.

Lemma sample_config det :
  1 <= det <= 1 → detector_config (drv sample_wait) 5 (esize (λ _, 10) (λ _, 13) (λ _, 0) det) det sample_det1.
Proof.
  intros Hdet. assert (det = 1) as -> by lia. split.
  - done.
  - intros p old. destruct p; intros; try discriminate; vm_compute; reflexivity.
  - intros p old. destruct p; intros; try discriminate; vm_compute; reflexivity.
  - apply (bool_decide_unpack _). vm_compute. exact I.
  - vm_compute. reflexivity.
  - intros k Hk. exists k. change (0 <= k <= 3) in Hk. split; [done|].
    change (0 <= k < 4). lia.
  - intros H. exfalso. apply H. vm_compute. reflexivity.
  - apply (bool_decide_unpack _). vm_compute. exact I.
  - left. vm_compute. reflexivity.
  - apply (bool_decide_unpack _). vm_compute. exact I.
  - intros H. exfalso. apply H. vm_compute. reflexivity.
Qed.

Lemma sample_starting :
  starting memory_always sample_wait 1 (λ _, "BL1:A") 1 5 (esize (λ _, 10) (λ _, 13) (λ _, 0))
    (λ _, sample_det1).
Proof.
  split.
  - split; vm_compute; reflexivity.
  - vm_compute. reflexivity.
  - assert (w_pva (sy_world sample_wait) = pva_new) as -> by (vm_compute; reflexivity).
    apply pva_new_ok.
  - unfold ADNED_MAX_CHANNELS. lia.
  - intros old. vm_compute. reflexivity.
  - intros chan Hc old. assert (chan = 0) as -> by lia. vm_compute. reflexivity.
  - intros chan Hc. apply (bool_decide_unpack _). vm_compute. exact I.
  - vm_compute. reflexivity.
  - right. split; [vm_compute; reflexivity|]. split; [done|]. exists (λ _, 10), (λ _, 13), (λ _, 0).
    split; [done|]. split.
    1-2: intros old; vm_compute; reflexivity.
    1-3: intros det Hdet old; assert (det = 1) as -> by lia; vm_compute; reflexivity.
    + unfold ADNED_MAX_DETS. lia.
    + done.
    + intros det _. done.
    + vm_compute. reflexivity.
  - apply sample_config.
Qed.

Lemma sample_arriving : arriving_at sample_wait sample_run_labels.
Proof.
  exists (Stamp 0 0 0), (Stamp 1 0 0), [10; 11; 11], [1; 2; 3].
  do 8 (split; [first [reflexivity|by eexists]|]).
  split; [apply (sample_due _ (f_of_Z 2) 2); [by vm_compute..|lia]|].
  exists (Stamp 0 0 0), (Stamp 1 5 0), [13; 99], [0; 1].
  do 8 (split; [first [reflexivity|by eexists]|]).
  split; [apply (sample_due _ (f_of_Z 2) 2); [by vm_compute..|lia]|].
  exists (Stamp 1 0 0), (Stamp 2 0 1), [12], [5].
  do 8 (split; [first [reflexivity|by eexists]|]).
  split; [apply (sample_due _ (f_of_Z 2) 2); [by vm_compute..|lia]|done].
Qed.

Lemma sample_run_converts :
  all_convert (fetched (drv sample_started) 1) 1 (arrived sample_run_labels).
Proof. apply (bool_decide_eq_true_1 _). vm_compute. reflexivity. Qed.

